(** * Statement extractors: a shallow embedding of the parsing core

    The development follows the four extractors of the repository
    (banorte_extractor.py, santander_extractor.py, bbva_extractor.py,
    inbursa_extractor.py).  Each Python function that a property below talks
    about is embedded as a Rocq function of the same name.

    Conventions of the embedding.
    - A Python [str] is a list of Unicode code points ([str := list N]);
      literals are written as UTF-8 Rocq strings and decoded by [U].
    - A Python [float] is an exact rational ([Q]).  Every money value the
      extractors build comes from a two-decimal literal, on which Python's
      [round(x, 2)] is the identity, as it is for [round2] here.  The
      arithmetic of [_group_rows], whose result depends on how a quotient
      is rounded, is that of IEEE 754 binary64 numbers ([PyNum.float]).
    - [re] patterns are kept verbatim and compiled by [Re.compile] to a small
      backtracking matcher with the priorities of Python's engine (leftmost
      match, alternatives in order, greedy or lazy repetition).
    - Character classes ([\s], [\d], [\w], case folding, [str.upper]) are
      exact on U+0000..U+00FF, the alphabet of the statements, and treat the
      listed Unicode spaces as spaces; digits and letters of other scripts
      are outside the model.  [str.upper] gives two letters for the sharp s
      and leaves U+0000..U+00FF for the micro sign and the y with
      diaeresis, as Python does. *)

From Stdlib Require Import String Ascii.
From Stdlib Require Import List Bool Arith NArith ZArith QArith Qround Qabs Lia.
From Stdlib Require Import Sorting.Sorted Sorting.Permutation.
Import ListNotations.

Set Implicit Arguments.

(* ===================================================================== *)
(** * Python strings *)
(* ===================================================================== *)

Module Py.

Definition char := N.
Definition str := list char.

Local Open Scope N_scope.

(** UTF-8 decoding of a Rocq string literal into code points. *)
Fixpoint bytes_of (s : string) : list N :=
  match s with
  | EmptyString => []
  | String a rest => N_of_ascii a :: bytes_of rest
  end.

Fixpoint utf8_decode (bs : list N) : str :=
  match bs with
  | [] => []
  | b0 :: rest =>
      if b0 <? 128 then b0 :: utf8_decode rest
      else if b0 <? 224 then
        match rest with
        | b1 :: rest1 => ((b0 - 192) * 64 + (b1 - 128)) :: utf8_decode rest1
        | [] => [b0]
        end
      else if b0 <? 240 then
        match rest with
        | b1 :: b2 :: rest2 =>
            ((b0 - 224) * 4096 + (b1 - 128) * 64 + (b2 - 128)) :: utf8_decode rest2
        | _ => [b0]
        end
      else
        match rest with
        | b1 :: b2 :: b3 :: rest3 =>
            ((b0 - 240) * 262144 + (b1 - 128) * 4096 + (b2 - 128) * 64 + (b3 - 128))
              :: utf8_decode rest3
        | _ => [b0]
        end
  end.

Definition U (s : string) : str := utf8_decode (bytes_of s).

(** Code points used by name. *)
Definition c_space : char := 32.
Definition c_nbsp : char := 160.
Definition c_newline : char := 10.
Definition c_underscore : char := 95.

Definition in_range (lo hi c : char) : bool := (lo <=? c) && (c <=? hi).

(** [str.isspace] on one code point; also the class [\s]. *)
Definition is_space (c : char) : bool :=
  in_range 9 13 c || in_range 28 32 c || (c =? 133) || (c =? 160)
  || (c =? 5760) || in_range 8192 8202 c || (c =? 8232) || (c =? 8233)
  || (c =? 8239) || (c =? 8287) || (c =? 12288).

(** The class [\d], on the modelled alphabet. *)
Definition is_digit (c : char) : bool := in_range 48 57 c.

Definition is_ascii_upper (c : char) : bool := in_range 65 90 c.
Definition is_ascii_lower (c : char) : bool := in_range 97 122 c.

(** Latin-1 letters with a case partner: U+00C0..U+00DE and U+00E0..U+00FE,
    the multiplication and division signs excluded. *)
Definition is_latin_upper (c : char) : bool := in_range 192 222 c && negb (c =? 215).
Definition is_latin_lower (c : char) : bool := in_range 224 254 c && negb (c =? 247).

Definition upper_char (c : char) : char :=
  if is_ascii_lower c || is_latin_lower c then c - 32 else c.

(** [c.upper()] for one code point: the sharp s gives the two letters SS,
    the micro sign the Greek capital mu (U+039C), the y with diaeresis its
    capital (U+0178). *)
Definition upper_of (c : char) : str :=
  if c =? 223 then [83; 83]
  else if c =? 181 then [924]
  else if c =? 255 then [376]
  else [upper_char c].
Definition lower_char (c : char) : char :=
  if is_ascii_upper c || is_latin_upper c then c + 32 else c.

(** [str.isalnum] or underscore: the class [\w]. *)
Definition is_word (c : char) : bool :=
  is_digit c || is_ascii_upper c || is_ascii_lower c || (c =? c_underscore)
  || (c =? 170) || (c =? 178) || (c =? 179) || (c =? 181) || (c =? 185) || (c =? 186)
  || in_range 188 190 c
  || in_range 192 214 c || in_range 216 246 c || in_range 248 591 c.

Fixpoint str_eqb (a b : str) : bool :=
  match a, b with
  | [], [] => true
  | x :: a', y :: b' => (x =? y) && str_eqb a' b'
  | _, _ => false
  end.

(** [s.startswith(p)] *)
Fixpoint startswith (p s : str) : bool :=
  match p, s with
  | [], _ => true
  | x :: p', y :: s' => (x =? y) && startswith p' s'
  | _ :: _, [] => false
  end.

(** [needle in hay] *)
Fixpoint str_in (needle hay : str) : bool :=
  startswith needle hay ||
  match hay with
  | [] => false
  | _ :: hay' => str_in needle hay'
  end.

(** [s.replace(old, new)] for a non-empty [old]: left to right, no overlap. *)
Fixpoint replace_fuel (fuel : nat) (old new s : str) : str :=
  match fuel with
  | O => s
  | S fuel' =>
      match s with
      | [] => []
      | c :: s' =>
          if startswith old s
          then new ++ replace_fuel fuel' old new (skipn (length old) s)
          else c :: replace_fuel fuel' old new s'
      end
  end.

Definition replace (old new s : str) : str :=
  match old with
  | [] => s
  | _ => replace_fuel (S (length s)) old new s
  end.

Fixpoint lstrip_by (p : char -> bool) (s : str) : str :=
  match s with
  | [] => []
  | c :: s' => if p c then lstrip_by p s' else s
  end.

Definition rstrip_by (p : char -> bool) (s : str) : str :=
  rev (lstrip_by p (rev s)).

Definition strip_by (p : char -> bool) (s : str) : str :=
  rstrip_by p (lstrip_by p s).

(** [s.strip()], [s.rstrip()] *)
Definition strip : str -> str := strip_by is_space.
Definition rstrip : str -> str := rstrip_by is_space.

(** [s.strip(chars)] *)
Definition strip_chars (chars : str) : str -> str :=
  strip_by (fun c => existsb (N.eqb c) chars).

(** [s.upper()], [s.lower()] *)
Definition upper (s : str) : str := flat_map upper_of s.
Definition lower (s : str) : str := map lower_char s.

(** [sep.join(parts)] *)
Fixpoint join (sep : str) (parts : list str) : str :=
  match parts with
  | [] => []
  | [p] => p
  | p :: rest => p ++ sep ++ join sep rest
  end.

(** [s[a:b]] for [0 <= a], [0 <= b]. *)
Definition slice (a b : nat) (s : str) : str := firstn (b - a) (skipn a s).

(** Truthiness of a string. *)
Definition nonempty (s : str) : bool :=
  match s with [] => false | _ => true end.

End Py.

(* ===================================================================== *)
(** * Python regular expressions *)
(* ===================================================================== *)

Module Re.
Import Py.
Local Open Scope N_scope.

(** ** Abstract syntax *)

Inductive citem : Type :=
| CRange (lo hi : char)
| CDigit | CSpace | CWord
| CNotDigit | CNotSpace | CNotWord.

Record cset : Type := mk_cset { cs_neg : bool; cs_items : list citem }.

Inductive re : Type :=
| Eps
| Chr (icase : bool) (cs : cset)
| Seq (a b : re)
| Alt (a b : re)
| Rep (a : re) (lo : nat) (hi : option nat) (greedy : bool)
| Group (n : nat) (a : re)
| Bol (multiline : bool)
| Eol (multiline : bool)
| WordB.

Definition citem_mem (it : citem) (c : char) : bool :=
  match it with
  | CRange lo hi => in_range lo hi c
  | CDigit => is_digit c
  | CSpace => is_space c
  | CWord => is_word c
  | CNotDigit => negb (is_digit c)
  | CNotSpace => negb (is_space c)
  | CNotWord => negb (is_word c)
  end.

Definition cset_hit (cs : cset) (c : char) : bool :=
  existsb (fun it => citem_mem it c) (cs_items cs).

(** Membership in a class; under IGNORECASE a character also matches through
    its lower-case or upper-case partner. *)
Definition cset_mem (icase : bool) (cs : cset) (c : char) : bool :=
  xorb (cs_neg cs)
       (cset_hit cs c
        || (icase && (cset_hit cs (lower_char c) || cset_hit cs (upper_char c)))).

Definition single (c : char) : cset := mk_cset false [CRange c c].
Definition any_char : cset := mk_cset true [].
Definition not_newline : cset := mk_cset true [CRange c_newline c_newline].
Definition never : re := Chr false (mk_cset false []).

(** ** Concrete syntax *)

Record flags : Type := mk_flags
  { f_icase : bool; f_dotall : bool; f_multiline : bool; f_verbose : bool }.

Definition no_flags : flags := mk_flags false false false false.

Definition add_flag (fl : flags) (c : char) : option flags :=
  if (c =? 105)%N then Some (mk_flags true (f_dotall fl) (f_multiline fl) (f_verbose fl))
  else if (c =? 115)%N then Some (mk_flags (f_icase fl) true (f_multiline fl) (f_verbose fl))
  else if (c =? 109)%N then Some (mk_flags (f_icase fl) (f_dotall fl) true (f_verbose fl))
  else if (c =? 120)%N then Some (mk_flags (f_icase fl) (f_dotall fl) (f_multiline fl) true)
  else None.

(** The letters of an inline group [(?imsx)], up to the closing parenthesis. *)
Fixpoint parse_flag_letters (fl : flags) (s : str) : option (flags * str) :=
  match s with
  | [] => None
  | c :: s' =>
      if (c =? 41)%N then Some (fl, s')
      else match add_flag fl c with
           | Some fl' => parse_flag_letters fl' s'
           | None => None
           end
  end.

Fixpoint parse_nat_acc (acc : nat) (s : str) : nat * str :=
  match s with
  | c :: s' => if is_digit c then parse_nat_acc (10 * acc + N.to_nat (c - 48)%N)%nat s' else (acc, s)
  | [] => (acc, s)
  end.

(** The class or literal denoted by the character after a backslash. *)
Definition escape_item (c : char) : option citem :=
  if (c =? 100)%N then Some CDigit
  else if (c =? 115)%N then Some CSpace
  else if (c =? 119)%N then Some CWord
  else if (c =? 68)%N then Some CNotDigit
  else if (c =? 83)%N then Some CNotSpace
  else if (c =? 87)%N then Some CNotWord
  else if (c =? 110)%N then Some (CRange 10 10)
  else if (c =? 116)%N then Some (CRange 9 9)
  else if (c =? 114)%N then Some (CRange 13 13)
  else if (c =? 102)%N then Some (CRange 12 12)
  else if (c =? 118)%N then Some (CRange 11 11)
  else if is_digit c || is_ascii_upper c || is_ascii_lower c then None
  else Some (CRange c c).

(** One member of a bracketed class: a literal, an escape, or the low end of
    a range. Returns the item and the rest of the pattern. *)
Definition class_atom (s : str) : option (citem * str) :=
  match s with
  | [] => None
  | c :: s' =>
      if (c =? 92)%N then
        match s' with
        | e :: s'' => match escape_item e with
                      | Some it => Some (it, s'')
                      | None => None
                      end
        | [] => None
        end
      else Some (CRange c c, s')
  end.

Fixpoint parse_class_items (fuel : nat) (first : bool) (acc : list citem) (s : str)
  : option (list citem * str) :=
  match fuel with
  | O => None
  | S fuel' =>
      match s with
      | [] => None
      | c :: s' =>
          if (c =? 93)%N && negb first then Some (rev acc, s')
          else
            match class_atom s with
            | None => None
            | Some (it, rest) =>
                match it, rest with
                | CRange lo _, d :: hi_s =>
                    if (d =? 45)%N then
                      match hi_s with
                      | h :: _ =>
                          if (h =? 93)%N then parse_class_items fuel' false (it :: acc) rest
                          else match class_atom hi_s with
                               | Some (CRange hi _, rest') =>
                                   parse_class_items fuel' false (CRange lo hi :: acc) rest'
                               | _ => None
                               end
                      | [] => None
                      end
                    else parse_class_items fuel' false (it :: acc) rest
                | _, _ => parse_class_items fuel' false (it :: acc) rest
                end
            end
      end
  end.

Definition parse_class (s : str) : option (cset * str) :=
  let '(neg, s1) := match s with
                    | c :: s' => if (c =? 94)%N then (true, s') else (false, s)
                    | [] => (false, s)
                    end in
  match parse_class_items (S (length s1)) true [] s1 with
  | Some (items, rest) => Some (mk_cset neg items, rest)
  | None => None
  end.

(** A quantifier after an atom: [?], [*], [+], [{m}], [{m,}], [{m,n}], each
    optionally followed by [?] for the lazy variant. *)
Definition parse_bounds (s : str) : option (nat * option nat * str) :=
  match s with
  | c :: s' =>
      if (c =? 63)%N then Some (0%nat, Some 1%nat, s')
      else if (c =? 42)%N then Some (0%nat, None, s')
      else if (c =? 43)%N then Some (1%nat, None, s')
      else if (c =? 123)%N then
        let '(lo, s1) := parse_nat_acc 0%nat s' in
        match s1 with
        | d :: s2 =>
            if (d =? 125)%N then Some (lo, Some lo, s2)
            else if (d =? 44)%N then
              match s2 with
              | e :: s3 =>
                  if (e =? 125)%N then Some (lo, None, s3)
                  else let '(hi, s4) := parse_nat_acc 0%nat s2 in
                       match s4 with
                       | f :: s5 => if (f =? 125)%N then Some (lo, Some hi, s5) else None
                       | [] => None
                       end
              | [] => None
              end
            else None
        | [] => None
        end
      else None
  | [] => None
  end.

Definition parse_quant (a : re) (s : str) : re * str :=
  match parse_bounds s with
  | Some (lo, hi, rest) =>
      match rest with
      | q :: rest' => if (q =? 63)%N then (Rep a lo hi false, rest') else (Rep a lo hi true, rest)
      | [] => (Rep a lo hi true, rest)
      end
  | None => (a, s)
  end.

(** Verbose mode: white space and [#] comments of the pattern are skipped. *)
Fixpoint skip_comment (s : str) : str :=
  match s with
  | [] => []
  | c :: s' => if (c =? 10)%N then s' else skip_comment s'
  end.

Fixpoint skip_verbose (fuel : nat) (s : str) : str :=
  match fuel with
  | O => s
  | S fuel' =>
      match s with
      | c :: s' =>
          if is_space c then skip_verbose fuel' s'
          else if (c =? 35)%N then skip_verbose fuel' (skip_comment s')
          else s
      | [] => []
      end
  end.

Definition skip_ws (fl : flags) (s : str) : str :=
  if f_verbose fl then skip_verbose (S (length s)) s else s.

Fixpoint parse_alt (fuel : nat) (fl : flags) (g : nat) (s : str) {struct fuel}
  : option (re * nat * str) :=
  match fuel with
  | O => None
  | S fuel' =>
      match parse_seq fuel' fl g s with
      | None => None
      | Some (a, g1, rest) =>
          match rest with
          | c :: rest' =>
              if (c =? 124)%N then
                match parse_alt fuel' fl g1 rest' with
                | Some (b, g2, rest'') => Some (Alt a b, g2, rest'')
                | None => None
                end
              else Some (a, g1, rest)
          | [] => Some (a, g1, rest)
          end
      end
  end

with parse_seq (fuel : nat) (fl : flags) (g : nat) (s : str) {struct fuel}
  : option (re * nat * str) :=
  match fuel with
  | O => None
  | S fuel' =>
      let s0 := skip_ws fl s in
      match s0 with
      | [] => Some (Eps, g, s0)
      | c :: _ =>
          if (c =? 124)%N || (c =? 41)%N then Some (Eps, g, s0)
          else
            match parse_atom fuel' fl g s0 with
            | None => None
            | Some (a, g1, rest) =>
                let '(aq, rest1) := parse_quant a (skip_ws fl rest) in
                match parse_seq fuel' fl g1 rest1 with
                | Some (Eps, g2, rest2) => Some (aq, g2, rest2)
                | Some (b, g2, rest2) => Some (Seq aq b, g2, rest2)
                | None => None
                end
            end
      end
  end

with parse_atom (fuel : nat) (fl : flags) (g : nat) (s : str) {struct fuel}
  : option (re * nat * str) :=
  match fuel with
  | O => None
  | S fuel' =>
      match s with
      | [] => None
      | c :: s' =>
          if (c =? 40)%N then
            match s' with
            | q :: k :: body =>
                if (q =? 63)%N then
                  if (k =? 58)%N then
                    match parse_alt fuel' fl g body with
                    | Some (a, g1, d :: rest) =>
                        if (d =? 41)%N then Some (a, g1, rest) else None
                    | _ => None
                    end
                  else None
                else
                  match parse_alt fuel' fl (S g) s' with
                  | Some (a, g1, d :: rest) =>
                      if (d =? 41)%N then Some (Group g a, g1, rest) else None
                  | _ => None
                  end
            | _ => None
            end
          else if (c =? 91)%N then
            match parse_class s' with
            | Some (cs, rest) => Some (Chr (f_icase fl) cs, g, rest)
            | None => None
            end
          else if (c =? 92)%N then
            match s' with
            | e :: rest =>
                if (e =? 98)%N then Some (WordB, g, rest)
                else match escape_item e with
                     | Some it => Some (Chr (f_icase fl) (mk_cset false [it]), g, rest)
                     | None => None
                     end
            | [] => None
            end
          else if (c =? 46)%N then
            Some (Chr false (if f_dotall fl then any_char else not_newline), g, s')
          else if (c =? 94)%N then Some (Bol (f_multiline fl), g, s')
          else if (c =? 36)%N then Some (Eol (f_multiline fl), g, s')
          else if (c =? 42)%N || (c =? 43)%N || (c =? 63)%N || (c =? 123)%N then None
          else Some (Chr (f_icase fl) (single c), g, s')
      end
  end.

(** [re.compile(pattern, flags)]: the flags of the call, then an inline
    group [(?...)] at the very start of the pattern. *)
Definition compile_with (fl : flags) (p : str) : option re :=
  let '(fl1, body) :=
    match p with
    | a :: b :: rest =>
        if (a =? 40)%N && (b =? 63)%N then
          match parse_flag_letters fl rest with
          | Some (fl', rest') => (fl', rest')
          | None => (fl, p)
          end
        else (fl, p)
    | _ => (fl, p)
    end in
  match parse_alt (3 * length body + 3)%nat fl1 1%nat body with
  | Some (r, _, []) => Some r
  | _ => None
  end.

Definition IGNORECASE : flags := mk_flags true false false false.
Definition DOTALL : flags := mk_flags false true false false.

Definition must (o : option re) : re :=
  match o with Some r => r | None => never end.

(** The pattern is well formed for this parser. *)
Definition compiles (fl : flags) (p : string) : bool :=
  match compile_with fl (U p) with Some _ => true | None => false end.

(** [re.compile(p)] and [re.compile(p, flags)].  The second argument is the
    evidence that the pattern parses, so no compiled pattern of this
    development is the fallback [never]. *)
Definition compile_flags (fl : flags) (p : string) (ok : compiles fl p = true) : re :=
  must (compile_with fl (U p)).
Definition compile (p : string) (ok : compiles no_flags p = true) : re :=
  compile_flags no_flags p ok.

(** ** Matching *)

(** A match object: [m.start()], [m.end()] and the spans of the groups. *)
Record rmatch : Type := mk_match
  { m_start : nat; m_end : nat; m_groups : list (nat * (nat * nat)) }.

Definition caps := list (nat * (nat * nat)).

Definition at_bol (multiline : bool) (prev : option char) : bool :=
  match prev with
  | None => true
  | Some c => multiline && (c =? c_newline)
  end.

Definition at_eol (multiline : bool) (s : str) : bool :=
  match s with
  | [] => true
  | c :: rest =>
      (c =? c_newline) && (multiline || match rest with [] => true | _ => false end)
  end.

Definition word_before (prev : option char) : bool :=
  match prev with Some c => is_word c | None => false end.
Definition word_after (s : str) : bool :=
  match s with c :: _ => is_word c | [] => false end.
Definition at_word_boundary (prev : option char) (s : str) : bool :=
  xorb (word_before prev) (word_after s).

Definition orelse {R : Type} (a b : option R) : option R :=
  match a with Some _ => a | None => b end.

Definition hi_is_zero (hi : option nat) : bool :=
  match hi with Some O => true | _ => false end.

Section Matcher.
Variable R : Type.

(** The state of a match in progress: the character before the cursor,
    the cursor position, the text after it and the groups closed so far. *)
Definition kont := option char -> nat -> str -> caps -> option R.

(** A matcher takes the state and the continuation to run after it. *)
Definition matcher := option char -> nat -> str -> caps -> kont -> option R.

(** Repetition of [body] between [lo] and [hi] times, greedy or lazy.  An
    optional iteration that consumes nothing is not repeated. *)
Fixpoint rep_loop (body : matcher) (greedy : bool) (k : kont) (fuel : nat)
                  (lo : nat) (hi : option nat)
                  (prev : option char) (pos : nat) (s : str) (cs : caps) : option R :=
  match fuel with
  | O => None
  | S fuel' =>
      let more :=
        if hi_is_zero hi then None
        else body prev pos s cs
               (fun p' i' s' c' =>
                  if Nat.eqb i' pos && Nat.eqb lo 0 then None
                  else rep_loop body greedy k fuel' (Nat.pred lo) (option_map Nat.pred hi)
                                p' i' s' c') in
      if Nat.ltb 0 lo then more
      else if greedy then orelse more (k prev pos s cs)
      else orelse (k prev pos s cs) more
  end.

(** Backtracking matcher in continuation-passing style.  [mt r ... k] tries
    the ways [r] can match at the cursor in priority order and returns the
    first for which the continuation [k] succeeds. *)
Fixpoint mt (r : re) : matcher :=
  match r with
  | Eps => fun prev pos s cs k => k prev pos s cs
  | Chr ic set =>
      fun prev pos s cs k =>
        match s with
        | c :: s' => if cset_mem ic set c then k (Some c) (S pos) s' cs else None
        | [] => None
        end
  | Seq a b =>
      fun prev pos s cs k => mt a prev pos s cs (fun p' i' s' c' => mt b p' i' s' c' k)
  | Alt a b =>
      fun prev pos s cs k => orelse (mt a prev pos s cs k) (mt b prev pos s cs k)
  | Group n a =>
      fun prev pos s cs k =>
        mt a prev pos s cs (fun p' i' s' c' => k p' i' s' ((n, (pos, i')) :: c'))
  | Bol ml => fun prev pos s cs k => if at_bol ml prev then k prev pos s cs else None
  | Eol ml => fun prev pos s cs k => if at_eol ml s then k prev pos s cs else None
  | WordB => fun prev pos s cs k => if at_word_boundary prev s then k prev pos s cs else None
  | Rep a lo hi greedy =>
      fun prev pos s cs k =>
        rep_loop (mt a) greedy k (S (length s + lo)) lo hi prev pos s cs
  end.
End Matcher.

(** One attempt anchored at the cursor: [pattern.match]. *)
Definition match_here (r : re) (prev : option char) (pos : nat) (s : str) : option rmatch :=
  mt r prev pos s [] (fun _ i' _ c' => Some (mk_match pos i' c')).

(** [pattern.search] from the cursor: the leftmost position with a match. *)
Fixpoint search_from (r : re) (prev : option char) (pos : nat) (s : str) : option rmatch :=
  match match_here r prev pos s with
  | Some m => Some m
  | None =>
      match s with
      | [] => None
      | c :: s' => search_from r (Some c) (S pos) s'
      end
  end.

Definition search (r : re) (s : str) : option rmatch := search_from r None 0 s.
Definition rmatch_at_start (r : re) (s : str) : option rmatch := match_here r None 0 s.

(** [pattern.fullmatch]: a way to match that ends at the end of the text. *)
Definition fullmatch (r : re) (s : str) : option rmatch :=
  mt r None 0%nat s []
     (fun _ i' s' c' => match s' with [] => Some (mk_match 0 i' c') | _ => None end).

(** The character before position [n] of [s], and the text from [n] on. *)
Definition char_before (n : nat) (s : str) : option char :=
  match n with O => None | S n' => nth_error s n' end.

(** [pattern.finditer]: successive non-overlapping matches, left to right.
    After an empty match the scan resumes one character further. *)
Fixpoint finditer_fuel (fuel : nat) (r : re) (whole : str) (pos : nat) : list rmatch :=
  match fuel with
  | O => []
  | S fuel' =>
      if Nat.ltb (length whole) pos then []
      else
        match search_from r (char_before pos whole) pos (skipn pos whole) with
        | None => []
        | Some m =>
            m :: finditer_fuel fuel' r whole
                   (if Nat.eqb (m_end m) (m_start m) then S (m_end m) else m_end m)
        end
  end.

Definition finditer (r : re) (s : str) : list rmatch :=
  finditer_fuel (S (S (length s))) r s 0.

(** [m.group(0)] and [m.group(n)] relative to the searched text. *)
Definition group0 (s : str) (m : rmatch) : str := slice (m_start m) (m_end m) s.

Fixpoint lookup_group (n : nat) (cs : caps) : option (nat * nat) :=
  match cs with
  | [] => None
  | (k, span) :: rest => if Nat.eqb k n then Some span else lookup_group n rest
  end.

Definition group (s : str) (m : rmatch) (n : nat) : option str :=
  match lookup_group n (m_groups m) with
  | Some (a, b) => Some (slice a b s)
  | None => None
  end.

(** [pattern.findall] for a pattern without capturing groups. *)
Definition findall (r : re) (s : str) : list str := map (group0 s) (finditer r s).

(** [pattern.sub(repl, s)] with a literal replacement. *)
Fixpoint sub_pieces (repl : str) (s : str) (pos : nat) (ms : list rmatch) : str :=
  match ms with
  | [] => skipn pos s
  | m :: rest => slice pos (m_start m) s ++ repl ++ sub_pieces repl s (m_end m) rest
  end.

Definition sub (r : re) (repl : str) (s : str) : str :=
  sub_pieces repl s 0 (finditer r s).

(** [pattern.sub(repl, s, count=1)] *)
Definition sub1 (r : re) (repl : str) (s : str) : str :=
  match search r s with
  | None => s
  | Some m => slice 0 (m_start m) s ++ repl ++ skipn (m_end m) s
  end.

Definition found (r : re) (s : str) : bool :=
  match search r s with Some _ => true | None => false end.

End Re.

(* ===================================================================== *)
(** * Python numbers and exceptions *)
(* ===================================================================== *)

Module PyNum.
Import Py.

(** The exceptions the embedded code can meet. *)
Inductive exn : Type := ValueError | OverflowError.

(** The outcome of a Python expression: a value, or a raised exception. *)
Inductive pyres (A : Type) : Type :=
| Ok (a : A)
| Raise (e : exn).
Arguments Ok {A} a.
Arguments Raise {A} e.

(** [try: body  except Exception: handler] *)
Definition try_except {A : Type} (body : pyres A) (handler : exn -> pyres A) : pyres A :=
  match body with
  | Ok a => Ok a
  | Raise e => handler e
  end.

(** Sequencing: the rest runs only if the first part did not raise. *)
Definition bind {A B : Type} (x : pyres A) (f : A -> pyres B) : pyres B :=
  match x with
  | Ok a => f a
  | Raise e => Raise e
  end.

(** ** Floats as rationals *)

Definition Qltb (a b : Q) : bool := negb (Qle_bool b a).
Definition Qgtb (a b : Q) : bool := Qltb b a.
Definition Qis_zero (a : Q) : bool := Qeq_bool a 0.

(** [x or 0.0] on a float. *)
Definition or_zero (x : Q) : Q := if Qis_zero x then 0 else x.

Definition Qmin2 (a b : Q) : Q := if Qle_bool a b then a else b.
Definition Qmax2 (a b : Q) : Q := if Qle_bool a b then b else a.

(** Rounding to the nearest integer, ties to even: Python's [round(x)]. *)
Definition round_half_even (q : Q) : Z :=
  let f := Qfloor q in
  match Qcompare (q - inject_Z f) (1 # 2) with
  | Lt => f
  | Gt => (f + 1)%Z
  | Eq => if Z.even f then f else (f + 1)%Z
  end.

(** [round(x, 2)] *)
Definition round2 (q : Q) : Q := Qred (Qmake (round_half_even (q * 100)) 100).

(** ** IEEE 754 binary64 arithmetic

    A float is a finite binary64 number, given by the rational it denotes,
    an infinity or NaN.  The sign of zero is not kept: no operation below
    tells the two zeros apart. *)

Inductive float : Type :=
| Finite (q : Q)
| Infinity (negative : bool)
| NaN.

(** [2 ^ e] for an integer [e]. *)
Definition pow2 (e : Z) : Q :=
  if (0 <=? e)%Z then inject_Z (2 ^ e) else 1 # Z.to_pos (2 ^ (- e)).

(** The integer part of the binary logarithm of [|q|], for [q] not zero. *)
Definition ilog2 (q : Q) : Z :=
  let e := (Z.log2 (Z.abs (Qnum q)) - Z.log2 (Zpos (Qden q)))%Z in
  if Qle_bool (pow2 e) (Qabs q) then e else (e - 1)%Z.

(** The binary64 number nearest to [q], ties to the even significand: 53
    bits of precision, the smallest exponent -1074, no largest one. *)
Definition nearest_double (q : Q) : Q :=
  if Qis_zero q then 0
  else
    let e := Z.max (ilog2 q - 52) (-1074) in
    Qred (inject_Z (round_half_even (q / pow2 e)) * pow2 e).

(** The largest finite binary64 number. *)
Definition double_max : Q := inject_Z ((2 ^ 53 - 1) * 2 ^ 971).

(** The float that an operation with the exact result [q] returns. *)
Definition to_float (q : Q) : float :=
  let r := nearest_double q in
  if Qle_bool (Qabs r) double_max then Finite r else Infinity (Qltb q 0).

Definition fadd (a b : float) : float :=
  match a, b with
  | Finite x, Finite y => to_float (x + y)
  | NaN, _ | _, NaN => NaN
  | Infinity s, Infinity s' => if Bool.eqb s s' then Infinity s else NaN
  | Infinity s, Finite _ | Finite _, Infinity s => Infinity s
  end.

Definition fneg (a : float) : float :=
  match a with
  | Finite x => Finite (- x)
  | Infinity s => Infinity (negb s)
  | NaN => NaN
  end.

Definition fsub (a b : float) : float := fadd a (fneg b).

(** [a * b] and [a / b] for a finite [b] that is not zero. *)
Definition fmul_by (a : float) (b : Q) : float :=
  match a with
  | Finite x => to_float (x * b)
  | Infinity s => Infinity (xorb s (Qltb b 0))
  | NaN => NaN
  end.

Definition fdiv_by (a : float) (b : Q) : float :=
  match a with
  | Finite x => to_float (x / b)
  | Infinity s => Infinity (xorb s (Qltb b 0))
  | NaN => NaN
  end.

(** [a < b] *)
Definition flt (a b : float) : bool :=
  match a, b with
  | Finite x, Finite y => Qltb x y
  | Finite _, Infinity s => negb s
  | Infinity s, Finite _ => s
  | Infinity s, Infinity s' => s && negb s'
  | NaN, _ | _, NaN => false
  end.

(** [min(a, b)] and [max(a, b)]: the first argument unless the second is
    smaller, respectively larger. *)
Definition fmin2 (a b : float) : float := if flt b a then b else a.
Definition fmax2 (a b : float) : float := if flt a b then b else a.

(** [sum(l)] on a list of floats: they are added from left to right,
    starting from the integer 0 (CPython up to 3.11). *)
Definition float_sum (l : list float) : float := fold_left fadd l (Finite 0).

(** ** [float(text)] on decimal literals

    [floatvalue ::= [sign] number [exponent]] with
    [number ::= [digitpart] "." digitpart | digitpart ["."]] and
    [digitpart ::= digit (["_"] digit)*].  The white space [float] ignores
    around the literal is not that of [str.strip]: the separators
    U+001C..U+001F, which [str.isspace] and [\s] accept, make [float]
    raise [ValueError].
    The value is the decimal number itself, as for every money value of
    this development: it is neither rounded to binary64 nor turned into an
    infinity when it lies beyond the largest float (1e400).  The special
    literals [inf], [infinity] and [nan], for which [float] returns an
    infinity or NaN, have no rational value and are refused here; no
    amount token is one of them. *)

(** The white space [float] strips: the ASCII white space of C and the
    Unicode spaces beyond U+007F. *)
Definition is_float_space (c : char) : bool :=
  (is_space c && negb (in_range 28%N 31%N c))%bool.

Local Open Scope N_scope.

Fixpoint scan_digits (after_digit : bool) (s : str) : list char * str :=
  match s with
  | c :: s' =>
      if is_digit c then
        let '(ds, r) := scan_digits true s' in (c :: ds, r)
      else if (c =? c_underscore) && after_digit
              && match s' with d :: _ => is_digit d | [] => false end
      then scan_digits false s'
      else ([], s)
  | [] => ([], [])
  end.

Definition digitpart (s : str) : option (list char * str) :=
  match scan_digits false s with
  | ([], _) => None
  | (ds, r) => Some (ds, r)
  end.

Definition digits_value (ds : list char) : Z :=
  fold_left (fun acc c => (10 * acc + Z.of_N (c - 48))%Z) ds 0%Z.

(** Integer digits, fraction digits and the rest of the text. *)
Definition number (s : str) : option (list char * list char * str) :=
  match digitpart s with
  | Some (ip, r) =>
      match r with
      | d :: r' =>
          if d =? 46 then
            match digitpart r' with
            | Some (fp, r'') => Some (ip, fp, r'')
            | None => Some (ip, [], r')
            end
          else Some (ip, [], r)
      | [] => Some (ip, [], r)
      end
  | None =>
      match s with
      | d :: r' =>
          if d =? 46 then
            match digitpart r' with
            | Some (fp, r'') => Some ([], fp, r'')
            | None => None
            end
          else None
      | [] => None
      end
  end.

Definition sign_of (s : str) : Z * str :=
  match s with
  | c :: s' => if c =? 45 then ((-1)%Z, s') else if c =? 43 then (1%Z, s') else (1%Z, s)
  | [] => (1%Z, s)
  end.

Definition exponent (s : str) : option (Z * str) :=
  match s with
  | c :: s' =>
      if (c =? 101) || (c =? 69) then
        let '(sg, s1) := sign_of s' in
        match digitpart s1 with
        | Some (ds, r) => Some ((sg * digits_value ds)%Z, r)
        | None => None
        end
      else None
  | [] => None
  end.

(** The rational [m * 10^e]. *)
Definition scale10 (m e : Z) : Q :=
  if (0 <=? e)%Z then inject_Z (m * 10 ^ e)
  else Qred (Qmake m (Z.to_pos (10 ^ (- e)))).

Definition float_of_str (text : str) : pyres Q :=
  let '(sg, s1) := sign_of (strip_by is_float_space text) in
  match number s1 with
  | None => Raise ValueError
  | Some (ip, fp, r) =>
      let m := (sg * digits_value (ip ++ fp))%Z in
      let fl := Z.of_nat (length fp) in
      match r with
      | [] => Ok (scale10 m (- fl))
      | _ =>
          match exponent r with
          | Some (e, []) => Ok (scale10 m (e - fl))
          | _ => Raise ValueError
          end
      end
  end.

End PyNum.

(* ===================================================================== *)
(** * Code shared by the extractors *)
(* ===================================================================== *)

Module Common.
Import Py PyNum.

(** [_norm_amount] is defined three times, word for word the same, in
    banorte_extractor.py, santander_extractor.py and bbva_extractor.py.  It
    is embedded once, over the builtin [float] it calls. *)
(** [txt] in [_norm_amount]: no-break spaces turned to spaces, then currency
    signs, spaces and commas removed. *)
Definition cleaned (s : str) : str :=
  replace (U ",") [] (replace (U " ") [] (replace (U "$") []
    (replace [c_nbsp] (U " ") s))).

Section NormAmount.
Variable F : Type.
Variable zero : F.
Variable float : str -> pyres F.

Definition norm_amount (s : option str) : pyres F :=
  match s with
  | None => Ok zero
  | Some s =>
      if negb (nonempty s) then Ok zero
      else
        let txt := cleaned s in
        try_except (float txt) (fun _ => Ok zero)
  end.
End NormAmount.

(** The value of a float-returning call that cannot raise. *)
Definition value (r : pyres Q) : Q :=
  match r with Ok v => v | Raise _ => 0 end.

(** [datetime.date] *)
Record date : Type := mk_date { d_year : Z; d_month : Z; d_day : Z }.

Local Open Scope Z_scope.

Definition is_leap (y : Z) : bool :=
  ((y mod 4 =? 0) && negb (y mod 100 =? 0)) || (y mod 400 =? 0).

Definition days_in_month (y m : Z) : Z :=
  if m =? 2 then (if is_leap y then 29 else 28)
  else if (m =? 4) || (m =? 6) || (m =? 9) || (m =? 11) then 30
  else 31.

(** [date(y, m, d)]: [ValueError] outside the calendar. *)
Definition make_date (y m d : Z) : pyres date :=
  if (1 <=? y) && (y <=? 9999) && (1 <=? m) && (m <=? 12)
     && (1 <=? d) && (d <=? days_in_month y m)
  then Ok (mk_date y m d)
  else Raise ValueError.

(** [d - timedelta(days=1)]: [OverflowError] before [date.min]. *)
Definition minus_one_day (d : date) : pyres date :=
  if 1 <? d_day d then Ok (mk_date (d_year d) (d_month d) (d_day d - 1))
  else if 1 <? d_month d
       then Ok (mk_date (d_year d) (d_month d - 1) (days_in_month (d_year d) (d_month d - 1)))
       else if 1 <? d_year d then Ok (mk_date (d_year d - 1) 12 31)
            else Raise OverflowError.

(** [MES_ABREV], the same table in the three extractors that use it. *)
Definition MES_ABREV : list (string * Z) :=
  [("ene", 1); ("feb", 2); ("mar", 3); ("abr", 4); ("may", 5); ("jun", 6);
   ("jul", 7); ("ago", 8); ("sep", 9); ("set", 9); ("oct", 10); ("nov", 11);
   ("dic", 12)]%string.

(** [MES_ABREV.get(key)] *)
Definition mes_get (key : str) : option Z :=
  match find (fun kv => str_eqb (U (fst kv)) key) MES_ABREV with
  | Some kv => Some (snd kv)
  | None => None
  end.

(** [any(k in text for k in keys)] *)
Definition any_in (keys : list string) (text : str) : bool :=
  existsb (fun k => str_in (U k) text) keys.

(** [k in t] for a literal [k]. *)
Definition has_text (t : str) (k : string) : bool := str_in (U k) t.

(** [int(text)] on a run of decimal digits. *)
Definition int_of_digits (s : str) : Z := digits_value s.

(** [max(items, key=key)]: the first item with the largest key. *)
Fixpoint max_by {A : Type} (key : A -> nat) (best : A) (l : list A) : A :=
  match l with
  | [] => best
  | x :: rest => max_by key (if Nat.ltb (key best) (key x) then x else best) rest
  end.

(** [min(items, key=key)] over rational keys: the first item with the
    smallest key. *)
Fixpoint min_by {A : Type} (key : A -> Q) (best : A) (l : list A) : A :=
  match l with
  | [] => best
  | x :: rest => min_by key (if Qltb (key x) (key best) then x else best) rest
  end.

(** [sorted(items, key=key)]: stable insertion into an ordered list. *)
Fixpoint insert_by {A : Type} (leb : A -> A -> bool) (x : A) (l : list A) : list A :=
  match l with
  | [] => [x]
  | y :: rest => if leb x y then x :: l else y :: insert_by leb x rest
  end.

Definition sorted_by {A : Type} (leb : A -> A -> bool) (l : list A) : list A :=
  fold_right (insert_by leb) [] l.

End Common.

(* ===================================================================== *)
(** * banorte_extractor.py *)
(* ===================================================================== *)

Module Banorte.
Import Py PyNum Common.

Definition _AMOUNT_RE_src : string := "\$?\s*\d{1,3}(?:,\d{3})*\.\d{2}".
Definition _AMT_CORE : string := "(?:\$?\s*\d{1,3}(?:,\d{3})*\.\d{2}|0(?:\.0{1,2})?)".
Definition _AMT_RUN_RE_src : string :=
  "(" ++ _AMT_CORE ++ "(?:\s+" ++ _AMT_CORE ++ "){1,2})".
Definition _DATE_TOKEN_src : string := "(\d{2}-[A-Za-zÁá]{3}-\d{2})".
Definition _STOP_TRAIL_PAT_src : string :=
  "(?is)(?:\bOTROS\s*[▼>]|Folio\s+Fecha\s+Tipo\s+de\s+Cargo|"
  ++ "Referencia\s+de\s+Abreviaturas|COMPROBANTE\s+FISCAL\s+DIGITAL|"
  ++ "\bIPAB\b|www\.ipab\.org\.mx)".

Definition _AMOUNT_RE : Re.re := Eval vm_compute in Re.compile _AMOUNT_RE_src eq_refl.
Definition _AMT_CORE_RE : Re.re := Eval vm_compute in Re.compile _AMT_CORE eq_refl.
Definition _AMT_RUN_RE : Re.re := Eval vm_compute in Re.compile _AMT_RUN_RE_src eq_refl.
Definition _DATE_TOKEN : Re.re :=
  Eval vm_compute in Re.compile_flags Re.IGNORECASE _DATE_TOKEN_src eq_refl.
Definition _STOP_TRAIL_PAT : Re.re := Eval vm_compute in Re.compile _STOP_TRAIL_PAT_src eq_refl.
Definition ISR_RE : Re.re := Eval vm_compute in Re.compile "\bI\.?S\.?R\b" eq_refl.
Definition FECHA_RE : Re.re :=
  Eval vm_compute in Re.compile "^(\d{2})[-/ ]([a-zá]{3})[-/ ](\d{2})$" eq_refl.
Definition SPACES_RE : Re.re := Eval vm_compute in Re.compile "\s+" eq_refl.

Definition _norm_amount (s : option str) : pyres Q := norm_amount 0 float_of_str s.

(** [_norm_amount(t)] used as a value. *)
Definition amount_of (t : str) : Q := value (_norm_amount (Some t)).

Definition _round2 (x : option Q) : option Q :=
  match x with
  | None => None
  | Some v => Some (round2 v)
  end.

Definition _parse_fecha_es (s : str) : pyres date :=
  let s0 := replace [c_nbsp] (U " ") (lower (strip s)) in
  match Re.rmatch_at_start FECHA_RE s0 with
  | Some m =>
      match Re.group s0 m 1, Re.group s0 m 2, Re.group s0 m 3 with
      | Some g1, Some g2, Some g3 =>
          let d := int_of_digits g1 in
          let y := (2000 + int_of_digits g3)%Z in
          match mes_get (replace (U "á") (U "a") g2) with
          | Some mes => if (mes =? 0)%Z then Raise ValueError else make_date y mes d
          | None => Raise ValueError
          end
      | _, _, _ => Raise ValueError
      end
  | None => Raise ValueError
  end.

Definition credit_keys : list string :=
  ["SPEI RECIBIDO"; "ABONO"; "DEPÓSITO"; "DEPOSITO"; "INTERESES";
   "DEPOSITO DE CUENTA"; "DE CUENTA DE TERCEROS (ABONO)"]%string.

Definition debit_keys : list string :=
  ["RETIRO"; "PAGO"; "COMPRA"; "COMISION"; "COMISIÓN"; "TRASPASO";
   "IVA"; "I.V.A"; "PAGO TERCEROS"; "TRASPASO A CUENTA DE TERCEROS"]%string.

Definition has_credit_kw (desc_upper : str) : bool := any_in credit_keys desc_upper.
Definition has_debit_kw (desc_upper : str) : bool :=
  any_in debit_keys desc_upper || Re.found ISR_RE desc_upper.

(** Returns [(withdrawal, deposit)]. *)
Definition _classify (desc_upper : str) (monto : Q) : Q * Q :=
  if Qis_zero monto then (0, 0)
  else if has_credit_kw desc_upper then (0, monto)
  else if has_debit_kw desc_upper then (monto, 0)
  else (0, monto).

(** [s[:a] + s[b:]] *)
Definition cut_out (a b : nat) (s : str) : str := firstn a s ++ skipn b s.

Definition _extract_amount_run (s : str) : str * list Q :=
  let s := rstrip s in
  match Re.finditer _AMT_RUN_RE s with
  | r0 :: runs =>
      let m := max_by Re.m_end r0 runs in
      let run_txt := Re.group0 s m in
      let tokens := Re.findall _AMT_CORE_RE run_txt in
      let desc := rstrip (cut_out (Re.m_start m) (Re.m_end m) s) in
      (desc, map amount_of tokens)
  | [] =>
      match rev (Re.finditer _AMT_CORE_RE s) with
      | m :: _ =>
          let desc := rstrip (cut_out (Re.m_start m) (Re.m_end m) s) in
          (desc, [amount_of (Re.group0 s m)])
      | [] => (s, [])
      end
  end.

(** One row of the ledger: the dict built in [_parse_section_to_rows]. *)
Record row : Type := mk_row
  { r_date : date;
    r_description : str;
    r_deposit : option Q;
    r_withdrawal : option Q;
    r_balance : option Q }.

(** The amounts of a movement from its tail, lines 325-334:
    [(dep, ret, bal)]. *)
Definition amounts_of_tail (body_clean : str) (tail : list Q) : Q * Q * option Q :=
  match tail with
  | [t0; t1; t2] => (t0, t1, Some t2)
  | [monto; bal] =>
      let '(w, d) := _classify (upper body_clean) monto in
      (d, w, Some bal)
  | [bal] => (0, 0, Some bal)
  | _ => (0, 0, None)
  end.

(** The text of a movement after its date (lines 307-321): the chunk up to
    the next date, without the date token, cut at a sentinel when it is the
    last one. *)
Definition body_of (txt : str) (m : Re.rmatch) (next_start : nat) (is_last : bool)
                   (fraw : str) : str :=
  let chunk := strip (slice (Re.m_start m) next_start txt) in
  let body := strip_chars (U " " ++ [9%N] ++ U ":-" ++ [10%N; 13%N])
                          (skipn (length fraw) chunk) in
  if is_last then
    match Re.search _STOP_TRAIL_PAT body with
    | Some sstop => rstrip (firstn (Re.m_start sstop) body)
    | None => body
    end
  else body.

(** The body of the loop over the date matches, lines 305-344: [None] is the
    [continue] taken when the date does not parse. *)
Definition row_of_match (txt : str) (m : Re.rmatch) (next_start : nat) (is_last : bool)
  : option row :=
  match Re.group txt m 1 with
  | None => None
  | Some fraw =>
      match _parse_fecha_es fraw with
      | Raise _ => None
      | Ok fdate =>
          let body := body_of txt m next_start is_last fraw in
          let '(body_clean, tail) := _extract_amount_run body in
          let '(dep, ret, bal) := amounts_of_tail body_clean tail in
          let desc := strip (Re.sub SPACES_RE (U " ") body_clean) in
          Some (mk_row fdate desc (_round2 (Some dep)) (_round2 (Some ret)) (_round2 bal))
      end
  end.

Fixpoint rows_of_matches (txt : str) (ms : list Re.rmatch) : list row :=
  match ms with
  | [] => []
  | m :: rest =>
      let '(next_start, is_last) :=
        match rest with
        | m' :: _ => (Re.m_start m', false)
        | [] => (length txt, true)
        end in
      match row_of_match txt m next_start is_last with
      | Some r => r :: rows_of_matches txt rest
      | None => rows_of_matches txt rest
      end
  end.

Definition _parse_section_to_rows (block_text : str) (period_start : option date)
  : pyres (list row) :=
  if negb (nonempty block_text) then Ok []
  else
    let txt := match Re.search _STOP_TRAIL_PAT block_text with
               | Some mstop => firstn (Re.m_start mstop) block_text
               | None => block_text
               end in
    let txt := replace [c_nbsp] (U " ") txt in
    let opening : pyres (list row) :=
      match Re.search _DATE_TOKEN txt with
      | Some mfirst =>
          let prefix := firstn (Re.m_start mfirst) txt in
          if str_in (U "SALDO ANTERIOR") (upper prefix) then
            let am := Re.findall _AMOUNT_RE prefix in
            let saldo := match rev am with a :: _ => amount_of a | [] => 0 end in
            match (match period_start with
                   | Some p => minus_one_day p
                   | None => Ok (mk_date 1970 1 1)
                   end) with
            | Ok dprev =>
                Ok [mk_row dprev (U "SALDO ANTERIOR") (Some 0) (Some 0) (_round2 (Some saldo))]
            | Raise e => Raise e
            end
          else Ok []
      | None => Ok []
      end in
    match opening with
    | Ok rows => Ok (rows ++ rows_of_matches txt (Re.finditer _DATE_TOKEN txt))
    | Raise e => Raise e
    end.

End Banorte.

(* ===================================================================== *)
(** * Positioned tokens *)
(* ===================================================================== *)

Module Layout.
Import Py PyNum Common.

(** One word of [page.extract_words(...)]: its text and bounding box. *)
Record word : Type := mk_word
  { w_text : str; w_x0 : Q; w_x1 : Q; w_top : Q; w_bottom : Q }.

(** A page as the extractors see it: its words and its width. *)
Record page : Type := mk_page { p_words : list word; p_width : Q; p_text : str }.

(** [(w["x0"] + w["x1"]) / 2] *)
Definition x_center (w : word) : Q := (w_x0 w + w_x1 w) / 2.

Definition mid (a b : Q) : Q := (a + b) / 2.

(** [" ".join(w["text"] for w in r)] *)
Definition row_text (r : list word) : str := join (U " ") (map w_text r).

(** [l[i] = x] for [i] in range. *)
Fixpoint set_nth {A : Type} (i : nat) (x : A) (l : list A) : list A :=
  match l, i with
  | [], _ => []
  | _ :: rest, O => x :: rest
  | y :: rest, S i' => y :: set_nth i' x rest
  end.

(** The index of the first band [(x0, x1)] with [x0 <= xc <= x1]. *)
Fixpoint first_band (xc : Q) (bounds : list (Q * Q)) (i : nat) : option nat :=
  match bounds with
  | [] => None
  | (x0, x1) :: rest =>
      if Qle_bool x0 xc && Qle_bool xc x1 then Some i else first_band xc rest (S i)
  end.

(** [_assign_cols], the same in santander_extractor.py (6 columns) and
    bbva_extractor.py (8 columns). *)
Definition assign_cols (ncols : nat) (row_words : list word) (bounds : list (Q * Q))
  : list str :=
  let cols :=
    fold_left
      (fun cols w =>
         match first_band (x_center w) bounds 0 with
         | Some i =>
             let old := nth i cols [] in
             set_nth i (if nonempty old then strip (old ++ U " " ++ w_text w) else w_text w) cols
         | None => cols
         end)
      row_words (repeat [] ncols) in
  map strip cols.

(** [hits[key]] in [_detect_columns]: the words whose upper-cased text
    contains one of the labels of the column. *)
Definition hits_of (opts : list string) (words : list word) : list word :=
  filter (fun w => any_in opts (upper (w_text w))) words.

(** The topmost hit: [min(hits[key], key=lambda x: x["top"])]. *)
Definition topmost (hits : list word) : option word :=
  match hits with
  | [] => None
  | h :: rest => Some (min_by w_top h rest)
  end.

(** [cx(key, default_frac)] *)
Definition cx (words : list word) (page_width : Q) (opts : list string) (default_frac : Q) : Q :=
  match topmost (hits_of opts words) with
  | Some w => x_center w
  | None => page_width * default_frac
  end.

(** [header_y]: the largest bottom among the topmost hits, [0.0] without hits. *)
Definition header_y_of (words : list word) (labels : list (list string)) : Q :=
  let bottoms :=
    flat_map (fun opts => match topmost (hits_of opts words) with
                          | Some w => [w_bottom w]
                          | None => []
                          end) labels in
  match bottoms with
  | [] => 0
  | b :: rest => fold_left Qmax2 rest b
  end.

(** A [dict] with integer keys, in insertion order. *)
Definition buckets := list (Z * list word).

(** [rows.setdefault(yk, []).append(w)] *)
Fixpoint bucket_add (yk : Z) (w : word) (rows : buckets) : buckets :=
  match rows with
  | [] => [(yk, [w])]
  | (k, ws) :: rest =>
      if (k =? yk)%Z then (k, ws ++ [w]) :: rest
      else (k, ws) :: bucket_add yk w rest
  end.

(** [rows[k]] *)
Fixpoint bucket_get (k : Z) (rows : buckets) : list word :=
  match rows with
  | [] => []
  | (k', ws) :: rest => if (k' =? k)%Z then ws else bucket_get k rest
  end.

(** The float literals [4.2] and [0.70]: the binary64 numbers nearest to
    them.  [1.0] and [2.0] are exact. *)
Definition f4_2 : Q := Eval vm_compute in nearest_double (42 # 10).
Definition f0_70 : Q := Eval vm_compute in nearest_double (70 # 100).

(** [_group_rows], the same in santander_extractor.py and bbva_extractor.py.
    The coordinates of a word are floats; the sums, products and quotients
    are rounded as binary64 arithmetic rounds them. *)

(** [ybin]: [max(2.0, min(4.2, avg_h * 0.70))] is 2.0, 4.2 or a finite
    float between them, whatever the heights; the last case of the match is
    never taken. *)
Definition ybin_of (body : list word) : Q :=
  let heights := map (fun w => fsub (Finite (w_bottom w)) (Finite (w_top w))) body in
  let avg_h := fdiv_by (float_sum heights) (inject_Z (Z.of_nat (length heights))) in
  match fmax2 (Finite 2) (fmin2 (Finite f4_2) (fmul_by avg_h f0_70)) with
  | Finite ybin => ybin
  | _ => 2
  end.

(** [int(round(w["top"] / ybin))]: the quotient by a [ybin] of 2.0 at least
    is finite. *)
Definition row_key (ybin : Q) (w : word) : Z :=
  round_half_even (nearest_double (w_top w / ybin)).

Definition _group_rows (words : list word) (header_y : Q) : list (list word) :=
  let body := filter (fun w => flt (fadd (Finite header_y) (Finite 1)) (Finite (w_top w)))
                     words in
  match body with
  | [] => []
  | _ =>
      let ybin := ybin_of body in
      let rows := fold_left (fun rows w => bucket_add (row_key ybin w) w rows) body [] in
      map (fun k => sorted_by (fun a b => Qle_bool (w_x0 a) (w_x0 b)) (bucket_get k rows))
          (sorted_by Z.leb (map fst rows))
  end.

End Layout.

(* ===================================================================== *)
(** * santander_extractor.py *)
(* ===================================================================== *)

Module Santander.
Import Py PyNum Common Layout.

Definition TOTAL_PAT : Re.re := Eval vm_compute in Re.compile "(?i)\bTOTAL\b" eq_refl.
Definition SALDO_FINAL_PAT : Re.re :=
  Eval vm_compute in Re.compile "(?i)SALDO\s+FINAL\s+DEL\s+PERIODO" eq_refl.

Definition _has_total_or_final (s : str) : bool :=
  Re.found TOTAL_PAT s || Re.found SALDO_FINAL_PAT s.

Definition AMOUNT_RE_src : string := "\$?\s*\d{1,3}(?:,\d{3})*\.\d{2}".
Definition AMOUNT_RE : Re.re := Eval vm_compute in Re.compile AMOUNT_RE_src eq_refl.
Definition DATE_TOKEN_SANT : Re.re :=
  Eval vm_compute in Re.compile "(\d{2})\s*-\s*([A-Za-zÁá]{3})\s*-\s*(\d{4})" eq_refl.

Definition BANCOINVEX_TAG_RE : Re.re := Eval vm_compute in Re.compile "(?i)BANCO\s*INVEX" eq_refl.
Definition BANCOINVEX_FAKE_AMT_RE_src : string := "\b0(?:,\d{3}){2,}\.\d{2}\b".
Definition BANCOINVEX_FAKE_AMT_RE : Re.re :=
  Eval vm_compute in Re.compile BANCOINVEX_FAKE_AMT_RE_src eq_refl.

Definition CLAVE_RASTREO_PAT : Re.re :=
  Eval vm_compute in Re.compile "(?i)\bCLAVE\s+DE\s+RASTREO\b" eq_refl.
Definition INFO_FISCAL_PAT_src : string :=
  "(?i)\b(UUID|CFDI|TIMBRAD[OA]|COMPROBANTE|SELLO\s+DIGITAL|CADENA\s+ORIGINAL|SAT|"
  ++ "REG[IÍ]MEN|EMISOR|RECEPTOR|USO\s+CFDI|FOLIO\s+INTERNO|FORMA\s+DE\s+PAGO|M[EÉ]TODO\s+DE\s+PAGO|"
  ++ "FECHA\s+Y\s+HORA\s+DE|CERTIFICACI[ÓO]N|CSD|COMPLEMENTO)\b".
Definition INFO_FISCAL_PAT : Re.re := Eval vm_compute in Re.compile INFO_FISCAL_PAT_src eq_refl.
Definition BASE64ISH_PAT : Re.re := Eval vm_compute in Re.compile "[A-Za-z0-9+/=]{20,}" eq_refl.
Definition PAGINA_WORD_PAT : Re.re :=
  Eval vm_compute in Re.compile "(?i)\bP[\W_]*GINA\s*\d+\s*DE\s*\d+\b" eq_refl.
Definition PP_NUM_PAT : Re.re := Eval vm_compute in Re.compile "(?i)\bP-?P\.?\s*\d+\b" eq_refl.
Definition DETALLES_HEADER_PAT : Re.re :=
  Eval vm_compute in Re.compile "(?i)Detalle[s]?\s+de\s+movimientos" eq_refl.
Definition SPACES_RE : Re.re := Eval vm_compute in Re.compile "\s+" eq_refl.
Definition LEADING_FOLIO_RE : Re.re := Eval vm_compute in Re.compile "^\d{5,}\s+" eq_refl.
Definition NON_ALNUM_RE : Re.re := Eval vm_compute in Re.compile "[^A-Z0-9]" eq_refl.

Definition _drop_footer_totals (words : list word) : list word :=
  let cut_tops :=
    map w_top
        (filter (fun w =>
                   let t := upper (strip (replace [c_nbsp] (U " ") (w_text w))) in
                   str_eqb t (U "TOTAL") || str_in (U "SALDO FINAL DEL PERIODO") t)
                words) in
  match cut_tops with
  | [] => words
  | y0 :: rest =>
      let y_cut := fold_left Qmin2 rest y0 in
      filter (fun w => Qltb (w_top w) (y_cut - (1 # 2))) words
  end.

Definition _cut_after_totals (s : str) : str :=
  let m1 := Re.search TOTAL_PAT s in
  let m2 := Re.search SALDO_FINAL_PAT s in
  let m := match m1, m2 with
           | Some a, Some b => if Nat.ltb (Re.m_start a) (Re.m_start b) then m1 else m2
           | Some _, None => m1
           | None, _ => m2
           end in
  match m with
  | Some x => rstrip (firstn (Re.m_start x) s)
  | None => s
  end.

Definition _is_garbage_piece (s : str) : bool :=
  if negb (nonempty s) then true
  else if Re.found CLAVE_RASTREO_PAT s then false
  else if Re.found INFO_FISCAL_PAT s then true
  else if Re.found BASE64ISH_PAT s then true
  else false.

Definition _strip_page_garbage (s : str) : str :=
  let s := Re.sub PAGINA_WORD_PAT [] s in
  let s := Re.sub PP_NUM_PAT [] s in
  strip (Re.sub SPACES_RE (U " ") s).

Definition _norm_amount (s : option str) : pyres Q := norm_amount 0 float_of_str s.
Definition amount_of (t : str) : Q := value (_norm_amount (Some t)).

(** [prefer] is ["first"] ([true]) or anything else ([false]). *)
Definition _pick_amount (s : str) (prefer_first : bool) : option Q :=
  if negb (nonempty s) then None
  else
    let t := strip (replace [c_nbsp] (U " ") s) in
    if str_eqb t (U "0") || str_eqb t (U "0.0") || str_eqb t (U "0.00") then Some 0
    else
      match Re.findall AMOUNT_RE t with
      | [] => None
      | v0 :: rest =>
          let val := if prefer_first then v0 else last rest v0 in
          Some (amount_of val)
      end.

Definition _parse_ddmonyyyy (token : str) : pyres (option date) :=
  let t := upper (replace [c_nbsp] (U " ") token) in
  match Re.search DATE_TOKEN_SANT t with
  | None => Ok None
  | Some m =>
      match Re.group t m 1, Re.group t m 2, Re.group t m 3 with
      | Some g1, Some g2, Some g3 =>
          let dd := int_of_digits g1 in
          let yy := int_of_digits g3 in
          match mes_get (replace (U "á") (U "a") (lower g2)) with
          | Some mon =>
              if (mon =? 0)%Z then Ok None
              else match make_date yy mon dd with
                   | Ok d => Ok (Some d)
                   | Raise e => Raise e
                   end
          | None => Ok None
          end
      | _, _, _ => Ok None
      end
  end.

(** The amount matches that survive the BANCO INVEX exception. *)
Definition is_fake_amount (s : str) (m : Re.rmatch) : bool :=
  match Re.fullmatch BANCOINVEX_FAKE_AMT_RE
          (replace (U " ") [] (replace (U "$") [] (Re.group0 s m))) with
  | Some _ => true
  | None => false
  end.

Definition amount_matches (s : str) : list Re.rmatch :=
  let ms := Re.finditer AMOUNT_RE s in
  if Re.found BANCOINVEX_TAG_RE s
  then filter (fun m => negb (is_fake_amount s m)) ms
  else ms.

(** The [while] loop of [_extract_tail_run]: [before] holds the matches to
    the left of the tail, nearest first; returns [cur_start] and the tail in
    reading order. *)
Fixpoint extend_tail (s : str) (maxn : nat) (cur_start : nat) (tail : list Re.rmatch)
                     (before : list Re.rmatch) : nat * list Re.rmatch :=
  match before with
  | [] => (cur_start, tail)
  | m :: rest =>
      if Nat.ltb (length tail) maxn then
        let between := slice (Re.m_end m) cur_start s in
        if nonempty (strip between) then (cur_start, tail)
        else extend_tail s maxn (Re.m_start m) (m :: tail) rest
      else (cur_start, tail)
  end.

(** The matches [_extract_tail_run] keeps as the tail, and [cur_start]. *)
Definition tail_matches (s : str) (maxn : nat) : option (nat * list Re.rmatch) :=
  match rev (amount_matches s) with
  | [] => None
  | m_last :: before => Some (extend_tail s maxn (Re.m_start m_last) [m_last] before)
  end.

(** The line [_extract_tail_run] works on: [s] at line 168. *)
Definition tail_line (line : str) : str :=
  _strip_page_garbage (rstrip (replace [c_nbsp] (U " ") line)).

Definition _extract_tail_run (line : str) (maxn : nat) : str * list Q :=
  let s := tail_line line in
  match tail_matches s maxn with
  | None => (s, [])
  | Some (cur_start, tail) =>
      (rstrip (firstn cur_start s), map (fun m => amount_of (Re.group0 s m)) tail)
  end.

Definition _norm_u (s : str) : str :=
  let u := upper s in
  let u := replace (U "Ñ") (U "N") (replace (U "Ü") (U "U") (replace (U "Ú") (U "U")
           (replace (U "Ó") (U "O") (replace (U "Í") (U "I") (replace (U "É") (U "E")
           (replace (U "Á") (U "A") u)))))) in
  strip (Re.sub SPACES_RE (U " ") u).

Definition compact (u0 : str) : str := Re.sub NON_ALNUM_RE [] u0.

Definition _has_tokens (desc : str) (tokens : list string) : bool :=
  let u0 := _norm_u desc in
  let u1 := compact u0 in
  existsb (fun t =>
             let t0 := _norm_u (U t) in
             let t1 := compact t0 in
             str_in t0 u0 || str_in t1 u1)
          tokens.

Definition ABONO_KEYS : list string :=
  ["ABONO"; "ABO "; "DEPOSITO"; "RECIBIDO"; "SPEI RECIBIDO";
   "INTERES"; "INTERESES"; "DEVOLUCION"; "REEMBOLSO"; "TRASPASO RECIBIDO"]%string.

Definition RETIRO_KEYS : list string :=
  ["RETIRO"; "PAGO"; "ENVIADO"; "TRANSFERENCIA SPEI"; "SPEI HORA"; "SPEI ENVIADO";
   "COMISION"; "IVA"; "COMPRA"; "COBRO";
   "RETENCION"; "ISR"; "MEMBRESIA"; "MEMBRES"; "CARGO"; "CUOTA"; "ANUALIDAD";
   "SEGURO"; "SERVICIO"; "MANTENIMIENTO";
   "APORT"; "LINEA CAPTURA"; "CAPTURA INTERNET"]%string.

(** Returns [(retiro, deposito)]. *)
Definition _classify_by_keywords (desc_upper : str) (monto : Q) : Q * Q :=
  if Qis_zero monto then (0, 0)
  else if _has_tokens desc_upper ABONO_KEYS then (0, monto)
  else if _has_tokens desc_upper RETIRO_KEYS then (monto, 0)
  else (0, monto).

(** Returns [(deposito, retiro)]. *)
Definition _reconcile_amounts (desc : str) (dep ret : Q) : Q * Q :=
  let dep := or_zero dep in
  let ret := or_zero ret in
  let has_abono := _has_tokens desc ABONO_KEYS in
  let has_retiro := _has_tokens desc RETIRO_KEYS in
  let '(dep, ret) :=
    if Qgtb dep 0 && Qgtb ret 0 then
      if has_abono && negb has_retiro then (dep, 0)
      else if has_retiro && negb has_abono then (0, ret)
      else (0, ret)
    else if Qgtb dep 0 && Qis_zero ret && has_retiro && negb has_abono then (0, dep)
    else if Qgtb ret 0 && Qis_zero dep && has_abono && negb has_retiro then (ret, 0)
    else (dep, ret) in
  (round2 dep, round2 ret).


Definition labels : list (list string) :=
  [["FECHA"]; ["FOLIO"]; ["DESCRIPCION"; "DESCRIPCIÓN"]; ["DEPOSITO"; "DEPÓSITO"];
   ["RETIRO"]; ["SALDO"]]%string.

(** The six anchors, in the order of the source: FECHA, FOLIO, DESCRIPCION,
    DEPOSITO, RETIRO, SALDO. *)
Definition anchors (words : list word) (page_width : Q) : list Q :=
  [cx words page_width ["FECHA"]%string (7 # 100);
   cx words page_width ["FOLIO"]%string (16 # 100);
   cx words page_width ["DESCRIPCION"; "DESCRIPCIÓN"]%string (40 # 100);
   cx words page_width ["DEPOSITO"; "DEPÓSITO"]%string (62 # 100);
   cx words page_width ["RETIRO"]%string (74 # 100);
   cx words page_width ["SALDO"]%string (88 # 100)].

Definition bounds_of (xs : list Q) (page_width : Q) : list (Q * Q) :=
  match xs with
  | [x0; x1; x2; x3; x4; x5] =>
      [(0, mid x0 x1 - 1);
       (mid x0 x1 + 1, mid x1 x2 - 1);
       (mid x1 x2 + 1, mid x2 x3 - 1);
       (mid x2 x3 + 1, mid x3 x4 - 1);
       (mid x3 x4 + 1, mid x4 x5 - 1);
       (mid x4 x5 + 1, page_width)]
  | _ => []
  end.

Definition _detect_columns (words : list word) (page_width : Q) : list (Q * Q) * Q :=
  let xs := sorted_by Qle_bool (anchors words page_width) in
  (bounds_of xs page_width, header_y_of words labels).

Definition _assign_cols (row_words : list word) (bounds : list (Q * Q)) : list str :=
  assign_cols 6 row_words bounds.

Inductive section_key : Type := CUENTA | INVER.

Definition _row_section_marker (row_words : list word) : option section_key :=
  let t := upper (row_text row_words) in
  if (has_text t "DETALLE" && has_text t "MOVIMIENTOS" && has_text t "CUENTA"
      && (has_text t "CHEQUE" || has_text t "CHEQUES"))
     || has_text t "CUENTA SANTANDER PYME"
  then Some CUENTA
  else if (has_text t "DETALLE" && has_text t "MOVIMIENTOS" && has_text t "DINERO"
           && has_text t "CRECIENTE")
          || has_text t "INVERSION CRECIENTE"
  then Some INVER
  else None.

Record TxRow : Type := mk_tx
  { f_oper : option date;
    folio : option str;
    desc : str;
    deposito : Q;
    retiro : Q;
    saldo : option Q }.

(** The two output lists of [extract_santander_to_xlsx]. *)
Record ledger : Type := mk_ledger
  { movs_cheques : list TxRow; movs_inver : list TxRow }.

Definition with_amounts (t : TxRow) (dep ret : Q) : TxRow :=
  mk_tx (f_oper t) (folio t) (desc t) dep ret (saldo t).
Definition with_desc (t : TxRow) (d : str) : TxRow :=
  mk_tx (f_oper t) (folio t) d (deposito t) (retiro t) (saldo t).

Definition flush_current (cur : option TxRow) (section : option section_key) (L : ledger)
  : ledger :=
  match cur, section with
  | Some cur, Some sec =>
      let '(d, r) := _reconcile_amounts (desc cur) (deposito cur) (retiro cur) in
      let cur := with_amounts cur d r in
      match sec with
      | CUENTA => mk_ledger (movs_cheques L ++ [cur]) (movs_inver L)
      | INVER => mk_ledger (movs_cheques L) (movs_inver L ++ [cur])
      end
  | _, _ => L
  end.

(** The loop state: the ledger, the open movement and the active section. *)
Record state : Type := mk_state
  { st_ledger : ledger; st_current : option TxRow; st_section : option section_key }.

(** [x or y] on strings. *)
Definition str_or (x y : str) : str := if nonempty x then x else y.

(** The amounts a tail run stands for, as [(dep, ret, sal)]; [None] is "not
    given by the run". *)
Definition tail_amounts (desc_for_kw : str) (row_txt : str) (tail : list Q)
  : option Q * option Q * option Q :=
  match tail with
  | [t0; t1; t2] => (Some t0, Some t1, Some t2)
  | [t0; t1] =>
      let '(wv, dv) := _classify_by_keywords (upper desc_for_kw) t0 in
      (Some dv, Some wv, Some t1)
  | [t0] =>
      if _has_total_or_final row_txt then
        let '(wv, dv) := _classify_by_keywords (upper desc_for_kw) t0 in
        (Some dv, Some wv, None)
      else (None, None, Some t0)
  | _ => (None, None, None)
  end.

Definition or_else {A : Type} (a b : option A) : option A :=
  match a with Some _ => a | None => b end.
Definition get_or (a : option Q) (d : Q) : Q :=
  match a with Some v => v | None => d end.

(** The column amounts [(dep_col, ret_col, sal_col)] after the two resets. *)
Definition column_amounts (dep_raw ret_raw saldo_raw row_txt : str) (tail : list Q)
  : option Q * option Q * option Q :=
  if _has_total_or_final row_txt || Nat.leb 2 (length tail) then (None, None, None)
  else (_pick_amount dep_raw true, _pick_amount ret_raw true, _pick_amount saldo_raw false).

(** [line_wo_date] (lines 727-729): the row text without its first date,
    cut at a totals marker, without a leading folio number. *)
Definition line_wo_date (row_txt : str) : str :=
  let l := strip (Re.sub1 DATE_TOKEN_SANT [] row_txt) in
  let l := _cut_after_totals l in
  Re.sub LEADING_FOLIO_RE [] l.

(** What a row with a date hands to the reconciliation (lines 727-757):
    the description, [dep_in] and [ret_in], and with them the balance. *)
Definition open_inputs (cols : list str) (row_txt : str) : str * Q * Q * option Q :=
  let desc_raw := nth 2 cols [] in
  let '(desc_fb, tail) := _extract_tail_run (line_wo_date row_txt) 3 in
  let '(dep_fb, ret_fb, sal_fb) := tail_amounts desc_fb row_txt tail in
  let '(dep_col, ret_col, sal_col) :=
    column_amounts (nth 3 cols []) (nth 4 cols []) (nth 5 cols []) row_txt tail in
  let desc_txt := _strip_page_garbage (strip (str_or desc_fb desc_raw)) in
  let desc_txt := if _is_garbage_piece desc_txt then [] else desc_txt in
  let dep_in := get_or dep_col (or_zero (get_or dep_fb 0)) in
  let ret_in := get_or ret_col (or_zero (get_or ret_fb 0)) in
  (desc_txt, dep_in, ret_in, or_else sal_col sal_fb).

(** A row with a date opens a movement (lines 723-768). *)
Definition open_row (cols : list str) (row_txt : str) : pyres TxRow :=
  let fecha_raw := nth 0 cols [] in
  let folio_raw := nth 1 cols [] in
  bind (_parse_ddmonyyyy fecha_raw) (fun f =>
    let '(desc_txt, dep_in, ret_in, sal) := open_inputs cols row_txt in
    let '(dep_v, ret_v) := _reconcile_amounts desc_txt dep_in ret_in in
    Ok (mk_tx f (let fo := strip folio_raw in if nonempty fo then Some fo else None)
              desc_txt dep_v ret_v sal)).

(** A row without date or money continues the description (lines 770-778). *)
Definition continue_row (cur : TxRow) (cols : list str) (row_txt : str) : TxRow :=
  let piece_col := strip (nth 2 cols []) in
  let line := Re.sub LEADING_FOLIO_RE [] (strip row_txt) in
  let line := _cut_after_totals line in
  let piece_fb := fst (_extract_tail_run line 3) in
  let piece := _strip_page_garbage
                 (if Nat.ltb (length piece_col) (length piece_fb) then piece_fb else piece_col) in
  if nonempty piece && negb (_is_garbage_piece piece)
  then with_desc cur (strip (desc cur ++ U " " ++ piece))
  else cur.

(** What a row without date but with money hands to the reconciliation
    (lines 781-811): [current.deposito] and [current.retiro] after the
    updates, with the new balance and the new description. *)
Definition money_inputs (cur : TxRow) (cols : list str) (row_txt : str)
  : Q * Q * option Q * str :=
  let desc_raw := nth 2 cols [] in
  let text_for_tail := _cut_after_totals row_txt in
  let '(desc_fb, tail) := _extract_tail_run text_for_tail 3 in
  let '(dep_v, ret_v, sal_v) := tail_amounts (str_or desc_fb (desc cur)) row_txt tail in
  let '(dep_col, ret_col, sal_col) :=
    column_amounts (nth 3 cols []) (nth 4 cols []) (nth 5 cols []) row_txt tail in
  let dep1 := match or_else dep_col dep_v with
              | Some _ => get_or dep_col (or_zero (get_or dep_v 0))
              | None => deposito cur
              end in
  let ret1 := match or_else ret_col ret_v with
              | Some _ => get_or ret_col (or_zero (get_or ret_v 0))
              | None => retiro cur
              end in
  let sal1 := match or_else sal_col sal_v with
              | Some v => Some v
              | None => saldo cur
              end in
  let piece := _strip_page_garbage (strip (str_or desc_fb desc_raw)) in
  let desc2 := if nonempty piece && negb (_is_garbage_piece piece)
               then strip (desc cur ++ U " " ++ piece) else desc cur in
  (dep1, ret1, sal1, desc2).

(** A row without date but with money completes the movement (lines 780-819). *)
Definition money_row (cur : TxRow) (cols : list str) (row_txt : str) : TxRow :=
  let '(dep1, ret1, sal1, desc2) := money_inputs cur cols row_txt in
  let '(dep2, ret2) := _reconcile_amounts (desc cur) dep1 ret1 in
  mk_tx (f_oper cur) (folio cur) desc2 dep2 ret2 sal1.

(** The five "obvious skips" (lines 713-717). *)
Definition skipped_row (row_up : str) : bool :=
  (str_in (U "FECHA") row_up && str_in (U "FOLIO") row_up && str_in (U "SALDO") row_up)
  || startswith (U "TOTAL") (strip row_up)
  || str_in (U "SALDO FINAL DEL PERIODO") row_up
  || Re.found DETALLES_HEADER_PAT row_up
  || Re.found PAGINA_WORD_PAT row_up || Re.found PP_NUM_PAT row_up.

(** One iteration of [for i, r in enumerate(rows)] (lines 700-819). *)
Definition step_row (bounds : list (Q * Q)) (st : state) (r : list word) : pyres state :=
  match _row_section_marker r with
  | Some sec =>
      Ok (mk_state (flush_current (st_current st) (st_section st) (st_ledger st))
                   None (Some sec))
  | None =>
      let cols := _assign_cols r bounds in
      let row_txt := row_text r in
      let row_up := upper row_txt in
      if skipped_row row_up then Ok st
      else
        let new_date := Re.found DATE_TOKEN_SANT (nth 0 cols []) in
        let has_money := existsb (fun x => Re.found AMOUNT_RE x)
                                 [nth 3 cols []; nth 4 cols []; nth 5 cols []] in
        if new_date then
          let L := flush_current (st_current st) (st_section st) (st_ledger st) in
          bind (open_row cols row_txt) (fun t => Ok (mk_state L (Some t) (st_section st)))
        else
          match st_current st with
          | None => Ok st
          | Some cur =>
              if negb has_money then
                if nonempty (nth 2 cols []) || nonempty (nth 1 cols []) || nonempty (nth 0 cols [])
                then Ok (mk_state (st_ledger st) (Some (continue_row cur cols row_txt))
                                  (st_section st))
                else Ok st
              else Ok (mk_state (st_ledger st) (Some (money_row cur cols row_txt))
                                (st_section st))
          end
  end.

Fixpoint run_rows (bounds : list (Q * Q)) (st : state) (rows : list (list word))
  : pyres state :=
  match rows with
  | [] => Ok st
  | r :: rest => bind (step_row bounds st r) (fun st' => run_rows bounds st' rest)
  end.

(** The section a page starts in: its first marker, ["CUENTA"] without one. *)
Definition first_section (rows : list (list word)) : section_key :=
  match flat_map (fun r => match _row_section_marker r with
                           | Some s => [s]
                           | None => []
                           end) rows with
  | s :: _ => s
  | [] => CUENTA
  end.

(** One iteration of [for page in pdf.pages] (lines 678-824): the open
    movement is flushed when the page ends. *)
Definition run_page (L : ledger) (cur : option TxRow) (pg : page)
  : pyres (ledger * option TxRow) :=
  let words := _drop_footer_totals (p_words pg) in
  let '(bounds, header_y) := _detect_columns words (p_width pg) in
  let rows := _group_rows words header_y in
  let in_section := first_section rows in
  bind (run_rows bounds (mk_state L cur (Some in_section)) rows) (fun st =>
    Ok (flush_current (st_current st) (st_section st) (st_ledger st), None)).

Fixpoint run_pages (L : ledger) (cur : option TxRow) (pages : list page) : pyres ledger :=
  match pages with
  | [] => Ok L
  | pg :: rest =>
      bind (run_page L cur pg) (fun '(L', cur') => run_pages L' cur' rest)
  end.

(** Step 3 of [extract_santander_to_xlsx]: the two lists of movements. *)
Definition movements (pages : list page) : pyres ledger :=
  run_pages (mk_ledger [] []) None pages.

End Santander.

(* ===================================================================== *)
(** * bbva_extractor.py *)
(* ===================================================================== *)

Module BBVA.
Import Py PyNum Common Layout.

Definition AMOUNT_RE : Re.re :=
  Eval vm_compute in Re.compile "\$?\s*\d{1,3}(?:,\d{3})*\.\d{2}" eq_refl.
Definition DATE_TOKEN_SIMPLE : Re.re :=
  Eval vm_compute in Re.compile "(\d{2})[\/\-\s]([A-Za-zÁá]{3})" eq_refl.
Definition SKIP_PAGE_PAT : Re.re :=
  Eval vm_compute in
    Re.compile "(?i)cuadro\s+resumen\s+y\s+gr[aá]fico\s+de\s+movimientos\s+del\s+periodo" eq_refl.
Definition NOTICE_PAT_src : string :=
  "(?i)("
  ++ "estimad[oa]\s+cliente|"
  ++ "estado\s+de\s+cuenta\s+ha\s+sido\s+modificado|"
  ++ "ahora\s+tiene\s+m[aá]s\s+detalle|"
  ++ "contrato\s+ha\s+sido\s+modificado|"
  ++ "cualquier\s+sucursal|www\.bbva\.mx|"
  ++ "con\s+bbva\s+adelante"
  ++ ")".
Definition NOTICE_PAT : Re.re := Eval vm_compute in Re.compile NOTICE_PAT_src eq_refl.
Definition FOOTER_PAT_src : string :=
  "(?ix)("
  ++ "bbva\s+m[eé]xico[,.\s]+s\.?a\.?,?\s*instituci[oó]n\s+de\s+banca\s+m[uú]ltiple.*?grupo\s+financiero\s+bbva(?:\s+m[eé]xico)?"
  ++ "|av\.?\s*paseo\s+de\s+la\s+reforma\s*510.*?(?:c\.?\s*p\.?\s*\d{5}|ciudad\s+de\s+m[eé]xico|m[eé]xico)"
  ++ "|r\.?\s*f\.?\s*c\.?\s*bba[a-z0-9]{6,}"
  ++ ")".
Definition FOOTER_PAT : Re.re := Eval vm_compute in Re.compile FOOTER_PAT_src eq_refl.
Definition FOOTER_EXTRA_PAT : Re.re :=
  Eval vm_compute in
    Re.compile_flags Re.DOTALL
      "(?i)reforma\s*510.*?ju[aá]rez.*?cuauh?t[eé]moc.*?c\.?\s*p\.?\s*0?6600.*?ciudad" eq_refl.
Definition ORG_MID_PHRASE_PAT : Re.re :=
  Eval vm_compute in
    Re.compile "(?i)\b(?:S\.?\s*A\.?,?\s*)?INSTITUCI[ÓO]N\s+DE\s+BANCA\s+M[ÚU]LTIPLE,?\s+GRUPO\s+FINANCIERO\b" eq_refl.
Definition DASH_ROW_PAT : Re.re := Eval vm_compute in Re.compile "(?:[-–—_]{2,}\s*){6,}" eq_refl.
Definition CROSS_SA_PAT : Re.re := Eval vm_compute in Re.compile "(?i)\bS\.?\s*A\.?[,\.]?\b" eq_refl.
Definition SPACES_RE : Re.re := Eval vm_compute in Re.compile "\s+" eq_refl.
Definition TRAILING_PUNCT_RE : Re.re := Eval vm_compute in Re.compile "[ ,;:\-–—]+$" eq_refl.
Definition SECOND_NOISE : list Re.re :=
  Eval vm_compute in
    [Re.compile "(?i)\bcliente\b" eq_refl;
     Re.compile "(?i)\bahora\b" eq_refl;
     Re.compile "(?i)\bestimad[oa]\b" eq_refl;
     Re.compile "(?i)\bbbva\s+m[eé]xico(?:\s+de\s+m[eé]xico)?\b" eq_refl;
     Re.compile "(?i)\bcontrato\b" eq_refl;
     Re.compile "(?i)\bcualquier\s+adelante\b" eq_refl].

Definition HEADER_TOKENS : list string :=
  ["OPER"; "LIQ"; "CARGOS"; "ABONOS";
   "OPERACIÓN"; "OPERACION"; "LIQUIDACIÓN"; "LIQUIDACION";
   "SALDO"; "FECHA"]%string.

Definition _norm_amount (s : option str) : pyres Q := norm_amount 0 float_of_str s.
Definition amount_of (t : str) : Q := value (_norm_amount (Some t)).

Definition _parse_ddmon (token : str) (fallback_year : Z) : pyres (option date) :=
  let t := replace [c_nbsp] (U " ") token in
  match Re.search DATE_TOKEN_SIMPLE t with
  | None => Ok None
  | Some m =>
      if (fallback_year =? 0)%Z then Ok None
      else
        match Re.group t m 1, Re.group t m 2 with
        | Some g1, Some g2 =>
            match mes_get (replace (U "á") (U "a") (lower g2)) with
            | Some mon =>
                if (mon =? 0)%Z then Ok None
                else bind (make_date fallback_year mon (int_of_digits g1))
                          (fun d => Ok (Some d))
            | None => Ok None
            end
        | _, _ => Ok None
        end
  end.

Record TxRow : Type := mk_tx
  { f_oper : option date;
    f_liq : option date;
    desc : str;
    cargos : Q;
    abonos : Q;
    s_oper : option Q;
    s_liq : option Q }.

(** The eight anchors, in the order of the source: OPER, LIQ, CODDESC,
    REFERENCIA, CARGOS, ABONOS, OPERACION, LIQUIDACION. *)
Definition labels : list (list string) :=
  [["CARGOS"]; ["ABONOS"]; ["OPERACIÓN"; "OPERACION"]; ["LIQUIDACIÓN"; "LIQUIDACION"];
   ["COD."; "DESCRIPCIÓN"; "DESCRIPCION"]; ["REFERENCIA"]; ["OPER"]; ["LIQ"]]%string.

Definition anchors (words : list word) (page_width : Q) : list Q :=
  [cx words page_width ["OPER"]%string (8 # 100);
   cx words page_width ["LIQ"]%string (13 # 100);
   cx words page_width ["COD."; "DESCRIPCIÓN"; "DESCRIPCION"]%string (33 # 100);
   cx words page_width ["REFERENCIA"]%string (51 # 100);
   cx words page_width ["CARGOS"]%string (70 # 100);
   cx words page_width ["ABONOS"]%string (78 # 100);
   cx words page_width ["OPERACIÓN"; "OPERACION"]%string (86 # 100);
   cx words page_width ["LIQUIDACIÓN"; "LIQUIDACION"]%string (94 # 100)].

Definition bounds_of (xs : list Q) (page_width : Q) : list (Q * Q) :=
  match xs with
  | [x0; x1; x2; x3; x4; x5; x6; x7] =>
      [(0, mid x0 x1 - 1);
       (mid x0 x1 + 1, mid x1 x2 - 1);
       (mid x1 x2 + 1, mid x2 x3 - 1);
       (mid x2 x3 + 1, mid x3 x4 - 1);
       (mid x3 x4 + 1, mid x4 x5 - 1);
       (mid x4 x5 + 1, mid x5 x6 - 1);
       (mid x5 x6 + 1, mid x6 x7 - 1);
       (mid x6 x7 + 1, page_width)]
  | _ => []
  end.

Definition _detect_columns (words : list word) (page_width : Q) : list (Q * Q) * Q :=
  let xs := sorted_by Qle_bool (anchors words page_width) in
  (bounds_of xs page_width, header_y_of words labels).

Definition _assign_cols (row_words : list word) (bounds : list (Q * Q)) : list str :=
  assign_cols 8 row_words bounds.

(** The common tail of the two cleaners: squeeze spaces, drop hanging
    punctuation. *)
Definition tidy (t : str) : str :=
  let t := strip (Re.sub SPACES_RE (U " ") t) in
  strip (Re.sub TRAILING_PUNCT_RE [] t).

Definition _strip_bbva_footer (text : str) : str :=
  if negb (nonempty text) then text
  else
    tidy (fold_left (fun t pat => Re.sub pat (U " ") t)
                    [ORG_MID_PHRASE_PAT; FOOTER_EXTRA_PAT; FOOTER_PAT; NOTICE_PAT] text).

Definition _strip_crosspage_noise (text : str) (is_second : bool) : str :=
  if negb (nonempty text) then text
  else
    let t := Re.sub CROSS_SA_PAT (U " ") text in
    let t := if is_second
             then fold_left (fun t pat => Re.sub pat (U " ") t) SECOND_NOISE t
             else t in
    tidy t.

Definition debit_kw : list string :=
  ["ENVIADO"; "PAGO"; "COMPRA"; "RETIRO"; "DÉBITO"; "DEBITO";
   "COMISION"; "COMISIÓN"; "DOMICILI"; "N06"; "CARGO"; "SPEI"]%string.
Definition credit_kw : list string :=
  ["ABONO"; "DEPÓSITO"; "DEPOSITO"; "NÓMINA"; "NOMINA";
   "RECIBIDO"; "INTERESES A FAVOR"; "DEVOLUCIÓN"; "DEVOLUCION"]%string.

(** The non-zero balances of a movement. *)
Definition saldos_of (tx : TxRow) : list Q :=
  flat_map (fun o => match o with
                     | Some v => if Qis_zero v then [] else [v]
                     | None => []
                     end) [s_oper tx; s_liq tx].

Definition _maybe_fix_amount_columns (tx : TxRow) : TxRow :=
  let cargos_zero := Qis_zero (cargos tx) in
  let abonos_zero := Qis_zero (abonos tx) in
  match saldos_of tx with
  | [v] =>
      if cargos_zero && abonos_zero then
        let u := upper (desc tx) in
        let is_credit := any_in credit_kw u in
        let is_debit := any_in debit_kw u in
        if is_credit && negb is_debit
        then mk_tx (f_oper tx) (f_liq tx) (desc tx) (cargos tx) v None None
        else mk_tx (f_oper tx) (f_liq tx) (desc tx) v (abonos tx) None None
      else tx
  | _ => tx
  end.


(** The state carried by the loops of [extract_bbva_to_xlsx]. *)
Record state : Type := mk_state
  { txs : list TxRow;
    current : option TxRow;
    second_cross_active : bool;
    current_tx_index : option nat;
    hard_stop_after_this_page : bool }.

Definition init_state : state := mk_state [] None false None false.

Definition with_desc (t : TxRow) (d : str) : TxRow :=
  mk_tx (f_oper t) (f_liq t) d (cargos t) (abonos t) (s_oper t) (s_liq t).

(** [current.desc = (current.desc + " " + desc_piece).strip()] *)
Definition append_desc (t : TxRow) (desc_piece : str) : TxRow :=
  with_desc t (strip (desc t ++ U " " ++ desc_piece)).

Definition set_current (st : state) (c : option TxRow) : state :=
  mk_state (txs st) c (second_cross_active st) (current_tx_index st)
           (hard_stop_after_this_page st).

(** The two tests that end the scan of a page (lines 503-512): [Some false]
    for a dashed line or the "Estimado Cliente" notice, [Some true] for
    "Total de Movimientos". *)
Definition stop_row (r : list word) : option bool :=
  let row_full_txt := row_text r in
  let row_full_up := upper row_full_txt in
  if Re.found DASH_ROW_PAT row_full_txt
     || (has_text row_full_up "ESTIMADO" && has_text row_full_up "CLIENTE")
  then Some false
  else if has_text row_full_up "TOTAL DE MOVIMIENTOS" then Some true
  else None.

(** The description recovered from the words when the columns give none. *)
Definition fallback_desc_of (r : list word) : str :=
  strip (join (U " ")
           (filter (fun txt =>
                      negb (Re.found AMOUNT_RE txt)
                      && negb (Re.found DATE_TOKEN_SIMPLE txt)
                      && negb (existsb (fun h => str_eqb (U h) (upper txt)) HEADER_TOKENS))
                   (map w_text r))).

(** Step 5 of the loop body: the amounts found on the line (lines 584-597). *)
Definition take_amounts (c : TxRow) (car_raw abo_raw sop_raw sliq_raw : str) : TxRow :=
  let c1 := if nonempty car_raw
            then mk_tx (f_oper c) (f_liq c) (desc c) (amount_of car_raw) (abonos c)
                       (s_oper c) (s_liq c)
            else c in
  let c2 := if nonempty abo_raw
            then mk_tx (f_oper c1) (f_liq c1) (desc c1) (cargos c1) (amount_of abo_raw)
                       (s_oper c1) (s_liq c1)
            else c1 in
  let c3 := if nonempty sop_raw && nonempty (strip sop_raw)
            then mk_tx (f_oper c2) (f_liq c2) (desc c2) (cargos c2) (abonos c2)
                       (Some (amount_of sop_raw)) (s_liq c2)
            else c2 in
  let c4 := if nonempty sliq_raw && nonempty (strip sliq_raw)
            then mk_tx (f_oper c3) (f_liq c3) (desc c3) (cargos c3) (abonos c3)
                       (s_oper c3) (Some (amount_of sliq_raw))
            else c3 in
  _maybe_fix_amount_columns c4.

(** The body of [for r in rows] after the two stop tests (lines 514-597). *)
Definition step_row (year_hint : Z) (bounds : list (Q * Q)) (st : state) (r : list word)
  : pyres state :=
  let cols := _assign_cols r bounds in
  let oper_raw := nth 0 cols [] in
  let liq_raw := nth 1 cols [] in
  let descr_raw := nth 2 cols [] in
  let ref_raw := nth 3 cols [] in
  let car_raw := nth 4 cols [] in
  let abo_raw := nth 5 cols [] in
  let sop_raw := nth 6 cols [] in
  let sliq_raw := nth 7 cols [] in
  let desc_piece := strip (join (U " ") (filter nonempty [descr_raw; ref_raw])) in
  let desc_piece := if nonempty desc_piece then desc_piece else fallback_desc_of r in
  let desc_piece := _strip_bbva_footer desc_piece in
  let is_second :=
    second_cross_active st
    && match current st with Some _ => true | None => false end
    && match current_tx_index st with Some 1%nat => true | _ => false end in
  let desc_piece := _strip_crosspage_noise desc_piece is_second in
  let header_line := has_text (upper descr_raw ++ upper ref_raw) "DETALLE DE MOVIMIENTOS" in
  let dashed := startswith (U "—") (strip descr_raw) || startswith (U "- -") (strip descr_raw) in
  if header_line then Ok st
  else if dashed then Ok st
  else
    let no_dates := negb (nonempty oper_raw) && negb (nonempty liq_raw) in
    let no_amounts :=
      negb (Re.found AMOUNT_RE car_raw || Re.found AMOUNT_RE abo_raw
            || Re.found AMOUNT_RE sop_raw || Re.found AMOUNT_RE sliq_raw) in
    if no_dates && no_amounts && nonempty desc_piece
       && (Re.found NOTICE_PAT desc_piece || Re.found FOOTER_PAT desc_piece)
    then Ok st
    else if no_dates && no_amounts && nonempty desc_piece then
      match current st with
      | Some c => Ok (set_current st (Some (append_desc c desc_piece)))
      | None => Ok st
      end
    else
      bind
        (if nonempty oper_raw || nonempty liq_raw then
           let '(txs1, sca1) :=
             match current st with
             | Some c => (txs st ++ [c], false)
             | None => (txs st, second_cross_active st)
             end in
           bind (if nonempty oper_raw then _parse_ddmon oper_raw year_hint else Ok None)
             (fun fo =>
           bind (if nonempty liq_raw then _parse_ddmon liq_raw year_hint else Ok None)
             (fun fl =>
           Ok (mk_state txs1 (Some (mk_tx fo fl desc_piece 0 0 None None)) sca1
                        (Some (length txs1)) (hard_stop_after_this_page st))))
         else
           match current st with
           | Some c =>
               if nonempty desc_piece
               then Ok (set_current st (Some (append_desc c desc_piece)))
               else Ok st
           | None => Ok st
           end)
        (fun st1 =>
           match current st1 with
           | Some c =>
               Ok (set_current st1 (Some (take_amounts c car_raw abo_raw sop_raw sliq_raw)))
           | None => Ok st1
           end).

(** [for r in rows] with its two [break]s; the flag is [saw_totals_here]. *)
Fixpoint run_rows (year_hint : Z) (bounds : list (Q * Q)) (st : state)
                  (rows : list (list word)) : pyres (state * bool) :=
  match rows with
  | [] => Ok (st, false)
  | r :: rest =>
      match stop_row r with
      | Some saw_totals => Ok (st, saw_totals)
      | None => bind (step_row year_hint bounds st r)
                     (fun st' => run_rows year_hint bounds st' rest)
      end
  end.

(** [_group_rows] of the page under the columns found on it. *)
Definition page_rows (pg : page) : list (Q * Q) * list (list word) :=
  let '(bounds, header_y) := _detect_columns (p_words pg) (p_width pg) in
  (bounds, _group_rows (p_words pg) header_y).

Definition skipped_page (pg : page) : bool :=
  Re.found SKIP_PAGE_PAT (replace [c_nbsp] (U " ") (p_text pg)).

(** One iteration of [for page_idx, page in enumerate(pdf.pages)]
    (lines 485-614), up to the final test of [hard_stop_after_this_page]. *)
Definition run_page (year_hint : Z) (st : state) (pg : page) : pyres state :=
  if skipped_page pg then Ok st
  else
    let '(bounds, rows) := page_rows pg in
    bind (run_rows year_hint bounds st rows) (fun '(st1, saw_totals_here) =>
      let sca := match current st1, current_tx_index st1 with
                 | Some _, Some 1%nat => true
                 | _, _ => false
                 end in
      Ok (mk_state (txs st1) (current st1) sca (current_tx_index st1)
                   (hard_stop_after_this_page st1 || saw_totals_here))).

(** The loop over the pages; [break] once [hard_stop_after_this_page] is set
    at the end of a page that was not skipped. *)
Fixpoint run_pages (year_hint : Z) (st : state) (pages : list page) : pyres state :=
  match pages with
  | [] => Ok st
  | pg :: rest =>
      bind (run_page year_hint st pg) (fun st1 =>
        if negb (skipped_page pg) && hard_stop_after_this_page st1 then Ok st1
        else run_pages year_hint st1 rest)
  end.

(** The list [txs] when the loop is over: the pending movement is appended,
    then the description of the second movement is cleaned once more. *)
Definition finish (st : state) : list TxRow :=
  let txs1 := match current st with
              | Some c => txs st ++ [c]
              | None => txs st
              end in
  match txs1 with
  | t0 :: t1 :: rest =>
      if nonempty (desc t1)
      then t0 :: with_desc t1 (_strip_crosspage_noise (desc t1) true) :: rest
      else txs1
  | _ => txs1
  end.

(** Step 2 of [extract_bbva_to_xlsx]: the movements read from the pages. *)
Definition movements (year_hint : Z) (pages : list page) : pyres (list TxRow) :=
  bind (run_pages year_hint init_state pages) (fun st => Ok (finish st)).

End BBVA.

(* ===================================================================== *)
(** * inbursa_extractor.py *)
(* ===================================================================== *)

Module Inbursa.
Import Py PyNum Common Layout.

(** ** Outcomes

    Besides the exceptions of [float] and [max], this extractor can raise
    [KeyError] (the subscript [SPAN_MONTHS[mon]]) and [TypeError]
    ([int(None)]). *)
Inductive error : Type := KeyError | TypeError | Builtin (e : exn).

Inductive outcome (A : Type) : Type :=
| Returns (a : A)
| Raises (e : error).
Arguments Returns {A} a.
Arguments Raises {A} e.

(** Sequencing: the rest runs only if the first part did not raise. *)
Definition and_then {A B : Type} (x : outcome A) (f : A -> outcome B) : outcome B :=
  match x with
  | Returns a => f a
  | Raises e => Raises e
  end.

Definition of_builtin {A : Type} (r : pyres A) : outcome A :=
  match r with
  | Ok a => Returns a
  | Raise e => Raises (Builtin e)
  end.

(** [[f(x) for x in l]] for an [f] that can raise. *)
Fixpoint for_each {A B : Type} (f : A -> outcome B) (l : list A) : outcome (list B) :=
  match l with
  | [] => Returns []
  | x :: rest =>
      and_then (f x) (fun y => and_then (for_each f rest) (fun ys => Returns (y :: ys)))
  end.

(** ** Utils *)

(** [s or ""] *)
Definition or_empty (s : option str) : str :=
  match s with Some t => t | None => [] end.

(** Truthiness of an [Optional[str]]. *)
Definition truthy (s : option str) : bool := nonempty (or_empty s).

(** [a or b] on two [Optional[str]]. *)
Definition or_str (a b : option str) : option str := if truthy a then a else b.

Definition is_some {A : Type} (o : option A) : bool :=
  match o with Some _ => true | None => false end.

(** Truthiness of a list. *)
Definition some_items {A : Type} (l : list A) : bool :=
  match l with [] => false | _ :: _ => true end.

Definition SPACES_RE : Re.re := Eval vm_compute in Re.compile "\s+" eq_refl.

Definition _clean (s : option str) : str := strip (Re.sub SPACES_RE (U " ") (or_empty s)).

(** [unicodedata.normalize("NFD", c)] without its combining marks, for one
    code point of U+0000..U+00FF: an accented letter gives its base letter. *)
Definition base_letter (c : char) : char :=
  (if in_range 192 197 c then 65
   else if c =? 199 then 67
   else if in_range 200 203 c then 69
   else if in_range 204 207 c then 73
   else if c =? 209 then 78
   else if in_range 210 214 c then 79
   else if in_range 217 220 c then 85
   else if c =? 221 then 89
   else if in_range 224 229 c then 97
   else if c =? 231 then 99
   else if in_range 232 235 c then 101
   else if in_range 236 239 c then 105
   else if c =? 241 then 110
   else if in_range 242 246 c then 111
   else if in_range 249 252 c then 117
   else if (c =? 253) || (c =? 255) then 121
   else c)%N.

(** The combining diacritical marks U+0300..U+036F, all of category [Mn]. *)
Definition is_mark (c : char) : bool := in_range 768%N 879%N c.

(** [_norm]: accents removed, then upper case.  Exact on texts of
    U+0000..U+00FF, with or without combining marks after the letters. *)
Definition _norm (s : option str) : str :=
  flat_map upper_of (map base_letter (filter (fun c => negb (is_mark c)) (or_empty s))).

Definition SPAN_MONTHS : list (string * Z) :=
  [("ENE", 1); ("FEB", 2); ("MAR", 3); ("ABR", 4); ("MAY", 5); ("JUN", 6);
   ("JUL", 7); ("AGO", 8); ("SEP", 9); ("OCT", 10); ("NOV", 11); ("DIC", 12)]%string%Z.

(** [SPAN_MONTHS.get(key)] *)
Definition span_month (key : str) : option Z :=
  match find (fun kv => str_eqb (U (fst kv)) key) SPAN_MONTHS with
  | Some kv => Some (snd kv)
  | None => None
  end.

Definition DATE_TOKEN : string := "(?:ENE|FEB|MAR|ABR|MAY|JUN|JUL|AGO|SEP|OCT|NOV|DIC)".
Definition RX_MON_ONLY_src : string := "^\s*(" ++ DATE_TOKEN ++ ")[\.,]?\s*$".
Definition RX_MON_DAY_src : string := "^\s*(" ++ DATE_TOKEN ++ ")[\.,]?\s+(\d{1,2})\s*$".

Definition RX_MON_ONLY : Re.re :=
  Eval vm_compute in Re.compile_flags Re.IGNORECASE RX_MON_ONLY_src eq_refl.
Definition RX_MON_DAY : Re.re :=
  Eval vm_compute in Re.compile_flags Re.IGNORECASE RX_MON_DAY_src eq_refl.
Definition RX_DAY_ONLY : Re.re := Eval vm_compute in Re.compile "^\s*(\d{1,2})\s*$" eq_refl.

Definition AMOUNT_RX : Re.re := Eval vm_compute in Re.compile "\d{1,3}(?:,\d{3})*\.\d{2}" eq_refl.
Definition ALPHA_RX : Re.re := Eval vm_compute in Re.compile "[A-Za-zÁÉÍÓÚÑáéíóúñ]" eq_refl.
Definition REF10_RX : Re.re := Eval vm_compute in Re.compile "\b(\d{10})\b" eq_refl.

(** The patterns of the two [re.fullmatch] calls of [_bucket_by_xbands]. *)
Definition TEN_DIGITS : Re.re := Eval vm_compute in Re.compile "\d{10}" eq_refl.
Definition FIVE_DIGITS : Re.re := Eval vm_compute in Re.compile "\d{5,}" eq_refl.

Definition matches_start (r : Re.re) (s : str) : bool := is_some (Re.rmatch_at_start r s).
Definition matches_fully (r : Re.re) (s : str) : bool := is_some (Re.fullmatch r s).

Definition _to_amount (s : option str) : outcome (option Q) :=
  if negb (truthy s) then Returns None
  else
    match Re.search AMOUNT_RX (or_empty s) with
    | Some m =>
        and_then (of_builtin (float_of_str (replace (U ",") [] (Re.group0 (or_empty s) m))))
                 (fun v => Returns (Some v))
    | None => Returns None
    end.

(** ** Dates as text *)

(** The decimal digits of a number. *)
Fixpoint chars_of_uint (u : Decimal.uint) : str :=
  match u with
  | Decimal.Nil => []
  | Decimal.D0 u => 48%N :: chars_of_uint u
  | Decimal.D1 u => 49%N :: chars_of_uint u
  | Decimal.D2 u => 50%N :: chars_of_uint u
  | Decimal.D3 u => 51%N :: chars_of_uint u
  | Decimal.D4 u => 52%N :: chars_of_uint u
  | Decimal.D5 u => 53%N :: chars_of_uint u
  | Decimal.D6 u => 54%N :: chars_of_uint u
  | Decimal.D7 u => 55%N :: chars_of_uint u
  | Decimal.D8 u => 56%N :: chars_of_uint u
  | Decimal.D9 u => 57%N :: chars_of_uint u
  end.

Definition zero_padded (width : nat) (digits : str) : str :=
  repeat 48%N (width - length digits)%nat ++ digits.

(** [f"{n:0{width}d}"] *)
Definition fmt_int (width : nat) (n : Z) : str :=
  if (n <? 0)%Z
  then 45%N :: zero_padded (width - 1)%nat (chars_of_uint (N.to_uint (Z.abs_N n)))
  else zero_padded width (chars_of_uint (N.to_uint (Z.to_N n))).

(** [f"{int(day):02d}-{SPAN_MONTHS[mon]:02d}-{year:04d}"], its operands
    evaluated from left to right. *)
Definition fmt_date (day mon : option str) (year : Z) : outcome str :=
  match day with
  | None => Raises TypeError
  | Some day =>
      match mon with
      | None => Raises KeyError
      | Some mon =>
          match span_month mon with
          | Some mm =>
              Returns (fmt_int 2 (int_of_digits day) ++ U "-" ++ fmt_int 2 mm
                       ++ U "-" ++ fmt_int 4 year)
          | None => Raises KeyError
          end
      end
  end.

(** ** Columns and rows *)

Definition FOOTER_TERMS : list string :=
  ["RESUMEN GRAFICO"; "TIPO COMPROBANTE"; "EXPRESADAS EN TERMINOS ANUALES";
   "RENDIMIENTOS"; "BANCO INBURSA"; "REGIMEN FISCAL"; "CLIENTE INBURSA"]%string.

(** A [dict] with string keys, in insertion order. *)
Section Dict.
Variable V : Type.

Definition dict : Type := list (str * V).

(** [d.get(k)] *)
Fixpoint dict_get (k : str) (d : dict) : option V :=
  match d with
  | [] => None
  | (k', v) :: rest => if str_eqb k' k then Some v else dict_get k rest
  end.

(** [k in d] *)
Definition dict_mem (k : str) (d : dict) : bool := is_some (dict_get k d).

(** [d[k] = v]: in place for a key of [d], at the end for a new one. *)
Fixpoint dict_set (k : str) (v : V) (d : dict) : dict :=
  match d with
  | [] => [(k, v)]
  | (k', v') :: rest =>
      if str_eqb k' k then (k', v) :: rest else (k', v') :: dict_set k v rest
  end.

End Dict.

Definition targets : list string :=
  ["FECHA"; "REFERENCIA"; "CONCEPTO"; "DESCRIPCION"; "CARGOS"; "ABONOS"; "SALDO"]%string.

(** [round(w["top"] / y_bin) * y_bin] *)
Definition line_key (y_bin : Z) (w : word) : Z :=
  (round_half_even (w_top w / inject_Z y_bin) * y_bin)%Z.

(** The words by line: [d.setdefault(key, []).append(w)] for each word. *)
Definition lines_of (y_bin : Z) (words : list word) : buckets :=
  fold_left (fun d w => bucket_add (line_key y_bin w) w d) words [].

(** [t in targets] *)
Definition is_target (t : str) : bool := existsb (fun x => str_eqb (U x) t) targets.

(** [labels], a set used for membership only. *)
Definition labels_of (ws : list word) : list str := map (fun w => _norm (Some (w_text w))) ws.

Definition has_label (x : string) (labels : list str) : bool := existsb (str_eqb (U x)) labels.

Definition has_core (labels : list str) : bool :=
  has_label "FECHA" labels && (has_label "CONCEPTO" labels || has_label "DESCRIPCION" labels).

Definition count_hits (labels : list str) : Z :=
  Z.of_nat (length (filter (fun x => has_label x labels) targets)).

(** [best_key] after the loop over [byline.items()]. *)
Definition best_line (byline : buckets) : option Z :=
  fst (fold_left
         (fun best kws =>
            let labels := labels_of (snd kws) in
            if negb (has_core labels) then best
            else if (snd best <? count_hits labels)%Z
                 then (Some (fst kws), count_hits labels)
                 else best)
         byline (None, (-1)%Z)).

(** [centers] after the loop over [header_ws]. *)
Definition header_centers (header_ws : list word) : dict Q :=
  fold_left
    (fun centers w =>
       let t := _norm (Some (w_text w)) in
       if is_target t && negb (dict_mem t centers)
       then dict_set (if str_eqb t (U "DESCRIPCION") then U "CONCEPTO" else t)
                     (x_center w) centers
       else centers)
    header_ws [].

(** Lines 121-129: a centre for CARGOS and ABONOS when the header names
    CONCEPTO and SALDO. *)
Definition fill_amount_centers (centers : dict Q) : dict Q :=
  match dict_get (U "CONCEPTO") centers, dict_get (U "SALDO") centers with
  | Some x_conc, Some x_saldo =>
      match dict_get (U "CARGOS") centers, dict_get (U "ABONOS") centers with
      | None, None =>
          dict_set (U "ABONOS") (x_conc + 2 * (x_saldo - x_conc) / 3)
                   (dict_set (U "CARGOS") (x_conc + (x_saldo - x_conc) / 3) centers)
      | None, Some x_abonos => dict_set (U "CARGOS") ((x_conc + x_abonos) / 2) centers
      | Some x_cargos, None => dict_set (U "ABONOS") ((x_cargos + x_saldo) / 2) centers
      | Some _, Some _ => centers
      end
  | _, _ => centers
  end.

(** [max(values)]: [ValueError] on an empty sequence. *)
Definition max_of (values : list Q) : outcome Q :=
  match values with
  | [] => Raises (Builtin ValueError)
  | v :: rest => Returns (fold_left Qmax2 rest v)
  end.

(** [_detect_header_centers], on the words of the page. *)
Definition _detect_header_centers (words : list word) : outcome (option (dict Q) * Q) :=
  match words with
  | [] => Returns (None, 0%Q)
  | _ :: _ =>
      let byline := lines_of 6 words in
      match best_line byline with
      | None => Returns (None, 0%Q)
      | Some best_key =>
          let header_ws := bucket_get best_key byline in
          let centers := fill_amount_centers (header_centers header_ws) in
          and_then (max_of (map w_bottom header_ws)) (fun y =>
            Returns (Some centers, (y + (1 # 2))%Q))
      end
  end.

(** A bound of a band: a float, or one of [-math.inf] and [math.inf]. *)
Inductive bound : Type := NegInf | Fin (x : Q) | PosInf.

(** [lx <= xmid] and [xmid < rx] *)
Definition bound_le (lx : bound) (xmid : Q) : bool :=
  match lx with
  | NegInf => true
  | Fin x => Qle_bool x xmid
  | PosInf => false
  end.
Definition lt_bound (xmid : Q) (rx : bound) : bool :=
  match rx with
  | NegInf => false
  | Fin x => Qltb xmid x
  | PosInf => true
  end.

Definition _build_xbands (centers : dict Q) : dict (bound * bound) :=
  let cols := sorted_by (fun a b => Qle_bool (snd a) (snd b)) centers in
  let keys := map fst cols in
  let xs := map snd cols in
  fold_left
    (fun bands ik =>
       let i := fst ik in
       let left := if Nat.eqb i 0%nat then NegInf
                   else Fin ((nth (i - 1)%nat xs 0%Q + nth i xs 0%Q) / 2) in
       let right := if Nat.eqb i (length keys - 1)%nat then PosInf
                    else Fin ((nth i xs 0%Q + nth (i + 1)%nat xs 0%Q) / 2) in
       dict_set (snd ik) (left, right) bands)
    (combine (seq 0%nat (length keys)) keys) [].

Definition in_xband (xmid : Q) (b : bound * bound) : bool :=
  bound_le (fst b) xmid && lt_bound xmid (snd b).

(** The key of the first band that holds [xmid]. *)
Fixpoint band_of (xmid : Q) (bands : dict (bound * bound)) : option str :=
  match bands with
  | [] => None
  | (k, b) :: rest => if in_xband xmid b then Some k else band_of xmid rest
  end.

(** [sorted(ws, key=lambda x: x["x0"])] *)
Definition by_x0 (ws : list word) : list word :=
  sorted_by (fun a b => Qle_bool (w_x0 a) (w_x0 b)) ws.

(** [out.get(k, [])] *)
Definition words_at (k : string) (out : dict (list word)) : list word :=
  match dict_get (U k) out with Some ws => ws | None => [] end.

(** [out[k].append(w)], for a key of [out]. *)
Fixpoint dict_append (k : str) (w : word) (out : dict (list word)) : dict (list word) :=
  match out with
  | [] => []
  | (k', ws) :: rest =>
      if str_eqb k' k then (k', ws ++ [w]) :: rest else (k', ws) :: dict_append k w rest
  end.

(** Lines 146-152: each word goes to the first band that holds its centre. *)
Definition place_words (line_words : list word) (bands : dict (bound * bound))
  : dict (list word) :=
  fold_left
    (fun out w =>
       match band_of (x_center w) bands with
       | Some k => dict_append k w out
       | None => out
       end)
    (by_x0 line_words)
    (map (fun kb => (fst kb, @nil word)) bands).

(** Lines 155-164 and 167-178: the words of column [col] that are not kept
    move to the end of CONCEPTO. *)
Definition move_to_concepto (col : string) (keep : word -> bool) (out : dict (list word))
  : dict (list word) :=
  if dict_mem (U col) out && dict_mem (U "CONCEPTO") out then
    let ws := words_at col out in
    let out1 := dict_set (U col) (filter keep ws) out in
    dict_set (U "CONCEPTO")
             (words_at "CONCEPTO" out1 ++ filter (fun w => negb (keep w)) ws) out1
  else out.

Definition keep_ref (w : word) : bool := matches_fully TEN_DIGITS (_clean (Some (w_text w))).

Definition keep_fecha (w : word) : bool :=
  let t := _clean (Some (w_text w)) in
  let n := _norm (Some t) in
  if matches_start RX_MON_DAY n || matches_start RX_MON_ONLY n || matches_start RX_DAY_ONLY n
  then true
  else if Re.found ALPHA_RX t || matches_fully FIVE_DIGITS t then false
  else true.

Definition _bucket_by_xbands (line_words : list word) (bands : dict (bound * bound))
  : dict (list word) :=
  move_to_concepto "FECHA" keep_fecha
    (move_to_concepto "REFERENCIA" keep_ref (place_words line_words bands)).

(** ** One page *)

(** A row of the sheet of movements.  An amount that is missing (the empty
    string in the row, [NaN] after [pd.to_numeric]) is [None]. *)
Record row : Type := mk_row
  { Fecha : str; Referencia : str; Descripcion : str;
    Cargos : option Q; Abonos : option Q; Saldo : option Q }.

(** [jtxt], [jlines] and [looks_like_footer] of [_parse_page]. *)
Definition jtxt (ws : list word) : str :=
  _clean (Some (join (U " ") (map w_text (by_x0 ws)))).

Definition jlines (ws : list word) : list str :=
  map (fun kv => _clean (Some (join (U " ") (map w_text (by_x0 (snd kv))))))
      (sorted_by (fun a b => Z.leb (fst a) (fst b)) (lines_of 2 ws)).

Definition looks_like_footer (full_line : list word) : bool :=
  any_in FOOTER_TERMS (_norm (Some (join (U " ") (map w_text (by_x0 full_line))))).

Definition ROW_START_RX_src : string :=
  "^\s*(?:DEPOSITO\s+(?:SPEI|EFECTIVO\s+CORRESPONSAL)|INTERESES\s+GANADOS|BALANCE\s+INICIAL)\b".
Definition ROW_START_RX : Re.re :=
  Eval vm_compute in Re.compile_flags Re.IGNORECASE ROW_START_RX_src eq_refl.

(** The local variables of [_parse_page] that live across lines. *)
Record state : Type := mk_state
  { rows : list row;
    last_month : option str;
    pending_month : option str;
    cur_date : option str;
    active_date : option str;
    cur_desc_lines : list str;
    cur_ref : option str;
    cur_cargo : option Q;
    cur_abono : option Q;
    cur_saldo : option Q;
    stash_desc_lines : list str;
    stash_ref : option str;
    stash_cargo : option Q;
    stash_abono : option Q;
    stash_saldo : option Q }.

Definition init_state : state :=
  mk_state [] None None None None [] None None None None [] None None None None.

(** [nums[-2], nums[-1]] when [len(nums) >= 2]. *)
Fixpoint last_two (nums : list Q) : option (Q * Q) :=
  match nums with
  | [] => None
  | a :: rest =>
      match rest with
      | [] => None
      | [b] => Some (a, b)
      | _ :: _ :: _ => last_two rest
      end
  end.

(** [[float(x.replace(",", "")) for x in AMOUNT_RX.findall(sal_txt or "")]] *)
Definition nums_of (sal_txt : str) : outcome (list Q) :=
  for_each (fun x => of_builtin (float_of_str (replace (U ",") [] x)))
           (Re.findall AMOUNT_RX sal_txt).

(** [x if x is not None else y] *)
Definition if_set {A : Type} (x y : option A) : option A :=
  match x with Some _ => x | None => y end.

(** Lines 382-397: the amounts read on one line. *)
Definition line_amounts (car_txt abo_txt sal_txt : str)
  : outcome (option Q * option Q * option Q) :=
  and_then (_to_amount (Some car_txt)) (fun v_cargo =>
  and_then (_to_amount (Some abo_txt)) (fun v_abono =>
  and_then (_to_amount (Some sal_txt)) (fun v_saldo =>
  and_then
    (match v_abono with
     | None =>
         and_then (nums_of sal_txt) (fun nums =>
           match last_two nums with
           | Some (a, b) => Returns (Some a, if_set v_saldo (Some b))
           | None => Returns (v_abono, v_saldo)
           end)
     | Some _ => Returns (v_abono, v_saldo)
     end)
    (fun abono_saldo =>
       let v_abono := fst abono_saldo in
       let v_saldo := snd abono_saldo in
       match v_cargo with
       | None =>
           and_then (nums_of sal_txt) (fun nums =>
             match last_two nums, v_abono with
             | Some (a, b), None => Returns (Some a, v_abono, if_set v_saldo (Some b))
             | _, _ => Returns (v_cargo, v_abono, v_saldo)
             end)
       | Some _ => Returns (v_cargo, v_abono, v_saldo)
       end)))).

(** Lines 320-337: the date the line opens, if any, with [last_month] and
    [pending_month] after it. *)
Definition line_date (year : Z) (fecha_txt : str) (last_month pending_month : option str)
  : outcome (option str * option str * option str) :=
  if negb (nonempty fecha_txt) then Returns (None, last_month, pending_month)
  else
    let n := strip (replace (U ",") (U " ") (_norm (Some fecha_txt))) in
    match Re.rmatch_at_start RX_MON_DAY n with
    | Some m =>
        let mon := Re.group n m 1 in
        let day := Re.group n m 2 in
        and_then (fmt_date day mon year) (fun d => Returns (Some d, mon, None))
    | None =>
        match Re.rmatch_at_start RX_MON_ONLY n with
        | Some m1 => Returns (None, Re.group n m1 1, Re.group n m1 1)
        | None =>
            match Re.rmatch_at_start RX_DAY_ONLY n with
            | Some m2 =>
                if truthy (or_str pending_month last_month) then
                  and_then (fmt_date (Re.group n m2 1) (or_str pending_month last_month) year)
                           (fun d => Returns (Some d, last_month, None))
                else Returns (None, last_month, pending_month)
            | None => Returns (None, last_month, pending_month)
            end
        end
    end.

Section Page.

(** [_normalize_concept_lines] rewrites a description with back-references
    and replacement functions; the page loop only stores its result. *)
Variable _normalize_concept_lines : list str -> str.

Definition flush (force : bool) (st : state) : state :=
  let emit :=
    truthy (cur_date st)
    && (force || some_items (cur_desc_lines st)
        || is_some (cur_cargo st) || is_some (cur_abono st) || is_some (cur_saldo st)) in
  mk_state
    (if emit
     then rows st ++ [mk_row (or_empty (cur_date st)) (or_empty (cur_ref st))
                             (_normalize_concept_lines (cur_desc_lines st))
                             (cur_cargo st) (cur_abono st) (cur_saldo st)]
     else rows st)
    (last_month st) (pending_month st)
    None (active_date st) [] None None None None
    (stash_desc_lines st) (stash_ref st) (stash_cargo st) (stash_abono st) (stash_saldo st).

(** Lines 339-348: a dated line closes the open row and opens one that takes
    over what was stashed. *)
Definition open_dated (new_date : option str) (st : state) : state :=
  if truthy new_date then
    let st := flush false st in
    let take_ref := truthy (stash_ref st) && negb (truthy (cur_ref st)) in
    mk_state (rows st) (last_month st) (pending_month st)
      new_date new_date
      (cur_desc_lines st ++ stash_desc_lines st)
      (if take_ref then stash_ref st else cur_ref st)
      (if_set (stash_cargo st) (cur_cargo st))
      (if_set (stash_abono st) (cur_abono st))
      (if_set (stash_saldo st) (cur_saldo st))
      []
      (if take_ref then None else stash_ref st)
      None None None
  else st.

(** Lines 360-365: a new reference, or the start of a new concept, closes the
    open row and opens one with the active date. *)
Definition cut_row (ref_cand : option str) (starts_new : bool) (st : state) : state :=
  match cur_date st with
  | None => st
  | Some _ =>
      let have_any :=
        some_items (cur_desc_lines st) || truthy (cur_ref st)
        || is_some (cur_cargo st) || is_some (cur_abono st) || is_some (cur_saldo st) in
      let ref_changes :=
        truthy ref_cand
        && ((truthy (cur_ref st)
             && negb (str_eqb (or_empty ref_cand) (or_empty (cur_ref st))))
            || (negb (is_some (cur_ref st)) && have_any)) in
      if ref_changes || (starts_new && some_items (cur_desc_lines st)) then
        let st := flush false st in
        mk_state (rows st) (last_month st) (pending_month st)
          (active_date st) (active_date st)
          (cur_desc_lines st) (cur_ref st) (cur_cargo st) (cur_abono st) (cur_saldo st)
          (stash_desc_lines st) (stash_ref st) (stash_cargo st) (stash_abono st)
          (stash_saldo st)
      else st
  end.

(** Lines 367-379 and 399-406: the reference, the concept lines and the
    amounts of the line go to the open row, or to the stash without one. *)
Definition store (ref_cand : option str) (conc_lines : list str)
                 (v_cargo v_abono v_saldo : option Q) (st : state) : state :=
  match cur_date st with
  | None =>
      mk_state (rows st) (last_month st) (pending_month st)
        (cur_date st) (active_date st)
        (cur_desc_lines st) (cur_ref st) (cur_cargo st) (cur_abono st) (cur_saldo st)
        (stash_desc_lines st ++ conc_lines)
        (if truthy ref_cand then ref_cand else stash_ref st)
        (if_set v_cargo (stash_cargo st))
        (if_set v_abono (stash_abono st))
        (if_set v_saldo (stash_saldo st))
  | Some _ =>
      mk_state (rows st) (last_month st) (pending_month st)
        (cur_date st) (active_date st)
        (cur_desc_lines st ++ conc_lines)
        (if truthy ref_cand && negb (truthy (cur_ref st)) then ref_cand else cur_ref st)
        (if_set v_cargo (cur_cargo st))
        (if_set v_abono (cur_abono st))
        (if_set v_saldo (cur_saldo st))
        (stash_desc_lines st) (stash_ref st) (stash_cargo st) (stash_abono st)
        (stash_saldo st)
  end.

(** [ref_cand] (lines 351-355) *)
Definition ref_of (ref_txt : str) (conc_lines : list str) : option str :=
  if nonempty ref_txt || some_items conc_lines then
    let text := ref_txt ++ U " " ++ join (U " ") conc_lines in
    match Re.search REF10_RX text with
    | Some m10 => Re.group text m10 1
    | None => None
    end
  else None.

(** [conc_first] (line 357) *)
Definition first_line (conc_lines : list str) : str :=
  match filter (fun ln => nonempty (_clean (Some ln))) conc_lines with
  | ln :: _ => ln
  | [] => []
  end.

(** The text of column [k] of the line, [""] when the page has no such column. *)
Definition column_text (k : string) (xb : dict (bound * bound)) (buckets : dict (list word))
  : str :=
  if dict_mem (U k) xb then jtxt (words_at k buckets) else [].

(** The body of the loop over the lines, for a line that is not a footer. *)
Definition step_line (xb : dict (bound * bound)) (year : Z) (st : state) (line : list word)
  : outcome state :=
  let buckets := _bucket_by_xbands line xb in
  let fecha_txt := jtxt (words_at "FECHA" buckets) in
  let ref_txt := jtxt (words_at "REFERENCIA" buckets) in
  let conc_lines := jlines (words_at "CONCEPTO" buckets) in
  let car_txt := column_text "CARGOS" xb buckets in
  let abo_txt := column_text "ABONOS" xb buckets in
  let sal_txt := column_text "SALDO" xb buckets in
  and_then (line_date year fecha_txt (last_month st) (pending_month st)) (fun dated =>
    let new_date := fst (fst dated) in
    let st :=
      mk_state (rows st) (snd (fst dated)) (snd dated)
        (cur_date st) (active_date st)
        (cur_desc_lines st) (cur_ref st) (cur_cargo st) (cur_abono st) (cur_saldo st)
        (stash_desc_lines st) (stash_ref st) (stash_cargo st) (stash_abono st)
        (stash_saldo st) in
    let st := open_dated new_date st in
    let ref_cand := ref_of ref_txt conc_lines in
    let starts_new := matches_start ROW_START_RX (first_line conc_lines) in
    let st := cut_row ref_cand starts_new st in
    and_then (line_amounts car_txt abo_txt sal_txt) (fun v =>
      Returns (store ref_cand conc_lines (fst (fst v)) (snd (fst v)) (snd v) st))).

(** [for _, line in sorted(lines.items())], left at the first footer line. *)
Fixpoint run_lines (xb : dict (bound * bound)) (year : Z) (st : state)
                   (lines : list (list word)) : outcome state :=
  match lines with
  | [] => Returns st
  | line :: rest =>
      if looks_like_footer line then Returns (flush true st)
      else and_then (step_line xb year st line) (fun st' => run_lines xb year st' rest)
  end.

(** [sorted(lines.items())] for the words at or below [y_cut]. *)
Definition page_lines (words : list word) (y_cut : Q) : list (list word) :=
  map snd (sorted_by (fun a b => Z.leb (fst a) (fst b))
                     (lines_of 3 (filter (fun w => Qle_bool y_cut (w_top w)) words))).

(** [_parse_page], on the words of the page. *)
Definition _parse_page (words : list word) (year : Z) : outcome (list row) :=
  and_then (_detect_header_centers words) (fun found =>
    match fst found with
    | None => Returns []
    | Some [] => Returns []
    | Some centers =>
        and_then (run_lines (_build_xbands centers) year init_state
                            (page_lines words (snd found)))
                 (fun st => Returns (rows (flush false st)))
    end).

End Page.

(** ** The sheet of movements *)

(** [_is_empty_val] on a text cell. *)
Definition blank (s : str) : bool := negb (nonempty (strip s)).

(** The row is an orphan: no reference, no amount, some description. *)
Definition orphan (r : row) : bool :=
  blank (Referencia r)
  && (negb (is_some (Cargos r)) && negb (is_some (Abonos r)) && negb (is_some (Saldo r)))
  && nonempty (strip (Descripcion r)).

(** [out[-1] = prev] with the description of the orphan appended. *)
Definition absorb (out : list row) (desc : str) : list row :=
  match rev out with
  | [] => out
  | prev :: before =>
      rev before
      ++ [mk_row (Fecha prev) (Referencia prev)
                 (_clean (Some (Descripcion prev ++ U " " ++ desc)))
                 (Cargos prev) (Abonos prev) (Saldo prev)]
  end.

Definition _merge_orphan_rows (df : list row) : list row :=
  fold_left
    (fun out r =>
       if orphan r && some_items out
       then absorb out (strip (Descripcion r))
       else out ++ [r])
    df [].

(** The movements of [extract_inbursa_to_xlsx]: the rows of the pages in
    order, orphans merged. *)
Definition movements (normalize : list str -> str) (pages : list (list word)) (year : Z)
  : outcome (list row) :=
  and_then (for_each (fun words => _parse_page normalize words year) pages) (fun per_page =>
    Returns (_merge_orphan_rows (concat per_page))).

End Inbursa.

(* ===================================================================== *)
(** * santander_extractor.py: the header of the statement *)
(* ===================================================================== *)

Module SantanderHeader.
Import Py PyNum Common Layout.

(** The exceptions [_extract_header_metadata] can meet: an attribute of
    [None], or an exception of [date]. *)
Inductive error : Type := AttributeError | Builtin (e : exn).

Inductive outcome (A : Type) : Type :=
| Returns (a : A)
| Raises (e : error).
Arguments Returns {A} a.
Arguments Raises {A} e.

Definition and_then {A B : Type} (x : outcome A) (f : A -> outcome B) : outcome B :=
  match x with
  | Returns a => f a
  | Raises e => Raises e
  end.

Definition of_builtin {A : Type} (r : pyres A) : outcome A :=
  match r with
  | Ok a => Returns a
  | Raise e => Raises (Builtin e)
  end.

Definition RFC_PAT : Re.re :=
  Eval vm_compute in
    Re.compile "(?i)\bR\.?\s*F\.?\s*C\.?\s*[: ]+([A-ZÑ&]{3,4}\d{6}[A-Z0-9]{2,3})\b" eq_refl.
Definition CLIENTE_PAT : Re.re :=
  Eval vm_compute in Re.compile "(?i)C[ÓO]DIGO\s+DE\s+CLIENTE\s+NO\.?\s*([A-Z0-9]+)" eq_refl.
Definition CLABE_PAT : Re.re :=
  Eval vm_compute in Re.compile "(?i)CUENTA\s+CLABE[: ]+(\d{18})" eq_refl.
Definition PERIODO_PAT_src : string :=
  "(?i)PERIODO\s+DEL\s+(\d{2}\s*-\s*[A-Za-zÁá]{3}\s*-\s*\d{4})\s+AL\s+(\d{2}\s*-\s*[A-Za-zÁá]{3}\s*-\s*\d{4})".
Definition PERIODO_PAT : Re.re := Eval vm_compute in Re.compile PERIODO_PAT_src eq_refl.
Definition SPACES_RE : Re.re := Eval vm_compute in Re.compile "\s+" eq_refl.

(** [s.upper()] *)
Definition upper_text (s : str) : str := upper s.

(** [ch.isdigit()] on U+0000..U+00FF: the decimal digits and the
    superscripts one, two and three. *)
Definition isdigit (c : char) : bool :=
  is_digit c || (c =? 178)%N || (c =? 179)%N || (c =? 185)%N.

Definition _ADDR_TOKENS : list string :=
  [" CALLE"; " AV "; " AV."; " AVENIDA"; " PISO "; " NUM "; " NO."; " N°"; " Nº";
   " COL "; " COLONIA"; " C.P"; " CP";
   " MÉXICO"; " MEXICO"; " ESTADO"; " MUNICIP"; " DELEGACIÓN"; " ALCALDIA"; " ALCALDÍA";
   " BARRIO"; " SAN "; " SANTA "; " MIGUEL"; " HIDALGO"; " METEPEC"; " CP."]%string.

Definition _BLACKLIST : list string :=
  ["CONCEPTO"; "FACTURA"; "COMPROBANTE"; "ESTADO DE CUENTA"; "DETALLE";
   "MOVIMIENTOS"; "PERIODO"; "PERÍODO"; "CUENTA"; "SANTANDER"; "BANCO"]%string.

Definition _es_candidata_empresa (u : str) : bool :=
  let u := U " " ++ upper_text u ++ U " " in
  if existsb isdigit u then false
  else if any_in _ADDR_TOKENS u then false
  else if any_in _BLACKLIST u then false
  else true.

(** A line boundary of [str.splitlines]. *)
Definition is_linebreak (c : char) : bool :=
  in_range 10%N 13%N c || in_range 28%N 30%N c || (c =? 133)%N || (c =? 8232)%N
  || (c =? 8233)%N.

(** [s.splitlines()]: a carriage return and the line feed after it are one
    boundary, and no empty line follows the last boundary.  [cur] is the
    line being read, its last character first. *)
Fixpoint splitlines_from (cur : str) (s : str) : list str :=
  match s with
  | [] => match cur with [] => [] | _ :: _ => [rev cur] end
  | c :: rest =>
      if (c =? 13)%N then
        match rest with
        | d :: rest' =>
            if (d =? 10)%N then rev cur :: splitlines_from [] rest'
            else rev cur :: splitlines_from [] rest
        | [] => rev cur :: splitlines_from [] rest
        end
      else if is_linebreak c then rev cur :: splitlines_from [] rest
      else splitlines_from (c :: cur) rest
  end.

Definition splitlines (s : str) : list str := splitlines_from [] s.

(** [_parse_ddmonyyyy(m.group(i))] *)
Definition date_of_group (g : option str) : outcome (option date) :=
  match g with
  | None => Raises AttributeError
  | Some token => of_builtin (Santander._parse_ddmonyyyy token)
  end.

Definition _parse_period (text : str) : outcome (option date * option date) :=
  match Re.search PERIODO_PAT text with
  | None => Returns (None, None)
  | Some m =>
      and_then (date_of_group (Re.group text m 1)) (fun d1 =>
      and_then (date_of_group (Re.group text m 2)) (fun d2 =>
        Returns (d1, d2)))
  end.

Record metadata : Type := mk_metadata
  { empresa : option str; rfc : option str; ncliente : option str; clabe : option str;
    pstart : option date; pend : option date; archivo : str }.

(** The fallback for [empresa] (lines 577-582): the first of the first 120
    lines that can be a company name. *)
Definition empresa_of_lines (lines : list str) : option str :=
  find _es_candidata_empresa
       (map (fun ln => strip (upper_text (Re.sub SPACES_RE (U " ") ln))) (firstn 120 lines)).

(** [_extract_header_metadata].  [first_page] is what
    [_empresa_desde_primera_pagina] read in the file, [pdf_name] the name of
    the file. *)
Definition _extract_header_metadata (first_page : option str) (full_text pdf_name : str)
  : outcome metadata :=
  let txt := replace [c_nbsp] (U " ") full_text in
  let lines := filter nonempty (map strip (splitlines txt)) in
  let empresa :=
    if Inbursa.truthy first_page then first_page
    else match empresa_of_lines lines with
         | Some u => Some u
         | None => first_page
         end in
  and_then
    (match Re.search RFC_PAT txt with
     | Some m =>
         match Re.group txt m 1 with
         | Some g => Returns (Some (upper_text g))
         | None => Raises AttributeError
         end
     | None => Returns None
     end) (fun rfc =>
  let ncliente :=
    match Re.search CLIENTE_PAT txt with
    | Some m => Re.group txt m 1
    | None => None
    end in
  and_then
    (match Re.search CLIENTE_PAT txt with
     | Some _ =>
         match Re.search CLABE_PAT txt with
         | Some m => Returns (Re.group txt m 1)
         | None => Raises AttributeError
         end
     | None => Returns None
     end) (fun clabe =>
  and_then (_parse_period txt) (fun period =>
    Returns (mk_metadata empresa rfc ncliente clabe (fst period) (snd period) pdf_name)))).

(** ** The accounts of the statement *)

(** An entry of [cuentas_raw], and an account of the sheet. *)
Record account : Type := mk_account
  { producto : str; numero : option str; acc_clabe : option str; saldo_ant : option Q }.

Definition CUENTA_PYME : str := U "CUENTA SANTANDER PYME".
Definition INVERSION : str := U "INVERSION CRECIENTE".

(** [merged.get(prod)] and [merged[prod] = acc], in insertion order. *)
Fixpoint merged_get (prod : str) (merged : list account) : option account :=
  match merged with
  | [] => None
  | a :: rest => if str_eqb (producto a) prod then Some a else merged_get prod rest
  end.

Fixpoint merged_set (acc : account) (merged : list account) : list account :=
  match merged with
  | [] => [acc]
  | a :: rest =>
      if str_eqb (producto a) (producto acc) then acc :: rest else a :: merged_set acc rest
  end.

(** One turn of the loop over [crudo] in [_merge_accounts]. *)
Definition merge_step (meta_clabe : option str) (merged : list account) (c : account)
  : list account :=
  let prod := producto c in
  let acc := match merged_get prod merged with
             | Some a => a
             | None => mk_account prod None None None
             end in
  merged_set
    (mk_account prod
       (if negb (Inbursa.truthy (numero acc)) && Inbursa.truthy (numero c)
        then numero c else numero acc)
       (if str_eqb prod CUENTA_PYME then meta_clabe else None)
       (match saldo_ant acc, saldo_ant c with
        | None, Some v => Some v
        | _, _ => saldo_ant acc
        end))
    merged.

Definition _merge_accounts (meta_clabe : option str) (crudo : list account) : list account :=
  let merged := fold_left (merge_step meta_clabe) crudo [] in
  map (fun prod =>
         match merged_get prod merged with
         | Some a => a
         | None =>
             mk_account prod None
                        (if str_eqb prod CUENTA_PYME then meta_clabe else None) None
         end)
      [CUENTA_PYME; INVERSION].

End SantanderHeader.

(* ===================================================================== *)
(** * bbva_extractor.py: the sheet of movements *)
(* ===================================================================== *)

Module BBVASheet.
Import Py PyNum Common Layout.

(** A row of the frame [movs_df]: the two dates as texts or [None], the
    description, the two amounts, the two balances as numbers or [None]. *)
Record frow : Type := mk_frow
  { Fecha_Operacion : option str;
    Fecha_Liquidacion : option str;
    Descripcion : str;
    Cargos : Q;
    Abonos : Q;
    Saldo_Operacion : option Q;
    Saldo_Liquidacion : option Q }.

Definition with_descripcion (r : frow) (d : str) : frow :=
  mk_frow (Fecha_Operacion r) (Fecha_Liquidacion r) d (Cargos r) (Abonos r)
          (Saldo_Operacion r) (Saldo_Liquidacion r).

Definition boiler_pat_src : string :=
  "(?ix)("
  ++ "estimad[oa]\s+cliente|ahora\s+tiene\s+m[aá]s\s+detalle|"
  ++ "contrato\s+ha\s+sido\s+modificado|www\.bbva\.mx|con\s+bbva\s+adelante|"
  ++ "total\s+de\s+movimientos|total\s+importe\s+cargos?|total\s+importe\s+abonos?|"
  ++ "total\s+movimientos\s+cargos?|total\s+movimientos\s+abonos?|"
  ++ "cuadro\s+resumen\s+y\s+gr[aá]fico\s+de\s+movimientos\s+del\s+periodo|"
  ++ "la\s+gat\s+real|nota:\s+en\s+la\s+columna\s+porcentaje|"
  ++ "los\s+montos\s+m[ií]nimos\s+requeridos|para\s+mayor\s+informaci[oó]n\s+consulta|"
  ++ "bbva\s+m[eé]xico[,.\s]+s\.?a\.?,?\s*instituci[oó]n\s+de\s+banca\s+m[uú]ltiple|"
  ++ "av\.?\s*paseo\s+de\s+la\s+reforma\s*510|r\.?\s*f\.?\s*c\.?\s*bba[a-z0-9]{6,}"
  ++ ")".
Definition boiler_pat : Re.re := Eval vm_compute in Re.compile boiler_pat_src eq_refl.

(** [pd.to_numeric(..., errors="coerce").fillna(0.0)] on a cell. *)
Definition num (v : option Q) : Q :=
  match v with
  | Some q => q
  | None => 0
  end.

Definition _empty_date (v : option str) : bool :=
  match v with
  | None => true
  | Some s => negb (nonempty (strip s))
  end.

Definition no_dates (r : frow) : bool :=
  _empty_date (Fecha_Operacion r) && _empty_date (Fecha_Liquidacion r).

(** [(num.iloc[i] == 0).all()] *)
Definition zero_money (r : frow) : bool :=
  forallb (fun q => Qeq_bool q 0)
          [Cargos r; Abonos r; num (Saldo_Operacion r); num (Saldo_Liquidacion r)].

(** [rows[-1]["Descripción"] = (str(rows[-1]["Descripción"]).strip() + " " + text).strip()] *)
Definition append_text (rows : list frow) (text : str) : list frow :=
  match rev rows with
  | [] => rows
  | prev :: before =>
      rev before
      ++ [with_descripcion prev (strip (strip (Descripcion prev) ++ U " " ++ text))]
  end.

(** One turn of the loop over the rows of the frame. *)
Definition clean_step (rows : list frow) (r : frow) : list frow :=
  let text := strip (Descripcion r) in
  let has_text := nonempty text in
  if Inbursa.some_items rows && no_dates r && zero_money r && has_text
  then append_text rows text
  else if no_dates r && negb has_text && zero_money r
  then rows
  else rows ++ [r].

Definition _clean_movements_df (df : list frow) : list frow :=
  match df with
  | [] => df
  | _ =>
      let df := map (fun r => with_descripcion r (BBVA._strip_bbva_footer (Descripcion r))) df in
      let df := filter (fun r => negb (Re.found boiler_pat (Descripcion r))) df in
      let rows := fold_left clean_step df [] in
      map (fun r => with_descripcion r
                      (strip (Re.sub BBVA.SPACES_RE (U " ") (Descripcion r))))
          rows
  end.

End BBVASheet.

(* ===================================================================== *)
(** * banorte_extractor.py: the blocks of a section *)
(* ===================================================================== *)

Module BanorteSections.
Import Py PyNum Common.

(** [section_label]: one label, or several of them. *)
Inductive label : Type :=
| One (s : str)
| Several (l : list str).













Definition INVERSION : label := One (U "INVERSION ENLACE NEGOCIOS").

End BanorteSections.

(* ===================================================================== *)
(** * Statement-level definitions *)
(* ===================================================================== *)

Module Spec.
Import Py PyNum Common Layout.

(** A value with at most two decimals: a whole number of cents. *)
Definition two_decimals (q : Q) : Prop := exists n : Z, q == n # 100.

(** The ledger invariant on the two amount columns of a movement:
    deposits and "abonos" are credits, withdrawals, "retiros" and "cargos"
    are debits. *)
Definition amounts_ok (debit credit : Q) : Prop :=
  0 <= debit /\ 0 <= credit /\ (debit == 0 \/ credit == 0).

Definition santander_tx_ok (t : Santander.TxRow) : Prop :=
  amounts_ok (Santander.retiro t) (Santander.deposito t).

Definition amounts_okb (debit credit : Q) : bool :=
  Qle_bool 0 debit && Qle_bool 0 credit && (Qis_zero debit || Qis_zero credit).

(** The side a single amount is booked on. *)
Inductive side : Type := Credit | Debit.

(** The decision rule of the classifier as the specification words it. *)
Definition decision_rule (credit_match debit_match : bool) : side :=
  match credit_match, debit_match with
  | true, false => Credit
  | false, true => Debit
  | _, _ => Credit
  end.

(** The rule with the other default: credit only on a credit keyword
    without a debit keyword. *)
Definition decision_rule_debit_default (credit_match debit_match : bool) : side :=
  match credit_match, debit_match with
  | true, false => Credit
  | _, _ => Debit
  end.

(** The pair [(debit, credit)] that books [monto] on one side: the shape
    [_classify] and [_classify_by_keywords] return. *)
Definition booked (s : side) (monto : Q) : Q * Q :=
  match s with
  | Credit => (0, monto)
  | Debit => (monto, 0)
  end.

(** Both keyword lists match, or neither does. *)
Definition ambiguous (credit_match debit_match : bool) : Prop :=
  credit_match = debit_match.

End Spec.

(* ===================================================================== *)
(** * Concrete statements used as examples *)
(* ===================================================================== *)

Module Examples.
Import Py PyNum Common Layout.

(** A Banorte movement with the run (100.00, 0.00, 900.00). *)
Definition banorte_payment : str := U "01-ENE-24 PAYMENT X 100.00 0.00 900.00".
Definition banorte_payment_date : Re.rmatch := Re.mk_match 0 9 [(1%nat, (0%nat, 9%nat))].

(** A Banorte movement whose run has two non-zero amounts before the balance. *)
Definition banorte_both : str := U "01-ENE-24 TRASPASO 10.00 20.00 30.00".

(** A word of height 8 centred at [xc], with its top at [top]. *)
Definition W (t : string) (xc top : Q) : word :=
  mk_word (U t) (xc - 10) (xc + 10) top (top + 8).

(** Santander, page width 1000, no header labels: the default anchors are
    70, 160, 400, 620, 740 and 880. *)
Definition sant_row_three : list word :=
  [W "03-ENE-2024" 70 100; W "MISC" 380 100; W "10.00" 620 100; W "20.00" 740 100;
   W "30.00" 880 100].
Definition sant_cols_three : list str :=
  [U "03-ENE-2024"; []; U "MISC"; U "10.00"; U "20.00"; U "30.00"].

End Examples.

(* ===================================================================== *)
(** * Column bands, as statements see them *)
(* ===================================================================== *)

Module Bands.
Import Py PyNum Common Layout.








End Bands.

(* ===================================================================== *)
(** * Row grouping, as the specification words it *)
(* ===================================================================== *)

Module Rows.
Import Py PyNum Common Layout.

(** The body tokens: those below the header line, more than one unit under
    [header_y]. *)
Definition below_header (header_y : Q) (w : word) : bool :=
  flt (fadd (Finite header_y) (Finite 1)) (Finite (w_top w)).

Definition body_tokens (words : list word) (header_y : Q) : list word :=
  filter (below_header header_y) words.

(** The height of a token. *)
Definition height (w : word) : float := fsub (Finite (w_bottom w)) (Finite (w_top w)).

(** The heights of the first [k] tokens, added one after the other in the
    order of the tokens. *)
Fixpoint height_total (body : list word) (k : nat) : float :=
  match k with
  | O => Finite 0
  | S k' =>
      match nth_error body k' with
      | Some w => fadd (height_total body k') (height w)
      | None => height_total body k'
      end
  end.

(** The average height: the total of the heights over their number. *)
Definition average_height (body : list word) : float :=
  fdiv_by (height_total body (length body)) (inject_Z (Z.of_nat (length body))).

(** [v] clamped to the interval [[lo, hi]]; a value that is not a number
    gives [hi]. *)
Definition clamp (lo hi : Q) (v : float) : Q :=
  match v with
  | Finite q => if Qltb q hi then (if Qltb lo q then q else lo) else hi
  | Infinity negative => if negative then lo else hi
  | NaN => hi
  end.

(** [r] is [v] clamped to [[lo, hi]]. *)
Definition is_clamp (lo hi : Q) (v : float) (r : Q) : Prop :=
  lo <= r /\ r <= hi
  /\ match v with
     | Finite q => (q < lo -> r == lo) /\ (hi < q -> r == hi) /\ (lo <= q -> q <= hi -> r == q)
     | Infinity negative => r == (if negative then lo else hi)
     | NaN => r == hi
     end.

(** 0.70 times the average height, clamped to [2.0, 4.2]: the factor and
    the upper bound are the floats nearest to 0.70 and 4.2. *)
Definition bin_size (body : list word) : Q :=
  clamp 2 f4_2 (fmul_by (average_height body) f0_70).

(** [round(top / bin_size)], the quotient being that of the floats. *)
Definition bin_of (size : Q) (w : word) : Z :=
  round_half_even (nearest_double (w_top w / size)).

(** The tokens of one bin, in reading order of the input. *)
Definition bucket (size : Q) (body : list word) (k : Z) : list word :=
  filter (fun w => (bin_of size w =? k)%Z) body.

(** Left of, or level with, on the page. *)
Definition left_of (a b : word) : Prop := w_x0 a <= w_x0 b.
Definition left_ofb (a b : word) : bool := Qle_bool (w_x0 a) (w_x0 b).

Definition left_to_right (row : list word) : list word := sorted_by left_ofb row.

(** The dictionary of [_group_rows] after the tokens of [body] were added to
    [rows]. *)
Definition fill (size : Q) (body : list word) (rows : buckets) : buckets :=
  fold_left (fun rows w => bucket_add (row_key size w) w rows) body rows.

End Rows.

(* ===================================================================== *)
(** * Concrete pages used as examples *)
(* ===================================================================== *)

Module Pages.
Import Py PyNum Common Layout Examples.

(** BBVA, page width 1000, no header labels: the default anchors are 80,
    130, 330, 510, 700, 780, 860 and 940. *)
Definition bbva_row_open : list word :=
  [W "03/ENE" 80 100; W "PAGO" 300 100; W "X" 340 100; W "100.00" 700 100].
Definition bbva_row_totals : list word :=
  [W "TOTAL" 200 120; W "DE" 260 120; W "MOVIMIENTOS" 340 120].
Definition bbva_row_after : list word :=
  [W "04/ENE" 80 140; W "COMPRA" 330 140; W "50.00" 700 140].
Definition bbva_row_balance : list word := [W "900.00" 860 50].
Definition bbva_row_next : list word :=
  [W "05/ENE" 80 70; W "MISC" 330 70; W "123.45" 860 70].

(** A page that opens a movement with only the "cargos" column filled. *)
Definition bbva_page_open : page := mk_page bbva_row_open 1000 [].
(** The next page: first the balance of the open movement, then a new one. *)
Definition bbva_page_next : page := mk_page (bbva_row_balance ++ bbva_row_next) 1000 [].
(** A page with a movement, the totals marker, and a movement below it. *)
Definition bbva_page_totals : page :=
  mk_page (bbva_row_open ++ bbva_row_totals ++ bbva_row_after) 1000 [].

(** Santander, page width 1000, default anchors 70, 160, 400, 620, 740, 880. *)
Definition sant_row_open : list word :=
  [W "03-ENE-2024" 70 100; W "PAGO" 380 100; W "X" 420 100; W "100.00" 740 100].
Definition sant_row_balance : list word := [W "900.00" 880 50].
Definition sant_page_open : page := mk_page sant_row_open 1000 [].
Definition sant_page_next : page := mk_page sant_row_balance 1000 [].

End Pages.

(* ===================================================================== *)
(** * Carrying a movement across pages, as statements see it *)
(* ===================================================================== *)

Module Carry.
Import Py PyNum Common Layout.

(** A BBVA row that completes an open movement: no date in its first two
    columns, an amount in one of the last four, and neither a table header
    nor a dashed line. *)
Definition completion_row (bounds : list (Q * Q)) (r : list word) : bool :=
  let cols := BBVA._assign_cols r bounds in
  negb (nonempty (nth 0 cols [])) && negb (nonempty (nth 1 cols []))
  && (Re.found BBVA.AMOUNT_RE (nth 4 cols []) || Re.found BBVA.AMOUNT_RE (nth 5 cols [])
      || Re.found BBVA.AMOUNT_RE (nth 6 cols []) || Re.found BBVA.AMOUNT_RE (nth 7 cols []))
  && negb (has_text (upper (nth 2 cols []) ++ upper (nth 3 cols [])) "DETALLE DE MOVIMIENTOS")
  && negb (startswith (U "—") (strip (nth 2 cols []))
           || startswith (U "- -") (strip (nth 2 cols []))).

(** Two BBVA movements that differ at most in their description. *)
Definition same_but_desc (a b : BBVA.TxRow) : Prop :=
  BBVA.f_oper a = BBVA.f_oper b /\ BBVA.f_liq a = BBVA.f_liq b
  /\ BBVA.cargos a = BBVA.cargos b /\ BBVA.abonos a = BBVA.abonos b
  /\ BBVA.s_oper a = BBVA.s_oper b /\ BBVA.s_liq a = BBVA.s_liq b.

(** The state of the BBVA loop after the example page that opens a movement. *)
Definition bbva_after_open : BBVA.state :=
  match BBVA.run_page 2024 BBVA.init_state Pages.bbva_page_open with
  | Ok s => s
  | Raise _ => BBVA.init_state
  end.

(** A Santander row that neither marks a section nor carries a date. *)
Definition undated_row (bounds : list (Q * Q)) (r : list word) : bool :=
  match Santander._row_section_marker r with
  | Some _ => false
  | None => negb (Re.found Santander.DATE_TOKEN_SANT (nth 0 (Santander._assign_cols r bounds) []))
  end.

End Carry.

(* ===================================================================== *)
(** * The alphabet of a pattern *)
(* ===================================================================== *)

Module Alphabet.
Import Py PyNum Common.

(** No character class of the pattern accepts [x]: a match of the pattern
    cannot contain [x]. *)
Fixpoint excludes (x : char) (r : Re.re) : bool :=
  match r with
  | Re.Eps | Re.Bol _ | Re.Eol _ | Re.WordB => true
  | Re.Chr ic cs => negb (Re.cset_mem ic cs x)
  | Re.Seq a b | Re.Alt a b => excludes x a && excludes x b
  | Re.Rep a _ _ _ => excludes x a
  | Re.Group _ a => excludes x a
  end.

(** The minus sign. *)
Definition c_minus : char := 45%N.

(** The texts a pattern can match, position tests left aside: anchors and
    word boundaries match the empty text. *)
Inductive Matches : Re.re -> str -> Prop :=
| M_eps : Matches Re.Eps []
| M_chr ic cs c : Re.cset_mem ic cs c = true -> Matches (Re.Chr ic cs) [c]
| M_seq a b u v : Matches a u -> Matches b v -> Matches (Re.Seq a b) (u ++ v)
| M_alt_l a b u : Matches a u -> Matches (Re.Alt a b) u
| M_alt_r a b u : Matches b u -> Matches (Re.Alt a b) u
| M_rep_stop a hi g : Matches (Re.Rep a 0 hi g) []
| M_rep_more a lo hi g u v :
    Re.hi_is_zero hi = false ->
    Matches a u ->
    Matches (Re.Rep a (Nat.pred lo) (option_map Nat.pred hi) g) v ->
    Matches (Re.Rep a lo hi g) (u ++ v)
| M_group n a u : Matches a u -> Matches (Re.Group n a) u
| M_bol ml : Matches (Re.Bol ml) []
| M_eol ml : Matches (Re.Eol ml) []
| M_wordb : Matches Re.WordB [].

(** What a matcher guarantees its continuation: the text consumed is in the
    language [L] and the cursor moved by its length. *)
Definition consumes (R : Type) (L : str -> Prop) (body : Re.matcher R) : Prop :=
  forall prev pos s cs (k : Re.kont R) res,
    body prev pos s cs k = Some res ->
    exists consumed s' p' c',
      s = consumed ++ s' /\ L consumed
      /\ k p' (pos + length consumed)%nat s' c' = Some res.

End Alphabet.

(* ===================================================================== *)
(** * The ledger invariant, as statements see it *)
(* ===================================================================== *)

Module Invariant.
Import Py PyNum Common Layout Spec.

(** An optional amount has the property [P] when it is given. *)
Definition opt_all (P : Q -> Prop) (o : option Q) : Prop :=
  match o with Some v => P v | None => True end.

Definition ledger_ok (L : Santander.ledger) : Prop :=
  Forall santander_tx_ok (Santander.movs_cheques L)
  /\ Forall santander_tx_ok (Santander.movs_inver L).

(** The invariant of the Santander loop: the ledger and the open movement
    satisfy the invariant on amounts. *)
Definition state_ok (st : Santander.state) : Prop :=
  ledger_ok (Santander.st_ledger st)
  /\ (forall c, Santander.st_current st = Some c -> santander_tx_ok c).

(** Deposit and withdrawal of a Banorte row are present and not negative. *)
Definition banorte_row_nonneg (r : Banorte.row) : Prop :=
  (exists d, Banorte.r_deposit r = Some d /\ 0 <= d)
  /\ (exists w, Banorte.r_withdrawal r = Some w /\ 0 <= w).

(** The invariant on a Banorte row: withdrawal is the debit, deposit the
    credit. *)
Definition banorte_row_ok (r : Banorte.row) : Prop :=
  exists d w, Banorte.r_deposit r = Some d /\ Banorte.r_withdrawal r = Some w
              /\ amounts_ok w d.

End Invariant.

(* ===================================================================== *)
(** * The shape of a monetary token *)
(* ===================================================================== *)

Module Money.
Import Py PyNum Common.

(** What may precede the digits: currency signs and white space. *)
Definition lead_char (c : char) : bool := (c =? 36)%N || is_space c.

(** What follows the first digit, up to the decimal point: digits and
    thousands separators. *)
Definition body_char (c : char) : bool := is_digit c || (c =? 44)%N.

(** A text of the monetary grammar [\$?\s*\d{1,3}(?:,\d{3})*\.\d{2}]:
    a lead, digits with separators, a point and two decimals. *)
Definition amount_token (w : str) : Prop :=
  exists lead d0 digs d1 d2,
    w = lead ++ (d0 :: digs) ++ [46%N; d1; d2]
    /\ Forall (fun c => lead_char c = true) lead
    /\ is_digit d0 = true
    /\ Forall (fun c => body_char c = true) digs
    /\ is_digit d1 = true /\ is_digit d2 = true.

(** The information separators U+001C..U+001F: white space for [\s] and
    [str.strip], not for [float]. *)
Definition separator (c : char) : bool := in_range 28%N 31%N c.

(** What [cleaned] keeps of one character. *)
Definition keep (c : char) : str :=
  if (c =? 160)%N || (c =? 36)%N || (c =? 32)%N || (c =? 44)%N then [] else [c].

End Money.

(** * The calls of the reconciliation

    [_reconcile_amounts] is called at three places of the Santander loop:
    when a row with a date opens a movement, when a row without date
    completes it, and when the open movement is flushed. *)

Module Reconciliation.
Import Py PyNum Common Layout Spec.

(** The movements the loop can hold in [current]. *)
Inductive open_movement : Santander.TxRow -> Prop :=
| opened (cols : list str) (row_txt : str) (t : Santander.TxRow) :
    Santander.open_row cols row_txt = Ok t -> open_movement t
| continued (cur : Santander.TxRow) (cols : list str) (row_txt : str) :
    open_movement cur -> open_movement (Santander.continue_row cur cols row_txt)
| completed (cur : Santander.TxRow) (cols : list str) (row_txt : str) :
    open_movement cur -> open_movement (Santander.money_row cur cols row_txt).

(** [reaches desc dep ret]: some call of [_reconcile_amounts] is made with
    these arguments. *)
Inductive reaches : str -> Q -> Q -> Prop :=
| at_open (cols : list str) (row_txt : str) (desc : str) (dep ret : Q) (sal : option Q) :
    Santander.open_inputs cols row_txt = (desc, dep, ret, sal) ->
    reaches desc dep ret
| at_money (cur : Santander.TxRow) (cols : list str) (row_txt : str)
           (dep ret : Q) (sal : option Q) (desc2 : str) :
    open_movement cur ->
    Santander.money_inputs cur cols row_txt = (dep, ret, sal, desc2) ->
    reaches (Santander.desc cur) dep ret
| at_flush (cur : Santander.TxRow) :
    open_movement cur ->
    reaches (Santander.desc cur) (Santander.deposito cur) (Santander.retiro cur).

(** The open movement of a loop state, when there is one, is one of
    [open_movement]. *)
Definition current_open (st : Santander.state) : Prop :=
  forall c, Santander.st_current st = Some c -> open_movement c.

End Reconciliation.

(* ===================================================================== *)
(** * Statement-level definitions for the further properties *)
(* ===================================================================== *)

Module Footer.
Import Py PyNum Common Layout.

(** The words [_drop_footer_totals] cuts at: the text is "TOTAL", or holds
    "SALDO FINAL DEL PERIODO", once no-break spaces are spaces and the text
    is stripped and upper-cased. *)
Definition total_marker (w : word) : bool :=
  let t := upper (strip (replace [c_nbsp] (U " ") (w_text w))) in
  str_eqb t (U "TOTAL") || str_in (U "SALDO FINAL DEL PERIODO") t.

(** [w] lies more than half a unit above every marker word of the page. *)
Definition above_totals (words : list word) (w : word) : bool :=
  forallb (fun m => negb (total_marker m) || Qltb (w_top w) (w_top m - (1 # 2))) words.

(** [p] is the beginning of [s]. *)
Definition prefix_of (p s : str) : Prop := exists rest, s = p ++ rest.

End Footer.

Module Counting.
Import Py PyNum Common Layout.

(** The columns and rows the Santander loop sees on a page (lines 680-686). *)
Definition santander_page_rows (pg : page) : list (Q * Q) * list (list word) :=
  let words := Santander._drop_footer_totals (p_words pg) in
  let '(bounds, header_y) := Santander._detect_columns words (p_width pg) in
  (bounds, _group_rows words header_y).

(** The rows at which the Santander loop opens a movement: no section
    marker, not one of the skipped rows, and a date in the first column. *)
Definition opens_movement (bounds : list (Q * Q)) (r : list word) : bool :=
  match Santander._row_section_marker r with
  | Some _ => false
  | None =>
      negb (Santander.skipped_row (upper (row_text r)))
      && Re.found Santander.DATE_TOKEN_SANT (nth 0 (Santander._assign_cols r bounds) [])
  end.

(** The number of such rows on a page. *)
Definition dated_rows (pg : page) : nat :=
  let '(bounds, rows) := santander_page_rows pg in
  length (filter (opens_movement bounds) rows).

Definition ledger_size (L : Santander.ledger) : nat :=
  (length (Santander.movs_cheques L) + length (Santander.movs_inver L))%nat.

(** The movements of a loop state: those of the ledger and the open one. *)
Definition pending (st : Santander.state) : nat :=
  (ledger_size (Santander.st_ledger st)
   + match Santander.st_current st with Some _ => 1 | None => 0 end)%nat.

End Counting.

Module Shortest.
Import Py PyNum Common.

(** A lower bound on the length of the texts a pattern matches. *)
Fixpoint min_len (r : Re.re) : nat :=
  match r with
  | Re.Eps | Re.Bol _ | Re.Eol _ | Re.WordB => 0
  | Re.Chr _ _ => 1
  | Re.Seq a b => min_len a + min_len b
  | Re.Alt a b => Nat.min (min_len a) (min_len b)
  | Re.Rep a lo _ _ => lo * min_len a
  | Re.Group _ a => min_len a
  end.

End Shortest.

Module Balances.
Import Py PyNum Common Layout.

(** An optional amount as a number: nothing counts as zero. *)
Definition held (o : option Q) : Q :=
  match o with Some v => v | None => 0 end.

(** The money a BBVA movement holds in its four amount fields. *)
Definition total (tx : BBVA.TxRow) : Q :=
  BBVA.cargos tx + BBVA.abonos tx + held (BBVA.s_oper tx) + held (BBVA.s_liq tx).

End Balances.

Module CountingBBVA.
Import Py PyNum Common Layout.

(** The rows of a page the BBVA loop reads: those above the first row that
    stops the scan. *)
Fixpoint scanned_rows (rows : list (list word)) : list (list word) :=
  match rows with
  | [] => []
  | r :: rest =>
      match BBVA.stop_row r with
      | Some _ => []
      | None => r :: scanned_rows rest
      end
  end.

(** Whether the scan of the rows ends at "Total de Movimientos". *)
Fixpoint ends_at_totals (rows : list (list word)) : bool :=
  match rows with
  | [] => false
  | r :: rest =>
      match BBVA.stop_row r with
      | Some saw => saw
      | None => ends_at_totals rest
      end
  end.

(** The pages the BBVA loop reads: summary pages are skipped, and the page
    whose scan ends at "Total de Movimientos" is the last one. *)
Fixpoint scanned_pages (pages : list page) : list page :=
  match pages with
  | [] => []
  | pg :: rest =>
      if BBVA.skipped_page pg then scanned_pages rest
      else if ends_at_totals (snd (BBVA.page_rows pg)) then [pg]
      else pg :: scanned_pages rest
  end.

(** The rows at which the BBVA loop opens a movement: a date in one of the
    first two columns, on a row that is neither the table title nor a
    dashed line. *)
Definition opens_movement (bounds : list (Q * Q)) (r : list word) : bool :=
  let cols := BBVA._assign_cols r bounds in
  let oper_raw := nth 0 cols [] in
  let liq_raw := nth 1 cols [] in
  let descr_raw := nth 2 cols [] in
  let ref_raw := nth 3 cols [] in
  negb (has_text (upper descr_raw ++ upper ref_raw) "DETALLE DE MOVIMIENTOS")
  && negb (startswith (U "—") (strip descr_raw) || startswith (U "- -") (strip descr_raw))
  && (nonempty oper_raw || nonempty liq_raw).

Definition dated_rows (pg : page) : nat :=
  length (filter (opens_movement (fst (BBVA.page_rows pg)))
                 (scanned_rows (snd (BBVA.page_rows pg)))).

(** The movements of a loop state: the closed ones and the open one. *)
Definition pending (st : BBVA.state) : nat :=
  (length (BBVA.txs st) + match BBVA.current st with Some _ => 1 | None => 0 end)%nat.

End CountingBBVA.

Module Dates.
Import Py PyNum Common.
Local Open Scope Z_scope.

(** A date of the calendar: what [datetime.date] accepts. *)
Definition calendar_date (d : date) : Prop :=
  1 <= d_year d <= 9999 /\ 1 <= d_month d <= 12
  /\ 1 <= d_day d <= days_in_month (d_year d) (d_month d).

(** The text [_parse_section_to_rows] reads its movements from (lines
    284-286): the block up to the first sentinel, no-break spaces turned to
    spaces. *)
Definition section_text (block_text : str) : str :=
  replace [c_nbsp] (U " ")
    (match Re.search Banorte._STOP_TRAIL_PAT block_text with
     | Some mstop => firstn (Re.m_start mstop) block_text
     | None => block_text
     end).

End Dates.

Module Ledgers.
Import Py PyNum Common Layout.

(** [L'] holds the movements of [L], in their order, and then possibly
    more. *)
Definition extends (L L' : Santander.ledger) : Prop :=
  (exists more, Santander.movs_cheques L' = Santander.movs_cheques L ++ more)
  /\ (exists more, Santander.movs_inver L' = Santander.movs_inver L ++ more).

End Ledgers.

Module Sheet.
Import Py PyNum Common Layout.

(** Everything of a row but its description. *)
Definition cells (r : Inbursa.row) : str * str * option Q * option Q * option Q :=
  (Inbursa.Fecha r, Inbursa.Referencia r,
   Inbursa.Cargos r, Inbursa.Abonos r, Inbursa.Saldo r).

(** The amounts present in a column, from the first row to the last. *)
Definition present (col : Inbursa.row -> option Q) (df : list Inbursa.row) : list Q :=
  flat_map (fun r => match col r with Some v => [v] | None => [] end) df.

(** The references present, from the first row to the last. *)
Definition references (df : list Inbursa.row) : list str :=
  filter (fun s => negb (Inbursa.blank s)) (map Inbursa.Referencia df).

(** The rows that stay: the first one, and those after it that are not
    orphans. *)
Definition kept (df : list Inbursa.row) : list Inbursa.row :=
  match df with
  | [] => []
  | r :: rest => r :: filter (fun r => negb (Inbursa.orphan r)) rest
  end.

End Sheet.

Module Places.
Import Py PyNum Common Layout.

(** The bands that hold [x]. *)
Definition holders (x : Q) (bands : Inbursa.dict (Inbursa.bound * Inbursa.bound))
  : list (str * (Inbursa.bound * Inbursa.bound)) :=
  filter (fun kb => Inbursa.in_xband x (snd kb)) bands.

(** All the words of the buckets, column after column. *)
Definition placed (out : Inbursa.dict (list word)) : list word := concat (map snd out).

(** The bands of columns in ascending order of centre, the first one
    starting at [left]: each ends halfway to the next centre, the last one
    nowhere. *)
Fixpoint chain (left : Inbursa.bound) (cols : list (str * Q))
  : list (str * (Inbursa.bound * Inbursa.bound)) :=
  match cols with
  | [] => []
  | (k, x) :: rest =>
      match rest with
      | [] => [(k, (left, Inbursa.PosInf))]
      | (_, x') :: _ =>
          (k, (left, Inbursa.Fin ((x + x') / 2)))
            :: chain (Inbursa.Fin ((x + x') / 2)) rest
      end
  end.

(** [left] in [_build_xbands], for the column of index [i]. *)
Definition left_at (xs : list Q) (i : nat) : Inbursa.bound :=
  if Nat.eqb i 0 then Inbursa.NegInf
  else Inbursa.Fin ((nth (i - 1) xs 0 + nth i xs 0) / 2).

(** The names a column can have: the header labels, DESCRIPCION standing
    for CONCEPTO. *)
Definition columns : list str :=
  map U ["FECHA"; "REFERENCIA"; "CONCEPTO"; "CARGOS"; "ABONOS"; "SALDO"]%string.

(** The columns by centre: [cols] in [_build_xbands]. *)
Definition by_centre (centers : Inbursa.dict Q) : list (str * Q) :=
  sorted_by (fun a b => Qle_bool (snd a) (snd b)) centers.

End Places.

Module Amounts.
Import Py PyNum Common Layout.

(** [float(x.replace(",", ""))], for a text that [float] accepts. *)
Definition amount_value (x : str) : Q := value (float_of_str (replace (U ",") [] x)).

(** A non-negative whole number of cents, or no amount. *)
Definition cents (o : option Q) : Prop :=
  match o with
  | None => True
  | Some v => 0 <= v /\ Spec.two_decimals v
  end.

End Amounts.

Module Groups.
Import Py PyNum Common.
Local Open Scope nat_scope.

(** The groups a match closes: [Captures r pos u cs] when [r] matches the
    text [u] that starts at position [pos] of the searched text, closing the
    groups [cs], the last closed first. *)
Inductive Captures : Re.re -> nat -> str -> Re.caps -> Prop :=
| C_eps pos : Captures Re.Eps pos [] []
| C_chr ic cs c pos : Re.cset_mem ic cs c = true -> Captures (Re.Chr ic cs) pos [c] []
| C_seq a b pos u v ca cb :
    Captures a pos u ca -> Captures b (pos + length u) v cb ->
    Captures (Re.Seq a b) pos (u ++ v) (cb ++ ca)
| C_alt_l a b pos u ca : Captures a pos u ca -> Captures (Re.Alt a b) pos u ca
| C_alt_r a b pos u cb : Captures b pos u cb -> Captures (Re.Alt a b) pos u cb
| C_rep_stop a hi g pos : Captures (Re.Rep a 0 hi g) pos [] []
| C_rep_more a lo hi g pos u v ca cb :
    Re.hi_is_zero hi = false ->
    Captures a pos u ca ->
    Captures (Re.Rep a (Nat.pred lo) (option_map Nat.pred hi) g) (pos + length u) v cb ->
    Captures (Re.Rep a lo hi g) pos (u ++ v) (cb ++ ca)
| C_group n a pos u ca :
    Captures a pos u ca ->
    Captures (Re.Group n a) pos u ((n, (pos, pos + length u)) :: ca)
| C_bol ml pos : Captures (Re.Bol ml) pos [] []
| C_eol ml pos : Captures (Re.Eol ml) pos [] []
| C_wordb pos : Captures Re.WordB pos [] [].

(** What a matcher does with the groups: they are added in front of those
    closed before. *)
Definition capturing (R : Type) (L : nat -> str -> Re.caps -> Prop) (body : Re.matcher R)
  : Prop :=
  forall prev pos s cs (k : Re.kont R) res,
    body prev pos s cs k = Some res ->
    exists consumed s' p' added,
      s = consumed ++ s' /\ L pos consumed added
      /\ k p' (pos + length consumed) s' (added ++ cs) = Some res.

(** The patterns inside the groups numbered [n]. *)
Fixpoint group_bodies (n : nat) (r : Re.re) : list Re.re :=
  match r with
  | Re.Group n' a => (if Nat.eqb n' n then [a] else []) ++ group_bodies n a
  | Re.Seq a b | Re.Alt a b => group_bodies n a ++ group_bodies n b
  | Re.Rep a _ _ _ => group_bodies n a
  | _ => []
  end.

(** Group [n] takes part in every match of the pattern. *)
Fixpoint sure_group (n : nat) (r : Re.re) : bool :=
  match r with
  | Re.Group n' a => Nat.eqb n' n || sure_group n a
  | Re.Seq a b => sure_group n a || sure_group n b
  | Re.Alt a b => sure_group n a && sure_group n b
  | _ => false
  end.

(** Not a lower-case letter of U+0000..U+00FF. *)
Definition no_lower (c : char) : bool := negb (is_ascii_lower c || is_latin_lower c).

(** The pattern is made of upper-case ASCII letters, sequences and
    alternatives. *)
Fixpoint plain (r : Re.re) : bool :=
  match r with
  | Re.Chr _ (Re.mk_cset false [Re.CRange x y]) => N.eqb x y && is_ascii_upper x
  | Re.Seq a b | Re.Alt a b => plain a && plain b
  | _ => false
  end.

(** The words of a plain pattern. *)
Fixpoint words_of (r : Re.re) : list str :=
  match r with
  | Re.Chr _ (Re.mk_cset false [Re.CRange x _]) => [[x]]
  | Re.Seq a b => flat_map (fun u => map (fun v => u ++ v) (words_of b)) (words_of a)
  | Re.Alt a b => words_of a ++ words_of b
  | _ => []
  end.

End Groups.

Module Shape.
Import Py PyNum Common Layout.

(** A date as the page loop writes it: two digits or more for the day, the
    number of a month of the table, and the year, [dd-mm-yyyy]. *)
Definition date_text (year : Z) (s : str) : Prop :=
  exists day mm : Z,
    (0 <= day <= 99)%Z /\ (1 <= mm <= 12)%Z
    /\ s = Inbursa.fmt_int 2 day ++ U "-" ++ Inbursa.fmt_int 2 mm ++ U "-"
           ++ Inbursa.fmt_int 4 year.

(** A reference: ten digits. *)
Definition ten_digits (s : str) : Prop :=
  length s = 10%nat /\ Forall (fun c => is_digit c = true) s.

(** A well-formed row of movements. *)
Definition row_ok (year : Z) (r : Inbursa.row) : Prop :=
  date_text year (Inbursa.Fecha r)
  /\ (Inbursa.Referencia r = [] \/ ten_digits (Inbursa.Referencia r))
  /\ Amounts.cents (Inbursa.Cargos r)
  /\ Amounts.cents (Inbursa.Abonos r)
  /\ Amounts.cents (Inbursa.Saldo r).

(** A month variable of the page loop: unset, or a key of [SPAN_MONTHS]. *)
Definition month_ok (m : option str) : Prop :=
  match m with
  | None => True
  | Some k => Inbursa.span_month k <> None
  end.

(** A date variable of the page loop: unset, or a date text. *)
Definition date_ok (year : Z) (d : option str) : Prop :=
  match d with
  | None => True
  | Some s => date_text year s
  end.

(** A reference variable of the page loop: unset, or ten digits. *)
Definition ref_ok (r : option str) : Prop :=
  match r with
  | None => True
  | Some s => ten_digits s
  end.

(** What the page loop keeps true of its variables. *)
Definition state_ok (year : Z) (st : Inbursa.state) : Prop :=
  Forall (row_ok year) (Inbursa.rows st)
  /\ month_ok (Inbursa.last_month st) /\ month_ok (Inbursa.pending_month st)
  /\ date_ok year (Inbursa.cur_date st) /\ date_ok year (Inbursa.active_date st)
  /\ ref_ok (Inbursa.cur_ref st) /\ ref_ok (Inbursa.stash_ref st)
  /\ Amounts.cents (Inbursa.cur_cargo st) /\ Amounts.cents (Inbursa.cur_abono st)
  /\ Amounts.cents (Inbursa.cur_saldo st)
  /\ Amounts.cents (Inbursa.stash_cargo st) /\ Amounts.cents (Inbursa.stash_abono st)
  /\ Amounts.cents (Inbursa.stash_saldo st).

End Shape.

Module Accounts.
Import Py PyNum Common Layout.

(** The entries of [crudo] for one product. *)
Definition of_product (prod : str) (crudo : list SantanderHeader.account)
  : list SantanderHeader.account :=
  filter (fun c => str_eqb (SantanderHeader.producto c) prod) crudo.

(** The first account number that is not empty, the first balance that is
    not [None]. *)
Definition first_number (l : list SantanderHeader.account) : option str :=
  match find (fun c => Inbursa.truthy (SantanderHeader.numero c)) l with
  | Some c => SantanderHeader.numero c
  | None => None
  end.

Definition first_balance (l : list SantanderHeader.account) : option Q :=
  match find (fun c => Inbursa.is_some (SantanderHeader.saldo_ant c)) l with
  | Some c => SantanderHeader.saldo_ant c
  | None => None
  end.

(** The CLABE an account gets: that of the statement for the cheque account,
    none for the others. *)
Definition clabe_for (meta_clabe : option str) (prod : str) : option str :=
  if str_eqb prod SantanderHeader.CUENTA_PYME then meta_clabe else None.

(** What the entries of [crudo] say of one product. *)
Definition summary (meta_clabe : option str) (prod : str)
           (crudo : list SantanderHeader.account) : SantanderHeader.account :=
  SantanderHeader.mk_account prod
    (first_number (of_product prod crudo))
    (clabe_for meta_clabe prod)
    (first_balance (of_product prod crudo)).

End Accounts.

Module Cleaning.
Import Py PyNum Common Layout.

(** Everything of a row of the BBVA sheet but its description. *)
Definition figures (r : BBVASheet.frow)
  : option str * option str * Q * Q * option Q * option Q :=
  (BBVASheet.Fecha_Operacion r, BBVASheet.Fecha_Liquidacion r,
   BBVASheet.Cargos r, BBVASheet.Abonos r,
   BBVASheet.Saldo_Operacion r, BBVASheet.Saldo_Liquidacion r).

(** The row shows a date or an amount that is not zero. *)
Definition solid (r : BBVASheet.frow) : bool :=
  negb (BBVASheet.no_dates r && BBVASheet.zero_money r).

(** The frame after the first two steps: the descriptions without the
    footers of the bank, the rows of boilerplate removed. *)
Definition body (df : list BBVASheet.frow) : list BBVASheet.frow :=
  filter (fun r => negb (Re.found BBVASheet.boiler_pat (BBVASheet.Descripcion r)))
         (map (fun r => BBVASheet.with_descripcion r
                          (BBVA._strip_bbva_footer (BBVASheet.Descripcion r))) df).

End Cleaning.

Module Stops.
Import Py PyNum Common Layout Examples.




End Stops.

(* ===================================================================== *)
(** * Properties *)
(* ===================================================================== *)

From Stdlib Require Import Lqa.
Import Py PyNum Common Layout Spec.

(** ** Rational tests and rounding *)

Lemma Qis_zero_true (x : Q) : Qis_zero x = true <-> x == 0.
Proof. unfold Qis_zero. apply Qeq_bool_iff. Qed.

Lemma Qis_zero_false (x : Q) : Qis_zero x = false <-> ~ x == 0.
Proof.
  rewrite <- Qis_zero_true. destruct (Qis_zero x); intuition congruence.
Qed.

Lemma Qltb_true (a b : Q) : Qltb a b = true <-> a < b.
Proof.
  unfold Qltb. rewrite negb_true_iff. split; intros H.
  - apply Qnot_le_lt. intros Hle. apply Qle_bool_iff in Hle. congruence.
  - destruct (Qle_bool b a) eqn:E; [|reflexivity].
    apply Qle_bool_iff in E. exfalso. apply (Qlt_not_le _ _ H E).
Qed.

Lemma Qltb_false (a b : Q) : Qltb a b = false <-> b <= a.
Proof.
  unfold Qltb. rewrite negb_false_iff. apply Qle_bool_iff.
Qed.

Lemma Qgtb_true (a b : Q) : Qgtb a b = true <-> b < a.
Proof. unfold Qgtb. apply Qltb_true. Qed.

Lemma Qgtb_false (a b : Q) : Qgtb a b = false <-> a <= b.
Proof. unfold Qgtb. apply Qltb_false. Qed.

Lemma or_zero_eq (x : Q) : or_zero x == x.
Proof.
  unfold or_zero. destruct (Qis_zero x) eqn:E; [|reflexivity].
  apply Qis_zero_true in E. symmetry. exact E.
Qed.

#[global] Instance round_half_even_proper : Proper (Qeq ==> eq) round_half_even.
Proof.
  intros a b Hab. unfold round_half_even.
  rewrite (Qfloor_comp a b Hab).
  assert (H : a - inject_Z (Qfloor b) == b - inject_Z (Qfloor b)) by (rewrite Hab; reflexivity).
  rewrite (Qcompare_comp _ _ H (1 # 2) (1 # 2) (Qeq_refl _)). reflexivity.
Qed.

Lemma round_half_even_Z (n : Z) : round_half_even (inject_Z n) = n.
Proof.
  unfold round_half_even. rewrite Qfloor_Z.
  assert (H : inject_Z n - inject_Z n == 0) by ring.
  rewrite (Qcompare_comp _ _ H (1 # 2) (1 # 2) (Qeq_refl _)). reflexivity.
Qed.

Lemma round_half_even_nonneg (q : Q) : 0 <= q -> (0 <= round_half_even q)%Z.
Proof.
  intros Hq. unfold round_half_even.
  assert (Hf : (0 <= Qfloor q)%Z).
  { change 0%Z with (Qfloor 0). apply Qfloor_resp_le. exact Hq. }
  destruct (Qcompare _ _); [destruct (Z.even _)| |]; lia.
Qed.

Lemma round2_spec (q : Q) : round2 q == round_half_even (q * 100) # 100.
Proof. unfold round2. apply Qred_correct. Qed.

Lemma round2_two_decimals (q : Q) : two_decimals (round2 q).
Proof. exists (round_half_even (q * 100)). apply round2_spec. Qed.

Lemma round2_nonneg (q : Q) : 0 <= q -> 0 <= round2 q.
Proof.
  intros Hq. rewrite round2_spec.
  assert (H : (0 <= round_half_even (q * 100))%Z).
  { apply round_half_even_nonneg. nra. }
  unfold Qle. simpl. lia.
Qed.

Lemma round2_zero (q : Q) : q == 0 -> round2 q == 0.
Proof.
  intros Hq. rewrite round2_spec.
  assert (H : q * 100 == inject_Z 0) by (rewrite Hq; reflexivity).
  rewrite H, round_half_even_Z. reflexivity.
Qed.

Lemma round2_id (q : Q) : two_decimals q -> round2 q == q.
Proof.
  intros [n Hn]. rewrite round2_spec.
  assert (H : q * 100 == inject_Z n).
  { rewrite Hn. unfold Qeq, inject_Z. simpl. lia. }
  rewrite H, round_half_even_Z. symmetry. exact Hn.
Qed.

#[global] Instance round2_proper : Proper (Qeq ==> eq) round2.
Proof.
  intros a b Hab. unfold round2.
  assert (H : a * 100 == b * 100) by (rewrite Hab; reflexivity).
  rewrite H. reflexivity.
Qed.

(** ** Reconciliation (santander_extractor.py) *)

(** The three outcomes of [_reconcile_amounts], by the signs of its inputs
    and the keywords of the description. *)
Lemma reconcile_both_positive (desc : str) (dep ret : Q) :
  0 < dep -> 0 < ret ->
  Santander._reconcile_amounts desc dep ret =
    if Santander._has_tokens desc Santander.ABONO_KEYS
       && negb (Santander._has_tokens desc Santander.RETIRO_KEYS)
    then (round2 dep, round2 0)
    else (round2 0, round2 ret).
Proof.
  intros Hd Hr. unfold Santander._reconcile_amounts.
  assert (E1 : Qgtb (or_zero dep) 0 = true) by (apply Qgtb_true; rewrite or_zero_eq; exact Hd).
  assert (E2 : Qgtb (or_zero ret) 0 = true) by (apply Qgtb_true; rewrite or_zero_eq; exact Hr).
  rewrite E1, E2. cbn [andb].
  destruct (Santander._has_tokens desc Santander.ABONO_KEYS),
           (Santander._has_tokens desc Santander.RETIRO_KEYS); cbn [andb negb];
    rewrite ?(round2_proper (or_zero_eq dep)), ?(round2_proper (or_zero_eq ret)); reflexivity.
Qed.

Lemma amounts_ok_round2 (debit credit : Q) :
  0 <= debit -> 0 <= credit -> (debit == 0 \/ credit == 0) ->
  amounts_ok (round2 debit) (round2 credit).
Proof.
  intros Hd Hc Hz. unfold amounts_ok. repeat split.
  - apply round2_nonneg. exact Hd.
  - apply round2_nonneg. exact Hc.
  - destruct Hz as [Hz | Hz]; [left | right]; apply round2_zero; exact Hz.
Qed.

(** On non-negative inputs the reconciled pair is non-negative and has at
    most one non-zero side. *)
Lemma reconcile_amounts_ok (desc : str) (dep ret : Q) :
  0 <= dep -> 0 <= ret ->
  amounts_ok (snd (Santander._reconcile_amounts desc dep ret))
             (fst (Santander._reconcile_amounts desc dep ret)).
Proof.
  intros Hd Hr. unfold Santander._reconcile_amounts.
  pose proof (or_zero_eq dep) as Ed. pose proof (or_zero_eq ret) as Er.
  set (d := or_zero dep) in *. set (r := or_zero ret) in *.
  assert (Hd' : 0 <= d) by (rewrite Ed; exact Hd).
  assert (Hr' : 0 <= r) by (rewrite Er; exact Hr).
  destruct (Qgtb d 0) eqn:Gd; destruct (Qgtb r 0) eqn:Gr; cbn [andb].
  - destruct (Santander._has_tokens desc Santander.ABONO_KEYS
              && negb (Santander._has_tokens desc Santander.RETIRO_KEYS));
      [| destruct (Santander._has_tokens desc Santander.RETIRO_KEYS
                   && negb (Santander._has_tokens desc Santander.ABONO_KEYS))];
      cbn [fst snd]; apply amounts_ok_round2; auto with qarith; lra.
  - apply Qgtb_false in Gr. assert (Zr : r == 0) by lra.
    destruct (Qis_zero r && Santander._has_tokens desc Santander.RETIRO_KEYS
              && negb (Santander._has_tokens desc Santander.ABONO_KEYS));
      cbn [fst snd]; apply amounts_ok_round2; auto with qarith; lra.
  - apply Qgtb_false in Gd. assert (Zd : d == 0) by lra.
    destruct (Qis_zero d && Santander._has_tokens desc Santander.ABONO_KEYS
              && negb (Santander._has_tokens desc Santander.RETIRO_KEYS));
      cbn [fst snd]; apply amounts_ok_round2; auto with qarith; lra.
  - apply Qgtb_false in Gd. assert (Zd : d == 0) by lra.
    cbn [fst snd]. apply amounts_ok_round2; auto with qarith; lra.
Qed.

(** ** The keyword classifiers *)

Lemma booked_decision_rule (c d : bool) (monto : Q) :
  booked (decision_rule c d) monto = if c then (0, monto) else if d then (monto, 0) else (0, monto).
Proof. destruct c, d; reflexivity. Qed.

(** C3 (amended). For a non-zero amount, [_classify] (Banorte) and
    [_classify_by_keywords] (Santander) follow the decision rule: credit on a
    credit keyword without debit keyword, debit on a debit keyword without
    credit keyword, credit when both or neither match.  The column repair of
    BBVA, [_maybe_fix_amount_columns], books the single non-zero balance of a
    movement without amounts as credit only on a credit keyword without debit
    keyword, and as debit otherwise: its default is debit. *)
Theorem classifier_rule_by_extractor :
  forall (desc_upper : str) (monto : Q),
    ~ monto == 0 ->
    Banorte._classify desc_upper monto
      = booked (decision_rule (Banorte.has_credit_kw desc_upper)
                              (Banorte.has_debit_kw desc_upper)) monto
    /\ Santander._classify_by_keywords desc_upper monto
      = booked (decision_rule (Santander._has_tokens desc_upper Santander.ABONO_KEYS)
                              (Santander._has_tokens desc_upper Santander.RETIRO_KEYS)) monto
    /\ (forall tx : BBVA.TxRow,
          BBVA.cargos tx == 0 -> BBVA.abonos tx == 0 ->
          BBVA.saldos_of tx = [monto] ->
          BBVA.desc tx = desc_upper ->
          let s := decision_rule_debit_default
                     (any_in BBVA.credit_kw (upper desc_upper))
                     (any_in BBVA.debit_kw (upper desc_upper)) in
          let tx' := BBVA._maybe_fix_amount_columns tx in
          BBVA.cargos tx' == fst (booked s monto)
          /\ BBVA.abonos tx' == snd (booked s monto)).
Proof.
  intros desc_upper monto Hm.
  apply Qis_zero_false in Hm.
  split; [|split].
  - unfold Banorte._classify. rewrite Hm, booked_decision_rule. reflexivity.
  - unfold Santander._classify_by_keywords. rewrite Hm, booked_decision_rule. reflexivity.
  - intros tx Hc Ha Hs Hdesc s tx'. subst s tx'.
    unfold BBVA._maybe_fix_amount_columns. rewrite Hs.
    apply Qis_zero_true in Hc, Ha. rewrite Hc, Ha, Hdesc. cbn [andb].
    destruct (any_in BBVA.credit_kw (upper desc_upper)),
             (any_in BBVA.debit_kw (upper desc_upper));
      cbn [andb negb decision_rule_debit_default booked fst snd
           BBVA.cargos BBVA.abonos];
      apply Qis_zero_true in Hc, Ha; split; (reflexivity || assumption).
Qed.

Lemma classifier_rule_by_extractor_witness :
  Banorte._classify (U "MISC") (12345 # 100) = booked Credit (12345 # 100)
  /\ Santander._classify_by_keywords (U "PAGO DE LUZ") (12345 # 100) = booked Debit (12345 # 100)
  /\ BBVA.cargos (BBVA._maybe_fix_amount_columns
                    (BBVA.mk_tx None None (U "MISC") 0 0 (Some (12345 # 100)) None))
     == 12345 # 100.
Proof.
  destruct (@classifier_rule_by_extractor (U "MISC") (12345 # 100)) as (Hb & _ & Hv).
  { intros H. discriminate H. }
  destruct (@classifier_rule_by_extractor (U "PAGO DE LUZ") (12345 # 100)) as (_ & Hs & _).
  { intros H. discriminate H. }
  split; [exact Hb | split; [exact Hs |]].
  specialize (Hv (BBVA.mk_tx None None (U "MISC") 0 0 (Some (12345 # 100)) None)).
  apply Hv; reflexivity.
Defined.

(** C3, the claim as worded fails on BBVA: a description without any keyword
    and a single ambiguous amount is booked as debit ("cargos"), where the
    rule with the credit default books it as credit. *)
Lemma classifier_default_is_debit_in_bbva :
  let tx := BBVA.mk_tx None None (U "MISC") 0 0 (Some (12345 # 100)) None in
  let tx' := BBVA._maybe_fix_amount_columns tx in
  any_in BBVA.credit_kw (upper (BBVA.desc tx)) = false
  /\ any_in BBVA.debit_kw (upper (BBVA.desc tx)) = false
  /\ BBVA.saldos_of tx = [12345 # 100]
  /\ (BBVA.cargos tx', BBVA.abonos tx') = (12345 # 100, 0)
  /\ booked (decision_rule false false) (12345 # 100) = (0, 12345 # 100).
Proof. vm_compute. repeat split. Qed.

(** ** Amount runs of length three *)

Lemma column_amounts_long_tail (dep_raw ret_raw saldo_raw row_txt : str) (a b c : Q) :
  Santander.column_amounts dep_raw ret_raw saldo_raw row_txt [a; b; c] = (None, None, None).
Proof.
  unfold Santander.column_amounts. cbn [length Nat.leb].
  rewrite orb_true_r. reflexivity.
Qed.

(** C2 (amended). The three values of an amount run of length three are
    read left to right as (deposit, withdrawal, balance): the first value is
    the deposit (the credit side), the second the withdrawal (the debit
    side), the third the balance.  Banorte stores the three values, rounded
    to two decimals, in the row; Santander stores the third as the balance
    and hands the first two, as deposit and withdrawal, to the
    reconciliation, both when a row opens a movement and when a row without
    date completes one. *)
Theorem run_of_three_is_deposit_withdrawal_balance :
  forall a b c : Q,
    (forall txt m next_start is_last fraw fdate body_clean,
        Re.group txt m 1 = Some fraw ->
        Banorte._parse_fecha_es fraw = Ok fdate ->
        Banorte._extract_amount_run (Banorte.body_of txt m next_start is_last fraw)
          = (body_clean, [a; b; c]) ->
        exists r,
          Banorte.row_of_match txt m next_start is_last = Some r
          /\ Banorte.r_deposit r = Some (round2 a)
          /\ Banorte.r_withdrawal r = Some (round2 b)
          /\ Banorte.r_balance r = Some (round2 c))
    /\ (forall (cols : list str) row_txt f desc_fb,
          Santander._parse_ddmonyyyy (nth 0 cols []) = Ok f ->
          Santander._extract_tail_run (Santander.line_wo_date row_txt) 3 = (desc_fb, [a; b; c]) ->
          exists t,
            Santander.open_row cols row_txt = Ok t
            /\ Santander.saldo t = Some c
            /\ (Santander.deposito t, Santander.retiro t)
               = Santander._reconcile_amounts (Santander.desc t) (or_zero a) (or_zero b))
    /\ (forall cur (cols : list str) row_txt desc_fb,
          Santander._extract_tail_run (Santander._cut_after_totals row_txt) 3
            = (desc_fb, [a; b; c]) ->
          let t := Santander.money_row cur cols row_txt in
          Santander.saldo t = Some c
          /\ (Santander.deposito t, Santander.retiro t)
             = Santander._reconcile_amounts (Santander.desc cur) (or_zero a) (or_zero b)).
Proof.
  intros a b c. split; [|split].
  - intros txt m next_start is_last fraw fdate body_clean Hg Hf Hrun.
    unfold Banorte.row_of_match. rewrite Hg, Hf. cbv zeta. rewrite Hrun. cbn [Banorte.amounts_of_tail].
    eexists. split; [reflexivity|]. cbn. repeat split.
  - intros cols row_txt f desc_fb Hf Hrun.
    unfold Santander.open_row, Santander.open_inputs. cbv zeta. rewrite Hf. cbn [bind]. rewrite Hrun.
    cbn [Santander.tail_amounts]. rewrite column_amounts_long_tail.
    cbn [Santander.get_or Santander.or_else].
    destruct (Santander._reconcile_amounts _ _ _) as [dv rv] eqn:E.
    eexists. split; [reflexivity|]. cbn [Santander.saldo Santander.deposito
      Santander.retiro Santander.desc]. split; [reflexivity|]. symmetry. exact E.
  - intros cur cols row_txt desc_fb Hrun t. subst t.
    unfold Santander.money_row, Santander.money_inputs. cbv zeta. rewrite Hrun.
    cbn [Santander.tail_amounts]. rewrite column_amounts_long_tail.
    cbn [Santander.get_or Santander.or_else].
    destruct (Santander._reconcile_amounts _ _ _) as [dv rv] eqn:E.
    cbn [Santander.saldo Santander.deposito Santander.retiro]. split; reflexivity.
Qed.

Lemma run_of_three_is_deposit_withdrawal_balance_witness :
  (exists r,
      Banorte.row_of_match Examples.banorte_payment Examples.banorte_payment_date
        (length Examples.banorte_payment) true = Some r
      /\ Banorte.r_deposit r = Some (round2 100)
      /\ Banorte.r_withdrawal r = Some (round2 0)
      /\ Banorte.r_balance r = Some (round2 900))
  /\ (exists t,
        Santander.open_row Examples.sant_cols_three (row_text Examples.sant_row_three) = Ok t
        /\ Santander.saldo t = Some 30
        /\ (Santander.deposito t, Santander.retiro t)
           = Santander._reconcile_amounts (Santander.desc t) (or_zero 10) (or_zero 20)).
Proof.
  split.
  - destruct (run_of_three_is_deposit_withdrawal_balance 100 0 900) as (HB & _ & _).
    apply (HB Examples.banorte_payment Examples.banorte_payment_date
              (length Examples.banorte_payment) true (U "01-ENE-24")
              (mk_date 2024 1 1) (U "PAYMENT X")); vm_compute; reflexivity.
  - destruct (run_of_three_is_deposit_withdrawal_balance 10 20 30) as (_ & HS & _).
    apply (HS Examples.sant_cols_three (row_text Examples.sant_row_three)
              (Some (mk_date 2024 1 3)) (U "MISC")); vm_compute; reflexivity.
Defined.

(** C2, the claim as worded: in the row built from the run
    (100.00, 0.00, 900.00) the first value is the deposit, not the debit;
    the withdrawal is the second value, 0. *)
Lemma run_of_three_first_value_is_credit :
  exists r,
    Banorte._parse_section_to_rows Examples.banorte_payment None = Ok [r]
    /\ Banorte.r_deposit r = Some 100
    /\ Banorte.r_withdrawal r = Some 0
    /\ Banorte.r_withdrawal r <> Some 100
    /\ Banorte.r_balance r = Some 900.
Proof.
  eexists. split; [vm_compute; reflexivity|].
  cbn. repeat split. discriminate.
Qed.

(** ** Sorting *)

Import Bands.



Lemma insert_by_perm {A : Type} (leb : A -> A -> bool) (x : A) (l : list A) :
  Permutation (x :: l) (insert_by leb x l).
Proof.
  induction l as [|y l IH]; cbn.
  - apply Permutation_refl.
  - destruct (leb x y).
    + apply Permutation_refl.
    + eapply Permutation_trans; [apply perm_swap|]. apply perm_skip. exact IH.
Qed.

Lemma sorted_by_perm {A : Type} (leb : A -> A -> bool) (l : list A) :
  Permutation l (sorted_by leb l).
Proof.
  induction l as [|x l IH]; cbn.
  - constructor.
  - eapply Permutation_trans; [apply perm_skip; exact IH|]. apply insert_by_perm.
Qed.

Lemma sorted_by_length {A : Type} (leb : A -> A -> bool) (l : list A) :
  length (sorted_by leb l) = length l.
Proof. symmetry. apply Permutation_length, sorted_by_perm. Qed.

(** ** Column bands *)















(** ** Row grouping *)

Import Rows.

Section InsertionSort.
Variable A : Type.
Variable le : A -> A -> Prop.
Variable leb : A -> A -> bool.
Hypothesis leb_le : forall x y, leb x y = true -> le x y.
Hypothesis leb_total : forall x y, leb x y = false -> le y x.

Lemma insert_by_Sorted (x : A) (l : list A) :
  Sorted le l -> Sorted le (insert_by leb x l).
Proof.
  induction l as [|y l IH]; intros Hs; cbn.
  - constructor; constructor.
  - destruct (leb x y) eqn:E.
    + constructor; [exact Hs|]. constructor. apply leb_le. exact E.
    + apply leb_total in E.
      inversion Hs as [|? ? Hs' Hhd]; subst.
      constructor; [apply IH; exact Hs'|].
      destruct l as [|z l]; cbn.
      * constructor. exact E.
      * destruct (leb x z); constructor; [exact E|].
        inversion Hhd; subst. assumption.
Qed.

Lemma sorted_by_Sorted (l : list A) : Sorted le (sorted_by leb l).
Proof.
  induction l as [|x l IH]; cbn.
  - constructor.
  - apply insert_by_Sorted. exact IH.
Qed.
End InsertionSort.

Lemma left_to_right_sorted (row : list word) : Sorted left_of (left_to_right row).
Proof.
  apply sorted_by_Sorted with (leb := left_ofb).
  - intros x y H. apply Qle_bool_iff. exact H.
  - intros x y H. unfold left_of. apply Qlt_le_weak, Qnot_le_lt.
    intros H'. apply Qle_bool_iff in H'. unfold left_ofb in H. congruence.
Qed.

Lemma sorted_keys_increasing (l : list Z) :
  NoDup l -> StronglySorted Z.lt (sorted_by Z.leb l).
Proof.
  intros Hnd.
  assert (Hs : StronglySorted Z.le (sorted_by Z.leb l)).
  { apply Sorted_StronglySorted; [intros x y z; apply Z.le_trans|].
    apply sorted_by_Sorted with (leb := Z.leb).
    - intros x y H. apply Z.leb_le. exact H.
    - intros x y H. apply Z.leb_gt in H. lia. }
  assert (Hnd' : NoDup (sorted_by Z.leb l)).
  { eapply Permutation_NoDup; [apply sorted_by_perm|exact Hnd]. }
  induction Hs as [|x rest Hs IH Hall]; [constructor|].
  inversion Hnd' as [|? ? Hnotin Hnd'']; subst.
  constructor; [apply IH; exact Hnd''|].
  rewrite Forall_forall in *. intros y Hy.
  specialize (Hall y Hy). assert (x <> y) by (intros ->; contradiction). lia.
Qed.

(** The dictionary built by [setdefault(...).append(...)]. *)
Lemma bucket_get_add (k yk : Z) (w : word) (rows : buckets) :
  bucket_get k (bucket_add yk w rows)
  = if (yk =? k)%Z then bucket_get k rows ++ [w] else bucket_get k rows.
Proof.
  induction rows as [|[k' ws] rest IH]; cbn.
  - destruct (yk =? k)%Z; reflexivity.
  - destruct (k' =? yk)%Z eqn:E1; cbn.
    + apply Z.eqb_eq in E1. subst k'. destruct (yk =? k)%Z; reflexivity.
    + destruct (k' =? k)%Z eqn:E2.
      * apply Z.eqb_eq in E2. subst k'. rewrite (Z.eqb_sym yk k), E1. reflexivity.
      * exact IH.
Qed.

Lemma bucket_add_keys (yk : Z) (w : word) (rows : buckets) :
  map fst (bucket_add yk w rows)
  = if existsb (Z.eqb yk) (map fst rows) then map fst rows else map fst rows ++ [yk].
Proof.
  induction rows as [|[k' ws] rest IH]; cbn; [reflexivity|].
  rewrite (Z.eqb_sym yk k').
  destruct (k' =? yk)%Z; cbn; [reflexivity|].
  rewrite IH. destruct (existsb (Z.eqb yk) (map fst rest)); reflexivity.
Qed.

Lemma fill_get (size : Q) (body : list word) (rows : buckets) (k : Z) :
  bucket_get k (fill size body rows)
  = bucket_get k rows ++ filter (fun w => (row_key size w =? k)%Z) body.
Proof.
  revert rows. induction body as [|w body IH]; intros rows; cbn.
  - rewrite app_nil_r. reflexivity.
  - unfold fill in IH. rewrite IH, bucket_get_add.
    destruct (row_key size w =? k)%Z; [rewrite <- app_assoc|]; reflexivity.
Qed.

Lemma fill_keys_nodup (size : Q) (body : list word) (rows : buckets) :
  NoDup (map fst rows) -> NoDup (map fst (fill size body rows)).
Proof.
  revert rows. induction body as [|w body IH]; intros rows Hnd; cbn; [exact Hnd|].
  apply IH. rewrite bucket_add_keys.
  destruct (existsb _ _) eqn:E; [exact Hnd|].
  apply NoDup_app; [exact Hnd|repeat constructor; intros []|].
  - intros k Hk [<- | []].
    assert (Hex : existsb (Z.eqb (row_key size w)) (map fst rows) = true).
    { apply existsb_exists. exists (row_key size w). split; [exact Hk|apply Z.eqb_refl]. }
    congruence.
Qed.

Lemma fill_keys_in (size : Q) (body : list word) (rows : buckets) (k : Z) :
  In k (map fst (fill size body rows))
  <-> In k (map fst rows) \/ exists w, In w body /\ row_key size w = k.
Proof.
  revert rows. induction body as [|w body IH]; intros rows; cbn.
  - split; [auto | intros [H | (w & [] & _)]; exact H].
  - unfold fill in IH. rewrite IH, bucket_add_keys.
    destruct (existsb _ _) eqn:E.
    + apply existsb_exists in E. destruct E as (k' & Hk' & Ek'). apply Z.eqb_eq in Ek'.
      subst k'. split.
      * intros [H | (w' & Hw' & Hk)]; [left; exact H|].
        right. exists w'. split; [right; exact Hw'|exact Hk].
      * intros [H | (w' & [<- | Hw'] & Hk)]; [left; exact H| |].
        -- left. subst k. exact Hk'.
        -- right. exists w'. split; assumption.
    + rewrite in_app_iff. cbn. split.
      * intros [[H | [H | []]] | (w' & Hw' & Hk)].
        -- left. exact H.
        -- right. exists w. split; [left; reflexivity|exact H].
        -- right. exists w'. split; [right; exact Hw'|exact Hk].
      * intros [H | (w' & [<- | Hw'] & Hk)].
        -- left. left. exact H.
        -- left. right. left. exact Hk.
        -- right. exists w'. split; assumption.
Qed.

Lemma Qltb_lt (a b : Q) : Qltb a b = true <-> a < b.
Proof.
  unfold Qltb. rewrite negb_true_iff. split.
  - intros H. apply Qnot_le_lt. intros H'. apply Qle_bool_iff in H'. congruence.
  - intros H. destruct (Qle_bool b a) eqn:E; [|reflexivity].
    apply Qle_bool_iff in E. lra.
Qed.

Lemma Qltb_ge (a b : Q) : Qltb a b = false <-> b <= a.
Proof.
  unfold Qltb. rewrite negb_false_iff. apply Qle_bool_iff.
Qed.

Lemma clamp_is_clamp (lo hi : Q) (v : float) :
  lo <= hi -> is_clamp lo hi v (clamp lo hi v).
Proof.
  intros Hlh. unfold is_clamp, clamp. destruct v as [q|[|]|].
  - destruct (Qltb q hi) eqn:E1.
    + apply Qltb_lt in E1. destruct (Qltb lo q) eqn:E2.
      * apply Qltb_lt in E2. repeat split; intros; lra.
      * apply Qltb_ge in E2. repeat split; intros; lra.
    + apply Qltb_ge in E1. repeat split; intros; lra.
  - repeat split; try lra.
  - repeat split; try lra.
  - repeat split; try lra.
Qed.

(** The sum of the heights, as the loop of [sum] computes it, is the total
    of the heights taken one after the other. *)
Lemma firstn_succ_nth (A : Type) (l : list A) (k : nat) (x : A) :
  nth_error l k = Some x -> firstn (S k) l = firstn k l ++ [x].
Proof.
  revert k. induction l as [|y l IH]; intros [|k] H; cbn in H; try discriminate.
  - injection H as ->. reflexivity.
  - cbn [firstn app]. f_equal. exact (IH k H).
Qed.

Lemma height_total_firstn (body : list word) (k : nat) :
  (k <= length body)%nat ->
  float_sum (map height (firstn k body)) = height_total body k.
Proof.
  unfold float_sum. induction k as [|k IH]; intros Hk; [reflexivity|].
  cbn [height_total].
  destruct (nth_error body k) as [w|] eqn:E.
  - rewrite (@firstn_succ_nth _ body k w E), map_app, fold_left_app. cbn [map fold_left].
    rewrite IH by lia. reflexivity.
  - apply nth_error_None in E. lia.
Qed.

Lemma float_sum_heights (body : list word) :
  float_sum (map height body) = height_total body (length body).
Proof.
  rewrite <- (@height_total_firstn body (length body)) by lia.
  rewrite firstn_all. reflexivity.
Qed.

Lemma ybin_of_bin_size (body : list word) : ybin_of body = bin_size body.
Proof.
  unfold ybin_of, bin_size, average_height. cbv zeta.
  change (map (fun w => fsub (Finite (w_bottom w)) (Finite (w_top w))) body)
    with (map height body).
  rewrite length_map, float_sum_heights.
  destruct (fmul_by _ f0_70) as [q|[|]|]; unfold fmin2, fmax2, clamp, flt.
  - destruct (Qltb q f4_2) eqn:E1.
    + destruct (Qltb 2 q); reflexivity.
    + reflexivity.
  - reflexivity.
  - reflexivity.
  - reflexivity.
Qed.

(** C9. [_group_rows] keeps the tokens below the header line, takes as bin
    size 0.70 times their average height clamped to [2.0, 4.2], and returns
    one row per occupied bin [round(top / bin_size)], in strictly increasing
    bin order, each row holding the tokens of its bin sorted left to right.
    The average, the product and the quotient are those of Python's floats:
    the heights are added one after the other, and each operation is
    rounded to binary64. *)
Theorem group_rows_by_bins :
  forall (words : list word) (header_y : Q),
    let body := body_tokens words header_y in
    let size := bin_size body in
    is_clamp 2 f4_2 (fmul_by (average_height body) f0_70) size
    /\ exists bins : list Z,
         StronglySorted Z.lt bins
         /\ (forall k, In k bins <-> exists w, In w body /\ bin_of size w = k)
         /\ _group_rows words header_y
            = map (fun k => left_to_right (bucket size body k)) bins
         /\ (forall k, Sorted left_of (left_to_right (bucket size body k))
                       /\ Permutation (bucket size body k)
                                      (left_to_right (bucket size body k))).
Proof.
  intros words header_y body size. split.
  - apply clamp_is_clamp. unfold Qle; cbn; lia.
  - assert (Hrows : forall k,
              Sorted left_of (left_to_right (bucket size body k))
              /\ Permutation (bucket size body k) (left_to_right (bucket size body k))).
    { intros k. split; [apply left_to_right_sorted|apply sorted_by_perm]. }
    unfold _group_rows.
    change (filter (fun w => flt (fadd (Finite header_y) (Finite 1)) (Finite (w_top w))) words)
      with (body_tokens words header_y).
    fold body.
    destruct body as [|w0 body0] eqn:Ebody.
    + exists []. repeat split; try (constructor; fail); try (apply Hrows).
      * intros [].
      * intros (w & [] & _).
    + rewrite ybin_of_bin_size. fold size.
      fold (fill size (w0 :: body0) []).
      exists (sorted_by Z.leb (map fst (fill size (w0 :: body0) []))).
      split; [|split; [|split]].
      * apply sorted_keys_increasing, fill_keys_nodup. constructor.
      * intros k. rewrite <- (Permutation_in' (eq_refl k) (sorted_by_perm Z.leb _)).
        rewrite fill_keys_in. cbn [map]. unfold bin_of, row_key. split.
        -- intros [[] | H]. exact H.
        -- intros H. right. exact H.
      * apply map_ext. intros k. rewrite fill_get. cbn [bucket_get app].
        reflexivity.
      * exact Hrows.
Qed.

(** ** Amount normalisation *)

(** C10. [_norm_amount] never raises: for every input it returns a float.
    [None], the empty string and every text that [float] refuses once
    no-break spaces, currency signs, spaces and commas are removed give 0.0;
    any other text gives the float read from the cleaned text.  The statement
    holds for every behaviour of the builtin [float], and the three copies of
    the function are this one. *)
Theorem norm_amount_total :
  forall (F : Type) (zero : F) (float : str -> pyres F) (s : option str),
    (exists v, norm_amount zero float s = Ok v)
    /\ norm_amount zero float None = Ok zero
    /\ norm_amount zero float (Some []) = Ok zero
    /\ (forall t e, float (cleaned t) = Raise e -> norm_amount zero float (Some t) = Ok zero)
    /\ (forall t v, t <> [] -> float (cleaned t) = Ok v ->
                    norm_amount zero float (Some t) = Ok v)
    /\ Banorte._norm_amount = norm_amount 0 float_of_str
    /\ Santander._norm_amount = norm_amount 0 float_of_str
    /\ BBVA._norm_amount = norm_amount 0 float_of_str.
Proof.
  intros F zero float s. split; [|split; [|split; [|split; [|split]]]].
  - unfold norm_amount, try_except. destruct s as [t|]; [|eexists; reflexivity].
    destruct (negb (nonempty t)); [eexists; reflexivity|].
    destruct (float (cleaned t)); eexists; reflexivity.
  - reflexivity.
  - reflexivity.
  - intros t e H. unfold norm_amount, try_except.
    destruct (negb (nonempty t)); [reflexivity|]. rewrite H. reflexivity.
  - intros t v Ht H. unfold norm_amount, try_except.
    destruct t as [|c t]; [contradiction|]. cbn [nonempty negb].
    rewrite H. reflexivity.
  - repeat split.
Qed.

(** ** The BANCO INVEX exception *)

Lemma extend_tail_Forall (P : Re.rmatch -> Prop) (s : str) (maxn : nat)
      (before : list Re.rmatch) :
  forall (cur_start : nat) (tail : list Re.rmatch),
    Forall P tail -> Forall P before ->
    Forall P (snd (Santander.extend_tail s maxn cur_start tail before)).
Proof.
  induction before as [|m rest IH]; intros cur_start tail Ht Hb;
    cbn [Santander.extend_tail].
  - exact Ht.
  - destruct (Nat.ltb (length tail) maxn); [|exact Ht].
    destruct (nonempty (strip (slice (Re.m_end m) cur_start s))); [exact Ht|].
    inversion Hb; subst. apply IH; [constructor|]; assumption.
Qed.

Lemma tail_matches_Forall (P : Re.rmatch -> Prop) (s : str) (maxn cur_start : nat)
      (tail : list Re.rmatch) :
  Forall P (Santander.amount_matches s) ->
  Santander.tail_matches s maxn = Some (cur_start, tail) ->
  Forall P tail.
Proof.
  intros HP. unfold Santander.tail_matches.
  assert (Hrev : Forall P (rev (Santander.amount_matches s))).
  { apply Forall_forall. intros m Hm. rewrite <- in_rev in Hm.
    rewrite Forall_forall in HP. apply HP. exact Hm. }
  destruct (rev (Santander.amount_matches s)) as [|m_last before]; [discriminate|].
  intros H. injection H as H.
  inversion Hrev; subst.
  pose proof (@extend_tail_Forall P s maxn before (Re.m_start m_last) [m_last]) as HF.
  rewrite H in HF. apply HF; [constructor; [assumption|constructor]|assumption].
Qed.

(** C8 (amended). In the Santander extractor, on a line that mentions
    BANCO INVEX, no value returned by [_extract_tail_run] is read from a token
    of the form 0,000,xxx.xx: every returned value is the amount of a match of
    the monetary grammar that is not such a reference number.  (The Banorte
    extractor has no such exclusion.) *)
Theorem invex_reference_numbers_are_not_amounts :
  forall (line : str) (maxn : nat),
    let s := Santander.tail_line line in
    Re.found Santander.BANCOINVEX_TAG_RE s = true ->
    exists ms : list Re.rmatch,
      snd (Santander._extract_tail_run line maxn)
        = map (fun m => Santander.amount_of (Re.group0 s m)) ms
      /\ Forall (fun m => In m (Re.finditer Santander.AMOUNT_RE s)
                          /\ Santander.is_fake_amount s m = false) ms.
Proof.
  intros line maxn s Htag. unfold Santander._extract_tail_run. fold s.
  destruct (Santander.tail_matches s maxn) as [[cur_start tail]|] eqn:E.
  - exists tail. split; [reflexivity|].
    apply (@tail_matches_Forall _ s maxn cur_start tail); [|exact E].
    unfold Santander.amount_matches. rewrite Htag.
    apply Forall_forall. intros m Hm. apply filter_In in Hm.
    destruct Hm as [Hin Hf]. split; [exact Hin|].
    apply negb_true_iff. exact Hf.
  - exists []. split; [reflexivity|constructor].
Qed.

Lemma invex_reference_numbers_are_not_amounts_witness :
  exists ms : list Re.rmatch,
    snd (Santander._extract_tail_run (U "BANCO INVEX REF 0,000,070.69 5.00") 3)
      = map (fun m => Santander.amount_of
                        (Re.group0 (Santander.tail_line (U "BANCO INVEX REF 0,000,070.69 5.00")) m))
            ms
    /\ Forall (fun m =>
                 In m (Re.finditer Santander.AMOUNT_RE
                         (Santander.tail_line (U "BANCO INVEX REF 0,000,070.69 5.00")))
                 /\ Santander.is_fake_amount
                      (Santander.tail_line (U "BANCO INVEX REF 0,000,070.69 5.00")) m = false)
              ms.
Proof.
  apply (@invex_reference_numbers_are_not_amounts (U "BANCO INVEX REF 0,000,070.69 5.00") 3).
  vm_compute. reflexivity.
Defined.

(** C8, the claim as worded: the Banorte amount-run extraction reads the
    reference number 0,000,070.69 as the amount 70.69. *)
Lemma banorte_reads_reference_number_as_amount :
  Banorte._extract_amount_run (U "REF 0,000,070.69 5.00") = (U "REF", [7069 # 100; 5]).
Proof. vm_compute. reflexivity. Qed.

(** ** Hard stops (bbva_extractor.py) *)





(** ** Movements across pages *)

Import Carry.

Lemma bbva_take_amounts_balance (c : BBVA.TxRow) (sop : str) :
  Qis_zero (BBVA.cargos c) = false ->
  nonempty sop = true -> nonempty (strip sop) = true ->
  BBVA.take_amounts c [] [] sop []
  = BBVA.mk_tx (BBVA.f_oper c) (BBVA.f_liq c) (BBVA.desc c) (BBVA.cargos c) (BBVA.abonos c)
               (Some (BBVA.amount_of sop)) (BBVA.s_liq c).
Proof.
  intros Hc H1 H2. unfold BBVA.take_amounts. cbn [nonempty andb]. rewrite H1, H2.
  cbn [andb BBVA.f_oper BBVA.f_liq BBVA.desc BBVA.cargos BBVA.abonos BBVA.s_oper BBVA.s_liq].
  unfold BBVA._maybe_fix_amount_columns. cbn [BBVA.cargos]. rewrite Hc. cbn [andb].
  destruct (BBVA.saldos_of _) as [|v [|v' l]]; reflexivity.
Qed.

Lemma bbva_completion_step (year_hint : Z) (bounds : list (Q * Q)) (st : BBVA.state)
      (c : BBVA.TxRow) (r : list word) :
  BBVA.current st = Some c ->
  completion_row bounds r = true ->
  exists c0,
    same_but_desc c0 c
    /\ BBVA.step_row year_hint bounds st r
       = Ok (BBVA.set_current st
               (Some (BBVA.take_amounts c0
                        (nth 4 (BBVA._assign_cols r bounds) [])
                        (nth 5 (BBVA._assign_cols r bounds) [])
                        (nth 6 (BBVA._assign_cols r bounds) [])
                        (nth 7 (BBVA._assign_cols r bounds) [])))).
Proof.
  intros Hcur Hrow. unfold completion_row in Hrow. cbv zeta in Hrow.
  apply andb_true_iff in Hrow. destruct Hrow as [Hrow Hdash].
  apply andb_true_iff in Hrow. destruct Hrow as [Hrow Hhead].
  apply andb_true_iff in Hrow. destruct Hrow as [Hrow Hamt].
  apply andb_true_iff in Hrow. destruct Hrow as [Hoper Hliq].
  apply negb_true_iff in Hdash, Hhead, Hoper, Hliq.
  unfold BBVA.step_row. cbv zeta.
  rewrite Hhead, Hdash, Hoper, Hliq, Hamt. cbn [negb andb orb].
  rewrite Hcur.
  match goal with
  | |- context [if nonempty ?p then _ else _] => destruct (nonempty p) eqn:Ep
  end.
  - eexists. split; [|cbn [bind BBVA.set_current BBVA.current]; reflexivity].
    unfold same_but_desc, BBVA.append_desc, BBVA.with_desc. cbn. repeat split.
  - exists c. split; [unfold same_but_desc; repeat split|].
    cbn [bind]. rewrite Hcur. reflexivity.
Qed.

Lemma santander_page_end_flushes (L : Santander.ledger) (cur : option Santander.TxRow)
      (pg : page) (L' : Santander.ledger) (cur' : option Santander.TxRow) :
  Santander.run_page L cur pg = Ok (L', cur') -> cur' = None.
Proof.
  unfold Santander.run_page.
  destruct (Santander._detect_columns _ _) as [bounds header_y].
  destruct (Santander.run_rows _ _ _) as [st|e]; cbn [bind]; [|discriminate].
  intros H. injection H as _ H. symmetry. exact H.
Qed.

Lemma santander_undated_row_without_movement (bounds : list (Q * Q)) (st : Santander.state)
      (r : list word) :
  Santander.st_current st = None ->
  undated_row bounds r = true ->
  Santander.step_row bounds st r = Ok st.
Proof.
  intros Hcur Hrow. unfold undated_row in Hrow. unfold Santander.step_row.
  destruct (Santander._row_section_marker r); [discriminate|]. cbv zeta.
  apply negb_true_iff in Hrow. rewrite Hrow, Hcur.
  destruct (Santander.skipped_row _); reflexivity.
Qed.

(** C5 (amended). In the BBVA extractor the end of a page does not flush the
    open movement: the page loop hands on the list of movements and the open
    movement exactly as the last row left them, and a following row without
    date that carries amounts updates that same movement without adding a
    transaction; when only "cargos" was filled and the row brings the
    balance, the movement ends with both.  In the Santander extractor the
    open movement is flushed at the end of every page, and a row without
    date on a page where no movement is open changes nothing. *)
Theorem open_movement_across_pages :
  forall (year_hint : Z),
    (forall st pg st1,
        BBVA.skipped_page pg = false ->
        BBVA.run_page year_hint st pg = Ok st1 ->
        exists s saw,
          BBVA.run_rows year_hint (fst (BBVA.page_rows pg)) st (snd (BBVA.page_rows pg))
          = Ok (s, saw)
          /\ BBVA.txs st1 = BBVA.txs s /\ BBVA.current st1 = BBVA.current s)
    /\ (forall bounds st c r,
          BBVA.current st = Some c ->
          completion_row bounds r = true ->
          exists c0,
            same_but_desc c0 c
            /\ BBVA.step_row year_hint bounds st r
               = Ok (BBVA.set_current st
                       (Some (BBVA.take_amounts c0
                                (nth 4 (BBVA._assign_cols r bounds) [])
                                (nth 5 (BBVA._assign_cols r bounds) [])
                                (nth 6 (BBVA._assign_cols r bounds) [])
                                (nth 7 (BBVA._assign_cols r bounds) [])))))
    /\ (forall c sop,
          Qis_zero (BBVA.cargos c) = false ->
          nonempty sop = true -> nonempty (strip sop) = true ->
          BBVA.take_amounts c [] [] sop []
          = BBVA.mk_tx (BBVA.f_oper c) (BBVA.f_liq c) (BBVA.desc c) (BBVA.cargos c)
                       (BBVA.abonos c) (Some (BBVA.amount_of sop)) (BBVA.s_liq c))
    /\ (forall L cur pg L' cur',
          Santander.run_page L cur pg = Ok (L', cur') -> cur' = None)
    /\ (forall bounds st r,
          Santander.st_current st = None ->
          undated_row bounds r = true ->
          Santander.step_row bounds st r = Ok st).
Proof.
  intros year_hint. split; [|split; [|split; [|split]]].
  - intros st pg st1 Hskip Hrun. unfold BBVA.run_page in Hrun. rewrite Hskip in Hrun.
    destruct (BBVA.page_rows pg) as [bounds rows]. cbn [fst snd].
    destruct (BBVA.run_rows year_hint bounds st rows) as [[s saw]|e]; cbn [bind] in Hrun;
      [|discriminate].
    injection Hrun as <-. exists s, saw. repeat split.
  - intros bounds st c r. apply bbva_completion_step.
  - intros c sop. apply bbva_take_amounts_balance.
  - intros L cur pg L' cur'. apply santander_page_end_flushes.
  - intros bounds st r. apply santander_undated_row_without_movement.
Qed.

Lemma open_movement_across_pages_witness :
  (exists c0,
      same_but_desc c0 (BBVA.mk_tx (Some (mk_date 2024 1 3)) None (U "PAGO X") 100 0 None None)
      /\ BBVA.step_row 2024 (fst (BBVA.page_rows Pages.bbva_page_next)) bbva_after_open
                       Pages.bbva_row_balance
         = Ok (BBVA.set_current bbva_after_open
                 (Some (BBVA.take_amounts c0 [] [] (U "900.00") []))))
  /\ BBVA.take_amounts (BBVA.mk_tx (Some (mk_date 2024 1 3)) None (U "PAGO X") 100 0 None None)
                       [] [] (U "900.00") []
     = BBVA.mk_tx (Some (mk_date 2024 1 3)) None (U "PAGO X") 100 0 (Some 900) None
  /\ exists t1 t2,
       BBVA.movements 2024 [Pages.bbva_page_open; Pages.bbva_page_next] = Ok [t1; t2]
       /\ BBVA.cargos t1 = 100 /\ BBVA.s_oper t1 = Some 900.
Proof.
  destruct (open_movement_across_pages 2024) as (_ & H2 & H3 & _ & _).
  split; [|split].
  - apply (H2 (fst (BBVA.page_rows Pages.bbva_page_next)) bbva_after_open
              (BBVA.mk_tx (Some (mk_date 2024 1 3)) None (U "PAGO X") 100 0 None None)
              Pages.bbva_row_balance); vm_compute; reflexivity.
  - apply (H3 (BBVA.mk_tx (Some (mk_date 2024 1 3)) None (U "PAGO X") 100 0 None None)
              (U "900.00")); vm_compute; reflexivity.
  - eexists. eexists. split; [vm_compute; reflexivity|]. split; reflexivity.
Defined.

(** C5, the claim as worded: in the Santander extractor a movement opened on
    one page is flushed when the page ends; the balance 900.00 that the next
    page supplies is ignored, and the document gives the same ledger as its
    first page alone. *)
Lemma santander_does_not_carry_open_movement :
  exists t,
    Santander.movements [Pages.sant_page_open; Pages.sant_page_next]
    = Ok (Santander.mk_ledger [t] [])
    /\ Santander.movements [Pages.sant_page_open] = Ok (Santander.mk_ledger [t] [])
    /\ Santander.retiro t = 100
    /\ Santander.saldo t <> Some 900.
Proof.
  eexists. split; [vm_compute; reflexivity|]. split; [vm_compute; reflexivity|].
  split; [reflexivity|]. cbn. discriminate.
Qed.

(** ** The matcher is sound for the language of its pattern *)

Import Alphabet.

Lemma rep_loop_consumes (R : Type) (a : Re.re) (body : Re.matcher R) (greedy g : bool)
      (k : Re.kont R) :
  consumes (Matches a) body ->
  forall fuel lo hi prev pos s cs res,
    Re.rep_loop body greedy k fuel lo hi prev pos s cs = Some res ->
    exists consumed s' p' c',
      s = consumed ++ s' /\ Matches (Re.Rep a lo hi g) consumed
      /\ k p' (pos + length consumed)%nat s' c' = Some res.
Proof.
  intros Hbody. induction fuel as [|fuel IH]; intros lo hi prev pos s cs res H;
    [discriminate|].
  cbn [Re.rep_loop] in H.
  set (more := if Re.hi_is_zero hi then None
               else body prev pos s cs
                      (fun p' i' s' c' =>
                         if Nat.eqb i' pos && Nat.eqb lo 0 then None
                         else Re.rep_loop body greedy k fuel (Nat.pred lo)
                                          (option_map Nat.pred hi) p' i' s' c')) in *.
  assert (Hmore : more = Some res ->
                  exists consumed s' p' c',
                    s = consumed ++ s' /\ Matches (Re.Rep a lo hi g) consumed
                    /\ k p' (pos + length consumed)%nat s' c' = Some res).
  { subst more. destruct (Re.hi_is_zero hi) eqn:Ehi; [discriminate|]. intros Hm.
    apply Hbody in Hm. destruct Hm as (c1 & s1 & p1 & cs1 & Hs & Hx & Hk).
    destruct (Nat.eqb (pos + length c1) pos && Nat.eqb lo 0); [discriminate|].
    apply IH in Hk. destruct Hk as (c2 & s2 & p2 & cs2 & Hs2 & Hx2 & Hk2).
    exists (c1 ++ c2), s2, p2, cs2. split; [|split].
    - rewrite Hs, Hs2, app_assoc. reflexivity.
    - apply M_rep_more; assumption.
    - rewrite length_app, Nat.add_assoc. exact Hk2. }
  destruct (Nat.ltb 0 lo) eqn:Elo; [apply Hmore; exact H|].
  assert (Hstop : k prev pos s cs = Some res ->
                  exists consumed s' p' c',
                    s = consumed ++ s' /\ Matches (Re.Rep a lo hi g) consumed
                    /\ k p' (pos + length consumed)%nat s' c' = Some res).
  { intros Hk. exists [], s, prev, cs. cbn. rewrite Nat.add_0_r.
    apply Nat.ltb_ge in Elo. assert (lo = 0)%nat by lia. subst lo.
    repeat split; [constructor|exact Hk]. }
  destruct greedy; unfold Re.orelse in H.
  - destruct more; [apply Hmore; exact H|apply Hstop; exact H].
  - destruct (k prev pos s cs); [apply Hstop; exact H|apply Hmore; exact H].
Qed.

Lemma mt_consumes (R : Type) (r : Re.re) : consumes (Matches r) (@Re.mt R r).
Proof.
  induction r as [|ic cset|a IHa b IHb|a IHa b IHb|a IHa lo hi greedy|n a IHa|ml|ml|];
    intros prev pos s cs k res H; cbn [Re.mt] in *.
  - exists [], s, prev, cs. cbn. rewrite Nat.add_0_r. repeat split; [constructor|exact H].
  - destruct s as [|c s']; [discriminate|].
    destruct (Re.cset_mem ic cset c) eqn:E; [|discriminate].
    exists [c], s', (Some c), cs. cbn. rewrite Nat.add_1_r.
    repeat split; [constructor; exact E|exact H].
  - apply IHa in H. destruct H as (c1 & s1 & p1 & cs1 & Hs & Hx & Hk).
    apply IHb in Hk. destruct Hk as (c2 & s2 & p2 & cs2 & Hs2 & Hx2 & Hk2).
    exists (c1 ++ c2), s2, p2, cs2. split; [|split].
    + rewrite Hs, Hs2, app_assoc. reflexivity.
    + constructor; assumption.
    + rewrite length_app, Nat.add_assoc. exact Hk2.
  - unfold Re.orelse in H.
    destruct (@Re.mt R a prev pos s cs k) eqn:E.
    + rewrite <- H in *. apply IHa in E. injection H as <-.
      destruct E as (c1 & s1 & p1 & cs1 & Hs & Hx & Hk).
      exists c1, s1, p1, cs1. repeat split; [exact Hs|apply M_alt_l; exact Hx|exact Hk].
    + apply IHb in H. destruct H as (c1 & s1 & p1 & cs1 & Hs & Hx & Hk).
      exists c1, s1, p1, cs1. repeat split; [exact Hs|apply M_alt_r; exact Hx|exact Hk].
  - apply (@rep_loop_consumes R a (@Re.mt R a) greedy greedy k IHa) in H. exact H.
  - apply IHa in H. destruct H as (c1 & s1 & p1 & cs1 & Hs & Hx & Hk).
    exists c1, s1, p1, ((n, (pos, (pos + length c1)%nat)) :: cs1).
    repeat split; [exact Hs|constructor; exact Hx|exact Hk].
  - destruct (Re.at_bol ml prev); [|discriminate].
    exists [], s, prev, cs. cbn. rewrite Nat.add_0_r. repeat split; [constructor|exact H].
  - destruct (Re.at_eol ml s); [|discriminate].
    exists [], s, prev, cs. cbn. rewrite Nat.add_0_r. repeat split; [constructor|exact H].
  - destruct (Re.at_word_boundary prev s); [|discriminate].
    exists [], s, prev, cs. cbn. rewrite Nat.add_0_r. repeat split; [constructor|exact H].
Qed.

Lemma match_here_consumes (r : Re.re) (prev : option char) (pos : nat)
      (s : str) (m : Re.rmatch) :
  Re.match_here r prev pos s = Some m ->
  exists consumed s',
    s = consumed ++ s' /\ Matches r consumed
    /\ Re.m_start m = pos /\ Re.m_end m = (pos + length consumed)%nat.
Proof.
  intros H. unfold Re.match_here in H.
  apply (@mt_consumes Re.rmatch r) in H.
  destruct H as (c1 & s1 & p1 & cs1 & Hs & Hx & Hk). injection Hk as <-.
  exists c1, s1. auto.
Qed.

Lemma search_from_consumes (r : Re.re) :
  forall (s : str) (prev : option char) (pos : nat) (m : Re.rmatch),
    Re.search_from r prev pos s = Some m ->
    exists skipped consumed s',
      s = skipped ++ consumed ++ s' /\ Matches r consumed
      /\ Re.m_start m = (pos + length skipped)%nat
      /\ Re.m_end m = (Re.m_start m + length consumed)%nat.
Proof.
  induction s as [|c s IH]; intros prev pos m H; cbn [Re.search_from] in H.
  - destruct (Re.match_here r prev pos []) eqn:E; [|discriminate]. injection H as ->.
    apply match_here_consumes in E.
    destruct E as (c1 & s1 & Hs & Hx & Hst & Hen).
    exists [], c1, s1. cbn. rewrite Nat.add_0_r, Hst. auto.
  - destruct (Re.match_here r prev pos (c :: s)) eqn:E.
    + injection H as ->.
      apply match_here_consumes in E.
      destruct E as (c1 & s1 & Hs & Hx & Hst & Hen).
      exists [], c1, s1. cbn. rewrite Nat.add_0_r, Hst. auto.
    + apply IH in H. destruct H as (sk & c1 & s1 & Hs & Hx & Hst & Hen).
      exists (c :: sk), c1, s1. cbn. rewrite Hs.
      repeat split; try assumption. rewrite Hst. lia.
Qed.

Lemma group0_of_search (r : Re.re) (whole : str) (pos : nat) (m : Re.rmatch) :
  Re.search_from r (Re.char_before pos whole) pos (skipn pos whole) = Some m ->
  Matches r (Re.group0 whole m).
Proof.
  intros H. apply search_from_consumes in H.
  destruct H as (sk & c1 & s1 & Hs & Hx & Hst & Hen).
  unfold Re.group0, slice. rewrite Hen, Hst.
  replace (pos + length sk + length c1 - (pos + length sk))%nat with (length c1) by lia.
  rewrite (Nat.add_comm pos), <- skipn_skipn, Hs.
  rewrite skipn_app, Nat.sub_diag, skipn_all. cbn [skipn app].
  rewrite firstn_app, Nat.sub_diag, firstn_all. cbn [firstn]. rewrite app_nil_r. exact Hx.
Qed.

(** Every match found by [finditer] is a text of the pattern's language. *)
Lemma finditer_matches (r : Re.re) (s : str) (m : Re.rmatch) :
  In m (Re.finditer r s) -> Matches r (Re.group0 s m).
Proof.
  unfold Re.finditer. generalize (S (S (length s))) as fuel. generalize 0%nat as pos.
  intros pos fuel. revert pos. induction fuel as [|fuel IH]; intros pos Hin; [destruct Hin|].
  cbn [Re.finditer_fuel] in Hin.
  destruct (Nat.ltb (length s) pos); [destruct Hin|].
  destruct (Re.search_from r (Re.char_before pos s) pos (skipn pos s)) as [m0|] eqn:E;
    [|destruct Hin].
  destruct Hin as [<- | Hin].
  - apply (@group0_of_search r s pos _ E).
  - apply IH in Hin. exact Hin.
Qed.

Lemma matches_excludes (x : char) (r : Re.re) (u : str) :
  Matches r u -> excludes x r = true -> ~ In x u.
Proof.
  induction 1 as [|ic cs c Hc|a b u v _ IHa _ IHb|a b u _ IH|a b u _ IH|a hi g
                  |a lo hi g u v Hhi _ IHa _ IHr|n a u _ IH|ml|ml|];
    cbn [excludes]; intros Hex.
  - intros H; exact H.
  - intros [<- | H]; [|exact H]. apply negb_true_iff in Hex. congruence.
  - apply andb_true_iff in Hex. rewrite in_app_iff. intros [H | H];
      [apply IHa in H|apply IHb in H]; tauto.
  - apply andb_true_iff in Hex. apply IH. tauto.
  - apply andb_true_iff in Hex. apply IH. tauto.
  - intros H; exact H.
  - rewrite in_app_iff. intros [H | H]; [apply IHa in H|apply IHr in H]; tauto.
  - apply IH. exact Hex.
  - intros H; exact H.
  - intros H; exact H.
  - intros H; exact H.
Qed.

Lemma finditer_excludes (x : char) (r : Re.re) (s : str) (m : Re.rmatch) :
  excludes x r = true ->
  In m (Re.finditer r s) -> ~ In x (Re.group0 s m).
Proof.
  intros Hex Hin. apply (@matches_excludes x r); [|exact Hex].
  apply finditer_matches. exact Hin.
Qed.

(** ** Amounts read from a text without a minus sign are not negative *)

Lemma in_skipn {A : Type} (c : A) (n : nat) (l : list A) : In c (skipn n l) -> In c l.
Proof.
  revert l. induction n as [|n IH]; intros l H; [exact H|].
  destruct l as [|y l]; [exact H|]. right. apply IH. exact H.
Qed.

Lemma in_firstn {A : Type} (c : A) (n : nat) (l : list A) : In c (firstn n l) -> In c l.
Proof.
  revert l. induction n as [|n IH]; intros l H; [destruct H|].
  destruct l as [|y l]; [exact H|]. destruct H as [<- | H]; [left; reflexivity|].
  right. apply IH. exact H.
Qed.

Lemma replace_fuel_in (c : char) (old new : str) (fuel : nat) (s : str) :
  In c (replace_fuel fuel old new s) -> In c new \/ In c s.
Proof.
  revert s. induction fuel as [|fuel IH]; intros s H; cbn [replace_fuel] in H; [right; exact H|].
  destruct s as [|y s']; [destruct H|].
  destruct (startswith old (y :: s')).
  - apply in_app_or in H. destruct H as [H | H]; [left; exact H|].
    apply IH in H. destruct H as [H | H]; [left; exact H|].
    right. apply in_skipn in H. exact H.
  - destruct H as [<- | H]; [right; left; reflexivity|].
    apply IH in H. destruct H as [H | H]; [left; exact H|right; right; exact H].
Qed.

Lemma replace_in (c : char) (old new s : str) :
  In c (replace old new s) -> In c new \/ In c s.
Proof.
  unfold replace. destruct old; [right; assumption|]. apply replace_fuel_in.
Qed.

Lemma lstrip_by_in (p : char -> bool) (c : char) (s : str) :
  In c (lstrip_by p s) -> In c s.
Proof.
  induction s as [|y s IH]; cbn; [auto|].
  destruct (p y); [intros H; right; apply IH; exact H|auto].
Qed.

Lemma strip_by_in (p : char -> bool) (c : char) (s : str) :
  In c (strip_by p s) -> In c s.
Proof.
  unfold strip_by, rstrip_by. intros H.
  apply in_rev, lstrip_by_in, in_rev in H. apply lstrip_by_in in H. exact H.
Qed.

Lemma rstrip_in (c : char) (s : str) : In c (rstrip s) -> In c s.
Proof.
  unfold rstrip, rstrip_by. intros H. apply in_rev, lstrip_by_in, in_rev in H. exact H.
Qed.

Lemma cleaned_in (c : char) (s : str) : In c (cleaned s) -> c = 32%N \/ In c s.
Proof.
  unfold cleaned. intros H.
  apply replace_in in H. destruct H as [[] | H].
  apply replace_in in H. destruct H as [[] | H].
  apply replace_in in H. destruct H as [[] | H].
  apply replace_in in H. destruct H as [[<- | []] | H]; [left; reflexivity|right; exact H].
Qed.

Lemma digits_value_nonneg (ds : list char) : (0 <= digits_value ds)%Z.
Proof.
  unfold digits_value.
  assert (H : forall acc, (0 <= acc)%Z ->
                (0 <= fold_left (fun acc c => 10 * acc + Z.of_N (c - 48)) ds acc)%Z).
  { induction ds as [|d ds IH]; intros acc Hacc; cbn [fold_left]; [exact Hacc|].
    apply IH. lia. }
  apply H. lia.
Qed.

Lemma scale10_nonneg (m e : Z) : (0 <= m)%Z -> 0 <= scale10 m e.
Proof.
  intros Hm. unfold scale10. destruct (0 <=? e)%Z eqn:E.
  - apply Z.leb_le in E. rewrite <- (Zle_Qle 0). apply Z.mul_nonneg_nonneg; [exact Hm|].
    apply Z.pow_nonneg. lia.
  - rewrite Qred_correct. unfold Qle. cbn. lia.
Qed.

Lemma sign_of_without_minus (s : str) :
  ~ In c_minus s -> fst (sign_of s) = 1%Z.
Proof.
  intros H. unfold sign_of. destruct s as [|c s]; [reflexivity|].
  destruct (c =? 45)%N eqn:E.
  - apply N.eqb_eq in E. subst c. exfalso. apply H. left. reflexivity.
  - destruct (c =? 43)%N; reflexivity.
Qed.

Lemma float_of_str_nonneg (text : str) (v : Q) :
  ~ In c_minus text -> float_of_str text = Ok v -> 0 <= v.
Proof.
  intros Hm. unfold float_of_str.
  assert (Hs : ~ In c_minus (strip_by is_float_space text)).
  { intros H. apply Hm. apply strip_by_in in H. exact H. }
  pose proof (sign_of_without_minus (strip_by is_float_space text) Hs) as Hsg.
  destruct (sign_of (strip_by is_float_space text)) as [sg s1]. cbn [fst] in Hsg. subst sg.
  destruct (number s1) as [[[ip fp] r]|]; [|discriminate].
  assert (Hd : (0 <= 1 * digits_value (ip ++ fp))%Z).
  { pose proof (digits_value_nonneg (ip ++ fp)). lia. }
  destruct r as [|c r].
  - intros H. injection H as <-. apply scale10_nonneg. exact Hd.
  - destruct (exponent (c :: r)) as [[e [|? ?]]|]; try discriminate.
    intros H. injection H as <-. apply scale10_nonneg. exact Hd.
Qed.

Lemma amount_nonneg (t : str) :
  ~ In c_minus t -> 0 <= value (norm_amount 0 float_of_str (Some t)).
Proof.
  intros Hm. unfold norm_amount, try_except.
  destruct (negb (nonempty t)); [cbn; lra|].
  destruct (float_of_str (cleaned t)) as [v|e] eqn:E; cbn [value]; [|lra].
  apply (@float_of_str_nonneg (cleaned t) v); [|exact E].
  intros H. apply cleaned_in in H. destruct H as [H | H]; [discriminate H|].
  apply Hm. exact H.
Qed.

(** No character class of the monetary grammar accepts a minus sign. *)
Lemma amount_patterns_exclude_minus :
  excludes c_minus Santander.AMOUNT_RE = true
  /\ excludes c_minus Banorte._AMOUNT_RE = true
  /\ excludes c_minus Banorte._AMT_CORE_RE = true
  /\ excludes c_minus BBVA.AMOUNT_RE = true.
Proof. vm_compute. repeat split. Qed.

(** ** The invariant on amounts along the Santander loop *)

Import Invariant.

Lemma santander_match_nonneg (s : str) (m : Re.rmatch) :
  In m (Re.finditer Santander.AMOUNT_RE s) -> 0 <= Santander.amount_of (Re.group0 s m).
Proof.
  intros H. apply amount_nonneg.
  apply (@finditer_excludes c_minus Santander.AMOUNT_RE s m); [|exact H].
  apply amount_patterns_exclude_minus.
Qed.

Lemma last_cons {A : Type} (l : list A) (x d : A) : last (x :: l) d = last l x.
Proof.
  revert x d. induction l as [|y l IH]; intros x d; [reflexivity|].
  change (last (x :: y :: l) d) with (last (y :: l) d).
  rewrite (IH y d), (IH y x). reflexivity.
Qed.

Lemma santander_amount_matches_in (s : str) (m : Re.rmatch) :
  In m (Santander.amount_matches s) -> In m (Re.finditer Santander.AMOUNT_RE s).
Proof.
  unfold Santander.amount_matches. destruct (Re.found _ _); [|auto].
  intros H. apply filter_In in H. apply H.
Qed.

(** A property of [0.0] and of every amount read from a monetary match holds
    of every amount the Santander loop hands to the reconciliation. *)
Section AmountValues.
Variable P : Q -> Prop.
Hypothesis P_zero : P 0.
Hypothesis P_match :
  forall s m, In m (Re.finditer Santander.AMOUNT_RE s) ->
              P (Santander.amount_of (Re.group0 s m)).

Lemma santander_pick_amount_all (s : str) (prefer_first : bool) :
  opt_all P (Santander._pick_amount s prefer_first).
Proof.
  unfold Santander._pick_amount. destruct (negb (nonempty s)); [exact I|].
  set (t := strip (replace [c_nbsp] (U " ") s)).
  destruct (str_eqb t (U "0") || str_eqb t (U "0.0") || str_eqb t (U "0.00"));
    [exact P_zero|].
  unfold Re.findall.
  destruct (Re.finditer Santander.AMOUNT_RE t) as [|m0 rest] eqn:E; [exact I|].
  cbn [map opt_all].
  assert (Hall : forall m, In m (m0 :: rest) -> P (Santander.amount_of (Re.group0 t m))).
  { intros m Hm. apply P_match. rewrite E. exact Hm. }
  destruct prefer_first; [apply Hall; left; reflexivity|].
  assert (Hl : exists m, In m (m0 :: rest)
                         /\ last (map (Re.group0 t) rest) (Re.group0 t m0) = Re.group0 t m).
  { clear. revert m0. induction rest as [|m1 rest IH]; intros m0.
    - exists m0. split; [left; reflexivity|reflexivity].
    - destruct (IH m1) as (m & Hin & Hm). exists m. split; [right; exact Hin|].
      cbn [map]. rewrite last_cons. exact Hm. }
  destruct Hl as (m & Hin & ->). apply Hall. exact Hin.
Qed.

Lemma santander_tail_run_all (line : str) (maxn : nat) :
  Forall P (snd (Santander._extract_tail_run line maxn)).
Proof.
  unfold Santander._extract_tail_run. set (s := Santander.tail_line line).
  destruct (Santander.tail_matches s maxn) as [[cur_start tail]|] eqn:E; [|constructor].
  cbn [snd]. apply Forall_map.
  apply (@tail_matches_Forall _ s maxn cur_start tail); [|exact E].
  apply Forall_forall. intros m Hm.
  apply P_match, santander_amount_matches_in. exact Hm.
Qed.

Lemma santander_classify_all (desc_upper : str) (monto : Q) :
  P monto ->
  P (fst (Santander._classify_by_keywords desc_upper monto))
  /\ P (snd (Santander._classify_by_keywords desc_upper monto)).
Proof.
  intros H. unfold Santander._classify_by_keywords.
  destruct (Qis_zero monto); [split; exact P_zero|].
  destruct (Santander._has_tokens _ _); [split; [exact P_zero|exact H]|].
  destruct (Santander._has_tokens _ _); split; first [exact P_zero|exact H].
Qed.

Lemma santander_tail_amounts_all (desc_for_kw row_txt : str) (tail : list Q) :
  Forall P tail ->
  opt_all P (fst (fst (Santander.tail_amounts desc_for_kw row_txt tail)))
  /\ opt_all P (snd (fst (Santander.tail_amounts desc_for_kw row_txt tail))).
Proof.
  intros H. unfold Santander.tail_amounts.
  destruct tail as [|t0 [|t1 [|t2 [|t3 rest]]]]; try (split; exact I).
  - assert (Ht0 : P t0) by (inversion H; assumption).
    pose proof (@santander_classify_all (upper desc_for_kw) t0 Ht0) as [Hw Hd].
    destruct (Santander._has_total_or_final row_txt); [|split; exact I].
    destruct (Santander._classify_by_keywords _ _) as [wv dv].
    split; [exact Hd|exact Hw].
  - assert (Ht0 : P t0) by (inversion H; assumption).
    pose proof (@santander_classify_all (upper desc_for_kw) t0 Ht0) as [Hw Hd].
    destruct (Santander._classify_by_keywords _ _) as [wv dv].
    split; [exact Hd|exact Hw].
  - assert (Ht0 : P t0) by (inversion H; assumption).
    assert (Ht1 : P t1) by (inversion H as [|? ? ? H']; inversion H'; assumption).
    split; [exact Ht0|exact Ht1].
Qed.

Lemma santander_column_amounts_all (dep_raw ret_raw saldo_raw row_txt : str)
      (tail : list Q) :
  opt_all P (fst (fst (Santander.column_amounts dep_raw ret_raw saldo_raw row_txt tail)))
  /\ opt_all P (snd (fst (Santander.column_amounts dep_raw ret_raw saldo_raw row_txt tail))).
Proof.
  unfold Santander.column_amounts.
  destruct (Santander._has_total_or_final row_txt || Nat.leb 2 (length tail));
    [split; exact I|].
  cbn [fst snd]. split; apply santander_pick_amount_all.
Qed.

Lemma get_or_all (col fb : option Q) :
  opt_all P col -> opt_all P fb ->
  P (Santander.get_or col (or_zero (Santander.get_or fb 0))).
Proof.
  intros Hc Hf. destruct col as [v|]; [exact Hc|].
  cbn [Santander.get_or]. unfold or_zero.
  destruct (Qis_zero _); [exact P_zero|].
  destruct fb as [v|]; [exact Hf|exact P_zero].
Qed.

(** The amounts a row with a date hands to the reconciliation. *)
Lemma santander_open_inputs_all (cols : list str) (row_txt : str) :
  P (snd (fst (fst (Santander.open_inputs cols row_txt))))
  /\ P (snd (fst (Santander.open_inputs cols row_txt))).
Proof.
  unfold Santander.open_inputs. cbv zeta.
  pose proof (santander_tail_run_all (Santander.line_wo_date row_txt) 3) as Htail.
  destruct (Santander._extract_tail_run _ _) as [desc_fb tail]. cbn [snd] in Htail.
  pose proof (@santander_tail_amounts_all desc_fb row_txt tail Htail) as [Hd Hr].
  destruct (Santander.tail_amounts desc_fb row_txt tail) as [[dep_fb ret_fb] sal_fb].
  pose proof (santander_column_amounts_all (nth 3 cols []) (nth 4 cols [])
                (nth 5 cols []) row_txt tail) as [Hcd Hcr].
  destruct (Santander.column_amounts _ _ _ _ _) as [[dep_col ret_col] sal_col].
  cbn [fst snd] in *. split; apply get_or_all; assumption.
Qed.

(** The amounts a row without date hands to the reconciliation, when the
    open movement's amounts have the property. *)
Lemma santander_money_inputs_all (cur : Santander.TxRow) (cols : list str) (row_txt : str) :
  P (Santander.deposito cur) -> P (Santander.retiro cur) ->
  P (fst (fst (fst (Santander.money_inputs cur cols row_txt))))
  /\ P (snd (fst (fst (Santander.money_inputs cur cols row_txt)))).
Proof.
  intros Hd0 Hr0. unfold Santander.money_inputs. cbv zeta.
  pose proof (santander_tail_run_all (Santander._cut_after_totals row_txt) 3) as Htail.
  destruct (Santander._extract_tail_run _ _) as [desc_fb tail]. cbn [snd] in Htail.
  pose proof (@santander_tail_amounts_all
                (Santander.str_or desc_fb (Santander.desc cur)) row_txt tail Htail) as [Hd Hr].
  destruct (Santander.tail_amounts _ row_txt tail) as [[dep_v ret_v] sal_v].
  pose proof (santander_column_amounts_all (nth 3 cols []) (nth 4 cols [])
                (nth 5 cols []) row_txt tail) as [Hcd Hcr].
  destruct (Santander.column_amounts _ _ _ _ _) as [[dep_col ret_col] sal_col].
  cbn [fst snd] in *. split.
  - destruct (Santander.or_else dep_col dep_v); [|exact Hd0].
    apply get_or_all; assumption.
  - destruct (Santander.or_else ret_col ret_v); [|exact Hr0].
    apply get_or_all; assumption.
Qed.

End AmountValues.

Lemma reconcile_pair_ok (desc : str) (dep ret dv rv : Q) :
  0 <= dep -> 0 <= ret ->
  Santander._reconcile_amounts desc dep ret = (dv, rv) ->
  amounts_ok rv dv.
Proof.
  intros Hd Hr E. pose proof (@reconcile_amounts_ok desc dep ret Hd Hr) as H.
  rewrite E in H. exact H.
Qed.

Lemma Qle_zero_zero : 0 <= 0.
Proof. apply Qle_refl. Qed.

Lemma santander_open_row_ok (cols : list str) (row_txt : str) (t : Santander.TxRow) :
  Santander.open_row cols row_txt = Ok t -> santander_tx_ok t.
Proof.
  unfold Santander.open_row. cbv zeta.
  destruct (Santander._parse_ddmonyyyy _) as [f|e]; cbn [bind]; [|discriminate].
  pose proof (@santander_open_inputs_all (fun v => 0 <= v) Qle_zero_zero
                santander_match_nonneg cols row_txt) as [Hd Hr].
  destruct (Santander.open_inputs cols row_txt) as [[[desc_txt dep_in] ret_in] sal].
  cbn [fst snd] in Hd, Hr.
  destruct (Santander._reconcile_amounts _ _ _) as [dv rv] eqn:E.
  intros H. injection H as <-. unfold santander_tx_ok. cbn [Santander.retiro Santander.deposito].
  apply (@reconcile_pair_ok _ _ _ _ _ Hd Hr E).
Qed.

Lemma santander_money_row_ok (cur : Santander.TxRow) (cols : list str) (row_txt : str) :
  santander_tx_ok cur -> santander_tx_ok (Santander.money_row cur cols row_txt).
Proof.
  intros (Hr0 & Hd0 & _). unfold Santander.money_row.
  pose proof (@santander_money_inputs_all (fun v => 0 <= v) Qle_zero_zero
                santander_match_nonneg cur cols row_txt Hd0 Hr0) as [Hd Hr].
  destruct (Santander.money_inputs cur cols row_txt) as [[[dep1 ret1] sal1] desc2].
  cbn [fst snd] in Hd, Hr.
  destruct (Santander._reconcile_amounts _ _ _) as [dv rv] eqn:E.
  unfold santander_tx_ok. cbn [Santander.retiro Santander.deposito].
  apply (@reconcile_pair_ok _ _ _ _ _ Hd Hr E).
Qed.

Lemma santander_continue_row_ok (cur : Santander.TxRow) (cols : list str) (row_txt : str) :
  santander_tx_ok cur -> santander_tx_ok (Santander.continue_row cur cols row_txt).
Proof.
  intros H. unfold Santander.continue_row. cbv zeta.
  destruct (nonempty _ && negb _); exact H.
Qed.

Lemma santander_flush_ok (cur : option Santander.TxRow) (sec : option Santander.section_key)
      (L : Santander.ledger) :
  ledger_ok L -> (forall c, cur = Some c -> santander_tx_ok c) ->
  ledger_ok (Santander.flush_current cur sec L).
Proof.
  intros [H1 H2] Hc. unfold Santander.flush_current.
  destruct cur as [c|]; [|split; assumption].
  destruct sec as [sec|]; [|split; assumption].
  destruct (Hc c eq_refl) as (Hr & Hd & _).
  destruct (Santander._reconcile_amounts _ _ _) as [dv rv] eqn:E.
  assert (Hok : santander_tx_ok (Santander.with_amounts c dv rv)).
  { unfold santander_tx_ok. cbn.
    apply (fun H1 H2 => @reconcile_pair_ok _ _ _ _ _ H1 H2 E); assumption. }
  destruct sec; split; cbn; try assumption; apply Forall_app; split; auto.
Qed.

Lemma santander_step_row_ok (bounds : list (Q * Q)) (st st' : Santander.state)
      (r : list word) :
  state_ok st -> Santander.step_row bounds st r = Ok st' -> state_ok st'.
Proof.
  intros [HL Hc]. unfold Santander.step_row.
  destruct (Santander._row_section_marker r).
  - intros H. injection H as <-. split; cbn; [|discriminate].
    apply santander_flush_ok; assumption.
  - cbv zeta. destruct (Santander.skipped_row _); [intros H; injection H as <-; split; assumption|].
    destruct (Re.found Santander.DATE_TOKEN_SANT _).
    + destruct (Santander.open_row _ _) as [t|e] eqn:E; cbn [bind]; [|discriminate].
      intros H. injection H as <-. split; cbn.
      * apply santander_flush_ok; assumption.
      * intros c H. injection H as <-. apply (@santander_open_row_ok _ _ _ E).
    + destruct (Santander.st_current st) as [cur|] eqn:Ecur;
        [|intros H; injection H as <-; split; [assumption|rewrite Ecur; discriminate]].
      specialize (Hc cur eq_refl).
      destruct (negb _).
      * destruct (nonempty _ || nonempty _ || nonempty _); intros H; injection H as <-.
        -- split; cbn; [assumption|]. intros c H. injection H as <-.
           apply santander_continue_row_ok. exact Hc.
        -- split; [assumption|]. rewrite Ecur. intros c H. injection H as <-. exact Hc.
      * intros H. injection H as <-. split; cbn; [assumption|].
        intros c H. injection H as <-. apply santander_money_row_ok. exact Hc.
Qed.

Lemma santander_run_rows_ok (bounds : list (Q * Q)) (rows : list (list word)) :
  forall st st', state_ok st -> Santander.run_rows bounds st rows = Ok st' -> state_ok st'.
Proof.
  induction rows as [|r rows IH]; intros st st' Hst; cbn [Santander.run_rows].
  - intros H. injection H as <-. exact Hst.
  - destruct (Santander.step_row bounds st r) as [st1|e] eqn:E; cbn [bind]; [|discriminate].
    apply IH. apply (@santander_step_row_ok _ _ _ _ Hst E).
Qed.

Lemma santander_run_pages_ok (pages : list page) :
  forall L cur L',
    ledger_ok L -> (forall c, cur = Some c -> santander_tx_ok c) ->
    Santander.run_pages L cur pages = Ok L' -> ledger_ok L'.
Proof.
  induction pages as [|pg pages IH]; intros L cur L' HL Hc; cbn [Santander.run_pages].
  - intros H. injection H as <-. exact HL.
  - unfold Santander.run_page.
    destruct (Santander._detect_columns _ _) as [bounds header_y].
    destruct (Santander.run_rows _ _ _) as [st|e] eqn:E; cbn [bind]; [|discriminate].
    apply (@santander_run_rows_ok bounds _ _ st) in E; [|split; assumption].
    destruct E as [HL' Hc'].
    apply IH; [|discriminate]. apply santander_flush_ok; assumption.
Qed.

(** ** Amounts of the Banorte rows *)

Lemma banorte_match_nonneg (s : str) (m : Re.rmatch) :
  In m (Re.finditer Banorte._AMT_CORE_RE s) -> 0 <= Banorte.amount_of (Re.group0 s m).
Proof.
  intros H. apply amount_nonneg.
  apply (@finditer_excludes c_minus Banorte._AMT_CORE_RE s m); [|exact H].
  apply amount_patterns_exclude_minus.
Qed.

Lemma banorte_amount_run_nonneg (s : str) :
  Forall (fun v => 0 <= v) (snd (Banorte._extract_amount_run s)).
Proof.
  unfold Banorte._extract_amount_run. cbv zeta.
  destruct (Re.finditer Banorte._AMT_RUN_RE (rstrip s)) as [|r0 runs].
  - destruct (rev (Re.finditer Banorte._AMT_CORE_RE (rstrip s))) as [|m rest] eqn:E;
      cbn [snd]; [constructor|].
    constructor; [|constructor]. apply banorte_match_nonneg.
    apply in_rev. rewrite E. left. reflexivity.
  - cbn [snd]. unfold Re.findall. rewrite map_map. apply Forall_map.
    apply Forall_forall. intros m Hm. apply banorte_match_nonneg. exact Hm.
Qed.

Lemma banorte_classify_nonneg (desc_upper : str) (monto : Q) :
  0 <= monto ->
  0 <= fst (Banorte._classify desc_upper monto)
  /\ 0 <= snd (Banorte._classify desc_upper monto).
Proof.
  intros H. unfold Banorte._classify.
  destruct (Qis_zero monto); [cbn; split; lra|].
  destruct (Banorte.has_credit_kw _); [cbn; split; lra|].
  destruct (Banorte.has_debit_kw _); cbn; split; lra.
Qed.

Lemma banorte_amounts_of_tail_nonneg (body_clean : str) (tail : list Q) :
  Forall (fun v => 0 <= v) tail ->
  0 <= fst (fst (Banorte.amounts_of_tail body_clean tail))
  /\ 0 <= snd (fst (Banorte.amounts_of_tail body_clean tail)).
Proof.
  intros H. unfold Banorte.amounts_of_tail.
  destruct tail as [|t0 [|t1 [|t2 [|t3 rest]]]]; try (cbn; split; lra).
  - assert (Ht0 : 0 <= t0) by (inversion H; assumption).
    pose proof (@banorte_classify_nonneg (upper body_clean) t0 Ht0) as [Hw Hd].
    destruct (Banorte._classify _ _) as [w d]. cbn in *. tauto.
  - assert (Ht0 : 0 <= t0) by (inversion H; assumption).
    assert (Ht1 : 0 <= t1) by (inversion H as [|? ? ? H']; inversion H'; assumption).
    cbn. tauto.
Qed.

Lemma banorte_row_of_match_nonneg (txt : str) (m : Re.rmatch) (next_start : nat)
      (is_last : bool) (r : Banorte.row) :
  Banorte.row_of_match txt m next_start is_last = Some r -> banorte_row_nonneg r.
Proof.
  unfold Banorte.row_of_match.
  destruct (Re.group txt m 1) as [fraw|]; [|discriminate].
  destruct (Banorte._parse_fecha_es fraw) as [fdate|e]; [|discriminate]. cbv zeta.
  pose proof (banorte_amount_run_nonneg (Banorte.body_of txt m next_start is_last fraw))
    as Htail.
  destruct (Banorte._extract_amount_run _) as [body_clean tail]. cbn [snd] in Htail.
  pose proof (@banorte_amounts_of_tail_nonneg body_clean tail Htail) as [Hd Hw].
  destruct (Banorte.amounts_of_tail body_clean tail) as [[dep ret] bal]. cbn [fst snd] in *.
  intros H. injection H as <-. split; cbn; eexists; (split; [reflexivity|]);
    apply round2_nonneg; assumption.
Qed.

Lemma banorte_rows_of_matches_nonneg (txt : str) (ms : list Re.rmatch) :
  Forall banorte_row_nonneg (Banorte.rows_of_matches txt ms).
Proof.
  induction ms as [|m rest IH]; cbn [Banorte.rows_of_matches]; [constructor|].
  destruct (match rest with [] => _ | _ => _ end) as [next_start is_last].
  destruct (Banorte.row_of_match txt m next_start is_last) as [r|] eqn:E; [|exact IH].
  constructor; [|exact IH]. apply (@banorte_row_of_match_nonneg _ _ _ _ _ E).
Qed.

Lemma banorte_rows_nonneg (block_text : str) (period_start : option date)
      (rows : list Banorte.row) :
  Banorte._parse_section_to_rows block_text period_start = Ok rows ->
  Forall banorte_row_nonneg rows.
Proof.
  unfold Banorte._parse_section_to_rows.
  destruct (negb (nonempty block_text)); [intros H; injection H as <-; constructor|].
  cbv zeta.
  match goal with
  | |- match ?o with Ok _ => _ | Raise _ => _ end = _ -> _ =>
      assert (Ho : forall l, o = Ok l -> Forall banorte_row_nonneg l);
      [|destruct o as [l|e]; [|discriminate]]
  end.
  - intros l. destruct (Re.search Banorte._DATE_TOKEN _) as [mfirst|];
      [|intros H; injection H as <-; constructor].
    destruct (str_in _ _); [|intros H; injection H as <-; constructor].
    destruct (match period_start with Some p => _ | None => _ end) as [dprev|e];
      [|discriminate].
    intros H. injection H as <-. constructor; [|constructor].
    split; cbn; eexists; (split; [reflexivity|]); lra.
  - intros H. injection H as <-. apply Forall_app. split; [apply Ho; reflexivity|].
    apply banorte_rows_of_matches_nonneg.
Qed.

(** C1 (amended). Every movement that the Santander extractor puts in its
    two ledgers has a non-negative withdrawal (debit), a non-negative deposit
    (credit), and at most one of them non-zero: each passes through
    [_reconcile_amounts] when it is flushed.  The Banorte extractor has no
    reconciliation: deposit and withdrawal of its rows are non-negative, and a
    run of length three is stored as it is read. *)
Theorem emitted_amounts_invariant :
  (forall (pages : list page) (L : Santander.ledger),
      Santander.movements pages = Ok L ->
      Forall santander_tx_ok (Santander.movs_cheques L)
      /\ Forall santander_tx_ok (Santander.movs_inver L))
  /\ (forall (block_text : str) (period_start : option date) (rows : list Banorte.row),
        Banorte._parse_section_to_rows block_text period_start = Ok rows ->
        Forall banorte_row_nonneg rows).
Proof.
  split.
  - intros pages L H. unfold Santander.movements in H.
    apply (@santander_run_pages_ok pages (Santander.mk_ledger [] []) None L); try assumption.
    + split; constructor.
    + discriminate.
  - intros block_text period_start rows. apply banorte_rows_nonneg.
Qed.

Lemma emitted_amounts_invariant_witness :
  (exists L,
      Santander.movements [mk_page Examples.sant_row_three 1000 []] = Ok L
      /\ Forall santander_tx_ok (Santander.movs_cheques L)
      /\ Forall santander_tx_ok (Santander.movs_inver L))
  /\ (exists rows,
        Banorte._parse_section_to_rows Examples.banorte_both None = Ok rows
        /\ Forall banorte_row_nonneg rows).
Proof.
  destruct emitted_amounts_invariant as [HS HB]. split.
  - eexists. split; [vm_compute; reflexivity|].
    apply (HS [mk_page Examples.sant_row_three 1000 []]). vm_compute. reflexivity.
  - eexists. split; [vm_compute; reflexivity|].
    apply (HB Examples.banorte_both None). vm_compute. reflexivity.
Defined.

(** C1, the claim as worded: the Banorte row built from the run
    (10.00, 20.00, 30.00) has a deposit of 10 and a withdrawal of 20; both are
    non-zero when the row is emitted. *)
Lemma banorte_run_of_three_keeps_both_amounts :
  exists r,
    Banorte._parse_section_to_rows Examples.banorte_both None = Ok [r]
    /\ Banorte.r_deposit r = Some 10
    /\ Banorte.r_withdrawal r = Some 20
    /\ ~ banorte_row_ok r.
Proof.
  eexists. split; [vm_compute; reflexivity|]. split; [reflexivity|]. split; [reflexivity|].
  intros (d & w & Hd & Hw & _ & _ & Hz). cbn in Hd, Hw.
  injection Hd as <-. injection Hw as <-.
  destruct Hz as [Hz | Hz]; discriminate Hz.
Qed.

(** ** Monetary tokens have two decimals *)

Import Money.

Lemma matches_chr_inv (ic : bool) (cs : Re.cset) (u : str) :
  Matches (Re.Chr ic cs) u -> exists c, u = [c] /\ Re.cset_mem ic cs c = true.
Proof. intros H. inversion H; subst. eexists; split; [reflexivity|assumption]. Qed.

Lemma matches_seq_inv (a b : Re.re) (w : str) :
  Matches (Re.Seq a b) w -> exists u v, w = u ++ v /\ Matches a u /\ Matches b v.
Proof. intros H. inversion H; subst. eauto. Qed.

Lemma matches_rep_all (P : char -> Prop) (a : Re.re) :
  (forall u, Matches a u -> Forall P u) ->
  forall lo hi g w, Matches (Re.Rep a lo hi g) w -> Forall P w.
Proof.
  intros Ha lo hi g w H. remember (Re.Rep a lo hi g) as r eqn:E. revert lo hi E.
  induction H; intros lo' hi' E; try discriminate.
  - constructor.
  - injection E as -> -> -> ->. apply Forall_app. split; [apply Ha; assumption|].
    eapply IHMatches2. reflexivity.
Qed.

Lemma matches_rep_succ (a : Re.re) (n : nat) (hi : option nat) (g : bool) (w : str) :
  Matches (Re.Rep a (S n) hi g) w ->
  exists u v, w = u ++ v /\ Matches a u
              /\ Matches (Re.Rep a n (option_map Nat.pred hi) g) v.
Proof. intros H. inversion H; subst. eauto. Qed.

Lemma matches_rep_done (a : Re.re) (lo : nat) (g : bool) (w : str) :
  Matches (Re.Rep a lo (Some 0%nat) g) w -> w = [].
Proof. intros H. inversion H; subst; [reflexivity|discriminate]. Qed.

Lemma digit_class (c : char) :
  Re.cset_mem false (Re.mk_cset false [Re.CDigit]) c = true -> is_digit c = true.
Proof. cbn. rewrite !orb_false_r. auto. Qed.

Lemma space_class (c : char) :
  Re.cset_mem false (Re.mk_cset false [Re.CSpace]) c = true -> is_space c = true.
Proof. cbn. rewrite !orb_false_r. auto. Qed.

Lemma single_class (x c : char) :
  Re.cset_mem false (Re.mk_cset false [Re.CRange x x]) c = true -> c = x.
Proof.
  cbn. rewrite !orb_false_r. unfold in_range. intros H.
  apply andb_true_iff in H. destruct H as [H1 H2].
  apply N.leb_le in H1, H2. lia.
Qed.

Lemma santander_amount_shape (w : str) :
  Matches Santander.AMOUNT_RE w -> amount_token w.
Proof.
  unfold Santander.AMOUNT_RE. intros H.
  apply matches_seq_inv in H. destruct H as (u1 & r1 & -> & H1 & H).
  apply matches_seq_inv in H. destruct H as (u2 & r2 & -> & H2 & H).
  apply matches_seq_inv in H. destruct H as (u3 & r3 & -> & H3 & H).
  apply matches_seq_inv in H. destruct H as (u4 & r4 & -> & H4 & H).
  apply matches_seq_inv in H. destruct H as (u5 & u6 & -> & H5 & H6).
  (* the currency sign and the white space *)
  assert (L1 : Forall (fun c => lead_char c = true) u1).
  { apply (@matches_rep_all _ _) with (w := u1) (2 := H1). intros u Hu.
    apply matches_chr_inv in Hu. destruct Hu as (c & -> & Hc).
    apply single_class in Hc. subst c. repeat constructor. }
  assert (L2 : Forall (fun c => lead_char c = true) u2).
  { apply (@matches_rep_all _ _) with (w := u2) (2 := H2). intros u Hu.
    apply matches_chr_inv in Hu. destruct Hu as (c & -> & Hc).
    apply space_class in Hc. constructor; [|constructor].
    unfold lead_char. rewrite Hc. apply orb_true_r. }
  (* one to three digits *)
  apply matches_rep_succ in H3. destruct H3 as (d & u3' & -> & Hd & H3).
  apply matches_chr_inv in Hd. destruct Hd as (d0 & -> & Hd0). apply digit_class in Hd0.
  assert (B3 : Forall (fun c => body_char c = true) u3').
  { apply (@matches_rep_all _ _) with (w := u3') (2 := H3). intros u Hu.
    apply matches_chr_inv in Hu. destruct Hu as (c & -> & Hc).
    apply digit_class in Hc. constructor; [|constructor].
    unfold body_char. rewrite Hc. reflexivity. }
  (* the groups of thousands *)
  assert (B4 : Forall (fun c => body_char c = true) u4).
  { apply (@matches_rep_all _ _) with (w := u4) (2 := H4). intros u Hu.
    apply matches_seq_inv in Hu. destruct Hu as (c1 & ds & -> & Hc1 & Hds).
    apply matches_chr_inv in Hc1. destruct Hc1 as (c & -> & Hc).
    apply single_class in Hc. subst c. constructor; [reflexivity|].
    apply (@matches_rep_all _ _) with (w := ds) (2 := Hds). intros u Hu.
    apply matches_chr_inv in Hu. destruct Hu as (c & -> & Hc).
    apply digit_class in Hc. constructor; [|constructor].
    unfold body_char. rewrite Hc. reflexivity. }
  (* the point and the two decimals *)
  apply matches_chr_inv in H5. destruct H5 as (p & -> & Hp). apply single_class in Hp. subst p.
  apply matches_rep_succ in H6. destruct H6 as (e1 & r6 & -> & He1 & H6).
  apply matches_chr_inv in He1. destruct He1 as (d1 & -> & Hd1). apply digit_class in Hd1.
  apply matches_rep_succ in H6. destruct H6 as (e2 & r7 & -> & He2 & H6).
  apply matches_chr_inv in He2. destruct He2 as (d2 & -> & Hd2). apply digit_class in Hd2.
  apply matches_rep_done in H6. subst r7.
  exists (u1 ++ u2), d0, (u3' ++ u4), d1, d2. split; [|split; [|split; [|split; [|split]]]].
  - cbn [app]. rewrite <- ?app_assoc. cbn [app]. rewrite <- ?app_assoc. reflexivity.
  - apply Forall_app. split; assumption.
  - exact Hd0.
  - apply Forall_app. split; assumption.
  - exact Hd1.
  - exact Hd2.
Qed.

Lemma replace_fuel_single_nil (c : char) (fuel : nat) (s : str) :
  (length s < fuel)%nat ->
  replace_fuel fuel [c] [] s = filter (fun x => negb (c =? x)%N) s.
Proof.
  revert s. induction fuel as [|fuel IH]; intros s Hlen; [lia|].
  destruct s as [|y s]; [reflexivity|]. cbn [replace_fuel startswith length skipn filter].
  cbn [length] in Hlen. rewrite andb_true_r.
  destruct (c =? y)%N; cbn [negb app]; rewrite IH by lia; reflexivity.
Qed.

Lemma replace_fuel_single_single (c d : char) (fuel : nat) (s : str) :
  (length s < fuel)%nat ->
  replace_fuel fuel [c] [d] s = map (fun x => if (c =? x)%N then d else x) s.
Proof.
  revert s. induction fuel as [|fuel IH]; intros s Hlen; [lia|].
  destruct s as [|y s]; [reflexivity|]. cbn [replace_fuel startswith length skipn map].
  cbn [length] in Hlen. rewrite andb_true_r.
  destruct (c =? y)%N; cbn [app]; rewrite IH by lia; reflexivity.
Qed.

Lemma cleaned_keep (s : str) : cleaned s = flat_map keep s.
Proof.
  unfold cleaned.
  change (U ",") with [44%N]. change (U " ") with [32%N]. change (U "$") with [36%N].
  unfold replace, c_nbsp.
  rewrite (@replace_fuel_single_single 160%N 32%N) by lia.
  rewrite (@replace_fuel_single_nil 36%N) by lia.
  rewrite (@replace_fuel_single_nil 32%N) by lia.
  rewrite (@replace_fuel_single_nil 44%N) by lia.
  induction s as [|c s IH]; [reflexivity|].
  cbn [map filter flat_map]. unfold keep at 1.
  rewrite (N.eqb_sym c 160%N), (N.eqb_sym c 36%N), (N.eqb_sym c 32%N), (N.eqb_sym c 44%N).
  destruct (160 =? c)%N eqn:E160.
  - cbn [orb app negb]. change (36 =? 32)%N with false. change (32 =? 32)%N with true.
    cbn [negb filter]. exact IH.
  - destruct (36 =? c)%N eqn:E36; cbn [orb app negb filter]; [exact IH|].
    destruct (32 =? c)%N eqn:E32; cbn [orb app negb filter]; [exact IH|].
    destruct (44 =? c)%N eqn:E44; cbn [orb app negb filter]; [exact IH|].
    rewrite IH. reflexivity.
Qed.

Lemma digit_bounds (c : char) : is_digit c = true -> (48 <= c <= 57)%N.
Proof.
  unfold is_digit, in_range. intros H. apply andb_true_iff in H.
  destruct H as [H1 H2]. apply N.leb_le in H1, H2. lia.
Qed.

Lemma digit_not_space (c : char) : is_digit c = true -> is_space c = false.
Proof.
  intros H. apply digit_bounds in H.
  assert (E : (c = 48 \/ c = 49 \/ c = 50 \/ c = 51 \/ c = 52 \/ c = 53 \/ c = 54
               \/ c = 55 \/ c = 56 \/ c = 57)%N) by lia.
  repeat (destruct E as [-> | E]; [reflexivity|]). subst c. reflexivity.
Qed.

Lemma keep_digit (c : char) : is_digit c = true -> keep c = [c].
Proof.
  intros H. apply digit_bounds in H. unfold keep.
  assert (E1 : (c =? 160)%N = false) by (apply N.eqb_neq; lia).
  assert (E2 : (c =? 36)%N = false) by (apply N.eqb_neq; lia).
  assert (E3 : (c =? 32)%N = false) by (apply N.eqb_neq; lia).
  assert (E4 : (c =? 44)%N = false) by (apply N.eqb_neq; lia).
  rewrite E1, E2, E3, E4. reflexivity.
Qed.

Lemma keep_lead (lead : str) :
  Forall (fun c => lead_char c = true) lead ->
  Forall (fun c => is_space c = true) (flat_map keep lead).
Proof.
  induction 1 as [|c lead Hc _ IH]; cbn [flat_map]; [constructor|].
  apply Forall_app. split; [|exact IH].
  unfold keep. destruct ((c =? 160)%N || (c =? 36)%N || (c =? 32)%N || (c =? 44)%N) eqn:E;
    [constructor|].
  constructor; [|constructor].
  unfold lead_char in Hc. apply orb_true_iff in Hc. destruct Hc as [Hc | Hc]; [|exact Hc].
  rewrite Hc in E. rewrite orb_true_r in E. discriminate.
Qed.

Lemma keep_body (digs : str) :
  Forall (fun c => body_char c = true) digs ->
  Forall (fun c => is_digit c = true) (flat_map keep digs).
Proof.
  induction 1 as [|c digs Hc _ IH]; cbn [flat_map]; [constructor|].
  apply Forall_app. split; [|exact IH].
  unfold body_char in Hc. apply orb_true_iff in Hc. destruct Hc as [Hc | Hc].
  - rewrite (keep_digit c Hc). constructor; [exact Hc|constructor].
  - apply N.eqb_eq in Hc. subst c. constructor.
Qed.

Lemma lstrip_spaces (p : char -> bool) (x rest : str) (c : char) :
  Forall (fun c => p c = true) x -> p c = false ->
  lstrip_by p (x ++ c :: rest) = c :: rest.
Proof.
  intros Hx Hc. induction Hx as [|y x Hy _ IH]; cbn [app lstrip_by].
  - rewrite Hc. reflexivity.
  - rewrite Hy. exact IH.
Qed.

Lemma rstrip_ends_with (p : char -> bool) (s : str) (c : char) :
  p c = false -> rstrip_by p (s ++ [c]) = s ++ [c].
Proof.
  intros Hc. unfold rstrip_by. rewrite rev_app_distr. cbn [rev app lstrip_by].
  rewrite Hc. cbn [rev]. rewrite rev_involutive. reflexivity.
Qed.

Lemma float_space_is_space (c : char) : is_float_space c = true -> is_space c = true.
Proof. unfold is_float_space. intros H. apply andb_prop in H. apply H. Qed.

Lemma digit_not_float_space (c : char) : is_digit c = true -> is_float_space c = false.
Proof.
  intros H. unfold is_float_space. rewrite (digit_not_space c H). reflexivity.
Qed.

Lemma separator_not_float_space (c : char) : separator c = true -> is_float_space c = false.
Proof.
  unfold separator, is_float_space. intros ->. apply andb_false_r.
Qed.

Lemma scan_digits_run (ds rest : str) (after : bool) :
  Forall (fun c => is_digit c = true) ds ->
  match rest with
  | [] => True
  | c :: _ => is_digit c = false /\ (c =? c_underscore)%N = false
  end ->
  scan_digits after (ds ++ rest) = (ds, rest).
Proof.
  intros Hds Hrest. revert after. induction Hds as [|d ds Hd _ IH]; intros after; cbn [app].
  - destruct rest as [|c rest]; [reflexivity|]. destruct Hrest as [H1 H2].
    cbn [scan_digits]. rewrite H1, H2. reflexivity.
  - cbn [scan_digits]. rewrite Hd, IH. reflexivity.
Qed.

Lemma float_of_clean_token (X D : str) (d0 d1 d2 : char) :
  Forall (fun c => is_float_space c = true) X ->
  Forall (fun c => is_digit c = true) D ->
  is_digit d0 = true -> is_digit d1 = true -> is_digit d2 = true ->
  exists v, float_of_str (X ++ d0 :: D ++ [46%N; d1; d2]) = Ok v /\ two_decimals v.
Proof.
  intros HX HD Hd0 Hd1 Hd2.
  unfold float_of_str, strip_by.
  rewrite (@lstrip_spaces is_float_space X (D ++ [46%N; d1; d2]) d0 HX
             (digit_not_float_space d0 Hd0)).
  replace (d0 :: D ++ [46%N; d1; d2]) with ((d0 :: D ++ [46%N; d1]) ++ [d2])
    by (cbn [app]; rewrite <- app_assoc; reflexivity).
  rewrite (@rstrip_ends_with is_float_space _ d2 (digit_not_float_space d2 Hd2)).
  replace ((d0 :: D ++ [46%N; d1]) ++ [d2]) with (d0 :: D ++ [46%N; d1; d2])
    by (cbn [app]; rewrite <- app_assoc; reflexivity).
  pose proof (digit_bounds d0 Hd0) as Hb0.
  assert (Hsign : sign_of (d0 :: D ++ [46%N; d1; d2]) = (1%Z, d0 :: D ++ [46%N; d1; d2])).
  { unfold sign_of.
    assert (E1 : (d0 =? 45)%N = false) by (apply N.eqb_neq; lia).
    assert (E2 : (d0 =? 43)%N = false) by (apply N.eqb_neq; lia).
    rewrite E1, E2. reflexivity. }
  rewrite Hsign.
  assert (Hnum : number (d0 :: D ++ [46%N; d1; d2]) = Some (d0 :: D, [d1; d2], [])).
  { unfold number, digitpart.
    change (d0 :: D ++ [46%N; d1; d2]) with ((d0 :: D) ++ [46%N; d1; d2]).
    rewrite (@scan_digits_run (d0 :: D) [46%N; d1; d2] false);
      [|constructor; assumption|split; reflexivity].
    change (46 =? 46)%N with true. cbv iota.
    change [d1; d2] with ([d1; d2] ++ []).
    rewrite (@scan_digits_run [d1; d2] [] false); [reflexivity| |exact I].
    constructor; [exact Hd1|constructor; [exact Hd2|constructor]]. }
  rewrite Hnum. eexists. split; [reflexivity|].
  unfold two_decimals, scale10.
  cbn [length Z.of_nat Z.opp Z.leb Z.compare Pos.of_succ_nat Pos.succ].
  eexists. rewrite Qred_correct. reflexivity.
Qed.

Lemma snoc_shift (A : Type) (R M : list A) (x a b c : A) :
  R ++ x :: M ++ [a; b; c] = (R ++ x :: M ++ [a; b]) ++ [c].
Proof.
  rewrite <- app_assoc. cbn [app]. rewrite <- app_assoc. reflexivity.
Qed.

(** [float] refuses a text that starts, white space apart, with a
    separator. *)
Lemma float_of_separator_token (X R : str) (c d : char) :
  Forall (fun c => is_float_space c = true) X ->
  separator c = true -> is_digit d = true ->
  float_of_str (X ++ c :: R ++ [d]) = Raise ValueError.
Proof.
  intros HX Hc Hd.
  unfold float_of_str, strip_by.
  rewrite (@lstrip_spaces is_float_space X (R ++ [d]) c HX (separator_not_float_space c Hc)).
  change (c :: R ++ [d]) with ((c :: R) ++ [d]).
  rewrite (@rstrip_ends_with is_float_space _ d (digit_not_float_space d Hd)).
  cbn [app].
  unfold separator, in_range in Hc. apply andb_prop in Hc. destruct Hc as [H1 H2].
  apply N.leb_le in H1, H2.
  assert (E45 : (c =? 45)%N = false) by (apply N.eqb_neq; lia).
  assert (E43 : (c =? 43)%N = false) by (apply N.eqb_neq; lia).
  assert (E46 : (c =? 46)%N = false) by (apply N.eqb_neq; lia).
  assert (Eu : (c =? c_underscore)%N = false) by (apply N.eqb_neq; unfold c_underscore; lia).
  assert (Ed : is_digit c = false).
  { unfold is_digit, in_range. apply andb_false_iff. left. apply N.leb_gt. lia. }
  unfold sign_of. rewrite E45, E43.
  unfold number, digitpart. cbn [scan_digits]. rewrite Ed, Eu. cbn [andb]. rewrite E46.
  reflexivity.
Qed.

(** The lead of a token, once cleaned: white space that [float] strips, up
    to the first separator if there is one. *)
Lemma lead_split (l : str) :
  Forall (fun c => is_space c = true) l ->
  (Forall (fun c => is_float_space c = true) l /\ existsb separator l = false)
  \/ (exists X c R, l = X ++ c :: R
                    /\ Forall (fun c => is_float_space c = true) X
                    /\ separator c = true).
Proof.
  induction 1 as [|x l Hx _ IH].
  - left. split; [constructor|reflexivity].
  - destruct (separator x) eqn:Es.
    + right. exists [], x, l. split; [reflexivity|]. split; [constructor|exact Es].
    + assert (Hf : is_float_space x = true).
      { unfold is_float_space. rewrite Hx. unfold separator in Es. rewrite Es. reflexivity. }
      destruct IH as [[Hall Hno] | (X & c & R & -> & HX & Hc)].
      * left. split; [constructor; assumption|]. cbn [existsb]. rewrite Es. exact Hno.
      * right. exists (x :: X), c, R. split; [reflexivity|].
        split; [constructor; assumption|exact Hc].
Qed.

Lemma keep_separator (c : char) : separator c = true -> keep c = [c].
Proof.
  unfold separator, in_range, keep. intros H. apply andb_prop in H. destruct H as [H1 H2].
  apply N.leb_le in H1, H2.
  assert (E1 : (c =? 160)%N = false) by (apply N.eqb_neq; lia).
  assert (E2 : (c =? 36)%N = false) by (apply N.eqb_neq; lia).
  assert (E3 : (c =? 32)%N = false) by (apply N.eqb_neq; lia).
  assert (E4 : (c =? 44)%N = false) by (apply N.eqb_neq; lia).
  rewrite E1, E2, E3, E4. reflexivity.
Qed.

Lemma keep_no_separator (l : str) :
  existsb separator (flat_map keep l) = existsb separator l.
Proof.
  induction l as [|c l IH]; [reflexivity|].
  cbn [flat_map existsb]. rewrite existsb_app, IH. f_equal.
  destruct (separator c) eqn:Es.
  - rewrite (keep_separator c Es). cbn [existsb]. rewrite Es. reflexivity.
  - unfold keep. destruct ((c =? 160)%N || (c =? 36)%N || (c =? 32)%N || (c =? 44)%N);
      cbn [existsb]; rewrite ?Es; reflexivity.
Qed.

Lemma digits_no_separator (l : str) :
  Forall (fun c => body_char c = true) l -> existsb separator l = false.
Proof.
  induction 1 as [|c l Hc _ IH]; [reflexivity|].
  cbn [existsb]. rewrite IH, orb_false_r.
  unfold body_char in Hc. unfold separator, in_range.
  apply orb_true_iff in Hc. destruct Hc as [Hc | Hc].
  - pose proof (digit_bounds c Hc). apply andb_false_iff. right. apply N.leb_gt. lia.
  - apply N.eqb_eq in Hc. subst c. reflexivity.
Qed.

Lemma digit_no_separator (c : char) : is_digit c = true -> separator c = false.
Proof.
  intros Hc. pose proof (digit_bounds c Hc). unfold separator, in_range.
  apply andb_false_iff. right. apply N.leb_gt. lia.
Qed.

(** The float read from a monetary token is a whole number of cents, unless
    the white space of the token holds a separator: then [float] raises. *)
Lemma amount_token_cases (w : str) :
  amount_token w ->
  (existsb separator w = false
   /\ exists v, float_of_str (cleaned w) = Ok v /\ two_decimals v)
  \/ (existsb separator w = true /\ float_of_str (cleaned w) = Raise ValueError).
Proof.
  intros (lead & d0 & digs & d1 & d2 & -> & Hlead & Hd0 & Hdigs & Hd1 & Hd2).
  assert (Hsep : existsb separator (lead ++ (d0 :: digs) ++ [46%N; d1; d2])
                 = existsb separator (flat_map keep lead)).
  { rewrite keep_no_separator, !existsb_app.
    change (existsb separator (d0 :: digs)) with (separator d0 || existsb separator digs).
    change (existsb separator [46%N; d1; d2])
      with (separator 46%N || (separator d1 || (separator d2 || false))).
    rewrite (digit_no_separator d0 Hd0), (digit_no_separator d1 Hd1),
      (digit_no_separator d2 Hd2), (digits_no_separator Hdigs).
    change (separator 46%N) with false. cbn [orb]. rewrite !orb_false_r. reflexivity. }
  rewrite Hsep.
  rewrite cleaned_keep, !flat_map_app. cbn [flat_map app].
  rewrite (keep_digit d0 Hd0), (keep_digit d1 Hd1), (keep_digit d2 Hd2).
  change (keep 46%N) with [46%N]. cbn [app].
  destruct (lead_split (keep_lead Hlead)) as [[Hall Hno] | (X & c & R & E & HX & Hc)].
  - left. split; [exact Hno|].
    apply float_of_clean_token; try assumption. apply keep_body. exact Hdigs.
  - right. split.
    + rewrite E, existsb_app. cbn [existsb]. rewrite Hc, orb_true_r. reflexivity.
    + match goal with
      | |- float_of_str (?l ++ _) = _ => replace l with (X ++ c :: R)
      end.
      refine (eq_trans _ (@float_of_separator_token
                            X (R ++ d0 :: flat_map keep digs ++ [46%N; d1]) c d2 HX Hc Hd2)).
      apply f_equal. rewrite <- app_assoc. apply f_equal. cbn [app]. apply f_equal.
      apply snoc_shift.
Qed.

Lemma amount_token_float (w : str) :
  amount_token w -> existsb separator w = false ->
  exists v, float_of_str (cleaned w) = Ok v /\ two_decimals v.
Proof.
  intros H Hno. destruct (amount_token_cases H) as [[_ Hv] | [Hs _]].
  - exact Hv.
  - congruence.
Qed.

(** ** The amounts that reach the reconciliation are whole numbers of cents *)

Import Reconciliation.

Lemma two_decimals_zero : two_decimals 0.
Proof. exists 0%Z. reflexivity. Qed.

Lemma amount_of_token_cents (w : str) :
  amount_token w -> two_decimals (Santander.amount_of w).
Proof.
  intros H.
  unfold Santander.amount_of, Santander._norm_amount, norm_amount, try_except.
  destruct (negb (nonempty w)); [exact two_decimals_zero|].
  destruct (amount_token_cases H) as [[_ (v & E & Hv)] | [_ E]]; rewrite E.
  - exact Hv.
  - exact two_decimals_zero.
Qed.

Lemma santander_match_cents (s : str) (m : Re.rmatch) :
  In m (Re.finditer Santander.AMOUNT_RE s) ->
  two_decimals (Santander.amount_of (Re.group0 s m)).
Proof.
  intros H. apply amount_of_token_cents, santander_amount_shape, finditer_matches.
  exact H.
Qed.

Lemma reconciled_cents (desc : str) (dep ret : Q) :
  two_decimals (fst (Santander._reconcile_amounts desc dep ret))
  /\ two_decimals (snd (Santander._reconcile_amounts desc dep ret)).
Proof.
  unfold Santander._reconcile_amounts. cbv zeta.
  destruct (if Qgtb (or_zero dep) 0 && Qgtb (or_zero ret) 0 then _ else _) as [d r].
  cbn [fst snd]. split; apply round2_two_decimals.
Qed.

(** Deposit and withdrawal of an open movement are whole numbers of cents. *)
Lemma open_movement_cents (t : Santander.TxRow) :
  open_movement t ->
  two_decimals (Santander.deposito t) /\ two_decimals (Santander.retiro t).
Proof.
  induction 1 as [cols row_txt t E | cur cols row_txt _ IH | cur cols row_txt _ IH].
  - revert E. unfold Santander.open_row. cbv zeta.
    destruct (Santander._parse_ddmonyyyy _) as [f|e]; cbn [bind]; [|discriminate].
    destruct (Santander.open_inputs cols row_txt) as [[[desc_txt dep_in] ret_in] sal].
    pose proof (reconciled_cents desc_txt dep_in ret_in) as Hc.
    destruct (Santander._reconcile_amounts _ _ _) as [dv rv].
    intros E. injection E as <-. exact Hc.
  - unfold Santander.continue_row. cbv zeta.
    destruct (nonempty _ && negb _); exact IH.
  - unfold Santander.money_row.
    destruct (Santander.money_inputs cur cols row_txt) as [[[dep1 ret1] sal1] desc2].
    pose proof (reconciled_cents (Santander.desc cur) dep1 ret1) as Hc.
    destruct (Santander._reconcile_amounts _ _ _) as [dv rv]. exact Hc.
Qed.

(** Every call of [_reconcile_amounts] gets whole numbers of cents. *)
Lemma reaches_cents (desc : str) (dep ret : Q) :
  reaches desc dep ret -> two_decimals dep /\ two_decimals ret.
Proof.
  intros H. destruct H as [cols row_txt desc dep ret sal E
                          | cur cols row_txt dep ret sal desc2 Hcur E
                          | cur Hcur].
  - pose proof (@santander_open_inputs_all two_decimals two_decimals_zero
                  santander_match_cents cols row_txt) as Hc.
    rewrite E in Hc. exact Hc.
  - destruct (open_movement_cents Hcur) as [Hd Hr].
    pose proof (@santander_money_inputs_all two_decimals two_decimals_zero
                  santander_match_cents cur cols row_txt Hd Hr) as Hc.
    rewrite E in Hc. exact Hc.
  - apply open_movement_cents. exact Hcur.
Qed.

(** The loop keeps in [current] only movements of [open_movement]. *)
Lemma santander_step_row_open (bounds : list (Q * Q)) (st st' : Santander.state)
      (r : list word) :
  current_open st -> Santander.step_row bounds st r = Ok st' -> current_open st'.
Proof.
  intros Hc. unfold Santander.step_row, current_open in *.
  destruct (Santander._row_section_marker r).
  - intros H. injection H as <-. cbn. discriminate.
  - cbv zeta. destruct (Santander.skipped_row _); [intros H; injection H as <-; exact Hc|].
    destruct (Re.found Santander.DATE_TOKEN_SANT _).
    + destruct (Santander.open_row _ _) as [t|e] eqn:E; cbn [bind]; [|discriminate].
      intros H. injection H as <-. cbn. intros c H. injection H as <-.
      apply (opened _ _ E).
    + destruct (Santander.st_current st) as [cur|] eqn:Ecur;
        [|intros H; injection H as <-; rewrite Ecur; discriminate].
      specialize (Hc cur eq_refl).
      destruct (negb _).
      * destruct (nonempty _ || nonempty _ || nonempty _); intros H; injection H as <-.
        -- cbn. intros c H. injection H as <-. apply continued. exact Hc.
        -- rewrite Ecur. intros c H. injection H as <-. exact Hc.
      * intros H. injection H as <-. cbn. intros c H. injection H as <-.
        apply completed. exact Hc.
Qed.

Lemma santander_run_rows_open (bounds : list (Q * Q)) (rows : list (list word)) :
  forall st st', current_open st -> Santander.run_rows bounds st rows = Ok st' ->
                 current_open st'.
Proof.
  induction rows as [|r rows IH]; intros st st' Hst; cbn [Santander.run_rows].
  - intros H. injection H as <-. exact Hst.
  - destruct (Santander.step_row bounds st r) as [st1|e] eqn:E; cbn [bind]; [|discriminate].
    apply IH. apply (@santander_step_row_open _ _ _ _ Hst E).
Qed.

(** C4. Whenever [_reconcile_amounts] is called, in the Santander loop, with
    deposit and withdrawal both positive and a description that matches both
    keyword lists or neither, it returns a zero deposit (the credit side) and
    the withdrawal (the debit side) it was given. *)
Theorem reconcile_ambiguous_zeroes_credit :
  forall (desc : str) (dep ret : Q),
    reaches desc dep ret ->
    0 < dep -> 0 < ret ->
    ambiguous (Santander._has_tokens desc Santander.ABONO_KEYS)
              (Santander._has_tokens desc Santander.RETIRO_KEYS) ->
    fst (Santander._reconcile_amounts desc dep ret) == 0
    /\ snd (Santander._reconcile_amounts desc dep ret) == ret.
Proof.
  intros desc dep ret Hreach Hd Hr Hamb.
  destruct (reaches_cents Hreach) as [_ H2].
  rewrite (reconcile_both_positive desc Hd Hr).
  unfold ambiguous in Hamb. rewrite Hamb.
  replace (Santander._has_tokens desc Santander.RETIRO_KEYS
           && negb (Santander._has_tokens desc Santander.RETIRO_KEYS)) with false
    by (destruct (Santander._has_tokens desc Santander.RETIRO_KEYS); reflexivity).
  cbn [fst snd]. split.
  - apply round2_zero. reflexivity.
  - apply round2_id. exact H2.
Qed.

Lemma reconcile_ambiguous_zeroes_credit_witness :
  fst (Santander._reconcile_amounts (U "MISC") 10 20) == 0
  /\ snd (Santander._reconcile_amounts (U "MISC") 10 20) == 20.
Proof.
  apply (@reconcile_ambiguous_zeroes_credit (U "MISC") 10 20).
  - apply (@at_open Examples.sant_cols_three (row_text Examples.sant_row_three)
                    (U "MISC") 10 20 (Some 30)).
    vm_compute. reflexivity.
  - reflexivity.
  - reflexivity.
  - vm_compute. reflexivity.
Defined.

(* ===================================================================== *)
(** * Further properties of the extractors *)
(* ===================================================================== *)

Unset Implicit Arguments.
Import Footer Counting.

(** ** The tail run of a Santander line *)

Lemma extend_tail_length (s : str) (maxn : nat) (before : list Re.rmatch) :
  forall (cur_start : nat) (tail : list Re.rmatch),
    (length tail
     <= length (snd (Santander.extend_tail s maxn cur_start tail before))
     <= Nat.max (length tail) maxn)%nat.
Proof.
  induction before as [|m before IH]; intros cur_start tail; cbn [Santander.extend_tail].
  - cbn [snd]. lia.
  - destruct (Nat.ltb (length tail) maxn) eqn:E; [|cbn [snd]; lia].
    apply Nat.ltb_lt in E.
    destruct (nonempty _); [cbn [snd]; lia|].
    specialize (IH (Re.m_start m) (m :: tail)). cbn [length] in IH. lia.
Qed.

Lemma lstrip_by_suffix (p : char -> bool) (s : str) :
  exists l, s = l ++ lstrip_by p s.
Proof.
  induction s as [|c s [l IH]]; [exists []; reflexivity|].
  cbn [lstrip_by]. destruct (p c).
  - exists (c :: l). cbn [app]. f_equal. exact IH.
  - exists []. reflexivity.
Qed.

Lemma rstrip_by_prefix (p : char -> bool) (s : str) : prefix_of (rstrip_by p s) s.
Proof.
  unfold rstrip_by, prefix_of. destruct (lstrip_by_suffix p (rev s)) as [l Hl].
  exists (rev l). rewrite <- rev_app_distr, <- Hl, rev_involutive. reflexivity.
Qed.

Lemma prefix_of_trans (a b c : str) : prefix_of a b -> prefix_of b c -> prefix_of a c.
Proof.
  intros [r1 ->] [r2 ->]. exists (r1 ++ r2). rewrite app_assoc. reflexivity.
Qed.

Lemma firstn_prefix (n : nat) (s : str) : prefix_of (firstn n s) s.
Proof. exists (skipn n s). symmetry. apply firstn_skipn. Qed.

Lemma nonneg_cents_match (s : str) (m : Re.rmatch) :
  In m (Re.finditer Santander.AMOUNT_RE s) ->
  0 <= Santander.amount_of (Re.group0 s m)
  /\ two_decimals (Santander.amount_of (Re.group0 s m)).
Proof.
  intros H. split; [apply santander_match_nonneg|apply santander_match_cents]; exact H.
Qed.

(** X1. [_extract_tail_run] returns at most [max(1, maxn)] amounts, none
    exactly when no monetary match is left on the cleaned line; the
    description it returns is a beginning of that line, and every amount is
    a non-negative whole number of cents. *)
Theorem tail_run_bounds :
  forall (line : str) (maxn : nat),
    let s := Santander.tail_line line in
    let desc := fst (Santander._extract_tail_run line maxn) in
    let vals := snd (Santander._extract_tail_run line maxn) in
    (length vals <= Nat.max 1 maxn)%nat
    /\ (vals = [] <-> Santander.amount_matches s = [])
    /\ (vals = [] -> desc = s)
    /\ prefix_of desc s
    /\ Forall (fun v => 0 <= v /\ two_decimals v) vals.
Proof.
  intros line maxn s desc vals. subst desc vals.
  unfold Santander._extract_tail_run. fold s.
  pose proof (@santander_tail_run_all (fun v => 0 <= v /\ two_decimals v)
                nonneg_cents_match line maxn) as Hall.
  unfold Santander._extract_tail_run in Hall. fold s in Hall.
  unfold Santander.tail_matches in *.
  destruct (rev (Santander.amount_matches s)) as [|m_last before] eqn:E.
  - cbn [fst snd]. repeat split; try (exists []; symmetry; apply app_nil_r); try constructor.
    + cbn. lia.
    + intros _. apply (f_equal (@rev _)) in E. rewrite rev_involutive in E. exact E.
  - pose proof (extend_tail_length s maxn before (Re.m_start m_last) [m_last]) as HL.
    destruct (Santander.extend_tail s maxn (Re.m_start m_last) [m_last] before)
      as [cur_start tail].
    cbn [fst snd length] in *. rewrite length_map. repeat split.
    + lia.
    + intros Hnil. apply (f_equal (@length _)) in Hnil. rewrite length_map in Hnil.
      cbn [length] in Hnil. lia.
    + intros Hnil. rewrite Hnil in E. discriminate E.
    + intros Hnil. apply (f_equal (@length _)) in Hnil. rewrite length_map in Hnil.
      cbn [length] in Hnil. lia.
    + apply (prefix_of_trans _ (firstn cur_start s)).
      * apply rstrip_by_prefix.
      * apply firstn_prefix.
    + exact Hall.
Qed.

(** ** Monetary tokens *)

Lemma amount_token_nonempty (w : str) : amount_token w -> nonempty w = true.
Proof.
  intros (lead & d0 & digs & d1 & d2 & -> & _).
  destruct lead; reflexivity.
Qed.

(** X2. A text the monetary pattern of the three extractors matches is
    accepted by [float], once [_norm_amount] has cleaned it, unless the
    white space the pattern allows before the digits holds one of the
    separators U+001C..U+001F, which [\s] matches and [float] does not
    strip.  Without such a separator [_norm_amount] returns the value of the
    token, a non-negative whole number of cents, and does not go through its
    [except] branch; with one, [float] raises [ValueError] and
    [_norm_amount] returns 0.0. *)
Theorem monetary_matches_parse :
  forall (r : Re.re),
    In r [Santander.AMOUNT_RE; Banorte._AMOUNT_RE; BBVA.AMOUNT_RE] ->
    forall (s : str) (m : Re.rmatch),
      In m (Re.finditer r s) ->
      (existsb separator (Re.group0 s m) = false ->
       exists v : Q,
         float_of_str (cleaned (Re.group0 s m)) = Ok v
         /\ Santander._norm_amount (Some (Re.group0 s m)) = Ok v
         /\ Banorte._norm_amount (Some (Re.group0 s m)) = Ok v
         /\ BBVA._norm_amount (Some (Re.group0 s m)) = Ok v
         /\ 0 <= v /\ two_decimals v)
      /\ (existsb separator (Re.group0 s m) = true ->
          float_of_str (cleaned (Re.group0 s m)) = Raise ValueError
          /\ Santander._norm_amount (Some (Re.group0 s m)) = Ok 0
          /\ Banorte._norm_amount (Some (Re.group0 s m)) = Ok 0
          /\ BBVA._norm_amount (Some (Re.group0 s m)) = Ok 0).
Proof.
  intros r Hr s m Hm.
  assert (Er : r = Santander.AMOUNT_RE).
  { destruct Hr as [<- | [<- | [<- | []]]]; reflexivity. }
  subst r.
  pose proof (santander_amount_shape (finditer_matches _ _ _ Hm)) as Htok.
  pose proof (amount_token_nonempty _ Htok) as Hne.
  split.
  - intros Hno. destruct (amount_token_float Htok Hno) as (v & Ev & Hcents).
    assert (En : norm_amount 0 float_of_str (Some (Re.group0 s m)) = Ok v).
    { unfold norm_amount, try_except. rewrite Hne. cbn [negb]. rewrite Ev. reflexivity. }
    exists v. repeat split; try assumption.
    pose proof (santander_match_nonneg _ _ Hm) as Hpos.
    unfold Santander.amount_of, Santander._norm_amount in Hpos.
    rewrite En in Hpos. exact Hpos.
  - intros Hsep. destruct (amount_token_cases Htok) as [[Hno _] | [_ Ev]]; [congruence|].
    assert (En : norm_amount 0 float_of_str (Some (Re.group0 s m)) = Ok 0).
    { unfold norm_amount, try_except. rewrite Hne. cbn [negb]. rewrite Ev. reflexivity. }
    repeat split; assumption.
Qed.

Lemma monetary_matches_parse_witness :
  (exists v : Q,
      float_of_str (cleaned (Re.group0 (U "PAGO 1,234.56") (Re.mk_match 4 13 []))) = Ok v
      /\ Santander._norm_amount (Some (Re.group0 (U "PAGO 1,234.56") (Re.mk_match 4 13 [])))
         = Ok v
      /\ Banorte._norm_amount (Some (Re.group0 (U "PAGO 1,234.56") (Re.mk_match 4 13 [])))
         = Ok v
      /\ BBVA._norm_amount (Some (Re.group0 (U "PAGO 1,234.56") (Re.mk_match 4 13 [])))
         = Ok v
      /\ 0 <= v /\ two_decimals v)
  /\ (float_of_str (cleaned (Re.group0 [28; 53; 46; 48; 48]%N (Re.mk_match 0 5 [])))
      = Raise ValueError
      /\ Santander._norm_amount (Some (Re.group0 [28; 53; 46; 48; 48]%N (Re.mk_match 0 5 [])))
         = Ok 0
      /\ Banorte._norm_amount (Some (Re.group0 [28; 53; 46; 48; 48]%N (Re.mk_match 0 5 [])))
         = Ok 0
      /\ BBVA._norm_amount (Some (Re.group0 [28; 53; 46; 48; 48]%N (Re.mk_match 0 5 [])))
         = Ok 0).
Proof.
  split.
  - apply (monetary_matches_parse Santander.AMOUNT_RE).
    + left. reflexivity.
    + vm_compute. left. reflexivity.
    + vm_compute. reflexivity.
  - apply (monetary_matches_parse Santander.AMOUNT_RE).
    + left. reflexivity.
    + vm_compute. left. reflexivity.
    + vm_compute. reflexivity.
Defined.

(** ** Reconciliation of the two amount columns *)

Lemma round2_or_zero (x : Q) : round2 (or_zero x) = round2 x.
Proof. apply round2_proper. apply or_zero_eq. Qed.

Lemma round2_round2 (x : Q) : round2 (round2 x) = round2 x.
Proof.
  assert (H : round2 x * 100 == inject_Z (round_half_even (x * 100))).
  { rewrite round2_spec. unfold Qeq, Qmult, inject_Z. cbn [Qnum Qden]. lia. }
  unfold round2 at 1. rewrite (round_half_even_proper H), round_half_even_Z.
  reflexivity.
Qed.

Lemma round2_pos_inv (x : Q) : 0 <= x -> 0 < round2 x -> 0 < x.
Proof.
  intros Hx Hr. destruct (Qlt_le_dec 0 x) as [H | H]; [exact H|].
  assert (E : x == 0) by lra. apply round2_zero in E. lra.
Qed.

(** A pair with one empty side that agrees with the keywords of the
    description is returned as it is, rounded. *)
Lemma reconcile_stable (desc : str) (x y : Q) :
  0 <= x -> 0 <= y -> (x == 0 \/ y == 0) ->
  (0 < x -> Santander._has_tokens desc Santander.RETIRO_KEYS
            && negb (Santander._has_tokens desc Santander.ABONO_KEYS) = false) ->
  (0 < y -> Santander._has_tokens desc Santander.ABONO_KEYS
            && negb (Santander._has_tokens desc Santander.RETIRO_KEYS) = false) ->
  Santander._reconcile_amounts desc x y = (round2 x, round2 y).
Proof.
  intros Hx Hy Hz Kx Ky. unfold Santander._reconcile_amounts. cbv zeta.
  revert Kx Ky.
  generalize (Santander._has_tokens desc Santander.ABONO_KEYS) as a.
  generalize (Santander._has_tokens desc Santander.RETIRO_KEYS) as b.
  intros b a Kx Ky.
  pose proof (or_zero_eq x) as Ex. pose proof (or_zero_eq y) as Ey.
  destruct (Qgtb (or_zero x) 0) eqn:Gx; destruct (Qgtb (or_zero y) 0) eqn:Gy;
    try (apply Qgtb_true in Gx); try (apply Qgtb_false in Gx);
    try (apply Qgtb_true in Gy); try (apply Qgtb_false in Gy);
    cbn [andb].
  - exfalso. lra.
  - assert (K : b && negb a = false) by (apply Kx; lra).
    replace (Qis_zero (or_zero y) && b && negb a) with false
      by (destruct (Qis_zero (or_zero y)), a, b; cbn in *; congruence).
    rewrite !round2_or_zero. reflexivity.
  - assert (K : a && negb b = false) by (apply Ky; lra).
    replace (Qis_zero (or_zero x) && a && negb b) with false
      by (destruct (Qis_zero (or_zero x)), a, b; cbn in *; congruence).
    rewrite !round2_or_zero. reflexivity.
  - rewrite !round2_or_zero. reflexivity.
Qed.

(** What [_reconcile_amounts] returns on non-negative amounts, before the
    rounding: a pair with one empty side that agrees with the keywords. *)
Lemma reconcile_settles (desc : str) (dep ret : Q) :
  0 <= dep -> 0 <= ret ->
  exists x y : Q,
    Santander._reconcile_amounts desc dep ret = (round2 x, round2 y)
    /\ 0 <= x /\ 0 <= y /\ (x == 0 \/ y == 0)
    /\ (x == dep \/ x == ret \/ x == 0) /\ (y == dep \/ y == ret \/ y == 0)
    /\ (dep == 0 \/ ret == 0 -> x + y == dep + ret)
    /\ (0 < x -> Santander._has_tokens desc Santander.RETIRO_KEYS
                 && negb (Santander._has_tokens desc Santander.ABONO_KEYS) = false)
    /\ (0 < y -> Santander._has_tokens desc Santander.ABONO_KEYS
                 && negb (Santander._has_tokens desc Santander.RETIRO_KEYS) = false).
Proof.
  intros Hd Hr. unfold Santander._reconcile_amounts. cbv zeta.
  generalize (Santander._has_tokens desc Santander.ABONO_KEYS) as a.
  generalize (Santander._has_tokens desc Santander.RETIRO_KEYS) as b.
  intros b a.
  pose proof (or_zero_eq dep) as Ed. pose proof (or_zero_eq ret) as Er.
  set (d0 := or_zero dep) in *. set (r0 := or_zero ret) in *.
  destruct (Qgtb d0 0) eqn:Gd; destruct (Qgtb r0 0) eqn:Gr;
    try (apply Qgtb_true in Gd); try (apply Qgtb_false in Gd);
    try (apply Qgtb_true in Gr); try (apply Qgtb_false in Gr);
    cbn [andb].
  - destruct a, b; cbn [andb negb];
      first [ solve [ exists d0, 0; repeat split; try lra; try (intros; reflexivity);
              try (left; lra); try (right; left; lra); try (right; right; lra) ]
            | solve [ exists 0, r0; repeat split; try lra; try (intros; reflexivity);
              try (left; lra); try (right; left; lra); try (right; right; lra) ] ].
  - destruct (Qis_zero r0) eqn:Zr;
      [apply Qis_zero_true in Zr | apply Qis_zero_false in Zr; exfalso; lra].
    destruct a, b; cbn [andb negb];
      first [ solve [ exists 0, d0; repeat split; try lra; try (intros; reflexivity);
              try (left; lra); try (right; left; lra); try (right; right; lra) ]
            | solve [ exists d0, r0; repeat split; try lra; try (intros; reflexivity);
              try (left; lra); try (right; left; lra); try (right; right; lra) ] ].
  - destruct (Qis_zero d0) eqn:Zd;
      [apply Qis_zero_true in Zd | apply Qis_zero_false in Zd; exfalso; lra].
    destruct a, b; cbn [andb negb];
      first [ solve [ exists r0, 0; repeat split; try lra; try (intros; reflexivity);
              try (left; lra); try (right; left; lra); try (right; right; lra) ]
            | solve [ exists d0, r0; repeat split; try lra; try (intros; reflexivity);
              try (left; lra); try (right; left; lra); try (right; right; lra) ] ].
  - exists d0, r0. repeat split; try lra; try (intros; exfalso; lra);
      try (left; lra); try (right; left; lra); try (right; right; lra).
Qed.

(** X3. On non-negative amounts the pair [_reconcile_amounts] returns agrees
    with the keywords of the description: no deposit is left under a
    description that matches only withdrawal keywords, no withdrawal under
    one that matches only deposit keywords; and when one of the two inputs
    is zero the other amount is kept, rounded, on one side or the other. *)
Theorem reconcile_agrees_with_keywords :
  forall (desc : str) (dep ret : Q),
    0 <= dep -> 0 <= ret ->
    (0 < fst (Santander._reconcile_amounts desc dep ret) ->
     Santander._has_tokens desc Santander.RETIRO_KEYS
     && negb (Santander._has_tokens desc Santander.ABONO_KEYS) = false)
    /\ (0 < snd (Santander._reconcile_amounts desc dep ret) ->
        Santander._has_tokens desc Santander.ABONO_KEYS
        && negb (Santander._has_tokens desc Santander.RETIRO_KEYS) = false)
    /\ (dep == 0 \/ ret == 0 ->
        fst (Santander._reconcile_amounts desc dep ret)
        + snd (Santander._reconcile_amounts desc dep ret) == round2 (dep + ret)).
Proof.
  intros desc dep ret Hd Hr.
  destruct (reconcile_settles desc dep ret Hd Hr)
    as (x & y & E & Hx & Hy & Hz & _ & _ & Hsum & Kx & Ky).
  rewrite E. cbn [fst snd]. split; [|split].
  - intros H. apply Kx. apply round2_pos_inv; assumption.
  - intros H. apply Ky. apply round2_pos_inv; assumption.
  - intros H. specialize (Hsum H).
    rewrite <- (round2_proper Hsum).
    destruct Hz as [Hz | Hz].
    + rewrite (round2_zero Hz).
      assert (Ey : x + y == y) by lra. rewrite (round2_proper Ey). lra.
    + rewrite (round2_zero Hz).
      assert (Ex : x + y == x) by lra. rewrite (round2_proper Ex). lra.
Qed.

Lemma reconcile_agrees_with_keywords_witness :
  (0 < fst (Santander._reconcile_amounts (U "PAGO DE LUZ") 10 0) ->
   Santander._has_tokens (U "PAGO DE LUZ") Santander.RETIRO_KEYS
   && negb (Santander._has_tokens (U "PAGO DE LUZ") Santander.ABONO_KEYS) = false)
  /\ (0 < snd (Santander._reconcile_amounts (U "PAGO DE LUZ") 10 0) ->
      Santander._has_tokens (U "PAGO DE LUZ") Santander.ABONO_KEYS
      && negb (Santander._has_tokens (U "PAGO DE LUZ") Santander.RETIRO_KEYS) = false)
  /\ (10 == 0 \/ 0 == 0 ->
      fst (Santander._reconcile_amounts (U "PAGO DE LUZ") 10 0)
      + snd (Santander._reconcile_amounts (U "PAGO DE LUZ") 10 0) == round2 (10 + 0)).
Proof.
  apply (reconcile_agrees_with_keywords (U "PAGO DE LUZ") 10 0).
  - unfold Qle. simpl. lia.
  - unfold Qle. simpl. lia.
Defined.

(** X4. Reconciling twice changes nothing: on non-negative amounts,
    [_reconcile_amounts] applied to its own result, with the same
    description, returns that result. *)
Theorem reconcile_idempotent :
  forall (desc : str) (dep ret : Q),
    0 <= dep -> 0 <= ret ->
    Santander._reconcile_amounts desc
      (fst (Santander._reconcile_amounts desc dep ret))
      (snd (Santander._reconcile_amounts desc dep ret))
    = Santander._reconcile_amounts desc dep ret.
Proof.
  intros desc dep ret Hd Hr.
  destruct (reconcile_settles desc dep ret Hd Hr)
    as (x & y & E & Hx & Hy & Hz & _ & _ & _ & Kx & Ky).
  rewrite E. cbn [fst snd].
  rewrite (reconcile_stable desc (round2 x) (round2 y)).
  - rewrite !round2_round2. reflexivity.
  - apply round2_nonneg. exact Hx.
  - apply round2_nonneg. exact Hy.
  - destruct Hz as [Hz | Hz]; [left | right]; apply round2_zero; exact Hz.
  - intros H. apply Kx. apply round2_pos_inv; assumption.
  - intros H. apply Ky. apply round2_pos_inv; assumption.
Qed.

Lemma reconcile_idempotent_witness :
  Santander._reconcile_amounts (U "MISC")
    (fst (Santander._reconcile_amounts (U "MISC") 10 20))
    (snd (Santander._reconcile_amounts (U "MISC") 10 20))
  = Santander._reconcile_amounts (U "MISC") 10 20.
Proof.
  apply (reconcile_idempotent (U "MISC") 10 20).
  - unfold Qle. simpl. lia.
  - unfold Qle. simpl. lia.
Defined.

(** ** The footer of a Santander page *)

Lemma Qmin2_le_l (a b : Q) : Qmin2 a b <= a.
Proof.
  unfold Qmin2. destruct (Qle_bool a b) eqn:E; [apply Qle_refl|].
  destruct (Qlt_le_dec a b) as [H | H]; [|exact H].
  apply Qlt_le_weak, Qle_bool_iff in H. congruence.
Qed.

Lemma Qmin2_le_r (a b : Q) : Qmin2 a b <= b.
Proof.
  unfold Qmin2. destruct (Qle_bool a b) eqn:E; [|apply Qle_refl].
  apply Qle_bool_iff. exact E.
Qed.

Lemma fold_Qmin2_le (l : list Q) :
  forall a, fold_left Qmin2 l a <= a /\ forall x, In x l -> fold_left Qmin2 l a <= x.
Proof.
  induction l as [|y l IH]; intros a; cbn [fold_left].
  - split; [apply Qle_refl|intros x []].
  - destruct (IH (Qmin2 a y)) as [H1 H2]. split.
    + apply (Qle_trans _ _ _ H1), Qmin2_le_l.
    + intros x [<- | Hx]; [|apply H2; exact Hx].
      apply (Qle_trans _ _ _ H1), Qmin2_le_r.
Qed.

Lemma drop_footer_totals_eq (words : list word) :
  Santander._drop_footer_totals words
  = match map w_top (filter total_marker words) with
    | [] => words
    | y0 :: rest =>
        filter (fun w => Qltb (w_top w) (fold_left Qmin2 rest y0 - (1 # 2))) words
    end.
Proof. reflexivity. Qed.

Lemma filter_all {A : Type} (l : list A) : filter (fun _ => true) l = l.
Proof. induction l as [|x l IH]; [reflexivity|]. cbn [filter]. f_equal. exact IH. Qed.

Lemma fold_Qmin2_in (l : list Q) (a : Q) : In (fold_left Qmin2 l a) (a :: l).
Proof.
  revert a. induction l as [|y l IH]; intros a; cbn [fold_left].
  - left. reflexivity.
  - assert (Hm : Qmin2 a y = a \/ Qmin2 a y = y).
    { unfold Qmin2. destruct (Qle_bool a y); [left|right]; reflexivity. }
    destruct (IH (Qmin2 a y)) as [H | H].
    + destruct Hm as [Hm | Hm].
      * left. rewrite <- H. symmetry. exact Hm.
      * right. left. rewrite <- H. symmetry. exact Hm.
    + right. right. exact H.
Qed.

Lemma Qltb_true_iff (a b : Q) : Qltb a b = true <-> a < b.
Proof.
  split; [apply Qltb_true|].
  intros H. unfold Qltb. destruct (Qle_bool b a) eqn:E; [|reflexivity].
  apply Qle_bool_iff in E. lra.
Qed.

(** Being above the lowest marker is being above every marker. *)
Lemma above_totals_cut (words : list word) (y0 : Q) (rest : list Q) (w : word) :
  map w_top (filter total_marker words) = y0 :: rest ->
  above_totals words w = Qltb (w_top w) (fold_left Qmin2 rest y0 - (1 # 2)).
Proof.
  intros E. set (y_cut := fold_left Qmin2 rest y0).
  assert (Hle : forall m, In m words -> total_marker m = true -> y_cut <= w_top m).
  { intros m Hm Ht.
    assert (Hin : In (w_top m) (y0 :: rest)).
    { rewrite <- E. apply in_map. apply filter_In. split; assumption. }
    destruct Hin as [Hy | Hin].
    - rewrite <- Hy. exact (proj1 (fold_Qmin2_le rest y0)).
    - exact (proj2 (fold_Qmin2_le rest y0) _ Hin). }
  assert (Hat : exists m, In m words /\ total_marker m = true /\ w_top m = y_cut).
  { pose proof (fold_Qmin2_in rest y0) as Hin. fold y_cut in Hin. rewrite <- E in Hin.
    apply in_map_iff in Hin. destruct Hin as (m & Hm & Hf). apply filter_In in Hf.
    exists m. split; [apply Hf|]. split; [apply Hf|exact Hm]. }
  unfold above_totals.
  destruct (Qltb (w_top w) (y_cut - (1 # 2))) eqn:Ec.
  - apply Qltb_true_iff in Ec. apply forallb_forall. intros m Hm.
    destruct (total_marker m) eqn:Et; [|reflexivity]. cbn [negb orb].
    apply Qltb_true_iff. specialize (Hle m Hm Et). lra.
  - destruct (forallb _ words) eqn:Ef; [|reflexivity].
    destruct Hat as (m & Hm & Ht & Hy).
    pose proof (proj1 (forallb_forall _ _) Ef m Hm) as H. cbv beta in H.
    rewrite Ht in H. cbn [negb orb] in H. rewrite Hy in H. congruence.
Qed.

(** X5. [_drop_footer_totals] keeps, in their order, exactly the words that
    lie more than half a unit above every word reading "TOTAL" or holding
    "SALDO FINAL DEL PERIODO": every such word is kept, no marker word is
    kept, nor any word level with or below one; a page without marker words
    is returned whole. *)
Theorem drop_footer_totals_cuts :
  forall (words : list word),
    let kept := Santander._drop_footer_totals words in
    kept = filter (above_totals words) words
    /\ (forall w, In w kept
                  <-> In w words
                      /\ forall m, In m words -> total_marker m = true ->
                                   w_top w < w_top m - (1 # 2))
    /\ (forall w m, In w kept -> In m words -> total_marker m = true ->
                    w_top w < w_top m - (1 # 2))
    /\ (forall w, In w kept -> total_marker w = false)
    /\ ((forall m, In m words -> total_marker m = false) -> kept = words).
Proof.
  intros words kept.
  assert (Hspec : forall w, above_totals words w = true
                            <-> forall m, In m words -> total_marker m = true ->
                                          w_top w < w_top m - (1 # 2)).
  { intros w. unfold above_totals. rewrite forallb_forall. split.
    - intros H m Hm Ht. specialize (H m Hm). cbv beta in H. rewrite Ht in H.
      cbn [negb orb] in H. apply Qltb_true_iff. exact H.
    - intros H m Hm. destruct (total_marker m) eqn:Et; [|reflexivity].
      cbn [negb orb]. apply Qltb_true_iff. exact (H m Hm Et). }
  assert (Heq : kept = filter (above_totals words) words).
  { subst kept. rewrite drop_footer_totals_eq.
    destruct (map w_top (filter total_marker words)) as [|y0 rest] eqn:E.
    - symmetry. transitivity (filter (fun _ => true) words); [|apply filter_all].
      apply filter_ext_in. intros w _. apply Hspec. intros m Hm Ht. exfalso.
      assert (Hin : In (w_top m) (map w_top (filter total_marker words))).
      { apply in_map. apply filter_In. split; assumption. }
      rewrite E in Hin. destruct Hin.
    - apply filter_ext. intros w. symmetry. apply (above_totals_cut words y0 rest w E). }
  assert (Hiff : forall w, In w kept
                           <-> In w words
                               /\ forall m, In m words -> total_marker m = true ->
                                            w_top w < w_top m - (1 # 2)).
  { intros w. rewrite Heq, filter_In, Hspec. reflexivity. }
  split; [exact Heq|]. split; [exact Hiff|]. split; [|split].
  - intros w m Hw Hm Ht. exact (proj2 (proj1 (Hiff w) Hw) m Hm Ht).
  - intros w Hw. destruct (total_marker w) eqn:Et; [|reflexivity].
    destruct (proj1 (Hiff w) Hw) as [Hin Hab]. specialize (Hab w Hin Et). lra.
  - intros Hnone. rewrite Heq.
    transitivity (filter (fun _ => true) words); [|apply filter_all].
    apply filter_ext_in. intros w _. apply Hspec. intros m Hm Ht. rewrite (Hnone m Hm) in Ht. discriminate Ht.
Qed.

(** ** Cutting a line at a totals marker *)

Import Shortest.

Lemma matches_min_len (r : Re.re) (w : str) : Matches r w -> (min_len r <= length w)%nat.
Proof.
  induction 1; cbn [min_len length]; rewrite ?length_app; try lia.
  cbn [min_len] in IHMatches2. destruct lo; cbn [Nat.pred] in IHMatches2; lia.
Qed.

Lemma search_bounds (r : Re.re) (s : str) (m : Re.rmatch) :
  Re.search r s = Some m -> (Re.m_start m + min_len r <= length s)%nat.
Proof.
  intros H. unfold Re.search in H.
  destruct (search_from_consumes _ _ _ _ H) as (skipped & consumed & s' & -> & HM & Hs & _).
  apply matches_min_len in HM. rewrite !length_app. lia.
Qed.

Lemma prefix_of_length (a b : str) : prefix_of a b -> (length a <= length b)%nat.
Proof. intros [r ->]. rewrite length_app. lia. Qed.

Lemma cut_at_prefix (n : nat) (s : str) : prefix_of (rstrip (firstn n s)) s.
Proof.
  apply (prefix_of_trans _ (firstn n s)); [apply rstrip_by_prefix|apply firstn_prefix].
Qed.

Lemma cut_at_length (n : nat) (s : str) : (length (rstrip (firstn n s)) <= n)%nat.
Proof.
  apply (Nat.le_trans _ (length (firstn n s))).
  - apply prefix_of_length, rstrip_by_prefix.
  - apply firstn_le_length.
Qed.

(** X6. [_cut_after_totals] returns a beginning of the line: the line itself
    when it holds neither the word TOTAL nor "SALDO FINAL DEL PERIODO", and
    otherwise a strictly shorter text, which ends before the first of the
    two markers. *)
Theorem cut_after_totals_prefix :
  forall (s : str),
    prefix_of (Santander._cut_after_totals s) s
    /\ (Santander._has_total_or_final s = false -> Santander._cut_after_totals s = s)
    /\ (Santander._has_total_or_final s = true ->
        (length (Santander._cut_after_totals s) < length s)%nat
        /\ (forall m, Re.search Santander.TOTAL_PAT s = Some m ->
                      (length (Santander._cut_after_totals s) <= Re.m_start m)%nat)
        /\ (forall m, Re.search Santander.SALDO_FINAL_PAT s = Some m ->
                      (length (Santander._cut_after_totals s) <= Re.m_start m)%nat)).
Proof.
  intros s. unfold Santander._cut_after_totals, Santander._has_total_or_final, Re.found.
  cbv zeta.
  assert (L1 : min_len Santander.TOTAL_PAT = 5%nat) by reflexivity.
  assert (L2 : (1 <= min_len Santander.SALDO_FINAL_PAT)%nat) by (vm_compute; lia).
  destruct (Re.search Santander.TOTAL_PAT s) as [m1|] eqn:E1;
    destruct (Re.search Santander.SALDO_FINAL_PAT s) as [m2|] eqn:E2; cbn [orb].
  - pose proof (search_bounds _ _ _ E1) as B1. pose proof (search_bounds _ _ _ E2) as B2.
    destruct (Nat.ltb (Re.m_start m1) (Re.m_start m2)) eqn:Elt.
    + apply Nat.ltb_lt in Elt. pose proof (cut_at_length (Re.m_start m1) s) as Hlen.
      split; [apply cut_at_prefix|]. split; [discriminate|]. intros _.
      split; [lia|]. split; intros m Hm; injection Hm as <-; lia.
    + apply Nat.ltb_ge in Elt. pose proof (cut_at_length (Re.m_start m2) s) as Hlen.
      split; [apply cut_at_prefix|]. split; [discriminate|]. intros _.
      split; [lia|]. split; intros m Hm; injection Hm as <-; lia.
  - pose proof (search_bounds _ _ _ E1) as B1.
    pose proof (cut_at_length (Re.m_start m1) s) as Hlen.
    split; [apply cut_at_prefix|]. split; [discriminate|]. intros _.
    split; [lia|]. split; intros m Hm; [injection Hm as <-; lia|discriminate Hm].
  - pose proof (search_bounds _ _ _ E2) as B2.
    pose proof (cut_at_length (Re.m_start m2) s) as Hlen.
    split; [apply cut_at_prefix|]. split; [discriminate|]. intros _.
    split; [lia|]. split; intros m Hm; [discriminate Hm|injection Hm as <-; lia].
  - split; [exists []; symmetry; apply app_nil_r|]. split; [reflexivity|discriminate].
Qed.

(** ** Words between two columns *)






(** ** Grouping words into rows loses no word *)

Lemma filter_split_perm {A : Type} (p : A -> bool) (l : list A) :
  Permutation (filter p l ++ filter (fun x => negb (p x)) l) l.
Proof.
  induction l as [|x l IH]; [constructor|].
  cbn [filter]. destruct (p x); cbn [negb app].
  - constructor. exact IH.
  - apply Permutation_sym, Permutation_cons_app, Permutation_sym. exact IH.
Qed.

Lemma filter_other_key (f : word -> Z) (k k' : Z) (body : list word) :
  k' <> k ->
  filter (fun w => (f w =? k')%Z) (filter (fun w => negb (f w =? k)%Z) body)
  = filter (fun w => (f w =? k')%Z) body.
Proof.
  intros Hk. induction body as [|w body IH]; [reflexivity|].
  cbn [filter]. destruct (f w =? k)%Z eqn:E; cbn [negb filter].
  - apply Z.eqb_eq in E. destruct (f w =? k')%Z eqn:E'; [|exact IH].
    apply Z.eqb_eq in E'. congruence.
  - rewrite IH. reflexivity.
Qed.

(** The buckets of a list keyed by [f], taken over all its keys once,
    hold the elements of the list. *)
Lemma buckets_perm (f : word -> Z) (keys : list Z) :
  NoDup keys ->
  forall body : list word,
    (forall w, In w body -> In (f w) keys) ->
    Permutation (concat (map (fun k => filter (fun w => (f w =? k)%Z) body) keys)) body.
Proof.
  induction 1 as [|k ks Hk Hnd IH]; intros body Hin.
  - destruct body as [|w body]; [constructor|]. destruct (Hin w (or_introl eq_refl)).
  - cbn [map concat].
    set (rest := filter (fun w => negb (f w =? k)%Z) body).
    assert (E : map (fun k' => filter (fun w => (f w =? k')%Z) body) ks
                = map (fun k' => filter (fun w => (f w =? k')%Z) rest) ks).
    { apply map_ext_in. intros k' Hk'. symmetry. apply filter_other_key.
      intros ->. apply Hk. exact Hk'. }
    rewrite E.
    apply (Permutation_trans (l' := filter (fun w => (f w =? k)%Z) body ++ rest)).
    + apply Permutation_app_head. apply IH. intros w Hw.
      apply filter_In in Hw. destruct Hw as [Hw Hne]. cbv beta in Hne.
      destruct (Hin w Hw) as [E' | H']; [|exact H'].
      rewrite <- E', Z.eqb_refl in Hne. discriminate Hne.
    + apply filter_split_perm.
Qed.

Lemma concat_perm_map {A B : Type} (f g : A -> list B) (l : list A) :
  (forall a, Permutation (f a) (g a)) ->
  Permutation (concat (map f l)) (concat (map g l)).
Proof.
  intros H. induction l as [|a l IH]; [constructor|].
  cbn [map concat]. apply Permutation_app; [apply H|exact IH].
Qed.

Lemma group_rows_eq (words : list word) (header_y : Q) :
  _group_rows words header_y
  = match body_tokens words header_y with
    | [] => []
    | _ =>
        map (fun k => left_to_right
                        (bucket_get k (fill (ybin_of (body_tokens words header_y))
                                            (body_tokens words header_y) [])))
            (sorted_by Z.leb
               (map fst (fill (ybin_of (body_tokens words header_y))
                              (body_tokens words header_y) [])))
    end.
Proof. reflexivity. Qed.

(** X8. [_group_rows] loses no word and invents none: the rows it returns,
    put end to end, are a rearrangement of the words below the header line;
    no row is empty. *)
Theorem group_rows_keeps_every_word :
  forall (words : list word) (header_y : Q),
    Permutation (concat (_group_rows words header_y)) (body_tokens words header_y)
    /\ Forall (fun r => r <> []) (_group_rows words header_y).
Proof.
  intros words header_y. rewrite group_rows_eq.
  set (body := body_tokens words header_y).
  destruct body as [|w0 body0] eqn:Eb; [split; constructor|].
  rewrite <- Eb. clear Eb w0 body0.
  set (size := ybin_of body).
  set (keys := sorted_by Z.leb (map fst (fill size body []))).
  assert (Hget : forall k, bucket_get k (fill size body [])
                           = filter (fun w => (row_key size w =? k)%Z) body).
  { intros k. rewrite fill_get. reflexivity. }
  assert (Hkeys : forall k, In k keys <-> exists w, In w body /\ row_key size w = k).
  { intros k. unfold keys. split.
    - intros H. apply (Permutation_in _ (Permutation_sym (sorted_by_perm Z.leb _))) in H.
      apply fill_keys_in in H. destruct H as [[] | H]. exact H.
    - intros H. apply (Permutation_in _ (sorted_by_perm Z.leb _)).
      apply fill_keys_in. right. exact H. }
  assert (Hnd : NoDup keys).
  { unfold keys. apply (Permutation_NoDup (sorted_by_perm Z.leb _)).
    apply fill_keys_nodup. constructor. }
  split.
  - apply (Permutation_trans
             (l' := concat (map (fun k => filter (fun w => (row_key size w =? k)%Z) body) keys))).
    + apply concat_perm_map. intros k. rewrite Hget.
      apply Permutation_sym. apply (sorted_by_perm left_ofb).
    + apply buckets_perm; [exact Hnd|].
      intros w Hw. apply Hkeys. exists w. split; [exact Hw|reflexivity].
  - apply Forall_forall. intros r Hr. apply in_map_iff in Hr.
    destruct Hr as (k & <- & Hk). apply Hkeys in Hk. destruct Hk as (w & Hw & Ew).
    intros Hnil. apply (f_equal (@length _)) in Hnil.
    unfold left_to_right in Hnil. rewrite sorted_by_length, Hget in Hnil.
    assert (Hin : In w (filter (fun w => (row_key size w =? k)%Z) body)).
    { apply filter_In. split; [exact Hw|]. apply Z.eqb_eq. exact Ew. }
    destruct (filter _ body); [destruct Hin|discriminate Hnil].
Qed.

(** ** One movement per dated row (Santander) *)

Lemma flush_size (cur : option Santander.TxRow) (sec : Santander.section_key)
      (L : Santander.ledger) :
  ledger_size (Santander.flush_current cur (Some sec) L)
  = (ledger_size L + match cur with Some _ => 1 | None => 0 end)%nat.
Proof.
  unfold Santander.flush_current. destruct cur as [c|]; [|lia].
  destruct (Santander._reconcile_amounts _ _ _) as [d r].
  destruct sec; unfold ledger_size; cbn [Santander.movs_cheques Santander.movs_inver];
    rewrite length_app; cbn [length]; lia.
Qed.

Lemma step_row_pending (bounds : list (Q * Q)) (st st' : Santander.state) (r : list word)
      (sec : Santander.section_key) :
  Santander.st_section st = Some sec ->
  Santander.step_row bounds st r = Ok st' ->
  (exists sec', Santander.st_section st' = Some sec')
  /\ pending st' = (pending st + if opens_movement bounds r then 1 else 0)%nat.
Proof.
  intros Hsec. unfold Santander.step_row, opens_movement.
  destruct (Santander._row_section_marker r) as [sec1|].
  - intros H. injection H as <-. split; [exists sec1; reflexivity|].
    unfold pending. cbn [Santander.st_ledger Santander.st_current].
    rewrite Hsec, flush_size. lia.
  - cbv zeta. destruct (Santander.skipped_row _); cbn [negb andb].
    + intros H. injection H as <-. split; [exists sec; exact Hsec|lia].
    + destruct (Re.found Santander.DATE_TOKEN_SANT _).
      * destruct (Santander.open_row _ _) as [t|e]; cbn [bind]; [|discriminate].
        intros H. injection H as <-. split; [exists sec; exact Hsec|].
        unfold pending. cbn [Santander.st_ledger Santander.st_current].
        rewrite Hsec, flush_size. destruct (Santander.st_current st); lia.
      * destruct (Santander.st_current st) as [cur|] eqn:Ecur.
        -- destruct (negb _).
           ++ destruct (nonempty _ || nonempty _ || nonempty _);
                intros H; injection H as <-; (split; [exists sec; exact Hsec|]);
                unfold pending; cbn [Santander.st_ledger Santander.st_current];
                rewrite ?Ecur; lia.
           ++ intros H. injection H as <-. split; [exists sec; exact Hsec|].
              unfold pending. cbn [Santander.st_ledger Santander.st_current].
              rewrite ?Ecur. lia.
        -- intros H. injection H as <-. split; [exists sec; exact Hsec|lia].
Qed.

Lemma run_rows_pending (bounds : list (Q * Q)) (rows : list (list word)) :
  forall (st st' : Santander.state) (sec : Santander.section_key),
    Santander.st_section st = Some sec ->
    Santander.run_rows bounds st rows = Ok st' ->
    (exists sec', Santander.st_section st' = Some sec')
    /\ pending st' = (pending st + length (filter (opens_movement bounds) rows))%nat.
Proof.
  induction rows as [|r rows IH]; intros st st' sec Hsec; cbn [Santander.run_rows].
  - intros H. injection H as <-. split; [exists sec; exact Hsec|cbn; lia].
  - destruct (Santander.step_row bounds st r) as [st1|e] eqn:E; cbn [bind]; [|discriminate].
    intros H. destruct (step_row_pending _ _ _ _ _ Hsec E) as [[sec1 Hsec1] Hp].
    destruct (IH _ _ _ Hsec1 H) as [Hs Hp']. split; [exact Hs|].
    rewrite Hp', Hp. cbn [filter]. destruct (opens_movement bounds r); cbn [length]; lia.
Qed.

Lemma run_page_size (L L' : Santander.ledger) (cur cur' : option Santander.TxRow) (pg : page) :
  Santander.run_page L cur pg = Ok (L', cur') ->
  cur' = None
  /\ ledger_size L'
     = (ledger_size L + match cur with Some _ => 1 | None => 0 end + dated_rows pg)%nat.
Proof.
  unfold Santander.run_page, dated_rows, santander_page_rows. cbv zeta.
  destruct (Santander._detect_columns _ _) as [bounds header_y].
  destruct (Santander.run_rows _ _ _) as [st|e] eqn:E; cbn [bind]; [|discriminate].
  intros H. injection H as <- <-. split; [reflexivity|].
  assert (Hinit : Santander.st_section
                    (Santander.mk_state L cur
                       (Some (Santander.first_section
                                (_group_rows (Santander._drop_footer_totals (p_words pg))
                                             header_y))))
                  = Some (Santander.first_section
                            (_group_rows (Santander._drop_footer_totals (p_words pg))
                                         header_y))) by reflexivity.
  destruct (run_rows_pending _ _ _ _ _ Hinit E) as [[sec Hsec] Hp].
  rewrite Hsec, flush_size. unfold pending in Hp.
  cbn [Santander.st_ledger Santander.st_current] in Hp. lia.
Qed.

Lemma run_pages_size (pages : list page) :
  forall (L L' : Santander.ledger),
    Santander.run_pages L None pages = Ok L' ->
    ledger_size L' = (ledger_size L + list_sum (map dated_rows pages))%nat.
Proof.
  induction pages as [|pg pages IH]; intros L L'; cbn [Santander.run_pages].
  - intros H. injection H as <-. cbn [map list_sum fold_right]. lia.
  - destruct (Santander.run_page L None pg) as [[L1 cur1]|e] eqn:E; cbn [bind]; [|discriminate].
    destruct (run_page_size _ _ _ _ _ E) as [-> Hs].
    intros H. rewrite (IH _ _ H), Hs.
    change (list_sum (map dated_rows (pg :: pages)))
      with (dated_rows pg + list_sum (map dated_rows pages))%nat. lia.
Qed.

(** X9. When the Santander extraction succeeds, it returns exactly one
    movement for each row that has a date in its first column and is neither
    a section header nor one of the skipped rows: the two lists together hold
    as many movements as the pages have such rows. *)
Theorem santander_one_movement_per_dated_row :
  forall (pages : list page) (L : Santander.ledger),
    Santander.movements pages = Ok L ->
    (length (Santander.movs_cheques L) + length (Santander.movs_inver L))%nat
    = list_sum (map dated_rows pages).
Proof.
  intros pages L H. unfold Santander.movements in H.
  apply run_pages_size in H. unfold ledger_size in H.
  cbn [Santander.movs_cheques Santander.movs_inver length] in H. lia.
Qed.

Lemma santander_one_movement_per_dated_row_witness :
  exists L : Santander.ledger,
    Santander.movements [Pages.sant_page_open; Pages.sant_page_next] = Ok L
    /\ (length (Santander.movs_cheques L) + length (Santander.movs_inver L))%nat
       = list_sum (map dated_rows [Pages.sant_page_open; Pages.sant_page_next]).
Proof.
  eexists. split.
  - vm_compute. reflexivity.
  - apply (santander_one_movement_per_dated_row [Pages.sant_page_open; Pages.sant_page_next]).
    vm_compute. reflexivity.
Defined.

(** ** The BBVA heuristic for amounts read as balances *)

Import Balances.

Lemma saldos_of_cleared (fo fl : option date) (d : str) (c a : Q) :
  BBVA.saldos_of (BBVA.mk_tx fo fl d c a None None) = [].
Proof. reflexivity. Qed.

Lemma saldos_of_single (tx : BBVA.TxRow) (v : Q) :
  BBVA.saldos_of tx = [v] -> held (BBVA.s_oper tx) + held (BBVA.s_liq tx) == v.
Proof.
  unfold BBVA.saldos_of. cbn [flat_map].
  destruct (BBVA.s_oper tx) as [x|], (BBVA.s_liq tx) as [y|]; cbn [held app];
    try destruct (Qis_zero x) eqn:Zx; try destruct (Qis_zero y) eqn:Zy;
    cbn [app]; intros H; try discriminate H; injection H as <-;
    try (apply Qis_zero_true in Zx); try (apply Qis_zero_true in Zy); lra.
Qed.

Lemma fix_amount_columns_cases (tx : BBVA.TxRow) :
  BBVA._maybe_fix_amount_columns tx = tx
  \/ exists v : Q,
       BBVA.saldos_of tx = [v] /\ BBVA.cargos tx == 0 /\ BBVA.abonos tx == 0
       /\ (BBVA._maybe_fix_amount_columns tx
           = BBVA.mk_tx (BBVA.f_oper tx) (BBVA.f_liq tx) (BBVA.desc tx)
                        (BBVA.cargos tx) v None None
           \/ BBVA._maybe_fix_amount_columns tx
              = BBVA.mk_tx (BBVA.f_oper tx) (BBVA.f_liq tx) (BBVA.desc tx)
                           v (BBVA.abonos tx) None None).
Proof.
  unfold BBVA._maybe_fix_amount_columns. cbv zeta.
  destruct (BBVA.saldos_of tx) as [|v [|v' rest]] eqn:Es; try (left; reflexivity).
  destruct (Qis_zero (BBVA.cargos tx)) eqn:Zc; destruct (Qis_zero (BBVA.abonos tx)) eqn:Za;
    cbn [andb]; try (left; reflexivity).
  apply Qis_zero_true in Zc, Za. right. exists v.
  split; [reflexivity|]. split; [exact Zc|]. split; [exact Za|].
  destruct (any_in BBVA.credit_kw (upper (BBVA.desc tx))
            && negb (any_in BBVA.debit_kw (upper (BBVA.desc tx))));
    [left | right]; reflexivity.
Qed.

(** X10. [_maybe_fix_amount_columns] only moves money: the dates and the
    description are kept, the sum of the four amount fields is unchanged,
    and a second application changes nothing. *)
Theorem fix_amount_columns_moves_money :
  forall (tx : BBVA.TxRow),
    BBVA._maybe_fix_amount_columns (BBVA._maybe_fix_amount_columns tx)
    = BBVA._maybe_fix_amount_columns tx
    /\ BBVA.f_oper (BBVA._maybe_fix_amount_columns tx) = BBVA.f_oper tx
    /\ BBVA.f_liq (BBVA._maybe_fix_amount_columns tx) = BBVA.f_liq tx
    /\ BBVA.desc (BBVA._maybe_fix_amount_columns tx) = BBVA.desc tx
    /\ total (BBVA._maybe_fix_amount_columns tx) == total tx.
Proof.
  intros tx.
  destruct (fix_amount_columns_cases tx) as [E | (v & Es & Zc & Za & [E | E])]; rewrite !E.
  - repeat split; reflexivity.
  - pose proof (saldos_of_single tx v Es) as Hv.
    split; [|repeat split; unfold total;
              cbn [BBVA.cargos BBVA.abonos BBVA.s_oper BBVA.s_liq held]; lra].
    unfold BBVA._maybe_fix_amount_columns. cbv zeta.
    rewrite saldos_of_cleared. reflexivity.
  - pose proof (saldos_of_single tx v Es) as Hv.
    split; [|repeat split; unfold total;
              cbn [BBVA.cargos BBVA.abonos BBVA.s_oper BBVA.s_liq held]; lra].
    unfold BBVA._maybe_fix_amount_columns. cbv zeta.
    rewrite saldos_of_cleared. reflexivity.
Qed.

(** ** One movement per dated row (BBVA) *)

Import CountingBBVA.

Lemma bbva_pending_set_current (st : BBVA.state) (c : BBVA.TxRow) :
  BBVA.current st <> None ->
  CountingBBVA.pending (BBVA.set_current st (Some c)) = CountingBBVA.pending st.
Proof.
  intros H. unfold CountingBBVA.pending, BBVA.set_current.
  cbn [BBVA.txs BBVA.current]. destruct (BBVA.current st); [reflexivity|contradiction].
Qed.

Lemma bbva_take_step (st1 st' : BBVA.state) (car abo sop sliq : str) :
  match BBVA.current st1 with
  | Some c => Ok (BBVA.set_current st1 (Some (BBVA.take_amounts c car abo sop sliq)))
  | None => Ok st1
  end = Ok st' ->
  CountingBBVA.pending st' = CountingBBVA.pending st1
  /\ BBVA.hard_stop_after_this_page st' = BBVA.hard_stop_after_this_page st1.
Proof.
  destruct (BBVA.current st1) as [c|] eqn:Ec; intros H; injection H as <-.
  - split; [|reflexivity]. apply bbva_pending_set_current. rewrite Ec. discriminate.
  - split; reflexivity.
Qed.

Lemma bbva_step_row_pending (year_hint : Z) (bounds : list (Q * Q)) (st st' : BBVA.state)
      (r : list word) :
  BBVA.step_row year_hint bounds st r = Ok st' ->
  CountingBBVA.pending st'
  = (CountingBBVA.pending st + if CountingBBVA.opens_movement bounds r then 1 else 0)%nat
  /\ BBVA.hard_stop_after_this_page st' = BBVA.hard_stop_after_this_page st.
Proof.
  unfold BBVA.step_row, CountingBBVA.opens_movement. cbv zeta.
  set (cols := BBVA._assign_cols r bounds).
  set (dp := BBVA._strip_crosspage_noise _ _).
  destruct (has_text (upper (nth 2 cols []) ++ upper (nth 3 cols [])) "DETALLE DE MOVIMIENTOS");
    cbn [negb andb]; [intros H; injection H as <-; split; [lia|reflexivity]|].
  destruct (startswith (U "—") (strip (nth 2 cols []))
            || startswith (U "- -") (strip (nth 2 cols [])));
    cbn [negb andb]; [intros H; injection H as <-; split; [lia|reflexivity]|].
  destruct (nonempty (nth 0 cols [])) eqn:Eo; destruct (nonempty (nth 1 cols [])) eqn:El;
    cbn [negb andb orb].
  1-3: destruct (BBVA.current st) as [c|] eqn:Ec.
  1-6: repeat (match goal with
               | |- context [bind ?x _] =>
                   match type of x with
                   | pyres (option date) =>
                       let e := fresh "e" in
                       destruct x as [?|e]; cbn [bind]; [|discriminate]
                   end
               end).
  1-6: (intros H; apply bbva_take_step in H; destruct H as [Hp Hh];
        rewrite Hp, Hh; unfold CountingBBVA.pending;
        cbn [BBVA.txs BBVA.current BBVA.hard_stop_after_this_page];
        rewrite ?Ec, ?length_app; cbn [length]; split; [lia|reflexivity]).
  destruct (negb _ && nonempty dp && _);
    [intros H; injection H as <-; split; [lia|reflexivity]|].
  destruct (negb _ && nonempty dp).
  - destruct (BBVA.current st) as [c|] eqn:Ec; intros H; injection H as <-;
      (split; [|reflexivity]).
    + rewrite bbva_pending_set_current by (rewrite Ec; discriminate). lia.
    + lia.
  - assert (Hmid : forall st1,
               match BBVA.current st with
               | Some c =>
                   if nonempty dp
                   then Ok (BBVA.set_current st (Some (BBVA.append_desc c dp)))
                   else Ok st
               | None => Ok st
               end = Ok st1 ->
               CountingBBVA.pending st1 = CountingBBVA.pending st
               /\ BBVA.hard_stop_after_this_page st1 = BBVA.hard_stop_after_this_page st).
    { intros st1. destruct (BBVA.current st) as [c|] eqn:Ec.
      - destruct (nonempty dp); intros H; injection H as <-; (split; [|reflexivity]).
        + apply bbva_pending_set_current. rewrite Ec. discriminate.
        + reflexivity.
      - intros H. injection H as <-. split; reflexivity. }
    match goal with
    | |- context [bind ?x _] => destruct x as [st1|e] eqn:E1; cbn [bind]; [|discriminate]
    end.
    intros H. apply bbva_take_step in H. destruct H as [Hp Hh].
    destruct (Hmid st1 eq_refl) as [Hp1 Hh1]. rewrite Hp, Hh, Hp1, Hh1. split; [lia|reflexivity].
Qed.

Lemma bbva_run_rows_pending (year_hint : Z) (bounds : list (Q * Q))
      (rows : list (list word)) :
  forall (st st' : BBVA.state) (saw : bool),
    BBVA.run_rows year_hint bounds st rows = Ok (st', saw) ->
    CountingBBVA.pending st'
    = (CountingBBVA.pending st
       + length (filter (CountingBBVA.opens_movement bounds) (scanned_rows rows)))%nat
    /\ saw = ends_at_totals rows
    /\ BBVA.hard_stop_after_this_page st' = BBVA.hard_stop_after_this_page st.
Proof.
  induction rows as [|r rows IH]; intros st st' saw;
    cbn [BBVA.run_rows scanned_rows ends_at_totals].
  - intros H. injection H as <- <-. cbn [filter length]. repeat split. lia.
  - destruct (BBVA.stop_row r) as [s|].
    + intros H. injection H as <- <-. cbn [filter length]. repeat split. lia.
    + destruct (BBVA.step_row year_hint bounds st r) as [st1|e] eqn:E; cbn [bind];
        [|discriminate].
      intros H. destruct (IH _ _ _ H) as (Hp & Hs & Hh).
      destruct (bbva_step_row_pending _ _ _ _ _ E) as [Hp1 Hh1].
      rewrite Hp, Hp1, Hh, Hh1. cbn [filter].
      destruct (CountingBBVA.opens_movement bounds r); cbn [length];
        (split; [lia|split; [exact Hs|reflexivity]]).
Qed.

Lemma bbva_run_page_pending (year_hint : Z) (st st' : BBVA.state) (pg : page) :
  BBVA.run_page year_hint st pg = Ok st' ->
  if BBVA.skipped_page pg then st' = st
  else CountingBBVA.pending st' = (CountingBBVA.pending st + CountingBBVA.dated_rows pg)%nat
       /\ BBVA.hard_stop_after_this_page st'
          = BBVA.hard_stop_after_this_page st || ends_at_totals (snd (BBVA.page_rows pg)).
Proof.
  unfold BBVA.run_page, CountingBBVA.dated_rows.
  destruct (BBVA.skipped_page pg); [intros H; injection H as <-; reflexivity|].
  destruct (BBVA.page_rows pg) as [bounds rows]. cbn [fst snd].
  destruct (BBVA.run_rows year_hint bounds st rows) as [[st1 saw]|e] eqn:E; cbn [bind];
    [|discriminate].
  destruct (bbva_run_rows_pending _ _ _ _ _ _ E) as (Hp & Hs & Hh).
  intros H. injection H as <-. cbn [BBVA.hard_stop_after_this_page].
  rewrite Hh, Hs. split; [|reflexivity].
  rewrite <- Hp. unfold CountingBBVA.pending. cbn [BBVA.txs BBVA.current]. reflexivity.
Qed.

Lemma bbva_run_pages_pending (year_hint : Z) (pages : list page) :
  forall (st st' : BBVA.state),
    BBVA.hard_stop_after_this_page st = false ->
    BBVA.run_pages year_hint st pages = Ok st' ->
    CountingBBVA.pending st'
    = (CountingBBVA.pending st
       + list_sum (map CountingBBVA.dated_rows (scanned_pages pages)))%nat.
Proof.
  induction pages as [|pg pages IH]; intros st st' Hflag;
    cbn [BBVA.run_pages scanned_pages].
  - intros H. injection H as <-. cbn [map list_sum fold_right]. lia.
  - destruct (BBVA.run_page year_hint st pg) as [st1|e] eqn:E; cbn [bind]; [|discriminate].
    apply bbva_run_page_pending in E.
    destruct (BBVA.skipped_page pg); cbn [negb andb].
    + subst st1. apply IH. exact Hflag.
    + destruct E as [Hp Hh]. rewrite Hflag in Hh. cbn [orb] in Hh. rewrite Hh.
      destruct (ends_at_totals (snd (BBVA.page_rows pg))).
      * intros H. injection H as <-. rewrite Hp. cbn [map list_sum fold_right]. lia.
      * intros H. rewrite (IH _ _ Hh H), Hp.
        change (list_sum (map CountingBBVA.dated_rows (pg :: scanned_pages pages)))
          with (CountingBBVA.dated_rows pg
                + list_sum (map CountingBBVA.dated_rows (scanned_pages pages)))%nat.
        lia.
Qed.

Lemma bbva_finish_length (st : BBVA.state) :
  length (BBVA.finish st) = CountingBBVA.pending st.
Proof.
  unfold BBVA.finish, CountingBBVA.pending. cbv zeta.
  set (txs1 := match BBVA.current st with
               | Some c => BBVA.txs st ++ [c]
               | None => BBVA.txs st
               end).
  assert (H : length txs1
              = (length (BBVA.txs st)
                 + match BBVA.current st with Some _ => 1 | None => 0 end)%nat).
  { unfold txs1. destruct (BBVA.current st); [rewrite length_app; cbn [length]; lia|lia]. }
  rewrite <- H. destruct txs1 as [|t0 [|t1 rest]]; try reflexivity.
  destruct (nonempty (BBVA.desc t1)); reflexivity.
Qed.

(** X11. When the BBVA extraction succeeds, it returns exactly one movement
    for each dated row it reads: the rows with a date in one of the first
    two columns, the table title and dashed lines apart, that stand above
    the first row that stops the scan of their page, on the pages up to and
    including the one where "Total de Movimientos" stops the scan, summary
    pages left out. *)
Theorem bbva_one_movement_per_dated_row :
  forall (year_hint : Z) (pages : list page) (movs : list BBVA.TxRow),
    BBVA.movements year_hint pages = Ok movs ->
    length movs = list_sum (map CountingBBVA.dated_rows (scanned_pages pages)).
Proof.
  intros year_hint pages movs. unfold BBVA.movements.
  destruct (BBVA.run_pages year_hint BBVA.init_state pages) as [st|e] eqn:E; cbn [bind];
    [|discriminate].
  intros H. injection H as <-. rewrite bbva_finish_length.
  assert (Hinit : BBVA.hard_stop_after_this_page BBVA.init_state = false) by reflexivity.
  rewrite (bbva_run_pages_pending _ _ _ _ Hinit E). reflexivity.
Qed.

Lemma bbva_one_movement_per_dated_row_witness :
  exists movs : list BBVA.TxRow,
    BBVA.movements 2024 [Pages.bbva_page_totals; Pages.bbva_page_next] = Ok movs
    /\ length movs
       = list_sum (map CountingBBVA.dated_rows
                       (scanned_pages [Pages.bbva_page_totals; Pages.bbva_page_next])).
Proof.
  eexists. split.
  - vm_compute. reflexivity.
  - apply (bbva_one_movement_per_dated_row 2024 [Pages.bbva_page_totals; Pages.bbva_page_next]).
    vm_compute. reflexivity.
Defined.

(** ** Dates *)

Import Dates.

Lemma make_date_calendar (y m d : Z) (dt : date) :
  make_date y m d = Ok dt -> dt = mk_date y m d /\ calendar_date dt.
Proof.
  unfold make_date.
  destruct ((1 <=? y)%Z && (y <=? 9999)%Z && (1 <=? m)%Z && (m <=? 12)%Z
            && (1 <=? d)%Z && (d <=? days_in_month y m)%Z) eqn:E; [|discriminate].
  intros H. injection H as <-. split; [reflexivity|].
  repeat (apply andb_true_iff in E; destruct E as [E ?]).
  unfold calendar_date. cbn [d_year d_month d_day]. lia.
Qed.

(** X12. Every date the three date parsers return is a date of the
    calendar: month 1 to 12 and a day that exists in that month and year.
    Banorte's dates are of the year 2000 or later, BBVA's of the year
    passed as [fallback_year]. *)
Theorem parsed_dates_are_calendar_dates :
  (forall (s : str) (d : date),
      Banorte._parse_fecha_es s = Ok d -> calendar_date d /\ (2000 <= d_year d)%Z)
  /\ (forall (token : str) (d : date),
        Santander._parse_ddmonyyyy token = Ok (Some d) -> calendar_date d)
  /\ (forall (token : str) (fallback_year : Z) (d : date),
        BBVA._parse_ddmon token fallback_year = Ok (Some d) ->
        calendar_date d /\ d_year d = fallback_year).
Proof.
  split; [|split].
  - intros s d. unfold Banorte._parse_fecha_es. cbv zeta.
    destruct (Re.rmatch_at_start _ _) as [m|]; [|discriminate].
    destruct (Re.group _ m 1) as [g1|]; [|discriminate].
    destruct (Re.group _ m 2) as [g2|]; [|discriminate].
    destruct (Re.group _ m 3) as [g3|]; [|discriminate].
    destruct (mes_get _) as [mes|]; [|discriminate].
    destruct (mes =? 0)%Z; [discriminate|].
    intros H. apply make_date_calendar in H. destruct H as [-> H]. split; [exact H|].
    cbn [d_year]. unfold int_of_digits. pose proof (digits_value_nonneg g3). lia.
  - intros token d. unfold Santander._parse_ddmonyyyy. cbv zeta.
    destruct (Re.search _ _) as [m|]; [|discriminate].
    destruct (Re.group _ m 1) as [g1|]; [|discriminate].
    destruct (Re.group _ m 2) as [g2|]; [|discriminate].
    destruct (Re.group _ m 3) as [g3|]; [|discriminate].
    destruct (mes_get _) as [mon|]; [|discriminate].
    destruct (mon =? 0)%Z; [discriminate|].
    destruct (make_date _ mon _) as [dt|e] eqn:E; [|discriminate].
    intros H. injection H as <-. apply (make_date_calendar _ _ _ _ E).
  - intros token fallback_year d. unfold BBVA._parse_ddmon. cbv zeta.
    destruct (Re.search _ _) as [m|]; [|discriminate].
    destruct (fallback_year =? 0)%Z; [discriminate|].
    destruct (Re.group _ m 1) as [g1|]; [|discriminate].
    destruct (Re.group _ m 2) as [g2|]; [|discriminate].
    destruct (mes_get _) as [mon|]; [|discriminate].
    destruct (mon =? 0)%Z; [discriminate|].
    destruct (make_date _ mon _) as [dt|e] eqn:E; cbn [bind]; [|discriminate].
    intros H. injection H as <-. apply make_date_calendar in E. destruct E as [-> E].
    split; [exact E|reflexivity].
Qed.

(** ** The rows of a Banorte section *)

Lemma rows_of_matches_length (txt : str) (ms : list Re.rmatch) :
  (length (Banorte.rows_of_matches txt ms) <= length ms)%nat.
Proof.
  induction ms as [|m ms IH]; [cbn; lia|].
  cbn [Banorte.rows_of_matches].
  destruct (match ms with
            | [] => (length txt, true)
            | m' :: _ => (Re.m_start m', false)
            end) as [next_start is_last].
  destruct (Banorte.row_of_match txt m next_start is_last); cbn [length]; lia.
Qed.

Lemma parse_section_eq (block_text : str) (period_start : option date) :
  Banorte._parse_section_to_rows block_text period_start
  = if negb (nonempty block_text) then Ok []
    else
      match
        (match Re.search Banorte._DATE_TOKEN (section_text block_text) with
         | Some mfirst =>
             if str_in (U "SALDO ANTERIOR")
                       (upper (firstn (Re.m_start mfirst) (section_text block_text)))
             then
               match (match period_start with
                      | Some p => minus_one_day p
                      | None => Ok (mk_date 1970 1 1)
                      end) with
               | Ok dprev =>
                   Ok [Banorte.mk_row dprev (U "SALDO ANTERIOR") (Some 0) (Some 0)
                         (Banorte._round2
                            (Some (match rev (Re.findall Banorte._AMOUNT_RE
                                                (firstn (Re.m_start mfirst)
                                                        (section_text block_text))) with
                                   | a :: _ => Banorte.amount_of a
                                   | [] => 0
                                   end)))]
               | Raise e => Raise e
               end
             else Ok []
         | None => Ok []
         end) with
      | Ok rows =>
          Ok (rows ++ Banorte.rows_of_matches (section_text block_text)
                        (Re.finditer Banorte._DATE_TOKEN (section_text block_text)))
      | Raise e => Raise e
      end.
Proof. reflexivity. Qed.

(** X13. [_parse_section_to_rows] returns its rows for every text: a date
    token that is no date of the calendar is passed over, not raised.  The
    one call that can raise is the subtraction of a day from the start of
    the period, for the first day of the year 1.  There are at most as many
    rows as date tokens in the text read, and one more for the opening
    balance. *)
Theorem parse_section_returns_rows :
  forall (block_text : str) (period_start : option date),
    (forall p, period_start = Some p ->
               (1 < d_day p \/ 1 < d_month p \/ 1 < d_year p)%Z) ->
    exists rows : list Banorte.row,
      Banorte._parse_section_to_rows block_text period_start = Ok rows
      /\ (length rows
          <= 1 + length (Re.finditer Banorte._DATE_TOKEN (section_text block_text)))%nat
      /\ (block_text = [] -> rows = []).
Proof.
  intros block_text period_start Hp. rewrite parse_section_eq.
  destruct (negb (nonempty block_text)) eqn:En.
  - exists []. repeat split. cbn. lia.
  - assert (Hne : block_text = [] -> False).
    { intros ->. discriminate En. }
    assert (Hprev : exists dprev,
               match period_start with
               | Some p => minus_one_day p
               | None => Ok (mk_date 1970 1 1)
               end = Ok dprev).
    { destruct period_start as [p|]; [|eexists; reflexivity].
      specialize (Hp p eq_refl). unfold minus_one_day.
      destruct (1 <? d_day p)%Z eqn:E1; [eexists; reflexivity|].
      destruct (1 <? d_month p)%Z eqn:E2; [eexists; reflexivity|].
      destruct (1 <? d_year p)%Z eqn:E3; [eexists; reflexivity|].
      apply Z.ltb_ge in E1, E2, E3. lia. }
    destruct Hprev as [dprev Eprev]. rewrite Eprev.
    pose proof (rows_of_matches_length (section_text block_text)
                  (Re.finditer Banorte._DATE_TOKEN (section_text block_text))) as Hlen.
    destruct (Re.search Banorte._DATE_TOKEN (section_text block_text)) as [mfirst|].
    + destruct (str_in _ _); eexists; (split; [reflexivity|]);
        (split; [rewrite length_app; cbn [length]; lia|intros H; destruct (Hne H)]).
    + eexists. split; [reflexivity|].
      split; [rewrite length_app; cbn [length]; lia|intros H; destruct (Hne H)].
Qed.

Lemma parse_section_returns_rows_witness :
  exists rows : list Banorte.row,
    Banorte._parse_section_to_rows (U "31-FEB-24 PAGO 10.00 90.00 01-MAR-24 ABONO 5.00 95.00")
                                   (Some (mk_date 2024 3 1)) = Ok rows
    /\ (length rows
        <= 1 + length (Re.finditer Banorte._DATE_TOKEN
                         (section_text
                            (U "31-FEB-24 PAGO 10.00 90.00 01-MAR-24 ABONO 5.00 95.00"))))%nat
    /\ (U "31-FEB-24 PAGO 10.00 90.00 01-MAR-24 ABONO 5.00 95.00" = [] -> rows = []).
Proof.
  apply (parse_section_returns_rows
           (U "31-FEB-24 PAGO 10.00 90.00 01-MAR-24 ABONO 5.00 95.00")
           (Some (mk_date 2024 3 1))).
  intros p H. injection H as <-. cbn [d_day d_month d_year]. lia.
Defined.

(** ** Movements already emitted *)

Import Ledgers.

Lemma extends_refl (L : Santander.ledger) : extends L L.
Proof. split; exists []; symmetry; apply app_nil_r. Qed.

Lemma extends_trans (A B C : Santander.ledger) : extends A B -> extends B C -> extends A C.
Proof.
  intros [[a1 Ha1] [b1 Hb1]] [[a2 Ha2] [b2 Hb2]]. split.
  - exists (a1 ++ a2). rewrite Ha2, Ha1, app_assoc. reflexivity.
  - exists (b1 ++ b2). rewrite Hb2, Hb1, app_assoc. reflexivity.
Qed.

Lemma flush_extends (cur : option Santander.TxRow) (sec : option Santander.section_key)
      (L : Santander.ledger) :
  extends L (Santander.flush_current cur sec L).
Proof.
  unfold Santander.flush_current. destruct cur as [c|]; [|apply extends_refl].
  destruct sec as [sec|]; [|apply extends_refl].
  destruct (Santander._reconcile_amounts _ _ _) as [d r].
  destruct sec; split; cbn [Santander.movs_cheques Santander.movs_inver];
    first [eexists; reflexivity | exists []; symmetry; apply app_nil_r].
Qed.

Lemma santander_step_extends (bounds : list (Q * Q)) (st st' : Santander.state)
      (r : list word) :
  Santander.step_row bounds st r = Ok st' ->
  extends (Santander.st_ledger st) (Santander.st_ledger st').
Proof.
  unfold Santander.step_row.
  destruct (Santander._row_section_marker r).
  - intros H. injection H as <-. apply flush_extends.
  - cbv zeta. destruct (Santander.skipped_row _);
      [intros H; injection H as <-; apply extends_refl|].
    destruct (Re.found Santander.DATE_TOKEN_SANT _).
    + destruct (Santander.open_row _ _) as [t|e]; cbn [bind]; [|discriminate].
      intros H. injection H as <-. apply flush_extends.
    + destruct (Santander.st_current st) as [cur|];
        [|intros H; injection H as <-; apply extends_refl].
      destruct (negb _); [destruct (nonempty _ || nonempty _ || nonempty _)|];
        intros H; injection H as <-; apply extends_refl.
Qed.

Lemma santander_run_rows_extends (bounds : list (Q * Q)) (rows : list (list word)) :
  forall st st',
    Santander.run_rows bounds st rows = Ok st' ->
    extends (Santander.st_ledger st) (Santander.st_ledger st').
Proof.
  induction rows as [|r rows IH]; intros st st'; cbn [Santander.run_rows].
  - intros H. injection H as <-. apply extends_refl.
  - destruct (Santander.step_row bounds st r) as [st1|e] eqn:E; cbn [bind]; [|discriminate].
    intros H. apply (extends_trans _ (Santander.st_ledger st1)).
    + apply (santander_step_extends _ _ _ _ E).
    + apply IH. exact H.
Qed.

Lemma santander_run_pages_extends (pages : list page) :
  forall L cur L',
    Santander.run_pages L cur pages = Ok L' -> extends L L'.
Proof.
  induction pages as [|pg pages IH]; intros L cur L'; cbn [Santander.run_pages].
  - intros H. injection H as <-. apply extends_refl.
  - unfold Santander.run_page.
    destruct (Santander._detect_columns _ _) as [bounds header_y].
    destruct (Santander.run_rows _ _ _) as [st|e] eqn:E; cbn [bind]; [|discriminate].
    intros H. apply santander_run_rows_extends in E. cbn [Santander.st_ledger] in E.
    apply (extends_trans _ _ _ E).
    apply (extends_trans _ _ _ (flush_extends (Santander.st_current st)
                                  (Santander.st_section st) (Santander.st_ledger st))).
    apply (IH _ _ _ H).
Qed.

Lemma bbva_step_row_extends (year_hint : Z) (bounds : list (Q * Q)) (st st' : BBVA.state)
      (r : list word) :
  BBVA.step_row year_hint bounds st r = Ok st' ->
  exists more, BBVA.txs st' = BBVA.txs st ++ more.
Proof.
  assert (Hrefl : exists more, BBVA.txs st = BBVA.txs st ++ more)
    by (exists []; symmetry; apply app_nil_r).
  assert (Htake : forall st1 car abo sop sliq,
             match BBVA.current st1 with
             | Some c => Ok (BBVA.set_current st1 (Some (BBVA.take_amounts c car abo sop sliq)))
             | None => Ok st1
             end = Ok st' -> BBVA.txs st' = BBVA.txs st1).
  { intros st1 car abo sop sliq. destruct (BBVA.current st1); intros H; injection H as <-;
      reflexivity. }
  unfold BBVA.step_row. cbv zeta.
  set (cols := BBVA._assign_cols r bounds).
  set (dp := BBVA._strip_crosspage_noise _ _).
  destruct (has_text _ _); [intros H; injection H as <-; exact Hrefl|].
  destruct (startswith _ _ || startswith _ _); [intros H; injection H as <-; exact Hrefl|].
  destruct (negb _ && negb _ && negb _ && nonempty dp && _);
    [intros H; injection H as <-; exact Hrefl|].
  destruct (negb _ && negb _ && negb _ && nonempty dp).
  - destruct (BBVA.current st); intros H; injection H as <-; exact Hrefl.
  - destruct (nonempty (nth 0 cols []) || nonempty (nth 1 cols [])).
    + destruct (BBVA.current st) as [c|];
        repeat (match goal with
                | |- context [bind ?x _] =>
                    match type of x with
                    | pyres (option date) =>
                        let e := fresh "e" in
                        destruct x as [?|e]; cbn [bind]; [|discriminate]
                    end
                end);
        intros H; apply Htake in H; rewrite H; cbn [BBVA.txs];
        [eexists; reflexivity|exact Hrefl].
    + destruct (BBVA.current st) as [c|]; [destruct (nonempty dp)|]; cbn [bind];
        intros H; apply Htake in H; rewrite H; exact Hrefl.
Qed.

Lemma bbva_run_rows_extends (year_hint : Z) (bounds : list (Q * Q))
      (rows : list (list word)) :
  forall st st' saw,
    BBVA.run_rows year_hint bounds st rows = Ok (st', saw) ->
    exists more, BBVA.txs st' = BBVA.txs st ++ more.
Proof.
  induction rows as [|r rows IH]; intros st st' saw; cbn [BBVA.run_rows].
  - intros H. injection H as <- <-. exists []. symmetry. apply app_nil_r.
  - destruct (BBVA.stop_row r).
    + intros H. injection H as <- <-. exists []. symmetry. apply app_nil_r.
    + destruct (BBVA.step_row year_hint bounds st r) as [st1|e] eqn:E; cbn [bind];
        [|discriminate].
      intros H. destruct (bbva_step_row_extends _ _ _ _ _ E) as [m1 H1].
      destruct (IH _ _ _ H) as [m2 H2]. exists (m1 ++ m2).
      rewrite H2, H1, app_assoc. reflexivity.
Qed.

Lemma bbva_run_page_extends (year_hint : Z) (st st1 : BBVA.state) (pg : page) :
  BBVA.run_page year_hint st pg = Ok st1 ->
  exists more, BBVA.txs st1 = BBVA.txs st ++ more.
Proof.
  unfold BBVA.run_page. destruct (BBVA.skipped_page pg).
  - intros H. injection H as <-. exists []. symmetry. apply app_nil_r.
  - destruct (BBVA.page_rows pg) as [bounds rows].
    destruct (BBVA.run_rows year_hint bounds st rows) as [[s saw]|e] eqn:E; cbn [bind];
      [|discriminate].
    intros H. injection H as <-. cbn [BBVA.txs].
    apply (bbva_run_rows_extends _ _ _ _ _ _ E).
Qed.

Lemma bbva_run_pages_extends (year_hint : Z) (pages : list page) :
  forall st st',
    BBVA.run_pages year_hint st pages = Ok st' ->
    exists more, BBVA.txs st' = BBVA.txs st ++ more.
Proof.
  induction pages as [|pg pages IH]; intros st st'; cbn [BBVA.run_pages].
  - intros H. injection H as <-. exists []. symmetry. apply app_nil_r.
  - destruct (BBVA.run_page year_hint st pg) as [st1|e] eqn:E1; cbn [bind]; [|discriminate].
    destruct (bbva_run_page_extends _ _ _ _ E1) as [m1 H1].
    destruct (negb (BBVA.skipped_page pg) && BBVA.hard_stop_after_this_page st1).
    + intros H. injection H as <-. exists m1. exact H1.
    + intros H. destruct (IH _ _ H) as [m2 H2]. exists (m1 ++ m2).
      rewrite H2, H1, app_assoc. reflexivity.
Qed.

(** X14. The page loops only append: the movements the Santander loop has
    emitted into its two lists, and the movements the BBVA loop has closed,
    are still there, unchanged and in the same order, when the loop over the
    following rows and pages is done. *)
Theorem emitted_movements_are_kept :
  (forall (pages : list page) (L L' : Santander.ledger) (cur : option Santander.TxRow),
      Santander.run_pages L cur pages = Ok L' -> extends L L')
  /\ (forall (year_hint : Z) (pages : list page) (st st' : BBVA.state),
        BBVA.run_pages year_hint st pages = Ok st' ->
        exists more, BBVA.txs st' = BBVA.txs st ++ more).
Proof.
  split.
  - intros pages L L' cur H. apply (santander_run_pages_extends _ _ _ _ H).
  - intros year_hint pages st st' H. apply (bbva_run_pages_extends _ _ _ _ H).
Qed.

(** ** The section a Santander movement goes to *)

Lemma first_section_default (rows : list (list word)) :
  Forall (fun r => Santander._row_section_marker r = None) rows ->
  Santander.first_section rows = Santander.CUENTA.
Proof.
  intros H. unfold Santander.first_section.
  assert (E : flat_map (fun r => match Santander._row_section_marker r with
                                 | Some s => [s]
                                 | None => []
                                 end) rows = []).
  { induction H as [|r rows Hr _ IH]; [reflexivity|].
    cbn [flat_map]. rewrite Hr, IH. reflexivity. }
  rewrite E. reflexivity.
Qed.

Lemma flush_cuenta (cur : option Santander.TxRow) (L : Santander.ledger) :
  Santander.movs_inver (Santander.flush_current cur (Some Santander.CUENTA) L)
  = Santander.movs_inver L.
Proof.
  unfold Santander.flush_current. destruct cur as [c|]; [|reflexivity].
  destruct (Santander._reconcile_amounts _ _ _) as [d r]. reflexivity.
Qed.

Lemma run_rows_cuenta (bounds : list (Q * Q)) (rows : list (list word)) :
  Forall (fun r => Santander._row_section_marker r = None) rows ->
  forall st st',
    Santander.st_section st = Some Santander.CUENTA ->
    Santander.run_rows bounds st rows = Ok st' ->
    Santander.st_section st' = Some Santander.CUENTA
    /\ Santander.movs_inver (Santander.st_ledger st')
       = Santander.movs_inver (Santander.st_ledger st).
Proof.
  induction 1 as [|r rows Hr _ IH]; intros st st' Hsec; cbn [Santander.run_rows].
  - intros H. injection H as <-. split; [exact Hsec|reflexivity].
  - destruct (Santander.step_row bounds st r) as [st1|e] eqn:E; cbn [bind]; [|discriminate].
    assert (H1 : Santander.st_section st1 = Some Santander.CUENTA
                 /\ Santander.movs_inver (Santander.st_ledger st1)
                    = Santander.movs_inver (Santander.st_ledger st)).
    { revert E. unfold Santander.step_row. rewrite Hr. cbv zeta.
      destruct (Santander.skipped_row _);
        [intros H; injection H as <-; split; [exact Hsec|reflexivity]|].
      destruct (Re.found Santander.DATE_TOKEN_SANT _).
      - destruct (Santander.open_row _ _) as [t|e]; cbn [bind]; [|discriminate].
        intros H. injection H as <-. cbn [Santander.st_section Santander.st_ledger].
        split; [exact Hsec|]. rewrite Hsec. apply flush_cuenta.
      - destruct (Santander.st_current st) as [c|];
          [|intros H; injection H as <-; split; [exact Hsec|reflexivity]].
        destruct (negb _); [destruct (nonempty _ || nonempty _ || nonempty _)|];
          intros H; injection H as <-; (split; [exact Hsec|reflexivity]). }
    destruct H1 as [Hs1 Hi1]. intros H. destruct (IH _ _ Hs1 H) as [Hs Hi].
    split; [exact Hs|]. rewrite Hi. exact Hi1.
Qed.

(** X15. On a page without a section header every movement is a movement of
    the cheque account: the list of the investment account is the same
    after the page as before it. *)
Theorem page_without_header_is_cheques :
  forall (L L' : Santander.ledger) (cur cur' : option Santander.TxRow) (pg : page),
    Forall (fun r => Santander._row_section_marker r = None) (snd (santander_page_rows pg)) ->
    Santander.run_page L cur pg = Ok (L', cur') ->
    Santander.movs_inver L' = Santander.movs_inver L.
Proof.
  intros L L' cur cur' pg. unfold Santander.run_page, santander_page_rows. cbv zeta.
  destruct (Santander._detect_columns _ _) as [bounds header_y]. cbn [snd].
  intros Hrows. rewrite (first_section_default _ Hrows).
  destruct (Santander.run_rows _ _ _) as [st|e] eqn:E; cbn [bind]; [|discriminate].
  intros H. injection H as <- _.
  assert (Hinit : Santander.st_section
                    (Santander.mk_state L cur (Some Santander.CUENTA))
                  = Some Santander.CUENTA) by reflexivity.
  destruct (run_rows_cuenta bounds _ Hrows _ _ Hinit E) as [Hs Hi].
  rewrite Hs, flush_cuenta. exact Hi.
Qed.

Lemma page_without_header_is_cheques_witness :
  exists L' : Santander.ledger,
    Santander.run_page (Santander.mk_ledger [] []) None Pages.sant_page_open = Ok (L', None)
    /\ Santander.movs_inver L' = Santander.movs_inver (Santander.mk_ledger [] []).
Proof.
  eexists. split.
  - vm_compute. reflexivity.
  - apply (page_without_header_is_cheques (Santander.mk_ledger [] []) _ None None
             Pages.sant_page_open).
    + vm_compute. repeat constructor.
    + vm_compute. reflexivity.
Defined.

(* ===================================================================== *)
(** * The Inbursa extractor *)
(* ===================================================================== *)

Import Sheet.

Lemma absorb_last (before : list Inbursa.row) (prev : Inbursa.row) (desc : str) :
  Inbursa.absorb (before ++ [prev]) desc
  = before ++ [Inbursa.mk_row (Inbursa.Fecha prev) (Inbursa.Referencia prev)
                 (Inbursa._clean (Some (Inbursa.Descripcion prev ++ U " " ++ desc)))
                 (Inbursa.Cargos prev) (Inbursa.Abonos prev) (Inbursa.Saldo prev)].
Proof.
  unfold Inbursa.absorb. rewrite rev_app_distr. cbn [rev app].
  rewrite rev_involutive. reflexivity.
Qed.

Lemma absorb_cells (out : list Inbursa.row) (desc : str) :
  map cells (Inbursa.absorb out desc) = map cells out.
Proof.
  destruct (rev out) as [|prev before] eqn:E.
  - unfold Inbursa.absorb. rewrite E. reflexivity.
  - assert (Hout : out = rev before ++ [prev]).
    { rewrite <- (rev_involutive out), E. reflexivity. }
    rewrite Hout, absorb_last, !map_app. reflexivity.
Qed.

Lemma absorb_some_items (out : list Inbursa.row) (desc : str) :
  Inbursa.some_items (Inbursa.absorb out desc) = Inbursa.some_items out.
Proof.
  assert (H : map cells (Inbursa.absorb out desc) = map cells out) by apply absorb_cells.
  destruct out, (Inbursa.absorb _ desc); try reflexivity; discriminate.
Qed.

Lemma merge_loop_cells (df out : list Inbursa.row) :
  Inbursa.some_items out = true ->
  map cells
      (fold_left
         (fun out r =>
            if Inbursa.orphan r && Inbursa.some_items out
            then Inbursa.absorb out (strip (Inbursa.Descripcion r))
            else out ++ [r]) df out)
  = map cells out ++ map cells (filter (fun r => negb (Inbursa.orphan r)) df).
Proof.
  revert out. induction df as [|r df IH]; intros out Hout; cbn [fold_left filter map].
  - rewrite app_nil_r. reflexivity.
  - rewrite Hout, andb_true_r. destruct (Inbursa.orphan r); cbn [negb].
    + rewrite IH by (rewrite absorb_some_items; exact Hout).
      rewrite absorb_cells. reflexivity.
    + rewrite IH by (destruct out; reflexivity).
      rewrite map_app, <- app_assoc. reflexivity.
Qed.

Lemma merge_cells (df : list Inbursa.row) :
  map cells (Inbursa._merge_orphan_rows df) = map cells (kept df).
Proof.
  unfold Inbursa._merge_orphan_rows. destruct df as [|r df]; [reflexivity|].
  cbn [fold_left Inbursa.some_items kept]. rewrite andb_false_r. cbn [app].
  rewrite merge_loop_cells by reflexivity. reflexivity.
Qed.

Lemma present_cells (col : Inbursa.row -> option Q) (pick : _ -> option Q) (a b : list Inbursa.row) :
  (forall r, col r = pick (cells r)) ->
  map cells a = map cells b -> present col a = present col b.
Proof.
  intros Hcol. revert b. induction a as [|x a IH]; intros [|y b] H; try discriminate.
  - reflexivity.
  - cbn [map] in H.
    assert (Hxy : cells x = cells y) by exact (f_equal (hd (cells x)) H).
    assert (Hab : map cells a = map cells b) by exact (f_equal (@tl _) H).
    cbn [present flat_map]. rewrite !Hcol, Hxy. f_equal. apply IH. exact Hab.
Qed.

Lemma present_without_orphans (col : Inbursa.row -> option Q) (df : list Inbursa.row) :
  (forall r, Inbursa.orphan r = true -> col r = None) ->
  present col (filter (fun r => negb (Inbursa.orphan r)) df) = present col df.
Proof.
  intros Hcol. induction df as [|r df IH]; [reflexivity|].
  cbn [filter]. destruct (Inbursa.orphan r) eqn:E; cbn [negb present flat_map].
  - rewrite (Hcol r E). cbn [app]. exact IH.
  - f_equal. exact IH.
Qed.

Lemma orphan_inv (r : Inbursa.row) :
  Inbursa.orphan r = true ->
  Inbursa.blank (Inbursa.Referencia r) = true
  /\ Inbursa.Cargos r = None /\ Inbursa.Abonos r = None /\ Inbursa.Saldo r = None.
Proof.
  unfold Inbursa.orphan. intros H.
  apply andb_prop in H. destruct H as [H _].
  apply andb_prop in H. destruct H as [Hb H].
  apply andb_prop in H. destruct H as [H Hs].
  apply andb_prop in H. destruct H as [Hc Ha].
  destruct (Inbursa.Cargos r), (Inbursa.Abonos r), (Inbursa.Saldo r); try discriminate.
  auto.
Qed.

Lemma present_kept (col : Inbursa.row -> option Q) (df : list Inbursa.row) :
  (forall r, Inbursa.orphan r = true -> col r = None) ->
  present col (kept df) = present col df.
Proof.
  intros Hcol. destruct df as [|r df]; [reflexivity|].
  cbn [kept present flat_map]. f_equal. apply present_without_orphans. exact Hcol.
Qed.

Lemma references_cells (a b : list Inbursa.row) :
  map cells a = map cells b -> references a = references b.
Proof.
  intros H. unfold references. f_equal.
  revert b H. induction a as [|x a IH]; intros [|y b] H; try discriminate; [reflexivity|].
  cbn [map] in *.
  assert (Hxy : cells x = cells y) by exact (f_equal (hd (cells x)) H).
  assert (Hab : map cells a = map cells b) by exact (f_equal (@tl _) H).
  f_equal; [|apply IH; exact Hab].
  exact (f_equal (fun c => snd (fst (fst (fst c)))) Hxy).
Qed.

Lemma references_kept (df : list Inbursa.row) : references (kept df) = references df.
Proof.
  destruct df as [|r df]; [reflexivity|]. unfold references. cbn [kept map filter].
  assert (H : filter (fun s => negb (Inbursa.blank s))
                (map Inbursa.Referencia (filter (fun r => negb (Inbursa.orphan r)) df))
              = filter (fun s => negb (Inbursa.blank s)) (map Inbursa.Referencia df)).
  { induction df as [|x df IH]; [reflexivity|].
    cbn [filter map]. destruct (Inbursa.orphan x) eqn:E; cbn [negb map filter].
    - destruct (orphan_inv x E) as (-> & _). cbn [negb]. exact IH.
    - rewrite IH. reflexivity. }
  rewrite H. reflexivity.
Qed.

(** X16  [_merge_orphan_rows] only removes orphan rows and only rewrites
    descriptions: the rows it returns are the first row and the later rows
    that are not orphans, each with its date, reference and amounts as they
    were.  So every amount and every reference of the sheet is still there,
    in the same order. *)
Theorem merge_orphan_rows_keeps_cells :
  forall df : list Inbursa.row,
    map cells (Inbursa._merge_orphan_rows df) = map cells (kept df)
    /\ present Inbursa.Cargos (Inbursa._merge_orphan_rows df) = present Inbursa.Cargos df
    /\ present Inbursa.Abonos (Inbursa._merge_orphan_rows df) = present Inbursa.Abonos df
    /\ present Inbursa.Saldo (Inbursa._merge_orphan_rows df) = present Inbursa.Saldo df
    /\ references (Inbursa._merge_orphan_rows df) = references df.
Proof.
  intros df. pose proof (merge_cells df) as H. split; [exact H|].
  repeat split.
  - rewrite (present_cells Inbursa.Cargos (fun c => snd (fst (fst c))) _ _ (fun r => eq_refl) H).
    apply present_kept. intros r Hr. apply (orphan_inv r Hr).
  - rewrite (present_cells Inbursa.Abonos (fun c => snd (fst c)) _ _ (fun r => eq_refl) H).
    apply present_kept. intros r Hr. apply (orphan_inv r Hr).
  - rewrite (present_cells Inbursa.Saldo (fun c => snd c) _ _ (fun r => eq_refl) H).
    apply present_kept. intros r Hr. apply (orphan_inv r Hr).
  - rewrite (references_cells _ _ H). apply references_kept.
Qed.

(** ** Column bands *)

Import Places.

Lemma str_eqb_refl (a : str) : str_eqb a a = true.
Proof.
  induction a as [|c a IH]; [reflexivity|]. cbn [str_eqb]. rewrite N.eqb_refl. exact IH.
Qed.

Lemma str_eqb_eq (a b : str) : str_eqb a b = true -> a = b.
Proof.
  revert b. induction a as [|c a IH]; intros [|d b] H; try discriminate; [reflexivity|].
  cbn [str_eqb] in H. apply andb_prop in H. destruct H as [Hc H].
  apply N.eqb_eq in Hc. subst d. f_equal. apply IH. exact H.
Qed.

Lemma dict_get_absent {V : Type} (k : str) (d : Inbursa.dict V) :
  ~ In k (map fst d) -> Inbursa.dict_get k d = None.
Proof.
  induction d as [|[k' v] d IH]; intros Hk; [reflexivity|].
  cbn [Inbursa.dict_get]. destruct (str_eqb k' k) eqn:E.
  - exfalso. apply Hk. left. apply str_eqb_eq. exact E.
  - apply IH. intros Hin. apply Hk. right. exact Hin.
Qed.

Lemma dict_set_fresh {V : Type} (k : str) (v : V) (d : Inbursa.dict V) :
  Inbursa.dict_get k d = None -> Inbursa.dict_set k v d = d ++ [(k, v)].
Proof.
  induction d as [|[k' v'] d IH]; intros H; [reflexivity|].
  cbn [Inbursa.dict_get Inbursa.dict_set] in *.
  destruct (str_eqb k' k); [discriminate|]. rewrite IH by exact H. reflexivity.
Qed.

(** A loop of [d[k] = v] over distinct new keys appends its items. *)
Lemma dict_fill {V I : Type} (step : Inbursa.dict V -> I -> Inbursa.dict V)
      (key : I -> str) (val : I -> V) :
  (forall d i, step d i = Inbursa.dict_set (key i) (val i) d) ->
  forall (items : list I) (acc : Inbursa.dict V),
    NoDup (map fst acc ++ map key items) ->
    fold_left step items acc = acc ++ map (fun i => (key i, val i)) items.
Proof.
  intros Hstep items. induction items as [|i items IH]; intros acc Hnd; cbn [fold_left map].
  - rewrite app_nil_r. reflexivity.
  - rewrite Hstep, dict_set_fresh.
    + rewrite IH.
      * rewrite <- app_assoc. reflexivity.
      * rewrite map_app. cbn [map fst]. rewrite <- app_assoc. exact Hnd.
    + apply dict_get_absent. cbn [map] in Hnd.
      apply NoDup_remove_2 in Hnd. intros Hin. apply Hnd. apply in_or_app. left. exact Hin.
Qed.

Lemma chain_index (whole : list (str * Q)) :
  forall (suf pre : list (str * Q)),
    whole = pre ++ suf ->
    map (fun ik : nat * str =>
           (snd ik,
            (left_at (map snd whole) (fst ik),
             if Nat.eqb (fst ik) (length (map fst whole) - 1) then Inbursa.PosInf
             else Inbursa.Fin ((nth (fst ik) (map snd whole) 0
                                + nth (fst ik + 1) (map snd whole) 0) / 2))))
        (combine (seq (length pre) (length suf)) (map fst suf))
    = chain (left_at (map snd whole) (length pre)) suf.
Proof.
  induction suf as [|[k x] rest IH]; intros pre Hw; [reflexivity|].
  cbn [length seq map fst combine snd].
  assert (Hx : nth (length pre) (map snd whole) 0 = x).
  { rewrite Hw, map_app. cbn [map snd].
    rewrite <- (length_map snd pre). apply nth_middle. }
  assert (Hlen : length (map fst whole) = (length pre + S (length rest))%nat).
  { rewrite length_map, Hw, length_app. reflexivity. }
  assert (Hnext : whole = (pre ++ [(k, x)]) ++ rest).
  { rewrite <- app_assoc. exact Hw. }
  specialize (IH (pre ++ [(k, x)]) Hnext).
  rewrite length_app in IH. cbn [length] in IH. rewrite Nat.add_1_r in IH.
  rewrite IH. clear IH.
  destruct rest as [|[k' x'] rest].
  - cbn [chain]. rewrite Hlen. cbn [length].
    replace (length pre + 1 - 1)%nat with (length pre) by lia.
    rewrite Nat.eqb_refl. reflexivity.
  - cbn [chain]. rewrite Hlen. cbn [length].
    replace (Nat.eqb (length pre) (length pre + S (S (length rest)) - 1)) with false
      by (symmetry; apply Nat.eqb_neq; lia).
    assert (Hx' : nth (length pre + 1) (map snd whole) 0 = x').
    { rewrite Hnext, map_app. cbn [map snd].
      replace (length pre + 1)%nat with (length (map snd (pre ++ [(k, x)])))
        by (rewrite length_map, length_app; reflexivity).
      apply nth_middle. }
    rewrite Hx, Hx'.
    assert (Hleft : left_at (map snd whole) (S (length pre)) = Inbursa.Fin ((x + x') / 2)).
    { unfold left_at. cbn [Nat.eqb]. rewrite Nat.sub_succ, Nat.sub_0_r.
      rewrite <- Nat.add_1_r, Hx, Hx'. reflexivity. }
    rewrite Hleft. reflexivity.
Qed.

Lemma by_centre_keys (centers : Inbursa.dict Q) :
  NoDup (map fst centers) -> NoDup (map fst (by_centre centers)).
Proof.
  intros H. eapply Permutation_NoDup; [|exact H].
  apply Permutation_map. apply sorted_by_perm.
Qed.

(** The bands of [_build_xbands] are those of [chain], from minus infinity. *)
Lemma build_xbands_chain (centers : Inbursa.dict Q) :
  NoDup (map fst centers) ->
  Inbursa._build_xbands centers = chain Inbursa.NegInf (by_centre centers).
Proof.
  intros Hnd. unfold Inbursa._build_xbands. fold (by_centre centers).
  set (cols := by_centre centers).
  rewrite (dict_fill _ (fun ik : nat * str => snd ik)
             (fun ik : nat * str =>
                (left_at (map snd cols) (fst ik),
                 if Nat.eqb (fst ik) (length (map fst cols) - 1) then Inbursa.PosInf
                 else Inbursa.Fin ((nth (fst ik) (map snd cols) 0
                                    + nth (fst ik + 1) (map snd cols) 0) / 2)))).
  - cbn [app].
    rewrite length_map.
    rewrite <- (length_map fst cols) at 1.
    pose proof (chain_index cols cols [] eq_refl) as H. cbn [length] in H.
    rewrite length_map in H. rewrite length_map. exact H.
  - intros d ik. reflexivity.
  - cbn [map app].
    replace (map (fun ik : nat * str => snd ik) (combine (seq 0 (length (map fst cols))) (map fst cols)))
      with (map fst cols).
    + apply by_centre_keys. exact Hnd.
    + generalize 0%nat. generalize (map fst cols). intros l.
      induction l as [|a l IH]; intros n; [reflexivity|].
      cbn [length seq combine map snd]. f_equal. apply IH.
Qed.

Lemma by_centre_sorted (centers : Inbursa.dict Q) :
  Sorted (fun a b : str * Q => snd a <= snd b) (by_centre centers).
Proof.
  apply sorted_by_Sorted with (leb := fun a b : str * Q => Qle_bool (snd a) (snd b)).
  - intros x y H. apply Qle_bool_iff. exact H.
  - intros x y H. destruct (Qlt_le_dec (snd y) (snd x)) as [Hlt|Hle].
    + apply Qlt_le_weak. exact Hlt.
    + apply Qle_bool_iff in Hle. rewrite Hle in H. discriminate.
Qed.

Lemma Qle_bool_false (a b : Q) : b < a -> Qle_bool a b = false.
Proof.
  intros H. destruct (Qle_bool a b) eqn:E; [|reflexivity].
  apply Qle_bool_iff in E. lra.
Qed.

Lemma Qle_bool_true (a b : Q) : a <= b -> Qle_bool a b = true.
Proof. intros H. apply Qle_bool_iff. exact H. Qed.

Lemma half_sum (a b : Q) : 2 * ((a + b) / 2) == a + b.
Proof. field. Qed.

(** No band of a chain that starts right of [x] holds [x]. *)
Lemma chain_right_of (cols : list (str * Q)) :
  forall (m x : Q),
    Sorted (fun a b : str * Q => snd a <= snd b) cols ->
    (forall k xh rest, cols = (k, xh) :: rest -> m <= xh) ->
    x < m ->
    holders x (chain (Inbursa.Fin m) cols) = [].
Proof.
  induction cols as [|[k xh] rest IH]; intros m x Hs Hm Hx; [reflexivity|].
  specialize (Hm k xh rest eq_refl).
  destruct rest as [|[k' x'] rest]; cbn [chain]; unfold holders; cbn [filter snd].
  - unfold Inbursa.in_xband. cbn [fst snd Inbursa.bound_le].
    rewrite (Qle_bool_false m x Hx). reflexivity.
  - unfold Inbursa.in_xband at 1. cbn [fst snd Inbursa.bound_le].
    rewrite (Qle_bool_false m x Hx). cbn [andb].
    inversion Hs as [|? ? Hs' Hhd]; subst. inversion Hhd as [|? ? Hle]; subst.
    cbn [snd] in Hle. pose proof (half_sum xh x') as Hhalf.
    apply (IH ((xh + x') / 2) x Hs').
    + intros k0 x0 r0 E. injection E as _ <- _. lra.
    + lra.
Qed.

(** Exactly one band of a chain that starts at or left of [x] holds [x]. *)
Lemma chain_one (cols : list (str * Q)) :
  forall (left : Inbursa.bound) (x : Q),
    cols <> [] ->
    Sorted (fun a b : str * Q => snd a <= snd b) cols ->
    (forall m k xh rest, left = Inbursa.Fin m -> cols = (k, xh) :: rest -> m <= xh) ->
    Inbursa.bound_le left x = true ->
    length (holders x (chain left cols)) = 1%nat.
Proof.
  induction cols as [|[k xh] rest IH]; intros left x Hne Hs Hm Hx; [congruence|].
  destruct rest as [|[k' x'] rest]; cbn [chain]; unfold holders; cbn [filter snd].
  - unfold Inbursa.in_xband. cbn [fst snd Inbursa.lt_bound]. rewrite Hx. reflexivity.
  - unfold Inbursa.in_xband at 1. cbn [fst snd Inbursa.lt_bound]. rewrite Hx. cbn [andb].
    inversion Hs as [|? ? Hs' Hhd]; subst. inversion Hhd as [|? ? Hle]; subst.
    cbn [snd] in Hle. pose proof (half_sum xh x') as Hhalf.
    destruct (Qltb x ((xh + x') / 2)) eqn:E.
    + apply Qltb_true in E. cbn [length]. f_equal.
      change (length (holders x (chain (Inbursa.Fin ((xh + x') / 2)) ((k', x') :: rest))) = 0%nat).
      rewrite chain_right_of; [reflexivity|exact Hs'| |exact E].
      intros k0 x0 r0 E0. injection E0 as _ <- _. lra.
    + apply Qltb_false in E.
      apply (IH (Inbursa.Fin ((xh + x') / 2)) x); [discriminate|exact Hs'| |].
      * intros m k0 x0 r0 Em E0. injection Em as <-. injection E0 as _ <- _. lra.
      * cbn [Inbursa.bound_le]. apply Qle_bool_true. exact E.
Qed.

Lemma xbands_one_holder (centers : Inbursa.dict Q) (x : Q) :
  centers <> [] -> NoDup (map fst centers) ->
  length (holders x (Inbursa._build_xbands centers)) = 1%nat.
Proof.
  intros Hne Hnd. rewrite build_xbands_chain by exact Hnd.
  apply chain_one.
  - intros E. apply Hne. apply Permutation_nil.
    rewrite <- E. apply Permutation_sym. apply sorted_by_perm.
  - apply by_centre_sorted.
  - intros m k xh rest Em. discriminate.
  - reflexivity.
Qed.

Lemma band_of_holder (x : Q) (bands : Inbursa.dict (Inbursa.bound * Inbursa.bound)) :
  Inbursa.band_of x bands
  = match holders x bands with kb :: _ => Some (fst kb) | [] => None end.
Proof.
  induction bands as [|[k b] bands IH]; [reflexivity|].
  cbn [Inbursa.band_of]. unfold holders. cbn [filter snd].
  destruct (Inbursa.in_xband x b); [reflexivity|exact IH].
Qed.

Lemma band_of_key (x : Q) (bands : Inbursa.dict (Inbursa.bound * Inbursa.bound)) (k : str) :
  Inbursa.band_of x bands = Some k -> In k (map fst bands).
Proof.
  induction bands as [|[k' b] bands IH]; [discriminate|].
  cbn [Inbursa.band_of map fst]. destruct (Inbursa.in_xband x b).
  - intros E. injection E as <-. left. reflexivity.
  - intros E. right. apply IH. exact E.
Qed.

Lemma dict_append_keys (k : str) (w : word) (out : Inbursa.dict (list word)) :
  map fst (Inbursa.dict_append k w out) = map fst out.
Proof.
  induction out as [|[k' ws] out IH]; [reflexivity|].
  cbn [Inbursa.dict_append]. destruct (str_eqb k' k); cbn [map fst]; [reflexivity|].
  rewrite IH. reflexivity.
Qed.

Lemma dict_append_placed (k : str) (w : word) (out : Inbursa.dict (list word)) :
  In k (map fst out) ->
  Permutation (placed (Inbursa.dict_append k w out)) (placed out ++ [w]).
Proof.
  unfold placed. induction out as [|[k' ws] out IH]; intros Hin; [destruct Hin|].
  cbn [Inbursa.dict_append]. destruct (str_eqb k' k) eqn:E; cbn [map snd concat].
  - rewrite <- !app_assoc. apply Permutation_app_head. apply Permutation_app_comm.
  - rewrite <- app_assoc. apply Permutation_app_head. apply IH.
    destruct Hin as [Hk|Hin]; [|exact Hin].
    cbn [fst] in Hk. subst k'. rewrite str_eqb_refl in E. discriminate.
Qed.

Lemma place_loop (bands : Inbursa.dict (Inbursa.bound * Inbursa.bound)) :
  (forall x, Inbursa.band_of x bands <> None) ->
  forall (ws : list word) (out : Inbursa.dict (list word)),
    map fst out = map fst bands ->
    Permutation
      (placed (fold_left
                 (fun out w =>
                    match Inbursa.band_of (x_center w) bands with
                    | Some k => Inbursa.dict_append k w out
                    | None => out
                    end) ws out))
      (placed out ++ ws).
Proof.
  intros Hall ws. induction ws as [|w ws IH]; intros out Hkeys; cbn [fold_left].
  - rewrite app_nil_r. apply Permutation_refl.
  - destruct (Inbursa.band_of (x_center w) bands) as [k|] eqn:E;
      [|exfalso; exact (Hall _ E)].
    eapply Permutation_trans.
    + apply IH. rewrite dict_append_keys. exact Hkeys.
    + change (w :: ws) with ([w] ++ ws). rewrite app_assoc.
      apply Permutation_app_tail. apply dict_append_placed.
      rewrite Hkeys. apply (band_of_key _ _ _ E).
Qed.

Lemma placed_empty {B : Type} (bands : list (str * B)) :
  placed (map (fun kb : str * B => (fst kb, @nil word)) bands) = [].
Proof.
  unfold placed. induction bands as [|b bands IH]; [reflexivity|].
  cbn [map snd concat app]. exact IH.
Qed.

Lemma place_words_perm (line : list word)
      (bands : Inbursa.dict (Inbursa.bound * Inbursa.bound)) :
  (forall x, Inbursa.band_of x bands <> None) ->
  Permutation (placed (Inbursa.place_words line bands)) line.
Proof.
  intros Hall. unfold Inbursa.place_words.
  eapply Permutation_trans; [apply (place_loop bands Hall)|].
  - rewrite map_map. reflexivity.
  - rewrite placed_empty. cbn [app]. apply Permutation_sym. apply sorted_by_perm.
Qed.

(** What [d[k] = v] does to the words of the buckets: the words of [k] are
    replaced, the others stay. *)
Lemma dict_set_placed (k : str) (d : Inbursa.dict (list word)) :
  exists others : list word,
    Permutation (placed d)
                (match Inbursa.dict_get k d with Some ws => ws | None => [] end ++ others)
    /\ forall v, Permutation (placed (Inbursa.dict_set k v d)) (v ++ others).
Proof.
  unfold placed. induction d as [|[k' ws] d IH].
  - exists []. split; [apply Permutation_refl|].
    intros v. cbn. apply Permutation_refl.
  - cbn [Inbursa.dict_get Inbursa.dict_set]. destruct (str_eqb k' k).
    + exists (concat (map snd d)). split; [apply Permutation_refl|].
      intros v. apply Permutation_refl.
    + destruct IH as (others & H1 & H2). exists (ws ++ others). split.
      * cbn [map snd concat].
        eapply Permutation_trans; [apply Permutation_app_head; exact H1|].
        rewrite !app_assoc. apply Permutation_app_tail. apply Permutation_app_comm.
      * intros v. cbn [map snd concat].
        eapply Permutation_trans; [apply Permutation_app_head; apply H2|].
        rewrite !app_assoc. apply Permutation_app_tail. apply Permutation_app_comm.
Qed.

Lemma move_to_concepto_perm (col : string) (keep : word -> bool)
      (out : Inbursa.dict (list word)) :
  Permutation (placed (Inbursa.move_to_concepto col keep out)) (placed out).
Proof.
  unfold Inbursa.move_to_concepto.
  destruct (Inbursa.dict_mem (U col) out && Inbursa.dict_mem (U "CONCEPTO") out);
    [|apply Permutation_refl].
  cbv zeta. unfold Inbursa.words_at.
  destruct (dict_set_placed (U col) out) as (r1 & Hout & Hset1).
  set (ws := match Inbursa.dict_get (U col) out with Some ws => ws | None => [] end) in *.
  set (out1 := Inbursa.dict_set (U col) (filter keep ws) out).
  destruct (dict_set_placed (U "CONCEPTO") out1) as (r2 & Hout1 & Hset2).
  set (c := match Inbursa.dict_get (U "CONCEPTO") out1 with Some ws => ws | None => [] end) in *.
  eapply Permutation_trans; [apply Hset2|].
  eapply Permutation_trans; [|apply Permutation_sym; exact Hout].
  eapply Permutation_trans.
  { rewrite <- app_assoc. apply Permutation_app_head. apply Permutation_app_comm. }
  rewrite app_assoc.
  eapply Permutation_trans.
  { apply Permutation_app_tail. apply Permutation_sym. exact Hout1. }
  eapply Permutation_trans.
  { apply Permutation_app_tail. apply (Hset1 (filter keep ws)). }
  rewrite <- app_assoc.
  eapply Permutation_trans.
  { apply Permutation_app_head. apply Permutation_app_comm. }
  rewrite app_assoc. apply Permutation_app_tail. apply filter_split_perm.
Qed.

Lemma bucket_perm (line : list word) (bands : Inbursa.dict (Inbursa.bound * Inbursa.bound)) :
  (forall x, Inbursa.band_of x bands <> None) ->
  Permutation (placed (Inbursa._bucket_by_xbands line bands)) line.
Proof.
  intros Hall. unfold Inbursa._bucket_by_xbands.
  eapply Permutation_trans; [apply move_to_concepto_perm|].
  eapply Permutation_trans; [apply move_to_concepto_perm|].
  apply place_words_perm. exact Hall.
Qed.

(** X17  The bands of [_build_xbands] leave no gap and do not overlap: every
    abscissa lies in exactly one band.  So [_bucket_by_xbands] loses no word
    and repeats none: its buckets together hold the words of the line, each
    once. *)
Theorem xbands_lose_no_word :
  forall centers : Inbursa.dict Q,
    centers <> [] -> NoDup (map fst centers) ->
    (forall x : Q, length (holders x (Inbursa._build_xbands centers)) = 1%nat)
    /\ (forall line : list word,
          Permutation (placed (Inbursa._bucket_by_xbands line (Inbursa._build_xbands centers)))
                      line).
Proof.
  intros centers Hne Hnd. split.
  - intros x. apply xbands_one_holder; assumption.
  - intros line. apply bucket_perm. intros x.
    rewrite band_of_holder.
    pose proof (xbands_one_holder centers x Hne Hnd) as H.
    destruct (holders x (Inbursa._build_xbands centers)); [discriminate|discriminate].
Qed.

Lemma xbands_lose_no_word_witness :
  (forall x : Q,
      length (holders x (Inbursa._build_xbands [(U "FECHA", 25); (U "CONCEPTO", 230)])) = 1%nat)
  /\ (forall line : list word,
        Permutation
          (placed (Inbursa._bucket_by_xbands line
                     (Inbursa._build_xbands [(U "FECHA", 25); (U "CONCEPTO", 230)])))
          line).
Proof.
  apply (xbands_lose_no_word [(U "FECHA", 25); (U "CONCEPTO", 230)]).
  - discriminate.
  - vm_compute. constructor.
    + intros [H|[]]. discriminate H.
    + constructor; [intros []|constructor].
Defined.

(** ** The header line *)

Lemma dict_mem_in {V : Type} (k : str) (d : Inbursa.dict V) :
  Inbursa.dict_mem k d = true <-> In k (map fst d).
Proof.
  unfold Inbursa.dict_mem. induction d as [|[k' v] d IH]; cbn [Inbursa.dict_get map fst].
  - split; [discriminate|intros []].
  - destruct (str_eqb k' k) eqn:E.
    + split; [|reflexivity]. intros _. left. apply str_eqb_eq. exact E.
    + rewrite IH. split; [intros H; right; exact H|].
      intros [H|H]; [|exact H]. subst k'. rewrite str_eqb_refl in E. discriminate.
Qed.

Lemma dict_set_keys {V : Type} (k : str) (v : V) (d : Inbursa.dict V) :
  map fst (Inbursa.dict_set k v d)
  = if Inbursa.dict_mem k d then map fst d else map fst d ++ [k].
Proof.
  unfold Inbursa.dict_mem. induction d as [|[k' v'] d IH]; [reflexivity|].
  cbn [Inbursa.dict_set Inbursa.dict_get]. destruct (str_eqb k' k); [reflexivity|].
  cbn [map fst]. rewrite IH.
  destruct (Inbursa.dict_get k d); reflexivity.
Qed.

Lemma dict_set_in {V : Type} (k k' : str) (v : V) (d : Inbursa.dict V) :
  In k' (map fst (Inbursa.dict_set k v d)) <-> In k' (map fst d) \/ k' = k.
Proof.
  rewrite dict_set_keys. destruct (Inbursa.dict_mem k d) eqn:E.
  - apply dict_mem_in in E. split; [intros H; left; exact H|].
    intros [H|H]; [exact H|subst k'; exact E].
  - rewrite in_app_iff. cbn [In]. split.
    + intros [H|[H|[]]]; [left; exact H|right; symmetry; exact H].
    + intros [H|H]; [left; exact H|right; left; symmetry; exact H].
Qed.

Lemma dict_set_nodup {V : Type} (k : str) (v : V) (d : Inbursa.dict V) :
  NoDup (map fst d) -> NoDup (map fst (Inbursa.dict_set k v d)).
Proof.
  intros H. rewrite dict_set_keys. destruct (Inbursa.dict_mem k d) eqn:E; [exact H|].
  apply NoDup_app; [exact H|repeat constructor; intros []|].
  intros x Hx [<-|[]]. apply dict_mem_in in Hx. congruence.
Qed.

Lemma target_column (t : str) :
  Inbursa.is_target t = true ->
  In (if str_eqb t (U "DESCRIPCION") then U "CONCEPTO" else t) columns.
Proof.
  unfold Inbursa.is_target. intros H. apply existsb_exists in H.
  destruct H as (x & Hx & E). apply str_eqb_eq in E. subst t.
  unfold Inbursa.targets in Hx. cbn [In] in Hx.
  repeat (destruct Hx as [<-|Hx]; [vm_compute; tauto|]). destruct Hx.
Qed.

(** The keys of [centers] after the loop over the header words. *)
Lemma header_centers_keys (header_ws : list word) :
  forall acc : Inbursa.dict Q,
    NoDup (map fst acc) -> incl (map fst acc) columns ->
    let centers :=
      fold_left
        (fun centers w =>
           let t := Inbursa._norm (Some (w_text w)) in
           if Inbursa.is_target t && negb (Inbursa.dict_mem t centers)
           then Inbursa.dict_set (if str_eqb t (U "DESCRIPCION") then U "CONCEPTO" else t)
                                 (x_center w) centers
           else centers)
        header_ws acc in
    NoDup (map fst centers) /\ incl (map fst centers) columns
    /\ incl (map fst acc) (map fst centers)
    /\ (forall w, In w header_ws -> Inbursa._norm (Some (w_text w)) = U "FECHA" ->
                  In (U "FECHA") (map fst centers))
    /\ (forall w, In w header_ws ->
                  Inbursa._norm (Some (w_text w)) = U "CONCEPTO"
                  \/ Inbursa._norm (Some (w_text w)) = U "DESCRIPCION" ->
                  In (U "CONCEPTO") (map fst centers)).
Proof.
  induction header_ws as [|w ws IH]; intros acc Hnd Hin; cbn [fold_left]; cbv zeta.
  - repeat split; try assumption; try (intros ? []). apply incl_refl.
  - set (t := Inbursa._norm (Some (w_text w))).
    set (acc' := if Inbursa.is_target t && negb (Inbursa.dict_mem t acc)
                 then Inbursa.dict_set (if str_eqb t (U "DESCRIPCION") then U "CONCEPTO" else t)
                                       (x_center w) acc
                 else acc).
    assert (Hnd' : NoDup (map fst acc')).
    { unfold acc'. destruct (_ && _); [apply dict_set_nodup|]; exact Hnd. }
    assert (Hin' : incl (map fst acc') columns).
    { unfold acc'. destruct (Inbursa.is_target t) eqn:Et; cbn [andb]; [|exact Hin].
      destruct (negb _); [|exact Hin].
      intros k Hk. apply dict_set_in in Hk. destruct Hk as [Hk| ->]; [apply Hin; exact Hk|].
      apply target_column. exact Et. }
    assert (Hsub : incl (map fst acc) (map fst acc')).
    { unfold acc'. destruct (_ && _); [|apply incl_refl].
      intros k Hk. apply dict_set_in. left. exact Hk. }
    assert (Hno : Inbursa.dict_mem (U "DESCRIPCION") acc = false).
    { destruct (Inbursa.dict_mem (U "DESCRIPCION") acc) eqn:E; [|reflexivity].
      apply dict_mem_in in E. apply Hin in E. vm_compute in E.
      repeat (destruct E as [E|E]; [discriminate E|]). destruct E. }
    destruct (IH acc' Hnd' Hin') as (H1 & H2 & H3 & H4 & H5).
    split; [exact H1|]. split; [exact H2|].
    split; [intros k Hk; apply H3, Hsub; exact Hk|].
    split.
    + intros w' [<-|Hw'] Ew'; [|apply (H4 w' Hw' Ew')].
      apply H3. unfold acc'. fold t in Ew'. rewrite Ew'.
      change (Inbursa.is_target (U "FECHA")) with true. cbn [andb].
      destruct (Inbursa.dict_mem (U "FECHA") acc) eqn:E; cbn [negb].
      * apply dict_mem_in. exact E.
      * apply dict_set_in. right. reflexivity.
    + intros w' [<-|Hw'] Ew'; [|apply (H5 w' Hw' Ew')].
      apply H3. unfold acc'. fold t in Ew'. destruct Ew' as [Ew'|Ew']; rewrite Ew'.
      * change (Inbursa.is_target (U "CONCEPTO")) with true. cbn [andb].
        destruct (Inbursa.dict_mem (U "CONCEPTO") acc) eqn:E; cbn [negb].
        -- apply dict_mem_in. exact E.
        -- apply dict_set_in. right. reflexivity.
      * change (Inbursa.is_target (U "DESCRIPCION")) with true. rewrite Hno.
        cbn [andb negb]. apply dict_set_in. right. reflexivity.
Qed.

Lemma fill_amount_centers_keys (centers : Inbursa.dict Q) :
  NoDup (map fst centers) -> incl (map fst centers) columns ->
  NoDup (map fst (Inbursa.fill_amount_centers centers))
  /\ incl (map fst (Inbursa.fill_amount_centers centers)) columns
  /\ incl (map fst centers) (map fst (Inbursa.fill_amount_centers centers)).
Proof.
  intros Hnd Hin. unfold Inbursa.fill_amount_centers.
  assert (Hc : In (U "CARGOS") columns) by (vm_compute; tauto).
  assert (Ha : In (U "ABONOS") columns) by (vm_compute; tauto).
  destruct (Inbursa.dict_get (U "CONCEPTO") centers);
    [|repeat split; [exact Hnd|exact Hin|apply incl_refl]].
  destruct (Inbursa.dict_get (U "SALDO") centers);
    [|repeat split; [exact Hnd|exact Hin|apply incl_refl]].
  destruct (Inbursa.dict_get (U "CARGOS") centers), (Inbursa.dict_get (U "ABONOS") centers).
  - repeat split; [exact Hnd|exact Hin|apply incl_refl].
  - repeat split.
    + apply dict_set_nodup. exact Hnd.
    + intros k Hk. apply dict_set_in in Hk. destruct Hk as [Hk| ->]; [apply Hin; exact Hk|exact Ha].
    + intros k Hk. apply dict_set_in. left. exact Hk.
  - repeat split.
    + apply dict_set_nodup. exact Hnd.
    + intros k Hk. apply dict_set_in in Hk. destruct Hk as [Hk| ->]; [apply Hin; exact Hk|exact Hc].
    + intros k Hk. apply dict_set_in. left. exact Hk.
  - repeat split.
    + apply dict_set_nodup, dict_set_nodup. exact Hnd.
    + intros k Hk. apply dict_set_in in Hk. destruct Hk as [Hk| ->]; [|exact Ha].
      apply dict_set_in in Hk. destruct Hk as [Hk| ->]; [apply Hin; exact Hk|exact Hc].
    + intros k Hk. apply dict_set_in. left. apply dict_set_in. left. exact Hk.
Qed.

Lemma lines_of_keys (y_bin : Z) (words : list word) :
  forall d : buckets,
    NoDup (map fst d) ->
    NoDup (map fst (fold_left (fun d w => bucket_add (Inbursa.line_key y_bin w) w d) words d)).
Proof.
  induction words as [|w words IH]; intros d Hnd; cbn [fold_left]; [exact Hnd|].
  apply IH. rewrite bucket_add_keys.
  destruct (existsb _ _) eqn:E; [exact Hnd|].
  apply NoDup_app; [exact Hnd|repeat constructor; intros []|].
  intros k Hk [<-|[]].
  assert (Hex : existsb (Z.eqb (Inbursa.line_key y_bin w)) (map fst d) = true).
  { apply existsb_exists. exists (Inbursa.line_key y_bin w). split; [exact Hk|apply Z.eqb_refl]. }
  congruence.
Qed.

Lemma bucket_get_in (k : Z) (ws : list word) (d : buckets) :
  NoDup (map fst d) -> In (k, ws) d -> bucket_get k d = ws.
Proof.
  induction d as [|[k' ws'] d IH]; intros Hnd Hin; [destruct Hin|].
  cbn [bucket_get]. cbn [map fst] in Hnd. inversion Hnd as [|? ? Hk' Hnd']; subst.
  destruct Hin as [E|Hin].
  - injection E as -> ->. rewrite Z.eqb_refl. reflexivity.
  - destruct (k' =? k)%Z eqn:E; [|apply IH; assumption].
    apply Z.eqb_eq in E. subst k'. exfalso. apply Hk'.
    apply in_map_iff. exists (k, ws). split; [reflexivity|exact Hin].
Qed.

Lemma best_line_core (byline : buckets) (k : Z) :
  Inbursa.best_line byline = Some k ->
  exists ws, In (k, ws) byline /\ Inbursa.has_core (Inbursa.labels_of ws) = true.
Proof.
  unfold Inbursa.best_line.
  assert (H : forall (l : buckets) (acc : option Z * Z),
             incl l byline ->
             (forall k, fst acc = Some k ->
                        exists ws, In (k, ws) byline
                                   /\ Inbursa.has_core (Inbursa.labels_of ws) = true) ->
             forall k,
               fst (fold_left
                      (fun best kws =>
                         let labels := Inbursa.labels_of (snd kws) in
                         if negb (Inbursa.has_core labels) then best
                         else if (snd best <? Inbursa.count_hits labels)%Z
                              then (Some (fst kws), Inbursa.count_hits labels)
                              else best) l acc) = Some k ->
               exists ws, In (k, ws) byline
                          /\ Inbursa.has_core (Inbursa.labels_of ws) = true).
  { induction l as [|[k0 ws0] l IHl]; intros acc Hl Hacc k1; cbn [fold_left]; [apply Hacc|].
    apply IHl; [intros x Hx; apply Hl; right; exact Hx|].
    cbv zeta. cbn [fst snd].
    destruct (Inbursa.has_core (Inbursa.labels_of ws0)) eqn:E; cbn [negb]; [|exact Hacc].
    destruct (snd acc <? _)%Z; [|exact Hacc].
    cbn [fst]. intros k2 Ek. injection Ek as <-. exists ws0. split; [|exact E].
    apply Hl. left. reflexivity. }
  apply H; [apply incl_refl|]. cbn [fst]. intros k0 E. discriminate E.
Qed.

Lemma has_label_word (x : string) (ws : list word) :
  Inbursa.has_label x (Inbursa.labels_of ws) = true ->
  exists w, In w ws /\ Inbursa._norm (Some (w_text w)) = U x.
Proof.
  unfold Inbursa.has_label, Inbursa.labels_of. intros H.
  apply existsb_exists in H. destruct H as (l & Hl & E).
  apply in_map_iff in Hl. destruct Hl as (w & <- & Hw).
  apply str_eqb_eq in E. exists w. split; [exact Hw|symmetry; exact E].
Qed.

(** X18  [_detect_header_centers] never raises.  When it finds a header line,
    the centres it returns are those of distinct columns among FECHA,
    REFERENCIA, CONCEPTO, CARGOS, ABONOS and SALDO, and FECHA and CONCEPTO
    are always among them (a DESCRIPCION label counts as CONCEPTO); without
    a header line it returns no centres and 0.0. *)
Theorem header_centres_are_columns :
  forall words : list word,
    exists found : option (Inbursa.dict Q) * Q,
      Inbursa._detect_header_centers words = Inbursa.Returns found
      /\ match fst found with
         | None => snd found = 0
         | Some centers =>
             NoDup (map fst centers)
             /\ incl (map fst centers) columns
             /\ In (U "FECHA") (map fst centers)
             /\ In (U "CONCEPTO") (map fst centers)
         end.
Proof.
  intros words. unfold Inbursa._detect_header_centers.
  destruct words as [|w0 words]; [exists (None, 0); split; reflexivity|].
  set (byline := Inbursa.lines_of 6 (w0 :: words)).
  destruct (Inbursa.best_line byline) as [k|] eqn:Eb;
    [|exists (None, 0); split; reflexivity].
  destruct (best_line_core byline k Eb) as (ws & Hin & Hcore).
  assert (Hget : bucket_get k byline = ws).
  { apply bucket_get_in; [|exact Hin]. unfold byline, Inbursa.lines_of.
    apply lines_of_keys. constructor. }
  rewrite Hget.
  unfold Inbursa.has_core in Hcore. apply andb_prop in Hcore. destruct Hcore as [Hf Hc].
  apply has_label_word in Hf. destruct Hf as (wf & Hwf & Ef).
  assert (Hc' : exists wc, In wc ws
                           /\ (Inbursa._norm (Some (w_text wc)) = U "CONCEPTO"
                               \/ Inbursa._norm (Some (w_text wc)) = U "DESCRIPCION")).
  { apply orb_prop in Hc. destruct Hc as [Hc|Hc]; apply has_label_word in Hc;
      destruct Hc as (wc & Hwc & Ec); exists wc; split; auto. }
  destruct Hc' as (wc & Hwc & Ec).
  destruct ws as [|w1 ws1]; [destruct Hwf|].
  cbn [map Inbursa.max_of Inbursa.and_then].
  eexists. split; [reflexivity|]. cbn [fst].
  assert (Hnil : NoDup (map fst (@nil (str * Q)))) by constructor.
  assert (Hincl : incl (map fst (@nil (str * Q))) columns) by (intros ? []).
  pose proof (header_centers_keys (w1 :: ws1) [] Hnil Hincl) as H. cbv zeta in H.
  fold (Inbursa.header_centers (w1 :: ws1)) in H.
  destruct H as (H1 & H2 & _ & H4 & H5).
  destruct (fill_amount_centers_keys _ H1 H2) as (G1 & G2 & G3).
  split; [exact G1|]. split; [exact G2|]. split.
  - apply G3. apply (H4 wf Hwf Ef).
  - apply G3. apply (H5 wc Hwc Ec).
Qed.

(** ** Amounts *)

Import Amounts.

Lemma inbursa_amount_token (w : str) : Matches Inbursa.AMOUNT_RX w -> amount_token w.
Proof.
  intros H. apply santander_amount_shape.
  unfold Santander.AMOUNT_RE. unfold Inbursa.AMOUNT_RX in H.
  change w with ([] ++ [] ++ w).
  apply M_seq; [apply M_rep_stop|]. apply M_seq; [apply M_rep_stop|]. exact H.
Qed.

Lemma keep_plain (w : str) :
  ~ In 160%N w -> ~ In 36%N w -> ~ In 32%N w ->
  flat_map keep w = filter (fun x => negb (44 =? x)%N) w.
Proof.
  induction w as [|c w IH]; intros H1 H2 H3; [reflexivity|].
  cbn [flat_map filter]. unfold keep at 1.
  assert (E1 : (c =? 160)%N = false) by (apply N.eqb_neq; intros ->; apply H1; left; reflexivity).
  assert (E2 : (c =? 36)%N = false) by (apply N.eqb_neq; intros ->; apply H2; left; reflexivity).
  assert (E3 : (c =? 32)%N = false) by (apply N.eqb_neq; intros ->; apply H3; left; reflexivity).
  rewrite E1, E2, E3. cbn [orb]. rewrite (N.eqb_sym c 44%N).
  rewrite IH by (intros Hin; [apply H1 + apply H2 + apply H3]; right; exact Hin).
  destruct (44 =? c)%N; reflexivity.
Qed.

(** The text of a match of [AMOUNT_RX], its commas removed, is read by
    [float] as a non-negative whole number of cents. *)
Lemma inbursa_amount_float (w : str) :
  Matches Inbursa.AMOUNT_RX w ->
  exists v, float_of_str (replace (U ",") [] w) = Ok v /\ 0 <= v /\ two_decimals v.
Proof.
  intros H.
  assert (Hx : forall x, excludes x Inbursa.AMOUNT_RX = true -> ~ In x w).
  { intros x Ex. apply (@matches_excludes x _ _ H Ex). }
  assert (E : replace (U ",") [] w = cleaned w).
  { rewrite cleaned_keep, keep_plain by (apply Hx; reflexivity).
    change (U ",") with [44%N]. unfold replace.
    apply replace_fuel_single_nil. lia. }
  rewrite E.
  assert (Hsep : existsb separator w = false).
  { destruct (existsb separator w) eqn:Es; [|reflexivity]. exfalso.
    apply existsb_exists in Es. destruct Es as (c & Hc & Hs).
    unfold separator, in_range in Hs. apply andb_prop in Hs. destruct Hs as [H1 H2].
    apply N.leb_le in H1, H2.
    assert (Hcases : c = 28%N \/ c = 29%N \/ c = 30%N \/ c = 31%N) by lia.
    destruct Hcases as [-> | [-> | [-> | ->]]]; revert Hc; apply Hx; reflexivity. }
  destruct (amount_token_float (inbursa_amount_token w H) Hsep) as (v & Ev & Hv).
  exists v. split; [exact Ev|]. split; [|exact Hv].
  apply (@float_of_str_nonneg (cleaned w) v); [|exact Ev].
  intros Hin. apply cleaned_in in Hin. destruct Hin as [Hin|Hin]; [discriminate Hin|].
  revert Hin. apply Hx. reflexivity.
Qed.

Lemma inbursa_amount_value (w : str) :
  Matches Inbursa.AMOUNT_RX w ->
  float_of_str (replace (U ",") [] w) = Ok (amount_value w)
  /\ 0 <= amount_value w /\ two_decimals (amount_value w).
Proof.
  intros H. destruct (inbursa_amount_float w H) as (v & Ev & Hv).
  unfold amount_value. rewrite Ev. cbn [value]. split; [reflexivity|exact Hv].
Qed.

Lemma finditer_head (r : Re.re) (s : str) :
  Re.search r s = match Re.finditer r s with m :: _ => Some m | [] => None end.
Proof.
  unfold Re.finditer, Re.search. cbn [Re.finditer_fuel Re.char_before skipn].
  change (Nat.ltb (length s) 0) with false. cbv iota.
  destruct (Re.search_from r None 0 s); reflexivity.
Qed.

Lemma to_amount_value (s : str) :
  Inbursa._to_amount (Some s)
  = Inbursa.Returns (match Re.findall Inbursa.AMOUNT_RX s with
                     | first :: _ => Some (amount_value first)
                     | [] => None
                     end).
Proof.
  unfold Inbursa._to_amount, Inbursa.truthy. cbn [Inbursa.or_empty].
  destruct s as [|c s]; [reflexivity|]. cbn [nonempty negb].
  rewrite finditer_head. unfold Re.findall.
  destruct (Re.finditer Inbursa.AMOUNT_RX (c :: s)) as [|m ms] eqn:E; [reflexivity|].
  cbn [map].
  assert (Hm : Matches Inbursa.AMOUNT_RX (Re.group0 (c :: s) m)).
  { apply finditer_matches. rewrite E. left. reflexivity. }
  destruct (inbursa_amount_value _ Hm) as (Ev & _). rewrite Ev. reflexivity.
Qed.

Lemma findall_matches (s x : str) :
  In x (Re.findall Inbursa.AMOUNT_RX s) -> Matches Inbursa.AMOUNT_RX x.
Proof.
  unfold Re.findall. intros H. apply in_map_iff in H. destruct H as (m & <- & Hm).
  apply finditer_matches. exact Hm.
Qed.

Lemma for_each_values (l : list str) :
  (forall x, In x l -> Matches Inbursa.AMOUNT_RX x) ->
  Inbursa.for_each (fun x => Inbursa.of_builtin (float_of_str (replace (U ",") [] x))) l
  = Inbursa.Returns (map amount_value l).
Proof.
  induction l as [|x l IH]; intros H; [reflexivity|].
  cbn [Inbursa.for_each map].
  destruct (inbursa_amount_value x (H x (or_introl eq_refl))) as (Ev & _).
  rewrite Ev. cbn [Inbursa.of_builtin Inbursa.and_then].
  rewrite IH by (intros y Hy; apply H; right; exact Hy). reflexivity.
Qed.

Lemma nums_of_values (sal_txt : str) :
  Inbursa.nums_of sal_txt
  = Inbursa.Returns (map amount_value (Re.findall Inbursa.AMOUNT_RX sal_txt)).
Proof.
  unfold Inbursa.nums_of. apply for_each_values. intros x. apply findall_matches.
Qed.

Lemma last_two_in (nums : list Q) (a b : Q) :
  Inbursa.last_two nums = Some (a, b) -> In a nums /\ In b nums.
Proof.
  induction nums as [|x nums IH]; [discriminate|].
  cbn [Inbursa.last_two]. destruct nums as [|y [|z nums]]; [discriminate| |].
  - intros E. injection E as <- <-. split; [left; reflexivity|right; left; reflexivity].
  - intros E. destruct (IH E) as [Ha Hb]. split; right; assumption.
Qed.

Lemma cents_values (s : str) (v : Q) :
  In v (map amount_value (Re.findall Inbursa.AMOUNT_RX s)) -> cents (Some v).
Proof.
  intros H. apply in_map_iff in H. destruct H as (x & <- & Hx).
  apply findall_matches in Hx. apply inbursa_amount_value in Hx. exact (proj2 Hx).
Qed.

Lemma cents_first (s : str) :
  cents (match Re.findall Inbursa.AMOUNT_RX s with
         | first :: _ => Some (amount_value first)
         | [] => None
         end).
Proof.
  destruct (Re.findall Inbursa.AMOUNT_RX s) as [|x l] eqn:E; [exact I|].
  apply (cents_values s). rewrite E. left. reflexivity.
Qed.

(** The amounts of a line, without the outcome monad. *)
Lemma line_amounts_value (car_txt abo_txt sal_txt : str) :
  exists v_cargo v_abono v_saldo : option Q,
    Inbursa.line_amounts car_txt abo_txt sal_txt
    = Inbursa.Returns (v_cargo, v_abono, v_saldo)
    /\ cents v_cargo /\ cents v_abono /\ cents v_saldo.
Proof.
  unfold Inbursa.line_amounts. rewrite !to_amount_value. cbn [Inbursa.and_then].
  rewrite !nums_of_values.
  pose proof (cents_first car_txt) as Hc.
  pose proof (cents_first abo_txt) as Ha.
  pose proof (cents_first sal_txt) as Hs.
  set (c := match Re.findall Inbursa.AMOUNT_RX car_txt with
            | first :: _ => Some (amount_value first) | [] => None end) in *.
  set (a := match Re.findall Inbursa.AMOUNT_RX abo_txt with
            | first :: _ => Some (amount_value first) | [] => None end) in *.
  set (s := match Re.findall Inbursa.AMOUNT_RX sal_txt with
            | first :: _ => Some (amount_value first) | [] => None end) in *.
  set (nums := map amount_value (Re.findall Inbursa.AMOUNT_RX sal_txt)).
  assert (Hn : forall x y, Inbursa.last_two nums = Some (x, y) ->
                           cents (Some x) /\ cents (Some y)).
  { intros x y E. apply last_two_in in E. destruct E as [Hx Hy].
    split; apply (cents_values sal_txt); assumption. }
  destruct a as [va|]; cbn [Inbursa.and_then fst snd].
  - destruct c as [vc|]; cbn [Inbursa.and_then].
    + exists (Some vc), (Some va), s. auto.
    + destruct (Inbursa.last_two nums) as [[x y]|]; exists None, (Some va), s; auto.
  - destruct (Inbursa.last_two nums) as [[x y]|] eqn:E; cbn [Inbursa.and_then fst snd].
    + destruct (Hn x y eq_refl) as [Hx Hy].
      assert (Hs' : cents (Inbursa.if_set s (Some y))) by (destruct s; assumption).
      destruct c as [vc|]; cbn [Inbursa.and_then].
      * exists (Some vc), (Some x), (Inbursa.if_set s (Some y)). auto.
      * exists None, (Some x), (Inbursa.if_set s (Some y)). auto.
    + destruct c as [vc|]; cbn [Inbursa.and_then].
      * exists (Some vc), None, s. auto.
      * exists None, None, s. auto.
Qed.

(** X19  Reading amounts never raises: [_to_amount] returns [None] or the
    value of the first monetary token of its text, and the amounts
    [_parse_page] reads on a line (lines 382-397) are each [None] or a
    non-negative whole number of cents.  [float] is only ever called on a
    text it accepts. *)
Theorem inbursa_amounts_are_cents :
  (forall s : option str,
      exists r : option Q, Inbursa._to_amount s = Inbursa.Returns r /\ cents r)
  /\ (forall car_txt abo_txt sal_txt : str,
        exists v_cargo v_abono v_saldo : option Q,
          Inbursa.line_amounts car_txt abo_txt sal_txt
          = Inbursa.Returns (v_cargo, v_abono, v_saldo)
          /\ cents v_cargo /\ cents v_abono /\ cents v_saldo).
Proof.
  split.
  - intros [s|]; [|exists None; split; [reflexivity|exact I]].
    eexists. split; [apply to_amount_value|apply cents_first].
  - apply line_amounts_value.
Qed.

Lemma last_two_end (l : list Q) (a b : Q) : Inbursa.last_two (l ++ [a; b]) = Some (a, b).
Proof.
  induction l as [|x l IH]; [reflexivity|].
  cbn [app Inbursa.last_two]. destruct l as [|y l]; [reflexivity|].
  cbn [app] in *. destruct (l ++ [a; b]) eqn:E.
  - destruct l; discriminate E.
  - exact IH.
Qed.

Lemma last_two_tokens (f : str -> Q) (first : str) (middle : list str) (last_one : str) :
  Inbursa.last_two (map f (first :: middle ++ [last_one]))
  = Some (f (last middle first), f last_one).
Proof.
  destruct middle as [|m middle].
  - reflexivity.
  - assert (Hne : m :: middle <> []) by discriminate.
    rewrite (app_removelast_last first Hne) at 1.
    rewrite <- app_assoc. cbn [app].
    change (first :: removelast (m :: middle) ++ [last (m :: middle) first; last_one])
      with ((first :: removelast (m :: middle)) ++ [last (m :: middle) first; last_one]).
    rewrite map_app. cbn [map]. apply last_two_end.
Qed.

(** X20  When the ABONOS cell of a line holds no amount and its SALDO cell
    holds two amounts or more, the line gives as Abonos the second to last
    amount of the SALDO cell and as Saldo its first amount: the last amount
    of the cell, the balance, is not stored.  For a cell of two amounts,
    Abonos and Saldo are both the first one. *)
Theorem saldo_cell_keeps_first_amount :
  forall (car_txt abo_txt sal_txt first : str) (middle : list str) (last_one : str),
    Inbursa._to_amount (Some abo_txt) = Inbursa.Returns None ->
    Re.findall Inbursa.AMOUNT_RX sal_txt = first :: middle ++ [last_one] ->
    Inbursa.line_amounts car_txt abo_txt sal_txt
    = Inbursa.and_then (Inbursa._to_amount (Some car_txt)) (fun v_cargo =>
        Inbursa.Returns (v_cargo,
                         Some (amount_value (last middle first)),
                         Some (amount_value first))).
Proof.
  intros car_txt abo_txt sal_txt first middle last_one Habo Hsal.
  unfold Inbursa.line_amounts. rewrite Habo.
  rewrite (to_amount_value sal_txt), (to_amount_value car_txt).
  rewrite !nums_of_values. rewrite Hsal. cbn [Inbursa.and_then].
  rewrite !last_two_tokens. cbn [Inbursa.and_then fst snd Inbursa.if_set].
  destruct (Re.findall Inbursa.AMOUNT_RX car_txt); cbn [Inbursa.and_then];
    try rewrite !last_two_tokens; reflexivity.
Qed.

Lemma saldo_cell_keeps_first_amount_witness :
  Inbursa.line_amounts [] [] (U "100.00 900.00")
  = Inbursa.and_then (Inbursa._to_amount (Some [])) (fun v_cargo =>
      Inbursa.Returns (v_cargo,
                       Some (amount_value (last [] (U "100.00"))),
                       Some (amount_value (U "100.00")))).
Proof.
  apply (saldo_cell_keeps_first_amount [] [] (U "100.00 900.00") (U "100.00") [] (U "900.00")).
  - vm_compute. reflexivity.
  - vm_compute. reflexivity.
Defined.

(** ** The groups of a match *)

Import Groups.

Lemma rep_loop_captures (R : Type) (a : Re.re) (body : Re.matcher R) (greedy g : bool)
      (k : Re.kont R) :
  @capturing R (Captures a) body ->
  forall fuel lo hi prev pos s cs res,
    Re.rep_loop body greedy k fuel lo hi prev pos s cs = Some res ->
    exists consumed s' p' added,
      s = consumed ++ s' /\ Captures (Re.Rep a lo hi g) pos consumed added
      /\ k p' (pos + length consumed)%nat s' (added ++ cs) = Some res.
Proof.
  intros Hbody. induction fuel as [|fuel IH]; intros lo hi prev pos s cs res H;
    [discriminate|].
  cbn [Re.rep_loop] in H.
  set (more := if Re.hi_is_zero hi then None
               else body prev pos s cs
                      (fun p' i' s' c' =>
                         if Nat.eqb i' pos && Nat.eqb lo 0 then None
                         else Re.rep_loop body greedy k fuel (Nat.pred lo)
                                          (option_map Nat.pred hi) p' i' s' c')) in *.
  assert (Hmore : more = Some res ->
                  exists consumed s' p' added,
                    s = consumed ++ s' /\ Captures (Re.Rep a lo hi g) pos consumed added
                    /\ k p' (pos + length consumed)%nat s' (added ++ cs) = Some res).
  { subst more. destruct (Re.hi_is_zero hi) eqn:Ehi; [discriminate|]. intros Hm.
    apply Hbody in Hm. destruct Hm as (c1 & s1 & p1 & ad1 & Hs & Hx & Hk).
    destruct (Nat.eqb (pos + length c1) pos && Nat.eqb lo 0); [discriminate|].
    apply IH in Hk. destruct Hk as (c2 & s2 & p2 & ad2 & Hs2 & Hx2 & Hk2).
    exists (c1 ++ c2), s2, p2, (ad2 ++ ad1). split; [|split].
    - rewrite Hs, Hs2, app_assoc. reflexivity.
    - apply C_rep_more; assumption.
    - rewrite length_app, Nat.add_assoc, <- app_assoc. exact Hk2. }
  destruct (Nat.ltb 0 lo) eqn:Elo; [apply Hmore; exact H|].
  assert (Hstop : k prev pos s cs = Some res ->
                  exists consumed s' p' added,
                    s = consumed ++ s' /\ Captures (Re.Rep a lo hi g) pos consumed added
                    /\ k p' (pos + length consumed)%nat s' (added ++ cs) = Some res).
  { intros Hk. exists [], s, prev, []. cbn. rewrite Nat.add_0_r.
    apply Nat.ltb_ge in Elo. assert (lo = 0)%nat by lia. subst lo.
    repeat split; [constructor|exact Hk]. }
  destruct greedy; unfold Re.orelse in H.
  - destruct more; [apply Hmore; exact H|apply Hstop; exact H].
  - destruct (k prev pos s cs); [apply Hstop; exact H|apply Hmore; exact H].
Qed.

Lemma mt_captures (R : Type) (r : Re.re) : @capturing R (Captures r) (@Re.mt R r).
Proof.
  induction r as [|ic cset|a IHa b IHb|a IHa b IHb|a IHa lo hi greedy|n a IHa|ml|ml|];
    intros prev pos s cs k res H; cbn [Re.mt] in *.
  - exists [], s, prev, []. cbn. rewrite Nat.add_0_r. repeat split; [constructor|exact H].
  - destruct s as [|c s']; [discriminate|].
    destruct (Re.cset_mem ic cset c) eqn:E; [|discriminate].
    exists [c], s', (Some c), []. cbn. rewrite Nat.add_1_r.
    repeat split; [constructor; exact E|exact H].
  - apply IHa in H. destruct H as (c1 & s1 & p1 & ad1 & Hs & Hx & Hk).
    apply IHb in Hk. destruct Hk as (c2 & s2 & p2 & ad2 & Hs2 & Hx2 & Hk2).
    exists (c1 ++ c2), s2, p2, (ad2 ++ ad1). split; [|split].
    + rewrite Hs, Hs2, app_assoc. reflexivity.
    + constructor; assumption.
    + rewrite length_app, Nat.add_assoc, <- app_assoc. exact Hk2.
  - unfold Re.orelse in H.
    destruct (@Re.mt R a prev pos s cs k) eqn:E.
    + rewrite <- H in *. apply IHa in E.
      destruct E as (c1 & s1 & p1 & ad1 & Hs & Hx & Hk).
      exists c1, s1, p1, ad1. repeat split; [exact Hs|apply C_alt_l; exact Hx|exact Hk].
    + apply IHb in H. destruct H as (c1 & s1 & p1 & ad1 & Hs & Hx & Hk).
      exists c1, s1, p1, ad1. repeat split; [exact Hs|apply C_alt_r; exact Hx|exact Hk].
  - apply (rep_loop_captures R a (@Re.mt R a) greedy greedy k IHa) in H. exact H.
  - apply IHa in H. destruct H as (c1 & s1 & p1 & ad1 & Hs & Hx & Hk).
    exists c1, s1, p1, ((n, (pos, (pos + length c1)%nat)) :: ad1).
    repeat split; [exact Hs|constructor; exact Hx|exact Hk].
  - destruct (Re.at_bol ml prev); [|discriminate].
    exists [], s, prev, []. cbn. rewrite Nat.add_0_r. repeat split; [constructor|exact H].
  - destruct (Re.at_eol ml s); [|discriminate].
    exists [], s, prev, []. cbn. rewrite Nat.add_0_r. repeat split; [constructor|exact H].
  - destruct (Re.at_word_boundary prev s); [|discriminate].
    exists [], s, prev, []. cbn. rewrite Nat.add_0_r. repeat split; [constructor|exact H].
Qed.

Lemma captures_matches (r : Re.re) (pos : nat) (u : str) (ca : Re.caps) :
  Captures r pos u ca -> Matches r u.
Proof.
  induction 1; constructor; assumption.
Qed.

Lemma lookup_group_app (n : nat) (c1 c2 : Re.caps) :
  Re.lookup_group n (c1 ++ c2)
  = match Re.lookup_group n c1 with
    | Some span => Some span
    | None => Re.lookup_group n c2
    end.
Proof.
  induction c1 as [|[k span] c1 IH]; [reflexivity|].
  cbn [app Re.lookup_group]. destruct (Nat.eqb k n); [reflexivity|exact IH].
Qed.

Lemma captures_sure (r : Re.re) (pos : nat) (u : str) (ca : Re.caps) (n : nat) :
  Captures r pos u ca -> sure_group n r = true -> Re.lookup_group n ca <> None.
Proof.
  induction 1 as [pos|ic cs c pos Hc|a b pos u v ca cb _ IHa _ IHb|a b pos u ca _ IH
                  |a b pos u cb _ IH|a hi g pos|a lo hi g pos u v ca cb Hhi _ IHa _ IHr
                  |n' a pos u ca _ IH|ml pos|ml pos|pos];
    cbn [sure_group]; intros Hs; try discriminate.
  - rewrite lookup_group_app. destruct (Re.lookup_group n cb) eqn:E; [discriminate|].
    apply orb_prop in Hs. destruct Hs as [Hs|Hs]; [apply IHa; exact Hs|].
    exfalso. apply (IHb Hs). reflexivity.
  - apply andb_prop in Hs. apply IH. apply Hs.
  - apply andb_prop in Hs. apply IH. apply Hs.
  - cbn [Re.lookup_group]. destruct (Nat.eqb n' n); [discriminate|].
    cbn [orb] in Hs. apply IH. exact Hs.
Qed.

Lemma slice_app_l (a b : nat) (l1 l2 : str) :
  (b <= length l1)%nat -> slice a b (l1 ++ l2) = slice a b l1.
Proof.
  intros Hb. unfold slice. rewrite skipn_app, firstn_app, length_skipn.
  replace (b - a - (length l1 - a))%nat with 0%nat by lia.
  cbn [firstn]. rewrite app_nil_r. reflexivity.
Qed.

Lemma slice_app_r (a b : nat) (l1 l2 : str) :
  (length l1 <= a)%nat ->
  slice a b (l1 ++ l2) = slice (a - length l1) (b - length l1) l2.
Proof.
  intros Ha. unfold slice. rewrite skipn_app.
  rewrite (skipn_all2 l1) by exact Ha. cbn [app]. f_equal. lia.
Qed.

Lemma captures_group (r : Re.re) (pos : nat) (u : str) (ca : Re.caps) :
  Captures r pos u ca ->
  forall (n a b : nat),
    Re.lookup_group n ca = Some (a, b) ->
    exists body,
      In body (group_bodies n r)
      /\ (pos <= a)%nat /\ (a <= b)%nat /\ (b <= pos + length u)%nat
      /\ Matches body (slice (a - pos) (b - pos) u).
Proof.
  induction 1 as [pos|ic cs c pos Hc|a0 b0 pos u v ca cb _ IHa _ IHb|a0 b0 pos u ca _ IH
                  |a0 b0 pos u cb _ IH|a0 hi g pos|a0 lo hi g pos u v ca cb Hhi _ IHa _ IHr
                  |n' a0 pos u ca Hcap IH|ml pos|ml pos|pos];
    intros n a b Hl; cbn [group_bodies]; try discriminate.
  - rewrite lookup_group_app in Hl. destruct (Re.lookup_group n cb) as [span|] eqn:E.
    + injection Hl as ->. destruct (IHb n a b E) as (body & Hin & H1 & H2 & H3 & Hm).
      exists body. split; [apply in_or_app; right; exact Hin|].
      rewrite length_app. repeat split; try lia.
      rewrite slice_app_r by lia.
      replace (a - pos - length u)%nat with (a - (pos + length u))%nat by lia.
      replace (b - pos - length u)%nat with (b - (pos + length u))%nat by lia.
      exact Hm.
    + destruct (IHa n a b Hl) as (body & Hin & H1 & H2 & H3 & Hm).
      exists body. split; [apply in_or_app; left; exact Hin|].
      rewrite length_app. repeat split; try lia.
      rewrite slice_app_l by lia. exact Hm.
  - destruct (IH n a b Hl) as (body & Hin & Hrest).
    exists body. split; [apply in_or_app; left; exact Hin|exact Hrest].
  - destruct (IH n a b Hl) as (body & Hin & Hrest).
    exists body. split; [apply in_or_app; right; exact Hin|exact Hrest].
  - rewrite lookup_group_app in Hl. destruct (Re.lookup_group n cb) as [span|] eqn:E.
    + injection Hl as ->. destruct (IHr n a b E) as (body & Hin & H1 & H2 & H3 & Hm).
      exists body. split; [exact Hin|].
      rewrite length_app. repeat split; try lia.
      rewrite slice_app_r by lia.
      replace (a - pos - length u)%nat with (a - (pos + length u))%nat by lia.
      replace (b - pos - length u)%nat with (b - (pos + length u))%nat by lia.
      exact Hm.
    + destruct (IHa n a b Hl) as (body & Hin & H1 & H2 & H3 & Hm).
      exists body. split; [exact Hin|].
      rewrite length_app. repeat split; try lia.
      rewrite slice_app_l by lia. exact Hm.
  - cbn [Re.lookup_group] in Hl. destruct (Nat.eqb n' n) eqn:E.
    + injection Hl as <- <-. exists a0. split; [left; reflexivity|].
      repeat split; try lia.
      replace (pos - pos)%nat with 0%nat by lia.
      replace (pos + length u - pos)%nat with (length u) by lia.
      unfold slice. cbn [skipn]. rewrite Nat.sub_0_r, firstn_all.
      apply (captures_matches _ _ _ _ Hcap).
    + destruct (IH n a b Hl) as (body & Hin & Hrest).
      exists body. split; [exact Hin|exact Hrest].
Qed.

(** The text of a group that takes part in every match: it is there, it is a
    piece of the text matched, and it matches the pattern of the group. *)
Lemma match_here_group (r : Re.re) (prev : option char) (pre rest : str)
      (m : Re.rmatch) (g : nat) :
  Re.match_here r prev (length pre) rest = Some m ->
  sure_group g r = true ->
  exists t body,
    Re.group (pre ++ rest) m g = Some t
    /\ In body (group_bodies g r) /\ Matches body t
    /\ (forall c, In c t -> In c rest).
Proof.
  intros H Hs. unfold Re.match_here in H.
  apply (mt_captures Re.rmatch r) in H.
  destruct H as (u & s' & p' & ca & Hrest & Hcap & Hk). injection Hk as <-.
  unfold Re.group. cbn [Re.m_groups]. rewrite app_nil_r.
  destruct (Re.lookup_group g ca) as [[a b]|] eqn:E;
    [|exfalso; exact (captures_sure _ _ _ _ _ Hcap Hs E)].
  destruct (captures_group _ _ _ _ Hcap g a b E) as (body & Hin & H1 & H2 & H3 & Hm).
  exists (slice (a - length pre) (b - length pre) u), body.
  split; [|split; [exact Hin|split; [exact Hm|]]].
  - f_equal. rewrite slice_app_r by lia. rewrite Hrest. apply slice_app_l. lia.
  - intros c Hc. rewrite Hrest. apply in_or_app. left.
    unfold slice in Hc. apply in_firstn in Hc. apply in_skipn in Hc. exact Hc.
Qed.

Lemma search_from_group (r : Re.re) (g : nat) :
  sure_group g r = true ->
  forall (rest pre : str) (prev : option char) (m : Re.rmatch),
    Re.search_from r prev (length pre) rest = Some m ->
    exists t body,
      Re.group (pre ++ rest) m g = Some t
      /\ In body (group_bodies g r) /\ Matches body t.
Proof.
  intros Hs. induction rest as [|c rest IH]; intros pre prev m H; cbn [Re.search_from] in H.
  - destruct (Re.match_here r prev (length pre) []) eqn:E; [|discriminate].
    injection H as ->.
    destruct (match_here_group r prev pre [] m g E Hs) as (t & body & H1 & H2 & H3 & _).
    exists t, body. auto.
  - destruct (Re.match_here r prev (length pre) (c :: rest)) eqn:E.
    + injection H as ->.
      destruct (match_here_group r prev pre (c :: rest) m g E Hs)
        as (t & body & H1 & H2 & H3 & _).
      exists t, body. auto.
    + specialize (IH (pre ++ [c]) (Some c) m).
      rewrite length_app, Nat.add_1_r in IH. cbn [length] in IH.
      rewrite <- app_assoc in IH. cbn [app] in IH. apply IH. exact H.
Qed.

(** ** Months and digits *)

Import Shape.

Lemma in_range_iff (lo hi c : char) :
  in_range lo hi c = true <-> (lo <= c <= hi)%N.
Proof.
  unfold in_range. rewrite andb_true_iff, !N.leb_le. reflexivity.
Qed.

Lemma in_range_not (lo hi c : char) :
  in_range lo hi c = false <-> ~ (lo <= c <= hi)%N.
Proof.
  rewrite <- in_range_iff. destruct (in_range lo hi c); split; intros H;
    try discriminate; try reflexivity; try (intros E; discriminate E).
  exfalso. apply H. reflexivity.
Qed.

Lemma lower_bounds (c : char) :
  is_ascii_lower c || is_latin_lower c = true <->
  ((97 <= c <= 122) \/ (224 <= c <= 254 /\ c <> 247))%N.
Proof.
  unfold is_ascii_lower, is_latin_lower.
  rewrite orb_true_iff, andb_true_iff, negb_true_iff, N.eqb_neq, !in_range_iff.
  reflexivity.
Qed.

Lemma upper_bounds (c : char) :
  is_ascii_upper c || is_latin_upper c = true <->
  ((65 <= c <= 90) \/ (192 <= c <= 222 /\ c <> 215))%N.
Proof.
  unfold is_ascii_upper, is_latin_upper.
  rewrite orb_true_iff, andb_true_iff, negb_true_iff, N.eqb_neq, !in_range_iff.
  reflexivity.
Qed.

Lemma no_lower_iff (c : char) :
  no_lower c = true <-> ~ ((97 <= c <= 122) \/ (224 <= c <= 254 /\ c <> 247))%N.
Proof.
  unfold no_lower. rewrite negb_true_iff, <- lower_bounds.
  destruct (is_ascii_lower c || is_latin_lower c); split; intros H;
    try discriminate; try reflexivity; try (intros E; discriminate E).
  exfalso. apply H. reflexivity.
Qed.

Lemma upper_char_cases (c : char) :
  (((97 <= c <= 122) \/ (224 <= c <= 254 /\ c <> 247)) /\ upper_char c = c - 32)%N
  \/ (no_lower c = true /\ upper_char c = c).
Proof.
  unfold upper_char, no_lower.
  destruct (is_ascii_lower c || is_latin_lower c) eqn:E.
  - left. split; [apply lower_bounds; exact E|reflexivity].
  - right. split; reflexivity.
Qed.

Lemma lower_char_cases (c : char) :
  (((65 <= c <= 90) \/ (192 <= c <= 222 /\ c <> 215)) /\ lower_char c = c + 32)%N
  \/ lower_char c = c.
Proof.
  unfold lower_char.
  destruct (is_ascii_upper c || is_latin_upper c) eqn:E.
  - left. split; [apply upper_bounds; exact E|reflexivity].
  - right. reflexivity.
Qed.

Lemma upper_char_no_lower (c : char) : no_lower (upper_char c) = true.
Proof.
  destruct (upper_char_cases c) as [[Hb ->]|[Hn ->]]; [|exact Hn].
  apply no_lower_iff. lia.
Qed.

(** [_norm] leaves no lower-case letter of U+0000..U+00FF. *)
Lemma norm_no_lower (s : option str) :
  Forall (fun c => no_lower c = true) (Inbursa._norm s).
Proof.
  unfold Inbursa._norm.
  induction (map Inbursa.base_letter
               (filter (fun c => negb (Inbursa.is_mark c)) (Inbursa.or_empty s)))
    as [|c l IH]; cbn [flat_map]; [constructor|].
  apply Forall_app. split; [|exact IH].
  unfold upper_of.
  destruct (c =? 223)%N; [repeat constructor|].
  destruct (c =? 181)%N; [repeat constructor|].
  destruct (c =? 255)%N; [repeat constructor|].
  constructor; [apply upper_char_no_lower|constructor].
Qed.

(** A letter class of one upper-case ASCII letter, with or without
    IGNORECASE, accepts only that letter among the characters that are not
    lower-case letters. *)
Lemma letter_class (ic : bool) (x c : char) :
  is_ascii_upper x = true -> no_lower c = true ->
  Re.cset_mem ic (Re.mk_cset false [Re.CRange x x]) c = true -> c = x.
Proof.
  intros Hx Hc H. unfold is_ascii_upper in Hx. apply in_range_iff in Hx.
  apply no_lower_iff in Hc.
  unfold Re.cset_mem, Re.cset_hit in H. cbn [Re.cs_neg Re.cs_items existsb Re.citem_mem xorb] in H.
  rewrite !orb_false_r in H.
  apply orb_prop in H. destruct H as [H|H]; [apply in_range_iff in H; lia|].
  apply andb_prop in H. destruct H as [_ H].
  apply orb_prop in H. destruct H as [H|H]; apply in_range_iff in H.
  - destruct (lower_char_cases c) as [[Hb E]|E]; rewrite E in H; lia.
  - destruct (upper_char_cases c) as [[Hb E]|[_ E]]; rewrite E in H; lia.
Qed.

(** A class of digits accepts only digits, with or without IGNORECASE. *)
Lemma digit_class_any (ic : bool) (c : char) :
  Re.cset_mem ic (Re.mk_cset false [Re.CDigit]) c = true -> is_digit c = true.
Proof.
  unfold Re.cset_mem, Re.cset_hit. cbn [Re.cs_neg Re.cs_items existsb Re.citem_mem xorb].
  rewrite !orb_false_r. intros H.
  apply orb_prop in H. destruct H as [H|H]; [exact H|].
  apply andb_prop in H. destruct H as [_ H].
  unfold is_digit in *. apply in_range_iff.
  apply orb_prop in H. destruct H as [H|H]; apply in_range_iff in H.
  - destruct (lower_char_cases c) as [[Hb E]|E]; rewrite E in H; lia.
  - destruct (upper_char_cases c) as [[Hb E]|[_ E]]; rewrite E in H; lia.
Qed.

Lemma plain_words (r : Re.re) :
  plain r = true ->
  forall t : str,
    Matches r t -> Forall (fun c => no_lower c = true) t -> In t (words_of r).
Proof.
  induction r as [|ic cs|a IHa b IHb|a IHa b IHb|a IHa lo hi greedy|n a IHa|ml|ml|];
    cbn [plain words_of]; intros Hp t Hm Ht; try discriminate.
  - destruct cs as [neg items]. destruct neg; [discriminate|].
    destruct items as [|[x y| | | | | |] [|it items]]; try discriminate.
    apply andb_prop in Hp. destruct Hp as [Exy Hx]. apply N.eqb_eq in Exy. subst y.
    apply matches_chr_inv in Hm. destruct Hm as (c & -> & Hc).
    inversion Ht as [|? ? Hc0 _]; subst.
    rewrite (letter_class ic x c Hx Hc0 Hc). left. reflexivity.
  - apply andb_prop in Hp. destruct Hp as [Ha Hb].
    apply matches_seq_inv in Hm. destruct Hm as (u & v & -> & Hu & Hv).
    apply Forall_app in Ht. destruct Ht as [Htu Htv].
    apply in_flat_map. exists u. split; [apply IHa; assumption|].
    apply in_map. apply IHb; assumption.
  - apply andb_prop in Hp. destruct Hp as [Ha Hb].
    apply in_or_app. inversion Hm; subst; [left; apply IHa|right; apply IHb]; assumption.
Qed.

(** Every word of the groups numbered [g] of [r] is a key of [SPAN_MONTHS]. *)
Lemma month_words (r : Re.re) (g : nat) :
  forallb (fun body =>
             plain body
             && forallb (fun t => Inbursa.is_some (Inbursa.span_month t)) (words_of body))
          (group_bodies g r) = true ->
  forall body t,
    In body (group_bodies g r) -> Matches body t ->
    Forall (fun c => no_lower c = true) t ->
    Inbursa.span_month t <> None.
Proof.
  intros H body t Hb Hm Ht.
  rewrite forallb_forall in H. specialize (H body Hb).
  apply andb_prop in H. destruct H as [Hp Hw].
  rewrite forallb_forall in Hw. specialize (Hw t (plain_words body Hp t Hm Ht)).
  destruct (Inbursa.span_month t); [discriminate|discriminate Hw].
Qed.

Lemma span_month_range (k : str) (mm : Z) :
  Inbursa.span_month k = Some mm -> (1 <= mm <= 12)%Z.
Proof.
  unfold Inbursa.span_month.
  destruct (find _ Inbursa.SPAN_MONTHS) as [kv|] eqn:E; [|discriminate].
  intros H. injection H as <-. apply find_some in E. destruct E as [Hin _].
  unfold Inbursa.SPAN_MONTHS in Hin. cbn [In] in Hin.
  repeat (destruct Hin as [<-|Hin]; [cbn [snd]; lia|]). destruct Hin.
Qed.

(** The texts of a repetition of digits. *)
Lemma digits_repeated (ic g : bool) (hi : nat) :
  forall (lo : nat) (t : str),
    Matches (Re.Rep (Re.Chr ic (Re.mk_cset false [Re.CDigit])) lo (Some hi) g) t ->
    Forall (fun c => is_digit c = true) t /\ (lo <= length t <= hi)%nat.
Proof.
  induction hi as [|hi IH]; intros lo t H.
  - inversion H; subst; [split; [constructor|cbn; lia]|discriminate].
  - inversion H as [| | | | |a hi' g'|a lo' hi' g' u v Hhi Hu Hv| | | |]; subst.
    + split; [constructor|cbn; lia].
    + cbn [option_map Nat.pred] in Hv. apply IH in Hv. destruct Hv as [Hd Hl].
      apply matches_chr_inv in Hu. destruct Hu as (c & -> & Hc).
      apply digit_class_any in Hc. split; [constructor; assumption|].
      cbn [app length]. lia.
Qed.

Lemma digits_value_app (a : str) (c : char) :
  digits_value (a ++ [c]) = (10 * digits_value a + Z.of_N (c - 48))%Z.
Proof. unfold digits_value. rewrite fold_left_app. reflexivity. Qed.

Lemma two_digits_value (t : str) :
  Forall (fun c => is_digit c = true) t -> (length t <= 2)%nat ->
  (0 <= int_of_digits t <= 99)%Z.
Proof.
  intros Hd Hl. unfold int_of_digits.
  destruct t as [|c1 [|c2 [|c3 t]]]; cbn [length] in Hl; try lia.
  - cbn. lia.
  - inversion Hd as [|? ? H1 _]; subst. apply digit_bounds in H1.
    unfold digits_value. cbn [fold_left]. lia.
  - inversion Hd as [|? ? H1 Hd']; subst. inversion Hd' as [|? ? H2 _]; subst.
    apply digit_bounds in H1, H2. unfold digits_value. cbn [fold_left]. lia.
Qed.

(** The bodies of a group are repetitions of digits, at most [hi] of them,
    at least [lo]. *)
Lemma digit_groups (r : Re.re) (g lo hi : nat) :
  forallb (fun body =>
             match body with
             | Re.Rep (Re.Chr _ (Re.mk_cset false [Re.CDigit])) lo' (Some hi') _ =>
                 Nat.leb lo lo' && Nat.leb hi' hi
             | _ => false
             end) (group_bodies g r) = true ->
  forall body t,
    In body (group_bodies g r) -> Matches body t ->
    Forall (fun c => is_digit c = true) t /\ (lo <= length t <= hi)%nat.
Proof.
  intros H body t Hb Hm. rewrite forallb_forall in H. specialize (H body Hb).
  destruct body as [|ic cs|a b|a b|a lo' hi' g'|n a|ml|ml|]; try discriminate.
  destruct a as [|ic cs| | | | | | |]; try discriminate.
  destruct cs as [neg items]. destruct neg; [discriminate|].
  destruct items as [|[x y| | | | | |] [|it items]]; try discriminate.
  destruct hi' as [hi'|]; [|discriminate].
  apply andb_prop in H. destruct H as [H1 H2].
  apply Nat.leb_le in H1, H2.
  apply digits_repeated in Hm. destruct Hm as [Hd Hl]. split; [exact Hd|lia].
Qed.

Lemma fecha_no_lower (fecha_txt : str) :
  Forall (fun c => no_lower c = true)
         (strip (replace (U ",") (U " ") (Inbursa._norm (Some fecha_txt)))).
Proof.
  apply Forall_forall. intros c Hc.
  apply strip_by_in in Hc. apply replace_in in Hc. destruct Hc as [Hc|Hc].
  - destruct Hc as [<-|[]]. reflexivity.
  - pose proof (norm_no_lower (Some fecha_txt)) as H.
    rewrite Forall_forall in H. apply H. exact Hc.
Qed.

Lemma at_start_group (r : Re.re) (s : str) (m : Re.rmatch) (g : nat) :
  Re.rmatch_at_start r s = Some m ->
  sure_group g r = true ->
  exists t body,
    Re.group s m g = Some t
    /\ In body (group_bodies g r) /\ Matches body t
    /\ (forall c, In c t -> In c s).
Proof.
  intros H Hs. apply (match_here_group r None [] s m g H Hs).
Qed.

Lemma fmt_date_ok (day mon : str) (year : Z) :
  Forall (fun c => is_digit c = true) day -> (length day <= 2)%nat ->
  Inbursa.span_month mon <> None ->
  exists s, Inbursa.fmt_date (Some day) (Some mon) year = Inbursa.Returns s
            /\ date_text year s.
Proof.
  intros Hd Hl Hm. unfold Inbursa.fmt_date.
  destruct (Inbursa.span_month mon) as [mm|] eqn:E; [|congruence].
  eexists. split; [reflexivity|].
  exists (int_of_digits day), mm. split; [apply two_digits_value; assumption|].
  split; [apply (span_month_range mon mm E)|reflexivity].
Qed.

Lemma sub_no_lower (t s : str) :
  (forall c, In c t -> In c s) ->
  Forall (fun c => no_lower c = true) s -> Forall (fun c => no_lower c = true) t.
Proof.
  intros Hsub Hs. apply Forall_forall. intros c Hc.
  rewrite Forall_forall in Hs. apply Hs, Hsub, Hc.
Qed.

(** The date of a line: [line_date] never raises, the date it opens is a
    date text, and the month variables stay keys of [SPAN_MONTHS]. *)
Lemma line_date_ok (year : Z) (fecha_txt : str) (lm pm : option str) :
  month_ok lm -> month_ok pm ->
  exists d lm' pm',
    Inbursa.line_date year fecha_txt lm pm = Inbursa.Returns (d, lm', pm')
    /\ date_ok year d /\ month_ok lm' /\ month_ok pm'.
Proof.
  intros Hlm Hpm. unfold Inbursa.line_date.
  destruct (negb (nonempty fecha_txt)).
  { exists None, lm, pm. repeat split; assumption. }
  pose proof (fecha_no_lower fecha_txt) as Hn.
  set (n := strip (replace (U ",") (U " ") (Inbursa._norm (Some fecha_txt)))) in *.
  destruct (Re.rmatch_at_start Inbursa.RX_MON_DAY n) as [m|] eqn:E1.
  { destruct (at_start_group _ _ _ 1 E1 eq_refl) as (t1 & b1 & G1 & B1 & M1 & S1).
    destruct (at_start_group _ _ _ 2 E1 eq_refl) as (t2 & b2 & G2 & B2 & M2 & _).
    rewrite G1, G2.
    assert (Hmon : Inbursa.span_month t1 <> None).
    { apply (month_words Inbursa.RX_MON_DAY 1 eq_refl b1 t1 B1 M1).
      apply (sub_no_lower t1 n S1 Hn). }
    destruct (digit_groups Inbursa.RX_MON_DAY 2 1 2 eq_refl b2 t2 B2 M2) as [Hd Hl].
    destruct (fmt_date_ok t2 t1 year Hd (proj2 Hl) Hmon) as (s & Es & Hs).
    rewrite Es. cbn [Inbursa.and_then].
    exists (Some s), (Some t1), None. repeat split; assumption. }
  destruct (Re.rmatch_at_start Inbursa.RX_MON_ONLY n) as [m1|] eqn:E2.
  { destruct (at_start_group _ _ _ 1 E2 eq_refl) as (t1 & b1 & G1 & B1 & M1 & S1).
    rewrite G1.
    assert (Hmon : Inbursa.span_month t1 <> None).
    { apply (month_words Inbursa.RX_MON_ONLY 1 eq_refl b1 t1 B1 M1).
      apply (sub_no_lower t1 n S1 Hn). }
    exists None, (Some t1), (Some t1). repeat split; assumption. }
  destruct (Re.rmatch_at_start Inbursa.RX_DAY_ONLY n) as [m2|] eqn:E3;
    [|exists None, lm, pm; repeat split; assumption].
  destruct (Inbursa.truthy (Inbursa.or_str pm lm)) eqn:Et;
    [|exists None, lm, pm; repeat split; assumption].
  destruct (at_start_group _ _ _ 1 E3 eq_refl) as (t2 & b2 & G2 & B2 & M2 & _).
  rewrite G2.
  destruct (digit_groups Inbursa.RX_DAY_ONLY 1 1 2 eq_refl b2 t2 B2 M2) as [Hd Hl].
  assert (Hmon : exists k, Inbursa.or_str pm lm = Some k /\ Inbursa.span_month k <> None).
  { unfold Inbursa.or_str in *. destruct (Inbursa.truthy pm) eqn:Ep.
    - destruct pm as [k|]; [|discriminate Ep]. exists k. split; [reflexivity|exact Hpm].
    - destruct lm as [k|]; [|discriminate Et]. exists k. split; [reflexivity|exact Hlm]. }
  destruct Hmon as (k & Ek & Hk). rewrite Ek.
  destruct (fmt_date_ok t2 k year Hd (proj2 Hl) Hk) as (s & Es & Hs).
  rewrite Es. cbn [Inbursa.and_then].
  exists (Some s), lm, None. repeat split; assumption.
Qed.

(** The reference of a line is ten digits. *)
Lemma ref_of_ok (ref_txt : str) (conc_lines : list str) :
  ref_ok (Inbursa.ref_of ref_txt conc_lines).
Proof.
  unfold Inbursa.ref_of.
  destruct (nonempty ref_txt || Inbursa.some_items conc_lines); [|exact I].
  cbv zeta. set (text := ref_txt ++ U " " ++ join (U " ") conc_lines).
  destruct (Re.search Inbursa.REF10_RX text) as [m10|] eqn:E; [|exact I].
  unfold Re.search in E.
  destruct (search_from_group Inbursa.REF10_RX 1 eq_refl text [] None m10 E)
    as (t & body & G & B & M).
  cbn [app] in G. rewrite G.
  destruct (digit_groups Inbursa.REF10_RX 1 10 10 eq_refl body t B M) as [Hd Hl].
  split; [lia|exact Hd].
Qed.

(** ** The page loop *)

Lemma if_set_cents (a b : option Q) : cents a -> cents b -> cents (Inbursa.if_set a b).
Proof. intros Ha Hb. destruct a; assumption. Qed.

Lemma truthy_some (o : option str) :
  Inbursa.truthy o = true -> exists s, o = Some s /\ Inbursa.or_empty o = s.
Proof. destruct o as [s|]; [|discriminate]. intros _. exists s. split; reflexivity. Qed.

Lemma or_empty_ref (o : option str) :
  ref_ok o -> Inbursa.or_empty o = [] \/ ten_digits (Inbursa.or_empty o).
Proof. destruct o as [s|]; [right; assumption|left; reflexivity]. Qed.

Section PageLoop.
Variable normalize : list str -> str.
Variable year : Z.

Lemma flush_ok (force : bool) (st : Inbursa.state) :
  state_ok year st -> state_ok year (Inbursa.flush normalize force st).
Proof.
  intros (Hrows & Hlm & Hpm & Hcd & Had & Hcr & Hsr & Hcc & Hca & Hcs & Hsc & Hsa & Hss).
  unfold state_ok, Inbursa.flush.
  cbn [Inbursa.rows Inbursa.last_month Inbursa.pending_month Inbursa.cur_date
       Inbursa.active_date Inbursa.cur_ref Inbursa.stash_ref Inbursa.cur_cargo
       Inbursa.cur_abono Inbursa.cur_saldo Inbursa.stash_cargo Inbursa.stash_abono
       Inbursa.stash_saldo].
  repeat split; try assumption.
  destruct (Inbursa.truthy (Inbursa.cur_date st)) eqn:Et; cbn [andb]; [|exact Hrows].
  destruct (_ || _); [|exact Hrows].
  apply Forall_app. split; [exact Hrows|]. constructor; [|constructor].
  destruct (truthy_some _ Et) as (d & Ed & Eo). rewrite Ed in Hcd.
  unfold row_ok. cbn [Inbursa.Fecha Inbursa.Referencia Inbursa.Cargos Inbursa.Abonos
                      Inbursa.Saldo].
  rewrite Eo. split; [exact Hcd|]. split; [apply or_empty_ref; exact Hcr|]. auto.
Qed.

Lemma open_dated_ok (new_date : option str) (st : Inbursa.state) :
  date_ok year new_date -> state_ok year st ->
  state_ok year (Inbursa.open_dated normalize new_date st).
Proof.
  intros Hd Hst. unfold Inbursa.open_dated.
  destruct (Inbursa.truthy new_date); [|exact Hst].
  apply (flush_ok false) in Hst. cbv zeta.
  set (st1 := Inbursa.flush normalize false st) in *.
  destruct Hst as (Hrows & Hlm & Hpm & Hcd & Had & Hcr & Hsr & Hcc & Hca & Hcs & Hsc & Hsa & Hss).
  unfold state_ok.
  cbn [Inbursa.rows Inbursa.last_month Inbursa.pending_month Inbursa.cur_date
       Inbursa.active_date Inbursa.cur_ref Inbursa.stash_ref Inbursa.cur_cargo
       Inbursa.cur_abono Inbursa.cur_saldo Inbursa.stash_cargo Inbursa.stash_abono
       Inbursa.stash_saldo].
  repeat split; try assumption; try (apply if_set_cents; assumption).
  - destruct (_ && _); assumption.
  - destruct (_ && _); [exact I|assumption].
Qed.

Lemma cut_row_ok (ref_cand : option str) (starts_new : bool) (st : Inbursa.state) :
  state_ok year st -> state_ok year (Inbursa.cut_row normalize ref_cand starts_new st).
Proof.
  intros Hst. unfold Inbursa.cut_row.
  destruct (Inbursa.cur_date st); [|exact Hst]. cbv zeta.
  destruct (_ || _); [|exact Hst].
  apply (flush_ok false) in Hst.
  set (st1 := Inbursa.flush normalize false st) in *.
  destruct Hst as (Hrows & Hlm & Hpm & Hcd & Had & Hcr & Hsr & Hcc & Hca & Hcs & Hsc & Hsa & Hss).
  unfold state_ok.
  cbn [Inbursa.rows Inbursa.last_month Inbursa.pending_month Inbursa.cur_date
       Inbursa.active_date Inbursa.cur_ref Inbursa.stash_ref Inbursa.cur_cargo
       Inbursa.cur_abono Inbursa.cur_saldo Inbursa.stash_cargo Inbursa.stash_abono
       Inbursa.stash_saldo].
  repeat split; assumption.
Qed.

Lemma store_ok (ref_cand : option str) (conc_lines : list str)
      (v_cargo v_abono v_saldo : option Q) (st : Inbursa.state) :
  ref_ok ref_cand -> cents v_cargo -> cents v_abono -> cents v_saldo ->
  state_ok year st ->
  state_ok year (Inbursa.store ref_cand conc_lines v_cargo v_abono v_saldo st).
Proof.
  intros Hr Hc Ha Hs Hst.
  destruct Hst as (Hrows & Hlm & Hpm & Hcd & Had & Hcr & Hsr & Hcc & Hca & Hcs & Hsc & Hsa & Hss).
  unfold Inbursa.store.
  destruct (Inbursa.cur_date st) eqn:Ecd; unfold state_ok;
    cbn [Inbursa.rows Inbursa.last_month Inbursa.pending_month Inbursa.cur_date
         Inbursa.active_date Inbursa.cur_ref Inbursa.stash_ref Inbursa.cur_cargo
         Inbursa.cur_abono Inbursa.cur_saldo Inbursa.stash_cargo Inbursa.stash_abono
         Inbursa.stash_saldo];
    rewrite ?Ecd;
    repeat split; try assumption; try (apply if_set_cents; assumption).
  - destruct (_ && _); assumption.
  - destruct (Inbursa.truthy ref_cand); assumption.
Qed.

Lemma step_line_ok (xb : Inbursa.dict (Inbursa.bound * Inbursa.bound))
      (st : Inbursa.state) (line : list word) :
  state_ok year st ->
  exists st', Inbursa.step_line normalize xb year st line = Inbursa.Returns st'
              /\ state_ok year st'.
Proof.
  intros Hst. unfold Inbursa.step_line. cbv zeta.
  pose proof Hst as (Hrows & Hlm & Hpm & Hcd & Had & Hcr & Hsr & Hcc & Hca & Hcs & Hsc & Hsa & Hss).
  destruct (line_date_ok year
              (Inbursa.jtxt (Inbursa.words_at "FECHA" (Inbursa._bucket_by_xbands line xb)))
              (Inbursa.last_month st) (Inbursa.pending_month st) Hlm Hpm)
    as (d & lm' & pm' & Ed & Hd & Hlm' & Hpm').
  rewrite Ed. cbn [Inbursa.and_then fst snd].
  match goal with
  | |- context [Inbursa.line_amounts ?c ?a ?s] =>
      destruct (line_amounts_value c a s) as (vc & va & vs & Ev & Hvc & Hva & Hvs)
  end.
  rewrite Ev. cbn [Inbursa.and_then fst snd].
  eexists. split; [reflexivity|].
  apply store_ok; try assumption; [apply ref_of_ok|].
  apply cut_row_ok. apply open_dated_ok; [exact Hd|].
  unfold state_ok.
  cbn [Inbursa.rows Inbursa.last_month Inbursa.pending_month Inbursa.cur_date
       Inbursa.active_date Inbursa.cur_ref Inbursa.stash_ref Inbursa.cur_cargo
       Inbursa.cur_abono Inbursa.cur_saldo Inbursa.stash_cargo Inbursa.stash_abono
       Inbursa.stash_saldo].
  repeat split; assumption.
Qed.

Lemma run_lines_ok (xb : Inbursa.dict (Inbursa.bound * Inbursa.bound))
      (lines : list (list word)) :
  forall st : Inbursa.state,
    state_ok year st ->
    exists st', Inbursa.run_lines normalize xb year st lines = Inbursa.Returns st'
                /\ state_ok year st'.
Proof.
  induction lines as [|line lines IH]; intros st Hst; cbn [Inbursa.run_lines].
  - exists st. split; [reflexivity|exact Hst].
  - destruct (Inbursa.looks_like_footer line).
    + eexists. split; [reflexivity|]. apply flush_ok. exact Hst.
    + destruct (step_line_ok xb st line Hst) as (st1 & E1 & H1).
      rewrite E1. cbn [Inbursa.and_then]. apply IH. exact H1.
Qed.

Lemma init_state_ok : state_ok year Inbursa.init_state.
Proof. unfold state_ok. cbn. repeat split; constructor. Qed.

Lemma detect_header_returns (words : list word) :
  exists found, Inbursa._detect_header_centers words = Inbursa.Returns found.
Proof.
  unfold Inbursa._detect_header_centers.
  destruct words as [|w0 words]; [eexists; reflexivity|].
  set (byline := Inbursa.lines_of 6 (w0 :: words)).
  destruct (Inbursa.best_line byline) as [k|] eqn:Eb; [|eexists; reflexivity].
  destruct (best_line_core byline k Eb) as (ws & Hin & Hcore).
  assert (Hget : bucket_get k byline = ws).
  { apply bucket_get_in; [|exact Hin]. unfold byline, Inbursa.lines_of.
    apply lines_of_keys. constructor. }
  rewrite Hget.
  unfold Inbursa.has_core in Hcore. apply andb_prop in Hcore. destruct Hcore as [Hf _].
  apply has_label_word in Hf. destruct Hf as (wf & Hwf & _).
  destruct ws as [|w1 ws1]; [destruct Hwf|].
  cbn [map Inbursa.max_of Inbursa.and_then]. eexists. reflexivity.
Qed.

Lemma parse_page_ok (words : list word) :
  exists rows, Inbursa._parse_page normalize words year = Inbursa.Returns rows
               /\ Forall (row_ok year) rows.
Proof.
  unfold Inbursa._parse_page.
  destruct (detect_header_returns words) as ([centers y_cut] & E). rewrite E.
  cbn [Inbursa.and_then fst snd].
  destruct centers as [[|c centers]|]; try (exists []; split; [reflexivity|constructor]).
  destruct (run_lines_ok (Inbursa._build_xbands (c :: centers))
              (Inbursa.page_lines words y_cut) Inbursa.init_state init_state_ok)
    as (st & Est & Hst).
  rewrite Est. cbn [Inbursa.and_then].
  eexists. split; [reflexivity|]. apply (flush_ok false) in Hst. apply Hst.
Qed.

End PageLoop.

Lemma row_ok_cells (year : Z) (a b : Inbursa.row) :
  cells a = cells b -> row_ok year b -> row_ok year a.
Proof.
  unfold cells, row_ok. intros E. injection E as E1 E2 E3 E4 E5.
  rewrite E1, E2, E3, E4, E5. auto.
Qed.

Lemma rows_ok_cells (year : Z) (a b : list Inbursa.row) :
  map cells a = map cells b -> Forall (row_ok year) b -> Forall (row_ok year) a.
Proof.
  revert b. induction a as [|x a IH]; intros [|y b] E H; try discriminate; [constructor|].
  cbn [map] in E.
  assert (Exy : cells x = cells y) by exact (f_equal (hd (cells x)) E).
  assert (Eab : map cells a = map cells b) by exact (f_equal (@tl _) E).
  inversion H as [|? ? Hy Hb]; subst.
  constructor; [apply (row_ok_cells year x y Exy Hy)|apply (IH b Eab Hb)].
Qed.

Lemma kept_ok (year : Z) (df : list Inbursa.row) :
  Forall (row_ok year) df -> Forall (row_ok year) (kept df).
Proof.
  intros H. destruct df as [|r df]; [constructor|].
  inversion H as [|? ? Hr Hdf]; subst. cbn [kept]. constructor; [exact Hr|].
  apply Forall_forall. intros x Hx. apply filter_In in Hx.
  rewrite Forall_forall in Hdf. apply Hdf. apply Hx.
Qed.

Lemma pages_ok (normalize : list str -> str) (year : Z) (pages : list (list word)) :
  exists per_page,
    Inbursa.for_each (fun words => Inbursa._parse_page normalize words year) pages
    = Inbursa.Returns per_page
    /\ Forall (row_ok year) (concat per_page).
Proof.
  induction pages as [|words pages IH]; cbn [Inbursa.for_each].
  - exists []. split; [reflexivity|constructor].
  - destruct (parse_page_ok normalize year words) as (rows & E & H).
    destruct IH as (per_page & E' & H').
    rewrite E. cbn [Inbursa.and_then]. rewrite E'. cbn [Inbursa.and_then].
    exists (rows :: per_page). split; [reflexivity|].
    cbn [concat]. apply Forall_app. split; assumption.
Qed.

(** X21  [_parse_page] never raises, whatever the words of the page and the
    year: no month is missing from [SPAN_MONTHS] when it is looked up, [int]
    and [float] only get texts they accept, and the header line is never
    empty.  Every row it returns is well formed: its date is a text
    [dd-mm-yyyy] whose month is a month number of the table (the day is the
    number read, 0 to 99, not checked against the calendar), its reference
    is empty or ten digits, and each amount is missing or a non-negative
    whole number of cents.  The same holds for the sheet of movements that
    [extract_inbursa_to_xlsx] builds from all the pages. *)
Theorem inbursa_pages_give_wellformed_rows :
  forall (normalize : list str -> str) (year : Z),
    (forall words : list word,
        exists rows : list Inbursa.row,
          Inbursa._parse_page normalize words year = Inbursa.Returns rows
          /\ Forall (row_ok year) rows)
    /\ (forall pages : list (list word),
          exists rows : list Inbursa.row,
            Inbursa.movements normalize pages year = Inbursa.Returns rows
            /\ Forall (row_ok year) rows).
Proof.
  intros normalize year. split.
  - intros words. apply parse_page_ok.
  - intros pages. unfold Inbursa.movements.
    destruct (pages_ok normalize year pages) as (per_page & E & H).
    rewrite E. cbn [Inbursa.and_then]. eexists. split; [reflexivity|].
    apply (rows_ok_cells year _ (kept (concat per_page))); [apply merge_cells|].
    apply kept_ok. exact H.
Qed.

(** ** Pages without a header, and the footer *)

Lemma bucket_add_in (yk : Z) (w x : word) (k : Z) (ws : list word) (d : buckets) :
  In (k, ws) (bucket_add yk w d) -> In x ws ->
  x = w \/ exists ws0, In (k, ws0) d /\ In x ws0.
Proof.
  induction d as [|[k' ws'] d IH]; cbn [bucket_add]; intros Hin Hx.
  - destruct Hin as [E|[]]. injection E as <- <-. destruct Hx as [<-|[]]. left. reflexivity.
  - destruct (k' =? yk)%Z.
    + destruct Hin as [E|Hin].
      * injection E as <- <-. apply in_app_or in Hx. destruct Hx as [Hx|[<-|[]]].
        -- right. exists ws'. split; [left; reflexivity|exact Hx].
        -- left. reflexivity.
      * right. exists ws. split; [right; exact Hin|exact Hx].
    + destruct Hin as [E|Hin].
      * injection E as <- <-. right. exists ws'. split; [left; reflexivity|exact Hx].
      * destruct (IH Hin Hx) as [E|(ws0 & H0 & Hx0)]; [left; exact E|].
        right. exists ws0. split; [right; exact H0|exact Hx0].
Qed.

(** Every word of a line comes from the words that were put in lines. *)
Lemma lines_of_words (y_bin : Z) (words : list word) :
  forall (d : buckets) (k : Z) (ws : list word) (x : word),
    In (k, ws) (fold_left (fun d w => bucket_add (Inbursa.line_key y_bin w) w d) words d) ->
    In x ws ->
    In x words \/ exists ws0, In (k, ws0) d /\ In x ws0.
Proof.
  induction words as [|w words IH]; intros d k ws x Hin Hx; cbn [fold_left] in Hin.
  - right. exists ws. split; assumption.
  - destruct (IH _ k ws x Hin Hx) as [H|(ws0 & H0 & Hx0)]; [left; right; exact H|].
    destruct (bucket_add_in _ w x k ws0 d H0 Hx0) as [E|H]; [left; left; symmetry; exact E|].
    right. exact H.
Qed.

(** X22  A page on which no word reads FECHA (accents and case aside) has no
    header line: [_parse_page] returns no row for it, whatever else the page
    holds.  The movements of a page that does not repeat the table header
    are not read. *)
Theorem page_without_fecha_gives_no_rows :
  forall (normalize : list str -> str) (words : list word) (year : Z),
    (forall w, In w words -> Inbursa._norm (Some (w_text w)) <> U "FECHA") ->
    Inbursa._detect_header_centers words = Inbursa.Returns (None, 0)
    /\ Inbursa._parse_page normalize words year = Inbursa.Returns [].
Proof.
  intros normalize words year Hno.
  assert (E : Inbursa._detect_header_centers words = Inbursa.Returns (None, 0)).
  { unfold Inbursa._detect_header_centers. destruct words as [|w0 words]; [reflexivity|].
    destruct (Inbursa.best_line (Inbursa.lines_of 6 (w0 :: words))) as [k|] eqn:Eb;
      [|reflexivity].
    exfalso. destruct (best_line_core _ k Eb) as (ws & Hin & Hcore).
    unfold Inbursa.has_core in Hcore. apply andb_prop in Hcore. destruct Hcore as [Hf _].
    apply has_label_word in Hf. destruct Hf as (wf & Hwf & Ef).
    unfold Inbursa.lines_of in Hin.
    destruct (lines_of_words 6 (w0 :: words) [] k ws wf Hin Hwf) as [H|(ws0 & [] & _)].
    exact (Hno wf H Ef). }
  split; [exact E|]. unfold Inbursa._parse_page. rewrite E. reflexivity.
Qed.

Lemma page_without_fecha_gives_no_rows_witness :
  Inbursa._detect_header_centers [Examples.W "DEPOSITO" 230 120; Examples.W "500.00" 560 120]
  = Inbursa.Returns (None, 0)
  /\ Inbursa._parse_page (fun l => join (U " ") l)
                         [Examples.W "DEPOSITO" 230 120; Examples.W "500.00" 560 120] 2024
     = Inbursa.Returns [].
Proof.
  apply (page_without_fecha_gives_no_rows (fun l => join (U " ") l)
           [Examples.W "DEPOSITO" 230 120; Examples.W "500.00" 560 120] 2024).
  intros w [<-|[<-|[]]]; vm_compute; discriminate.
Defined.

Lemma run_lines_footer (normalize : list str -> str)
      (xb : Inbursa.dict (Inbursa.bound * Inbursa.bound)) (year : Z)
      (footer : list word) (after : list (list word)) :
  Inbursa.looks_like_footer footer = true ->
  forall (before : list (list word)) (st : Inbursa.state),
    Inbursa.run_lines normalize xb year st (before ++ footer :: after)
    = Inbursa.run_lines normalize xb year st (before ++ [footer]).
Proof.
  intros Hf. induction before as [|line before IH]; intros st; cbn [app Inbursa.run_lines].
  - rewrite Hf. reflexivity.
  - destruct (Inbursa.looks_like_footer line); [reflexivity|].
    destruct (Inbursa.step_line normalize xb year st line) as [st1|e];
      cbn [Inbursa.and_then]; [apply IH|reflexivity].
Qed.

Lemma run_lines_closed (normalize : list str -> str)
      (xb : Inbursa.dict (Inbursa.bound * Inbursa.bound)) (year : Z)
      (footer : list word) :
  Inbursa.looks_like_footer footer = true ->
  forall (before : list (list word)) (st st' : Inbursa.state),
    Inbursa.run_lines normalize xb year st (before ++ [footer]) = Inbursa.Returns st' ->
    Inbursa.cur_date st' = None.
Proof.
  intros Hf. induction before as [|line before IH]; intros st st'; cbn [app Inbursa.run_lines].
  - rewrite Hf. intros E. injection E as <-. reflexivity.
  - destruct (Inbursa.looks_like_footer line).
    + intros E. injection E as <-. reflexivity.
    + destruct (Inbursa.step_line normalize xb year st line) as [st1|e];
        cbn [Inbursa.and_then]; [apply IH|discriminate].
Qed.

(** X23  The first footer line ends the page: whatever lines follow it, the
    loop over the lines returns the same state as if the footer line were
    the last one, and no row is open in that state, so that the final
    [flush()] adds nothing. *)
Theorem footer_line_ends_the_page :
  forall (normalize : list str -> str) (xb : Inbursa.dict (Inbursa.bound * Inbursa.bound))
         (year : Z) (st : Inbursa.state) (before : list (list word)) (footer : list word)
         (after : list (list word)),
    Inbursa.looks_like_footer footer = true ->
    Inbursa.run_lines normalize xb year st (before ++ footer :: after)
    = Inbursa.run_lines normalize xb year st (before ++ [footer])
    /\ forall st',
         Inbursa.run_lines normalize xb year st (before ++ footer :: after)
         = Inbursa.Returns st' ->
         Inbursa.cur_date st' = None
         /\ Inbursa.rows (Inbursa.flush normalize false st') = Inbursa.rows st'.
Proof.
  intros normalize xb year st before footer after Hf.
  pose proof (run_lines_footer normalize xb year footer after Hf before st) as E.
  split; [exact E|]. intros st' H. rewrite E in H.
  pose proof (run_lines_closed normalize xb year footer Hf before st st' H) as Hc.
  split; [exact Hc|]. unfold Inbursa.flush. cbn [Inbursa.rows]. rewrite Hc. reflexivity.
Qed.

Lemma footer_line_ends_the_page_witness :
  Inbursa.run_lines (fun l => join (U " ") l) [] 2024 Inbursa.init_state
    ([] ++ [Examples.W "BANCO" 10 700; Examples.W "INBURSA" 60 700]
        :: [[Examples.W "ENE" 10 720; Examples.W "02" 30 720]])
  = Inbursa.run_lines (fun l => join (U " ") l) [] 2024 Inbursa.init_state
      ([] ++ [[Examples.W "BANCO" 10 700; Examples.W "INBURSA" 60 700]])
  /\ forall st',
       Inbursa.run_lines (fun l => join (U " ") l) [] 2024 Inbursa.init_state
         ([] ++ [Examples.W "BANCO" 10 700; Examples.W "INBURSA" 60 700]
             :: [[Examples.W "ENE" 10 720; Examples.W "02" 30 720]])
       = Inbursa.Returns st' ->
       Inbursa.cur_date st' = None
       /\ Inbursa.rows (Inbursa.flush (fun l => join (U " ") l) false st') = Inbursa.rows st'.
Proof.
  apply (footer_line_ends_the_page (fun l => join (U " ") l) [] 2024 Inbursa.init_state []
           [Examples.W "BANCO" 10 700; Examples.W "INBURSA" 60 700]
           [[Examples.W "ENE" 10 720; Examples.W "02" 30 720]]).
  vm_compute. reflexivity.
Defined.

(** ** What stays in the REFERENCIA and FECHA buckets *)

Lemma str_eqb_neq (a b : str) : a <> b -> str_eqb a b = false.
Proof.
  intros H. destruct (str_eqb a b) eqn:E; [|reflexivity].
  exfalso. apply H. apply str_eqb_eq. exact E.
Qed.

Lemma dict_get_set_same {V : Type} (k : str) (v : V) (d : Inbursa.dict V) :
  Inbursa.dict_get k (Inbursa.dict_set k v d) = Some v.
Proof.
  induction d as [|[k' v'] d IH]; cbn [Inbursa.dict_set Inbursa.dict_get].
  - rewrite str_eqb_refl. reflexivity.
  - destruct (str_eqb k' k) eqn:E; cbn [Inbursa.dict_get]; rewrite E; [reflexivity|exact IH].
Qed.

Lemma dict_get_set_other {V : Type} (k k' : str) (v : V) (d : Inbursa.dict V) :
  k <> k' -> Inbursa.dict_get k' (Inbursa.dict_set k v d) = Inbursa.dict_get k' d.
Proof.
  intros Hne. induction d as [|[k0 v0] d IH]; cbn [Inbursa.dict_set Inbursa.dict_get].
  - rewrite (str_eqb_neq k k' Hne). reflexivity.
  - destruct (str_eqb k0 k) eqn:E; cbn [Inbursa.dict_get].
    + apply str_eqb_eq in E. subst k0. rewrite (str_eqb_neq k k' Hne). reflexivity.
    + rewrite IH. reflexivity.
Qed.

Lemma dict_mem_set {V : Type} (k k' : str) (v : V) (d : Inbursa.dict V) :
  Inbursa.dict_mem k' d = true -> Inbursa.dict_mem k' (Inbursa.dict_set k v d) = true.
Proof.
  intros H. apply dict_mem_in. apply dict_set_in. left. apply dict_mem_in. exact H.
Qed.

Lemma place_loop_keys (bands : Inbursa.dict (Inbursa.bound * Inbursa.bound))
      (ws : list word) :
  forall out : Inbursa.dict (list word),
    map fst
        (fold_left
           (fun out w =>
              match Inbursa.band_of (x_center w) bands with
              | Some k => Inbursa.dict_append k w out
              | None => out
              end) ws out)
    = map fst out.
Proof.
  induction ws as [|w ws IH]; intros out; cbn [fold_left]; [reflexivity|].
  rewrite IH. destruct (Inbursa.band_of (x_center w) bands); [apply dict_append_keys|reflexivity].
Qed.

Lemma place_words_mem (line : list word)
      (bands : Inbursa.dict (Inbursa.bound * Inbursa.bound)) (k : str) :
  Inbursa.dict_mem k bands = true ->
  Inbursa.dict_mem k (Inbursa.place_words line bands) = true.
Proof.
  intros H. apply dict_mem_in. unfold Inbursa.place_words.
  rewrite place_loop_keys, map_map. cbn [fst]. apply dict_mem_in in H. exact H.
Qed.

(** What [move_to_concepto] leaves in its column, and that it touches no
    column but its own and CONCEPTO. *)
Lemma move_to_concepto_column (col : string) (keep : word -> bool)
      (out : Inbursa.dict (list word)) :
  U col <> U "CONCEPTO" ->
  Inbursa.dict_mem (U "CONCEPTO") out = true ->
  Inbursa.dict_mem (U "CONCEPTO") (Inbursa.move_to_concepto col keep out) = true
  /\ Inbursa.words_at col (Inbursa.move_to_concepto col keep out)
     = filter keep (Inbursa.words_at col out)
  /\ forall other : string,
       U other <> U col -> U other <> U "CONCEPTO" ->
       Inbursa.words_at other (Inbursa.move_to_concepto col keep out)
       = Inbursa.words_at other out.
Proof.
  intros Hcol Hc. unfold Inbursa.move_to_concepto. rewrite Hc, andb_true_r.
  destruct (Inbursa.dict_mem (U col) out) eqn:Em.
  - cbv zeta. split; [apply dict_mem_set, dict_mem_set; exact Hc|]. split.
    + unfold Inbursa.words_at at 1.
      rewrite dict_get_set_other by (intros E; apply Hcol; symmetry; exact E).
      rewrite dict_get_set_same. reflexivity.
    + intros other H1 H2. unfold Inbursa.words_at at 1 4.
      rewrite dict_get_set_other by (intros E; apply H2; symmetry; exact E).
      rewrite dict_get_set_other by (intros E; apply H1; symmetry; exact E).
      reflexivity.
  - split; [exact Hc|]. split; [|reflexivity].
    unfold Inbursa.words_at, Inbursa.dict_mem in *.
    destruct (Inbursa.dict_get (U col) out); [discriminate|reflexivity].
Qed.

Lemma filter_all_kept (keep : word -> bool) (l : list word) :
  Forall (fun w => keep w = true) (filter keep l).
Proof.
  apply Forall_forall. intros w Hw. apply filter_In in Hw. apply Hw.
Qed.

(** X24  When the bands include a CONCEPTO column, [_bucket_by_xbands]
    leaves in the REFERENCIA bucket exactly the words placed there whose
    cleaned text is fully matched by [\d{10}], and in the FECHA bucket
    exactly the words placed there that pass its own test: the normalised
    text is matched by [RX_MON_DAY], [RX_MON_ONLY] or [RX_DAY_ONLY] or,
    failing that, the cleaned text holds no letter of [ALPHA_RX] and is not
    fully matched by [\d{5,}].  The other words were moved to CONCEPTO, and
    the second move does not undo the first. *)
Theorem reference_bucket_holds_references :
  forall (line : list word) (bands : Inbursa.dict (Inbursa.bound * Inbursa.bound)),
    Inbursa.dict_mem (U "CONCEPTO") bands = true ->
    Forall (fun w => Inbursa.keep_ref w = true)
           (Inbursa.words_at "REFERENCIA" (Inbursa._bucket_by_xbands line bands))
    /\ Forall (fun w => Inbursa.keep_fecha w = true)
              (Inbursa.words_at "FECHA" (Inbursa._bucket_by_xbands line bands))
    /\ Inbursa.words_at "REFERENCIA" (Inbursa._bucket_by_xbands line bands)
       = filter Inbursa.keep_ref
                (Inbursa.words_at "REFERENCIA" (Inbursa.place_words line bands))
    /\ Inbursa.words_at "FECHA" (Inbursa._bucket_by_xbands line bands)
       = filter Inbursa.keep_fecha
                (Inbursa.words_at "FECHA" (Inbursa.place_words line bands)).
Proof.
  intros line bands Hc. unfold Inbursa._bucket_by_xbands.
  pose proof (place_words_mem line bands _ Hc) as H0.
  assert (Nrc : U "REFERENCIA" <> U "CONCEPTO") by (vm_compute; discriminate).
  assert (Nfc : U "FECHA" <> U "CONCEPTO") by (vm_compute; discriminate).
  assert (Nrf : U "REFERENCIA" <> U "FECHA") by (vm_compute; discriminate).
  assert (Nfr : U "FECHA" <> U "REFERENCIA") by (vm_compute; discriminate).
  destruct (move_to_concepto_column "REFERENCIA" Inbursa.keep_ref _ Nrc H0) as (H1 & R1 & O1).
  destruct (move_to_concepto_column "FECHA" Inbursa.keep_fecha _ Nfc H1) as (_ & F2 & O2).
  assert (ER : Inbursa.words_at "REFERENCIA"
                 (Inbursa.move_to_concepto "FECHA" Inbursa.keep_fecha
                    (Inbursa.move_to_concepto "REFERENCIA" Inbursa.keep_ref
                       (Inbursa.place_words line bands)))
               = filter Inbursa.keep_ref
                        (Inbursa.words_at "REFERENCIA" (Inbursa.place_words line bands))).
  { rewrite (O2 "REFERENCIA"%string Nrf Nrc). exact R1. }
  assert (EF : Inbursa.words_at "FECHA"
                 (Inbursa.move_to_concepto "FECHA" Inbursa.keep_fecha
                    (Inbursa.move_to_concepto "REFERENCIA" Inbursa.keep_ref
                       (Inbursa.place_words line bands)))
               = filter Inbursa.keep_fecha
                        (Inbursa.words_at "FECHA" (Inbursa.place_words line bands))).
  { rewrite F2, (O1 "FECHA"%string Nfr Nfc). reflexivity. }
  split; [rewrite ER; apply filter_all_kept|].
  split; [rewrite EF; apply filter_all_kept|].
  split; [exact ER|exact EF].
Qed.

Lemma reference_bucket_holds_references_witness :
  Forall (fun w => Inbursa.keep_ref w = true)
         (Inbursa.words_at "REFERENCIA"
            (Inbursa._bucket_by_xbands [Examples.W "SPEI" 100 120]
               (Inbursa._build_xbands [(U "REFERENCIA", 100); (U "CONCEPTO", 230)])))
  /\ Forall (fun w => Inbursa.keep_fecha w = true)
            (Inbursa.words_at "FECHA"
               (Inbursa._bucket_by_xbands [Examples.W "SPEI" 100 120]
                  (Inbursa._build_xbands [(U "REFERENCIA", 100); (U "CONCEPTO", 230)])))
  /\ Inbursa.words_at "REFERENCIA"
       (Inbursa._bucket_by_xbands [Examples.W "SPEI" 100 120]
          (Inbursa._build_xbands [(U "REFERENCIA", 100); (U "CONCEPTO", 230)]))
     = filter Inbursa.keep_ref
              (Inbursa.words_at "REFERENCIA"
                 (Inbursa.place_words [Examples.W "SPEI" 100 120]
                    (Inbursa._build_xbands [(U "REFERENCIA", 100); (U "CONCEPTO", 230)])))
  /\ Inbursa.words_at "FECHA"
       (Inbursa._bucket_by_xbands [Examples.W "SPEI" 100 120]
          (Inbursa._build_xbands [(U "REFERENCIA", 100); (U "CONCEPTO", 230)]))
     = filter Inbursa.keep_fecha
              (Inbursa.words_at "FECHA"
                 (Inbursa.place_words [Examples.W "SPEI" 100 120]
                    (Inbursa._build_xbands [(U "REFERENCIA", 100); (U "CONCEPTO", 230)]))).
Proof.
  apply (reference_bucket_holds_references [Examples.W "SPEI" 100 120]
           (Inbursa._build_xbands [(U "REFERENCIA", 100); (U "CONCEPTO", 230)])).
  vm_compute. reflexivity.
Defined.

(* ===================================================================== *)
(** * The header of a Santander statement *)
(* ===================================================================== *)

Lemma parse_ddmonyyyy_raises (token : str) (e : exn) :
  Santander._parse_ddmonyyyy token = Raise e -> e = ValueError.
Proof.
  unfold Santander._parse_ddmonyyyy. cbv zeta.
  destruct (Re.search Santander.DATE_TOKEN_SANT _) as [m|]; [|discriminate].
  destruct (Re.group _ m 1); [|discriminate].
  destruct (Re.group _ m 2); [|discriminate].
  destruct (Re.group _ m 3); [|discriminate].
  destruct (mes_get _) as [mon|]; [|discriminate].
  destruct (mon =? 0)%Z; [discriminate|].
  unfold make_date. destruct (_ && _); [discriminate|].
  intros E. injection E as <-. reflexivity.
Qed.

Lemma search_group (r : Re.re) (g : nat) (s : str) (m : Re.rmatch) :
  sure_group g r = true -> Re.search r s = Some m ->
  exists t, Re.group s m g = Some t.
Proof.
  intros Hs H. unfold Re.search in H.
  destruct (search_from_group r g Hs s [] None m H) as (t & body & G & _).
  exists t. exact G.
Qed.

Lemma parse_period_raises (text : str) (e : SantanderHeader.error) :
  SantanderHeader._parse_period text = SantanderHeader.Raises e ->
  e = SantanderHeader.Builtin ValueError.
Proof.
  unfold SantanderHeader._parse_period.
  destruct (Re.search SantanderHeader.PERIODO_PAT text) as [m|] eqn:E; [|discriminate].
  destruct (search_group SantanderHeader.PERIODO_PAT 1 text m eq_refl E) as (t1 & G1).
  destruct (search_group SantanderHeader.PERIODO_PAT 2 text m eq_refl E) as (t2 & G2).
  rewrite G1, G2. unfold SantanderHeader.date_of_group.
  destruct (Santander._parse_ddmonyyyy t1) as [d1|e1] eqn:E1;
    cbn [SantanderHeader.of_builtin SantanderHeader.and_then].
  - destruct (Santander._parse_ddmonyyyy t2) as [d2|e2] eqn:E2;
      cbn [SantanderHeader.of_builtin SantanderHeader.and_then]; [discriminate|].
    intros H. injection H as <-. rewrite (parse_ddmonyyyy_raises t2 e2 E2). reflexivity.
  - intros H. injection H as <-. rewrite (parse_ddmonyyyy_raises t1 e1 E1). reflexivity.
Qed.

(** X25  [_extract_header_metadata] looks for the CLABE only when the text
    shows a client code, and then takes the match for granted: a statement
    with a client code and no 'CUENTA CLABE' of 18 digits makes it raise
    [AttributeError], and this is its only failure besides a period date that
    is not in the calendar ([ValueError]).  When it returns, the CLABE is
    reported exactly when a client code was found: without one the CLABE is
    [None] even if the text prints it. *)
Theorem clabe_needs_client_code :
  forall (first_page : option str) (full_text pdf_name : str),
    (Re.found SantanderHeader.CLIENTE_PAT (replace [c_nbsp] (U " ") full_text) = true ->
     Re.found SantanderHeader.CLABE_PAT (replace [c_nbsp] (U " ") full_text) = false ->
     SantanderHeader._extract_header_metadata first_page full_text pdf_name
     = SantanderHeader.Raises SantanderHeader.AttributeError)
    /\ (forall meta,
          SantanderHeader._extract_header_metadata first_page full_text pdf_name
          = SantanderHeader.Returns meta ->
          (SantanderHeader.clabe meta <> None
           <-> Re.found SantanderHeader.CLIENTE_PAT (replace [c_nbsp] (U " ") full_text) = true)
          /\ (SantanderHeader.ncliente meta <> None
              <-> Re.found SantanderHeader.CLIENTE_PAT (replace [c_nbsp] (U " ") full_text)
                  = true))
    /\ (forall e,
          SantanderHeader._extract_header_metadata first_page full_text pdf_name
          = SantanderHeader.Raises e ->
          (e = SantanderHeader.AttributeError
           /\ Re.found SantanderHeader.CLIENTE_PAT (replace [c_nbsp] (U " ") full_text) = true
           /\ Re.found SantanderHeader.CLABE_PAT (replace [c_nbsp] (U " ") full_text) = false)
          \/ e = SantanderHeader.Builtin ValueError).
Proof.
  intros first_page full_text pdf_name.
  unfold SantanderHeader._extract_header_metadata. cbv zeta.
  set (txt := replace [c_nbsp] (U " ") full_text).
  assert (Hrfc : exists r,
             match Re.search SantanderHeader.RFC_PAT txt with
             | Some m =>
                 match Re.group txt m 1 with
                 | Some g => SantanderHeader.Returns (Some (SantanderHeader.upper_text g))
                 | None => SantanderHeader.Raises SantanderHeader.AttributeError
                 end
             | None => SantanderHeader.Returns None
             end = SantanderHeader.Returns r).
  { destruct (Re.search SantanderHeader.RFC_PAT txt) as [m|] eqn:E; [|eexists; reflexivity].
    destruct (search_group SantanderHeader.RFC_PAT 1 txt m eq_refl E) as (t & G). rewrite G.
    eexists. reflexivity. }
  destruct Hrfc as (r & ->). cbn [SantanderHeader.and_then].
  unfold Re.found.
  destruct (Re.search SantanderHeader.CLIENTE_PAT txt) as [mc|] eqn:Ec.
  - destruct (search_group SantanderHeader.CLIENTE_PAT 1 txt mc eq_refl Ec) as (tc & Gc). rewrite Gc.
    destruct (Re.search SantanderHeader.CLABE_PAT txt) as [mb|] eqn:Eb.
    + destruct (search_group SantanderHeader.CLABE_PAT 1 txt mb eq_refl Eb) as (tb & Gb). rewrite Gb.
      cbn [SantanderHeader.and_then].
      split; [intros _ H; discriminate H|]. split.
      * intros meta H.
        destruct (SantanderHeader._parse_period txt) as [p|e];
          cbn [SantanderHeader.and_then] in H; [|discriminate H].
        injection H as <-. cbn [SantanderHeader.clabe SantanderHeader.ncliente].
        split; split; intros _; try reflexivity; discriminate.
      * intros e H.
        destruct (SantanderHeader._parse_period txt) as [p|e'] eqn:Ep;
          cbn [SantanderHeader.and_then] in H; [discriminate H|].
        injection H as <-. right. apply (parse_period_raises txt e' Ep).
    + cbn [SantanderHeader.and_then].
      split; [intros _ _; reflexivity|]. split; [intros meta H; discriminate H|].
      intros e H. injection H as <-. left. auto.
  - cbn [SantanderHeader.and_then].
    split; [intros H; discriminate H|]. split.
    + intros meta H.
      destruct (SantanderHeader._parse_period txt) as [p|e];
        cbn [SantanderHeader.and_then] in H; [|discriminate H].
      injection H as <-. cbn [SantanderHeader.clabe SantanderHeader.ncliente].
      split; split; intros H; try discriminate H; exfalso; apply H; reflexivity.
    + intros e H.
      destruct (SantanderHeader._parse_period txt) as [p|e'] eqn:Ep;
        cbn [SantanderHeader.and_then] in H; [discriminate H|].
      injection H as <-. right. apply (parse_period_raises txt e' Ep).
Qed.

Lemma clabe_needs_client_code_witness :
  SantanderHeader._extract_header_metadata None (U "CODIGO DE CLIENTE NO. 12345678") []
  = SantanderHeader.Raises SantanderHeader.AttributeError.
Proof.
  apply (proj1 (clabe_needs_client_code None (U "CODIGO DE CLIENTE NO. 12345678") [])).
  - vm_compute. reflexivity.
  - vm_compute. reflexivity.
Defined.

(** ** The accounts of a Santander statement *)

Import Accounts.

Lemma str_eqb_sym (a b : str) : str_eqb a b = str_eqb b a.
Proof.
  destruct (str_eqb a b) eqn:E.
  - apply str_eqb_eq in E. subst b. symmetry. apply str_eqb_refl.
  - symmetry. apply str_eqb_neq. intros H. subst b. rewrite str_eqb_refl in E. discriminate.
Qed.

Lemma merged_get_set (a : SantanderHeader.account) (prod : str)
      (merged : list SantanderHeader.account) :
  SantanderHeader.merged_get prod (SantanderHeader.merged_set a merged)
  = if str_eqb (SantanderHeader.producto a) prod then Some a
    else SantanderHeader.merged_get prod merged.
Proof.
  induction merged as [|b merged IH]; cbn [SantanderHeader.merged_set SantanderHeader.merged_get].
  - reflexivity.
  - destruct (str_eqb (SantanderHeader.producto b) (SantanderHeader.producto a)) eqn:E;
      cbn [SantanderHeader.merged_get].
    + apply str_eqb_eq in E. rewrite E.
      destruct (str_eqb (SantanderHeader.producto a) prod); reflexivity.
    + destruct (str_eqb (SantanderHeader.producto b) prod) eqn:E2; [|exact IH].
      apply str_eqb_eq in E2. subst prod.
      rewrite (str_eqb_sym (SantanderHeader.producto a)), E. reflexivity.
Qed.

Lemma first_number_last (l : list SantanderHeader.account) (c : SantanderHeader.account) :
  first_number (l ++ [c])
  = if negb (Inbursa.truthy (first_number l)) && Inbursa.truthy (SantanderHeader.numero c)
    then SantanderHeader.numero c else first_number l.
Proof.
  unfold first_number. induction l as [|x l IH]; cbn [app find].
  - destruct (Inbursa.truthy (SantanderHeader.numero c)) eqn:E; cbn [negb andb];
      reflexivity.
  - destruct (Inbursa.truthy (SantanderHeader.numero x)) eqn:E; [|exact IH].
    rewrite E. reflexivity.
Qed.

Lemma first_balance_last (l : list SantanderHeader.account) (c : SantanderHeader.account) :
  first_balance (l ++ [c])
  = match first_balance l, SantanderHeader.saldo_ant c with
    | None, Some v => Some v
    | _, _ => first_balance l
    end.
Proof.
  unfold first_balance. induction l as [|x l IH]; cbn [app find].
  - destruct (SantanderHeader.saldo_ant c) eqn:E; cbn [Inbursa.is_some]; rewrite ?E;
      reflexivity.
  - destruct (SantanderHeader.saldo_ant x) eqn:E; cbn [Inbursa.is_some]; [|exact IH].
    rewrite E. reflexivity.
Qed.

Lemma of_product_last (prod : str) (l : list SantanderHeader.account)
      (c : SantanderHeader.account) :
  of_product prod (l ++ [c])
  = if str_eqb (SantanderHeader.producto c) prod then of_product prod l ++ [c]
    else of_product prod l.
Proof.
  unfold of_product. rewrite filter_app. cbn [filter].
  destruct (str_eqb (SantanderHeader.producto c) prod); [reflexivity|apply app_nil_r].
Qed.

(** What [merged] holds after the entries [done]. *)
Lemma merge_loop (meta_clabe : option str) (rest : list SantanderHeader.account) :
  forall (done merged : list SantanderHeader.account),
    (forall prod,
        SantanderHeader.merged_get prod merged
        = if Inbursa.some_items (of_product prod done)
          then Some (summary meta_clabe prod done) else None) ->
    forall prod,
      SantanderHeader.merged_get prod
        (fold_left (SantanderHeader.merge_step meta_clabe) rest merged)
      = if Inbursa.some_items (of_product prod (done ++ rest))
        then Some (summary meta_clabe prod (done ++ rest)) else None.
Proof.
  induction rest as [|c rest IH]; intros done merged Hinv prod; cbn [fold_left].
  - rewrite app_nil_r. apply Hinv.
  - replace (done ++ c :: rest) with ((done ++ [c]) ++ rest)
      by (rewrite <- app_assoc; reflexivity).
    apply IH. clear prod. intros prod.
    unfold SantanderHeader.merge_step. cbv zeta. rewrite merged_get_set.
    cbn [SantanderHeader.producto]. unfold summary. rewrite !of_product_last.
    destruct (str_eqb (SantanderHeader.producto c) prod) eqn:E.
    + apply str_eqb_eq in E. subst prod.
      assert (Hs : Inbursa.some_items (of_product (SantanderHeader.producto c) done ++ [c])
                   = true) by (destruct (of_product _ done); reflexivity).
      rewrite Hs. f_equal.
      rewrite first_number_last, first_balance_last, (Hinv (SantanderHeader.producto c)).
      unfold clabe_for.
      destruct (of_product (SantanderHeader.producto c) done) as [|x l] eqn:El;
        cbn [Inbursa.some_items]; unfold summary;
        cbn [SantanderHeader.numero SantanderHeader.saldo_ant]; rewrite ?El; reflexivity.
    + apply Hinv.
Qed.

(** X26  [_merge_accounts] always returns two accounts, the cheque account
    and then the investment account, whatever the pages gave: entries of any
    other product are ignored, a product without entries gets an empty
    account, the CLABE of the statement goes to the cheque account only, and
    of several entries for a product the first account number that is not
    empty and the first previous balance that is not [None] win. *)
Theorem merge_accounts_gives_two_accounts :
  forall (meta_clabe : option str) (crudo : list SantanderHeader.account),
    SantanderHeader._merge_accounts meta_clabe crudo
    = [SantanderHeader.mk_account SantanderHeader.CUENTA_PYME
         (first_number (of_product SantanderHeader.CUENTA_PYME crudo))
         meta_clabe
         (first_balance (of_product SantanderHeader.CUENTA_PYME crudo));
       SantanderHeader.mk_account SantanderHeader.INVERSION
         (first_number (of_product SantanderHeader.INVERSION crudo))
         None
         (first_balance (of_product SantanderHeader.INVERSION crudo))].
Proof.
  intros meta_clabe crudo. unfold SantanderHeader._merge_accounts. cbv zeta.
  assert (H : forall prod,
             SantanderHeader.merged_get prod
               (fold_left (SantanderHeader.merge_step meta_clabe) crudo [])
             = if Inbursa.some_items (of_product prod crudo)
               then Some (summary meta_clabe prod crudo) else None).
  { intros prod. apply (merge_loop meta_clabe crudo [] []). intros p. reflexivity. }
  cbn [map]. rewrite !H. unfold summary, clabe_for.
  change (str_eqb SantanderHeader.CUENTA_PYME SantanderHeader.CUENTA_PYME) with true.
  change (str_eqb SantanderHeader.INVERSION SantanderHeader.CUENTA_PYME) with false.
  cbv iota.
  destruct (of_product SantanderHeader.CUENTA_PYME crudo),
           (of_product SantanderHeader.INVERSION crudo); reflexivity.
Qed.

(* ===================================================================== *)
(** * The BBVA sheet of movements *)
(* ===================================================================== *)

Import Cleaning.

Lemma append_text_last (before : list BBVASheet.frow) (prev : BBVASheet.frow) (text : str) :
  BBVASheet.append_text (before ++ [prev]) text
  = before ++ [BBVASheet.with_descripcion prev
                 (strip (strip (BBVASheet.Descripcion prev) ++ U " " ++ text))].
Proof.
  unfold BBVASheet.append_text. rewrite rev_app_distr. cbn [rev app].
  rewrite rev_involutive. reflexivity.
Qed.

Lemma append_text_figures (rows : list BBVASheet.frow) (text : str) :
  map figures (BBVASheet.append_text rows text) = map figures rows.
Proof.
  destruct (rev rows) as [|prev before] eqn:E.
  - unfold BBVASheet.append_text. rewrite E. reflexivity.
  - assert (Hrows : rows = rev before ++ [prev]).
    { rewrite <- (rev_involutive rows), E. reflexivity. }
    rewrite Hrows, append_text_last, !map_app. reflexivity.
Qed.

Lemma figures_some_items (a b : list BBVASheet.frow) :
  map figures a = map figures b -> Inbursa.some_items a = Inbursa.some_items b.
Proof. destruct a, b; try reflexivity; discriminate. Qed.

Lemma figures_solid (r r' : BBVASheet.frow) : figures r = figures r' -> solid r = solid r'.
Proof.
  unfold figures, solid, BBVASheet.no_dates, BBVASheet.zero_money.
  intros H. injection H as -> -> -> -> -> ->. reflexivity.
Qed.

Lemma figures_filter_solid (a b : list BBVASheet.frow) :
  map figures a = map figures b ->
  map figures (filter solid a) = map figures (filter solid b).
Proof.
  revert b. induction a as [|x a IH]; intros [|y b] H; try discriminate; [reflexivity|].
  cbn [map] in H.
  assert (Hxy : figures x = figures y) by exact (f_equal (hd (figures x)) H).
  assert (Hab : map figures a = map figures b) by exact (f_equal (@tl _) H).
  cbn [filter]. rewrite (figures_solid x y Hxy).
  destruct (solid y); cbn [map]; rewrite ?Hxy, (IH b Hab); reflexivity.
Qed.

Lemma figures_all_solid (a b : list BBVASheet.frow) :
  map figures a = map figures b ->
  Forall (fun r => solid r = true) b -> Forall (fun r => solid r = true) a.
Proof.
  revert b. induction a as [|x a IH]; intros [|y b] H Hb; try discriminate; [constructor|].
  cbn [map] in H.
  assert (Hxy : figures x = figures y) by exact (f_equal (hd (figures x)) H).
  assert (Hab : map figures a = map figures b) by exact (f_equal (@tl _) H).
  inversion Hb as [|? ? Hy Hb']; subst. constructor.
  - rewrite (figures_solid x y Hxy). exact Hy.
  - exact (IH b Hab Hb').
Qed.

Lemma filter_solid_all (l : list BBVASheet.frow) :
  Forall (fun r => solid r = true) (filter solid l).
Proof.
  apply Forall_forall. intros r Hr. apply filter_In in Hr. apply Hr.
Qed.

Lemma filter_solid_twice (l : list BBVASheet.frow) :
  filter solid (filter solid l) = filter solid l.
Proof.
  induction l as [|x l IH]; [reflexivity|].
  cbn [filter]. destruct (solid x) eqn:E; cbn [filter]; rewrite ?E, IH; reflexivity.
Qed.

(** A row that is not solid is a continuation or an empty row. *)
Lemma clean_step_not_solid (rows : list BBVASheet.frow) (r : BBVASheet.frow) :
  solid r = false -> Inbursa.some_items rows = true ->
  map figures (BBVASheet.clean_step rows r) = map figures rows.
Proof.
  unfold solid, BBVASheet.clean_step. cbv zeta. intros Hs Hrows.
  apply negb_false_iff in Hs. apply andb_prop in Hs. destruct Hs as [Hd Hz].
  rewrite Hrows, Hd, Hz. cbn [andb].
  destruct (nonempty (strip (BBVASheet.Descripcion r))); cbn [negb andb].
  - apply append_text_figures.
  - reflexivity.
Qed.

Lemma clean_step_solid (rows : list BBVASheet.frow) (r : BBVASheet.frow) :
  solid r = true -> BBVASheet.clean_step rows r = rows ++ [r].
Proof.
  unfold solid, BBVASheet.clean_step. cbv zeta. intros Hs.
  apply negb_true_iff in Hs.
  destruct (BBVASheet.no_dates r) eqn:Hd; cbn [andb] in Hs |- *.
  - rewrite Hs, !andb_false_r. cbn [andb]. reflexivity.
  - rewrite andb_false_r. reflexivity.
Qed.

Lemma clean_loop (df rows : list BBVASheet.frow) :
  Inbursa.some_items rows = true ->
  map figures (fold_left BBVASheet.clean_step df rows)
  = map figures rows ++ map figures (filter solid df).
Proof.
  revert rows. induction df as [|r df IH]; intros rows Hrows; cbn [fold_left filter map].
  - rewrite app_nil_r. reflexivity.
  - destruct (solid r) eqn:Hs.
    + rewrite (clean_step_solid rows r Hs).
      rewrite IH by (destruct rows; reflexivity).
      rewrite map_app, <- app_assoc. reflexivity.
    + pose proof (clean_step_not_solid rows r Hs Hrows) as Hf.
      rewrite IH by (rewrite (figures_some_items _ _ Hf); exact Hrows).
      rewrite Hf. reflexivity.
Qed.

Lemma clean_start (df : list BBVASheet.frow) :
  map figures (filter solid (fold_left BBVASheet.clean_step df []))
  = map figures (filter solid df)
  /\ Forall (fun r => solid r = true) (tl (fold_left BBVASheet.clean_step df [])).
Proof.
  induction df as [|r df IH]; [split; [reflexivity|constructor]|].
  cbn [fold_left].
  assert (Hstep : (BBVASheet.clean_step [] r = [] /\ solid r = false)
                  \/ BBVASheet.clean_step [] r = [r]).
  { unfold BBVASheet.clean_step, solid. cbv zeta. cbn [Inbursa.some_items andb].
    destruct (BBVASheet.no_dates r), (BBVASheet.zero_money r),
      (nonempty (strip (BBVASheet.Descripcion r))); cbn [andb negb app]; auto. }
  destruct Hstep as [[-> Hs]| ->].
  - cbn [filter]. rewrite Hs. exact IH.
  - pose proof (clean_loop df [r] eq_refl) as Hl. cbn [map app] in Hl. split.
    + rewrite (figures_filter_solid _ (r :: filter solid df) Hl).
      cbn [filter]. destruct (solid r); cbn [map]; rewrite filter_solid_twice; reflexivity.
    + destruct (fold_left BBVASheet.clean_step df [r]) as [|o out]; [constructor|].
      cbn [tl]. cbn [map] in Hl.
      apply (figures_all_solid out (filter solid df) (f_equal (@tl _) Hl)).
      apply filter_solid_all.
Qed.

(** X27  [_clean_movements_df] of the BBVA extractor only merges and drops
    rows that show neither a date nor an amount: once the descriptions are
    cleaned and the rows of boilerplate removed, every row with a date or an
    amount that is not zero comes out with its dates and amounts as they
    were, in the same order, and only the first row of the result can be a
    row without date and amount.  A row whose description reads as
    boilerplate is removed with its dates and amounts. *)
Theorem bbva_cleaning_keeps_dated_rows :
  forall df : list BBVASheet.frow,
    map figures (filter solid (BBVASheet._clean_movements_df df))
    = map figures (filter solid (body df))
    /\ Forall (fun r => solid r = true) (tl (BBVASheet._clean_movements_df df)).
Proof.
  intros df. unfold BBVASheet._clean_movements_df. cbv zeta.
  destruct df as [|r0 df0]; [split; [reflexivity|constructor]|].
  fold (body (r0 :: df0)).
  set (rows := fold_left BBVASheet.clean_step (body (r0 :: df0)) []).
  set (tidy := fun r => BBVASheet.with_descripcion r
                          (strip (Re.sub BBVA.SPACES_RE (U " ") (BBVASheet.Descripcion r)))).
  assert (Hmap : map figures (map tidy rows) = map figures rows).
  { rewrite map_map. apply map_ext. intros r. reflexivity. }
  destruct (clean_start (body (r0 :: df0))) as [H1 H2]. fold rows in H1, H2. split.
  - rewrite (figures_filter_solid _ _ Hmap). exact H1.
  - destruct rows as [|o out]; [constructor|]. cbn [map tl] in *.
    apply (figures_all_solid (map tidy out) out (f_equal (@tl _) Hmap)). exact H2.
Qed.

(* ===================================================================== *)
(** * Hard stops in the four extractors *)
(* ===================================================================== *)

(** ** The blocks of a Banorte section *)






(** ** The claim on hard stops *)



